(* ===== verification/_CoqProject ===== *)
-Q . S2P
Prelude.v
GoStrings.v
GoJson.v
GoUnicode.v
GoRegexp.v
ObjectGraph.v
DeepCopy.v
MockProvider.v
GoNet.v
GoTime.v
GoTimeParse.v
GoFloat.v
GoDecimal.v
Schema.v
Failover.v
AntiFlap.v
K8sMeta.v
NetGuard.v
HttpClient.v
SliceApi.v
MetricsReaders.v
SliceContact.v
SliceController.v
SliceSafety.v
SliceAdmission.v
Maintenance.v
StationApi.v
GroundStation.v
PassPredictor.v
CellApi.v
OcuduConfig.v
OcuduText.v
EphemerisApi.v
Admission.v
OcuduProvider.v
OcuduWire.v
CellController.v
CellSafety.v
CellOcudu.v
CellDemo.v
Propagator.v
Fetchers.v
EphemerisCache.v
EphemerisController.v
EphemerisSafety.v
EphemerisWiring.v
EphemerisRestart.v
EphemerisDemo.v
Watches.v
Quiescence.v
System.v
SystemDemo.v
Scheme.v
Operator.v
StatusSchema.v
MetricsDefs.v
Exporter.v
