(* ===== verification/Prelude.v ===== *)
(** * Verification of the NTN operators

    The program is a set of Kubernetes controllers for non-terrestrial networks
    (satellite links next to terrestrial ones).  Its parts, and how they interact:

    - An NTNSlice has a terrestrial and a satellite path.  Its controller
      ([src/internal/controller/ntnslice_controller.go]) reads path quality from
      annotations or Prometheus ([src/pkg/slice/metrics]), asks a
      SatelliteEphemeris object whether a deliverable satellite is overhead, and
      lets the failover engine ([src/pkg/slice/failover.go]) decide: stay, fail
      over, switch back.  The engine is wrapped by anti-flap clocks that live in
      the controller's memory, with the dwell clock also kept in the status.
    - A SatelliteEphemeris names a source of element sets.  Its controller
      ([src/internal/controller/satelliteephemeris_controller.go]) fetches them
      from CelesTrak or Space-Track ([src/pkg/ephemeris]), keeps the last good
      ones in memory and in a ConfigMap
      ([satelliteephemeris_ommcache_persist.go]), propagates them every three
      minutes to an epoch five minutes ahead, which the cells push, and predicts
      pass windows on a slower cadence, which the slices read: SGP4 passes,
      trimmed to the elevation mask, rounded to whole seconds, sorted, capped.
    - A GroundStationLifecycle is matched with a Node by label; its controller
      derives health conditions and runs firmware updates inside maintenance
      windows ([src/pkg/lifecycle]).
    - An NTNCellConfig describes an NTN cell.  Its controller
      ([src/internal/controller/ntncellconfig_controller.go]) hands the static
      part to a provider ([src/pkg/provider]), which renders the gNB
      configuration into a ConfigMap ([src/pkg/provider/ocudu]), and pushes the
      propagated state of a satellite to the running gNB over a WebSocket, with
      credentials from a Secret.
    - Outgoing connections go through the endpoint allow-lists and the private
      address guard of [src/pkg/netutil].
    - The API types ([src/api/v1alpha1]) carry the rules the API server admits
      objects by, and generated methods that copy them; the controllers are
      woken by watches on each other's objects.
    - The process ([src/cmd/main.go]) reads its flags, builds one HTTP client or
      pool per controller and sets the controllers up in order; the exported
      series are declared in [src/pkg/metrics].

    ** Files

    Language and library behaviour the source relies on:
    - [Prelude] (this file): results, tactics, hint databases, 64-bit
      integers, generic lemmas.
    - [GoStrings], [GoJson], [GoUnicode], [GoTime], [GoTimeParse], [GoFloat]: byte
      strings and the functions of package strings, JSON string encoding, UTF-8
      runes and their classes, times and saturating durations, the layouts of
      [time.Parse] with their round trip, binary64 numbers with [ParseFloat] and
      shortest and fixed printing.
    - [GoRegexp], [GoDecimal], [GoNet]: regular expressions with a matcher that
      agrees with their language, decimal literals that read as finite numbers,
      host and port of addresses and URLs.
    - [ObjectGraph]: values as graphs of objects with addresses, for the code in
      which sharing matters.
    - [Schema]: the kinds of validation rules of a resource schema.

    The API types as a whole:
    - [DeepCopy]: the shapes of the 56 types and the generated copies of
      [zz_generated.deepcopy.go]; the types of apimachinery are the class
      [MetaTypes].
    - [StationApi], [SliceApi], [CellApi], [EphemerisApi]: the types with their
      fields; [SliceAdmission] and [Admission]: their validation markers as
      executable rules.  The last of the types files also has the digest of the
      inputs of a propagation.

    The program, in the order of its calls:
    - [Failover]: triggers, the trigger set, the base and the hysteresis
      evaluator, the fail-static decision.
    - [AntiFlap]: [EvaluateFailoverWithAntiFlap] and the state machine of its
      clocks over observations and telemetry gaps.
    - [K8sMeta]: the interface of the status-condition library (a class with its
      laws, and an instance), deferred events, the watch predicate, object
      metadata, freshness of element sets.
    - [NetGuard]: allow-lists, private ranges, the dial guard, redirects.
    - [HttpClient]: the guarded client and [Client.Do] over chains of redirects
      and reused connections.
    - [MetricsReaders]: readers, stale cache, client pool and provider, whose
      critical sections are separate steps so that any interleaving of
      goroutines is a run of a step relation.
    - [SliceContact]: [checkSatelliteAvailability] and the reported candidate.
    - [SliceController]: the NTNSlice controller; a reconcile is a function of
      the controller's memory, the exported series and the answers of the API
      server.  The readers are reached through the class
      [metricsReaderProvider], so the theorems hold for any provider;
      [slicemetrics_provider] is the instance the program uses.
    - [SliceSafety]: theorems about whole reconciles and sequences of them, with
      restarts, failed writes and spec edits in between.
    - [Maintenance], [GroundStation]: windows and the station controller.
    - [PassPredictor]: pass windows, for any SGP4 library and any sort.
    - [OcuduConfig]: [config.go] and the line rewriting of [provider.go]: the
      rendered document as a list of lines.  [OcuduText]: what free text can do to
      the lines of the document, as YAML counts lines.
    - [OcuduProvider]: the ConfigMap operations of [provider.go], over an API
      server that is a class with laws ([ConfigServer], and [ControllerRefs] for
      owner references); what other clients do between two requests is a
      function argument of each operation.
    - [OcuduWire]: [wsclient.go]: the JSON messages, the dial request, and the
      classes of errors; the peer is a parameter.
    - [CellController]: the cell controller.  The provider is a record of
      operations ([NTNProvider]), so its theorems hold for every provider.
    - [CellSafety]: theorems about whole reconciles of cells and sequences of
      them.
    - [CellOcudu]: the controller with the OCUDU provider plugged in.
    - [MockProvider]: the recording provider of [mock.go], over objects with
      addresses.
    - [CellDemo]: concrete cells on which the theorems of the last three files
      are applied.
    - [Propagator]: [propagator.go]: the rotation of an SGP4 state to ECEF and its
      quantization.
    - [Fetchers]: [gp_fetcher.go] and [spacetrack_fetcher.go]: conditional GETs
      with the stores of a download as separate steps, and the Space-Track
      session, whose mutex makes an exchange one step.
    - [EphemerisCache]: the entries in memory with their fetch backoff, and the
      durable copy over the same [ConfigServer].  What it needs of the fetchers
      is the class [ElementSources]; [UsableSources] adds their promise.
    - [EphemerisController]: the whole reconcile; a function of the world
      (memory, stored ConfigMaps, fetchers, series, recorded events) and of the
      answers of its environment, each reading of the clock an answer of its own.
      The orbit computations are the class [OrbitModel].
    - [EphemerisSafety]: theorems about the choice of element sets, the published
      states, whole reconciles, and the cell controller as their reader.
    - [EphemerisWiring]: the fetchers, the propagator and the pass predictor as
      instances of these classes.
    - [EphemerisRestart]: the process after a restart, with two resources that
      have one URL.
    - [EphemerisDemo]: a concrete resource, during an outage and after a restart,
      on which the theorems are applied.
    - [StatusSchema]: the statuses the ephemeris controller writes against their
      own schema.
    - [Watches]: [SetupWithManager] of the four controllers and the mapping
      functions behind their watches.
    - [MetricsDefs]: the metric families, their registration, and the series the
      controllers write and drop.
    - [Operator]: [main.go]: flags, options, wiring, exits and readiness; what is
      relied on of the manager is the class [ManagerOrder].
    - [Scheme]: [groupversion_info.go] and the [init] functions: the types the
      scheme of the process knows; the schemes of the libraries are the class
      [KnownSchemes].
    - [Exporter]: the simulator, the handler and [main] of
      [src/cmd/test-metrics-exporter], its two goroutines as a step relation.

    The controllers together:
    - [Quiescence]: histories of the events that are delivered to a controller
      and of the starts of its reconciles; what every delivery enqueues.
    - [System]: a step relation over one store of ephemerides, with the worlds of
      the ephemeris, the cell and the slice controller: reconciles, edits of
      clients, failed writes, lagging readers, changed ConfigMaps, restarts.
      [SystemDemo]: a run from an empty cluster to a push and to a failover, on
      which its theorems are applied.

    ** What the theorems show

    - Decisions: every decision of the engine is a legal transition; a pass that
      has ended always brings the slice back; hand-back and failover happen
      exactly under the conditions of the policy; hysteresis and anti-flap only
      postpone; failovers rest on distinct confirmed observations, hand-backs on
      continuous recovery, and a sustained degradation does fail over.
    - The slice controller: nothing is counted, announced or remembered before
      the status write is durable; unreliable inputs hold the path; the minimum
      dwell survives restarts; in-memory state belongs to one object and one
      generation; deletion cleans up exactly its own series.
    - Readers: a reading is all or nothing; a replay is never a new observation;
      concurrent callers share one client; the fingerprint is injective; a
      reader always serves the current configuration.
    - Contact: the verdict is exact and the candidate minimal.
    - Guard: no address is dialled that is private in any encoding, unless its
      host is allow-listed; over the life of any guarded client of the process,
      with redirects, reused connections and names that change their addresses, no
      request gets past that; the client of the runtime pushes has no such guard,
      only its allow-list; [Do] always comes to an end.
    - Admission: the triggers of an admitted failover policy all parse, each fires
      exactly when its metric is there and crosses its threshold, and the ones
      without a metric are reported; an admitted endpoint is a host (a name that
      is not empty, or an address) and a port and nothing else in the URL that is
      dialled; the only rule of its schema that a status of the ephemeris
      controller can break is the length of a condition's message.
    - Copies: a generated copy equals the original and shares nothing with it;
      the recording provider's frames are copies, but its list of targets is not
      ([targets_are_shared]).
    - Watches: a resource a change does not wake would reconcile the same way
      before and after it; when a queue has drained, every object has had a
      reconcile that started with its present specification and whose outcome is
      the one with the present versions of what it looks at.
    - The system: in every run, each state sent to a gNB goes back to a
      propagation of a usable near-earth element set, selected under the inputs
      of the ephemeris the cell read; and a slice is put on the satellite path
      only between the rise and the set of a pass the predictor found for a usable
      element set over a station of the ephemeris.
    - Process: every controller is set up before the manager starts and finds its
      types in the scheme, a process
      reports ready only after its caches have synchronised, and deletion takes
      the series of an object out of the registry and no others.  The
      exporter serves the phases of its flags or nothing, and a signal or a failed
      listener always ends it.
    - Ground stations: updates start only when allowed, always carry a start
      time and end while firmware is managed; node events reach their station.
    - Pass windows: trimming is sound and tight, rounding conservative, the cap
      fair, and the result independent of the scheduling of the workers.

    - Rendering: free text of a specification stays on its line, for every line
      break of YAML; replacing the
      ephemeris block of a document gives the document of the new ephemeris;
      messages on the wire carry the numbers of the document.
    - Provider: foreign ConfigMaps are neither overwritten nor deleted, whatever
      other clients do in between; a successful apply is stored and is a fixed
      point; names fit; a token goes only to a TLS peer; every outcome of a push
      has one retry class.
    - Cells: a runtime push uses a selected, current state and an allowed
      endpoint; Secrets influence nothing but the push itself; a switch command
      is confirmed once, up to failed status writes, and sent again only while it
      is unconfirmed; Ready means applied,
      verified and current, and with the OCUDU provider that the stored document
      is the one of the specification; deletion cleans up before the finalizer
      goes; every failed push is retried, or waits for an edit of an object that
      wakes the cell.

    - Fetchers: an element set that is not a near-earth orbit with finite
      elements never gets past them; with one fetch at a time and an ETag in every
      answer, a 304 stands for the very body whose ETag was sent; a Space-Track query is answered within the session of the
      credentials it was asked with, in at most four requests; Retry-After and
      snippets are bounded.
    - Propagation: what succeeds is in the ranges of TS 38.331 and comes from
      numbers; the loop that refines a mask crossing ends by its tolerance.
    - Ephemeris cache: a restart keeps payload and fetch time; names separate
      resources; the backoff doubles from a minute and starts again with every
      new kind of failure; only usable element sets get in.
    - Ephemeris controller: one element set per satellite, the latest, whatever
      the order of the feed; with a matching entry any failure of the source
      still leads to a write of fresh states and another reconcile within three
      minutes; those states pass the gates of the cell controller until it is due,
      unless the sweep takes too long; while the cache can answer, neither source
      nor Secret is touched, and Secrets that give no credentials cannot be told
      apart; the windows of a status belong to the current inputs, and a change of
      inputs withdraws them in the first write; no write, no event.

    Some theorems state where the code differs from what its comments say
    ([replay_after_gap_skips_delay], [unmanaged_update_never_ends],
    [long_namespace_events_lost], [same_name_order_depends_on_workers],
    [short_name_aims_at_long], [push_gauge_survives_apply_failure],
    [selector_message_never_settles], [concurrent_downloads_mix],
    [source_edit_orphans_copy], [restart_goes_dark]).

    ** Bounds and fuel

    [bisect] has the 40 iterations of the source; forty halvings bring every
    interval the clock can represent (less than 2^63 ns) below the tolerance of
    200 ms, and more rounds would change nothing ([refinement_terminates]).
    [digits_fuel] gets the bit length of the number, [trim_left_fuel] the length
    of the string, each of which is consumed by at least one per step.  [is_private_fuel] recurses once: an
    embedded IPv4 address embeds no other.  Printing of floats uses 17 digits,
    which always identify a binary64 number.  A client sends at most
    three requests per [Do] under the guarded redirect policy and ten under that
    of [net/http]; the fuel of [Do] is eleven, and [Do_completes] shows that it is
    enough.

    The runs of [System] are unbounded; its store keeps all versions, so that a
    lagging reader is one that reads an earlier version.

    ** What is relied on

    Code outside the repository is a parameter or a class, and what is used of it
    is in the laws of the class: the API server's ConfigMaps ([ConfigServer]),
    owner references, the library of status conditions (whose transition times
    are left out), SGP4 with elevations that are numbers, the order in which the
    manager starts its parts.  The steps of [System] use that the status is a
    subresource, that an update of a status succeeds only on the version it was
    computed from, and that times are stored in whole seconds.  The histories of
    [Quiescence] use that handlers run after the cache is updated, that a
    specification changes only with its generation, and that whatever is enqueued
    is reconciled later.  Each such theorem is applied to a concrete instance.

    ** Not modelled

    Log lines of the operator, the contents of histograms and the internals of
    controller-runtime; the SGP4, Prometheus, WebSocket, TLS, DNS, URL, JSON and
    hash libraries and internationalised host names, which are parameters; the
    shell helpers of the end-to-end tests.  In [System] the station controller
    takes part only through what the ephemeris controller reads of stations. *)

From Stdlib Require Export ZArith Lia Bool.
From stdpp Require Export base option list strings gmap relations.

(** ** Scopes and notation *)

Declare Scope ntn_scope.
Delimit Scope ntn_scope with ntn.

(** Go values that a call may fail to produce: the pair [(v, err)] of the
    source, of which exactly one side is meaningful. *)
Inductive result (E A : Type) : Type :=
| Ok (a : A)
| Err (e : E).
Arguments Ok {E A} a.
Arguments Err {E A} e.

Definition is_ok {E A} (r : result E A) : bool :=
  match r with Ok _ => true | Err _ => false end.

Notation "'let?' x ':=' c 'in' k" :=
  (match c with Ok x => k | Err e => Err e end)
  (at level 10, x pattern, c at level 100, k at level 200)
  : ntn_scope.

(** ** Automation *)

Create HintDb ntn.
Create Rewrite HintDb ntn_rw.

(** Case split on the head [match] or [if] of the goal, keeping equations. *)
Ltac split_match :=
  match goal with
  | |- context [if ?b then _ else _] => destruct b eqn:?
  | |- context [match ?x with _ => _ end] => destruct x eqn:?
  end.

Ltac split_match_in H :=
  match type of H with
  | context [if ?b then _ else _] => destruct b eqn:?
  | context [match ?x with _ => _ end] => destruct x eqn:?
  end.

(** The same on an innermost scrutinee of a hypothesis, one that computes
    nothing further itself. *)
Ltac inner_match_in H :=
  match type of H with
  | context [match ?x with _ => _ end] =>
      lazymatch x with
      | context [match _ with _ => _ end] => fail
      | _ => destruct x eqn:?
      end
  end.

(** Follow an execution [H] through all its branches. *)
Ltac run_cases H := repeat (inner_match_in H; simplify_eq/=; try done).

(** Turn boolean facts of the context into propositions. *)
Ltac bool_props :=
  repeat match goal with
  | H : andb _ _ = true |- _ => apply andb_true_iff in H; destruct H
  | H : orb _ _ = false |- _ => apply orb_false_iff in H; destruct H
  | H : negb _ = true |- _ => apply negb_true_iff in H
  | H : negb _ = false |- _ => apply negb_false_iff in H
  | H : (_ <? _)%Z = true |- _ => apply Z.ltb_lt in H
  | H : (_ <? _)%Z = false |- _ => apply Z.ltb_ge in H
  | H : (_ <=? _)%Z = true |- _ => apply Z.leb_le in H
  | H : (_ <=? _)%Z = false |- _ => apply Z.leb_gt in H
  | H : (_ =? _)%Z = true |- _ => apply Z.eqb_eq in H
  | H : (_ =? _)%Z = false |- _ => apply Z.eqb_neq in H
  | H : bool_decide _ = true |- _ => apply bool_decide_eq_true in H
  | H : bool_decide _ = false |- _ => apply bool_decide_eq_false in H
  end.

(** Exhaust the case analysis of a definition and close every branch. *)
Ltac crush_cases :=
  repeat (split_match; simpl in *; simplify_eq); eauto with ntn.

(** ** Machine integers *)

Definition int64_min : Z := - 2 ^ 63.
Definition int64_max : Z := 2 ^ 63 - 1.

(** Two's complement wrap-around of a 64-bit [int]. *)
Definition wrap64 (z : Z) : Z := (z + 2 ^ 63) mod 2 ^ 64 - 2 ^ 63.

(** Saturation at the 64-bit bounds. *)
Definition sat64 (z : Z) : Z := Z.max int64_min (Z.min int64_max z).

Lemma wrap64_id z : (int64_min <= z <= int64_max)%Z -> wrap64 z = z.
Proof.
  unfold wrap64, int64_min, int64_max. intros.
  rewrite Z.mod_small; lia.
Qed.

Lemma wrap64_range z : (int64_min <= wrap64 z <= int64_max)%Z.
Proof.
  unfold wrap64, int64_min, int64_max.
  pose proof (Z.mod_pos_bound (z + 2 ^ 63) (2 ^ 64)). lia.
Qed.

Lemma wrap64_succ_ne z : wrap64 (z + 1) <> z.
Proof.
  unfold wrap64. intros E.
  pose proof (Z.div_mod (z + 1 + 2 ^ 63) (2 ^ 64)). lia.
Qed.

Lemma sat64_id z : (int64_min <= z <= int64_max)%Z -> sat64 z = z.
Proof. unfold sat64. lia. Qed.

#[export] Hint Resolve wrap64_range : ntn.

(** ** Booleans of decidable facts *)

Definition str_eqb (a b : string) : bool := bool_decide (a = b).

Lemma str_eqb_refl a : str_eqb a a = true.
Proof. by apply bool_decide_eq_true. Qed.

Lemma str_eqb_eq a b : str_eqb a b = true <-> a = b.
Proof. apply bool_decide_eq_true. Qed.

Lemma str_eqb_neq a b : str_eqb a b = false <-> a <> b.
Proof. apply bool_decide_eq_false. Qed.

#[export] Hint Rewrite str_eqb_refl : ntn_rw.

(** ** Lists *)

Lemma forallb_false_exists {A} (f : A -> bool) l :
  forallb f l = false -> exists x, x ∈ l /\ f x = false.
Proof.
  induction l as [|a l IH]; simpl; [done|].
  destruct (f a) eqn:E; simpl.
  - intros (x & Hx & Hf)%IH. exists x. rewrite elem_of_cons. auto.
  - intros _. exists a. rewrite elem_of_cons. auto.
Qed.

Lemma forallb_elem_of {A} (f : A -> bool) l :
  forallb f l = true <-> forall x, x ∈ l -> f x = true.
Proof. rewrite forallb_forall. by setoid_rewrite list_elem_of_In. Qed.

Lemma existsb_elem_of {A} (f : A -> bool) l :
  existsb f l = true <-> exists x, x ∈ l /\ f x = true.
Proof. rewrite existsb_exists. by setoid_rewrite list_elem_of_In. Qed.

Lemma existsb_false_elem_of {A} (f : A -> bool) l :
  existsb f l = false <-> forall x, x ∈ l -> f x = false.
Proof.
  rewrite <- not_true_iff_false, existsb_elem_of. split.
  - intros H x Hx. apply not_true_iff_false. intros Hf. eauto.
  - intros H (x & Hx & Hf). rewrite H in Hf; done.
Qed.

Lemma elem_of_filter_bool {A} (f : A -> bool) l x :
  x ∈ List.filter f l <-> f x = true /\ x ∈ l.
Proof. rewrite !list_elem_of_In, filter_In. tauto. Qed.

(** ** Runs *)

(** An invariant of every step is an invariant of every run. *)
Lemma rtc_invariant {A} (R : A -> A -> Prop) (P : A -> Prop) x y :
  (forall a b, R a b -> P a -> P b) -> rtc R x y -> P x -> P y.
Proof. intros H. induction 1; eauto. Qed.
