(* ===== verification/GoStrings.v ===== *)
(** * Go strings

    A Go string is a sequence of bytes, here a [string] of the Standard
    Library.  This file models the functions of package [strings] the
    operators call: [TrimSpace], [TrimRight], [SplitN] with a limit of two,
    [Split] on one byte, [Join], [ToLower], and the decimal verb of
    [fmt.Sprintf]. *)

From S2P Require Import Prelude.
From Stdlib Require Import Ascii String.
Local Open Scope string_scope.
Local Arguments String.append !_ _ /.

(** ** Bytes *)

Definition byte_of (n : N) : ascii := ascii_of_N n.
Definition byte_val (c : ascii) : N := N_of_ascii c.

Definition is_digit (c : ascii) : bool :=
  (48 <=? byte_val c)%N && (byte_val c <=? 57)%N.

Definition digit_val (c : ascii) : Z := Z.of_N (byte_val c) - 48.

Definition str1 (c : ascii) : string := String c "".

Fixpoint string_of_bytes (l : list N) : string :=
  match l with
  | [] => ""
  | n :: l => String (byte_of n) (string_of_bytes l)
  end.

Fixpoint rev_string_app (s acc : string) : string :=
  match s with
  | "" => acc
  | String c s => rev_string_app s (String c acc)
  end.

Definition rev_string (s : string) : string := rev_string_app s "".

(** ** Searching and splitting *)

(** What is left of [s] after the prefix [p], if [s] starts with [p]. *)
Fixpoint strip_prefix (p s : string) : option string :=
  match p, s with
  | "", _ => Some s
  | String a p, String b s => if Ascii.eqb a b then strip_prefix p s else None
  | _, _ => None
  end.

(** [strings.Cut] at the first occurrence of [sep]. *)
Fixpoint cut (sep s : string) : option (string * string) :=
  match strip_prefix sep s with
  | Some rest => Some ("", rest)
  | None =>
      match s with
      | "" => None
      | String c s =>
          match cut sep s with
          | Some (before, rest) => Some (String c before, rest)
          | None => None
          end
      end
  end.

(** [strings.SplitN(s, sep, 2)] for a non-empty [sep]. *)
Definition SplitN2 (s sep : string) : list string :=
  match cut sep s with
  | Some (before, rest) => [before; rest]
  | None => [s]
  end.

(** [strings.Split(s, string(c))]. *)
Fixpoint split_byte (c : ascii) (s : string) : list string :=
  match s with
  | "" => [""]
  | String a s' =>
      if Ascii.eqb a c then "" :: split_byte c s'
      else match split_byte c s' with
           | w :: ws => String a w :: ws
           | [] => [str1 a]
           end
  end.

Fixpoint Join (l : list string) (sep : string) : string :=
  match l with
  | [] => ""
  | [s] => s
  | s :: l => s +:+ sep +:+ Join l sep
  end.

(** ** Trimming *)

(** The UTF-8 encodings of the code points of [unicode.IsSpace]: the ASCII
    blanks, U+0085, U+00A0, U+1680, U+2000..U+200A, U+2028, U+2029, U+202F,
    U+205F and U+3000. *)
Definition unicode_spaces : list string :=
  map string_of_bytes
    ([[9]; [10]; [11]; [12]; [13]; [32]; [194; 133]; [194; 160];
      [225; 154; 128]; [226; 128; 168]; [226; 128; 169]; [226; 128; 175];
      [226; 129; 159]; [227; 128; 128];
      [226; 128; 128]; [226; 128; 129]; [226; 128; 130]; [226; 128; 131];
      [226; 128; 132]; [226; 128; 133]; [226; 128; 134]; [226; 128; 135];
      [226; 128; 136]; [226; 128; 137]; [226; 128; 138]])%N.

(** Remove one leading member of [cut_set], if there is one. *)
Fixpoint strip_one (cut_set : list string) (s : string) : option string :=
  match cut_set with
  | [] => None
  | p :: ps =>
      match strip_prefix p s with
      | Some rest => Some rest
      | None => strip_one ps s
      end
  end.

Fixpoint trim_left_fuel (fuel : nat) (cut_set : list string) (s : string) : string :=
  match fuel with
  | O => s
  | S fuel =>
      match strip_one cut_set s with
      | Some rest => trim_left_fuel fuel cut_set rest
      | None => s
      end
  end.

(** Every member of the cut sets used here is non-empty, so the length of the
    string bounds the number of removals. *)
Definition trim_left (cut_set : list string) (s : string) : string :=
  trim_left_fuel (String.length s) cut_set s.

Definition trim_right (cut_set : list string) (s : string) : string :=
  rev_string (trim_left (map rev_string cut_set) (rev_string s)).

(** [strings.TrimSpace]. *)
Definition TrimSpace (s : string) : string :=
  trim_right unicode_spaces (trim_left unicode_spaces s).

(** [strings.TrimRight(s, cutset)] for an ASCII cutset. *)
Fixpoint bytes_of (s : string) : list ascii :=
  match s with
  | "" => []
  | String c s => c :: bytes_of s
  end.

Definition TrimRight (s cutset : string) : string :=
  trim_right (map str1 (bytes_of cutset)) s.

(** ** Case *)

Definition lower_byte (c : ascii) : ascii :=
  if (65 <=? byte_val c)%N && (byte_val c <=? 90)%N
  then byte_of (byte_val c + 32) else c.

Fixpoint lower_ascii (s : string) : string :=
  match s with
  | "" => ""
  | String c s => String (lower_byte c) (lower_ascii s)
  end.

Fixpoint is_ascii (s : string) : bool :=
  match s with
  | "" => true
  | String c s => (byte_val c <? 128)%N && is_ascii s
  end.

(** [strings.ToLower]: the ASCII case is a byte map; any other string goes
    through the Unicode tables, which are the argument [unicode_lower]. *)
Definition ToLower (unicode_lower : string -> string) (s : string) : string :=
  if is_ascii s then lower_ascii s else unicode_lower s.

(** ** Decimal formatting *)

(** The decimal digits of [n], most significant first; [fuel] bounds their
    number. *)
Fixpoint digits_fuel (fuel : nat) (n : N) (acc : string) : string :=
  match fuel with
  | O => acc
  | S fuel =>
      let acc := String (byte_of (48 + n mod 10)) acc in
      if (n <? 10)%N then acc else digits_fuel fuel (n / 10) acc
  end.

Definition fmt_N (n : N) : string := digits_fuel (S (N.to_nat (N.log2 n))) n "".

(** The verb [%d]. *)
Definition fmt_d (z : Z) : string :=
  match z with
  | Zneg p => "-" +:+ fmt_N (Npos p)
  | _ => fmt_N (Z.to_N z)
  end.

Fixpoint replicate_str (n : nat) (s : string) : string :=
  match n with
  | O => ""
  | S n => s +:+ replicate_str n s
  end.

(** The verb [%0wd] for a non-negative number. *)
Definition fmt_0d (w : nat) (z : Z) : string :=
  let s := fmt_d z in
  replicate_str (w - String.length s) "0" +:+ s.

(** ** Lemmas *)

Lemma app_str_nil_r s : s +:+ "" = s.
Proof. induction s as [|c s IH]; simpl; [done|by rewrite IH]. Qed.

Lemma app_str_assoc a b c : a +:+ (b +:+ c) = (a +:+ b) +:+ c.
Proof. induction a as [|x a IH]; simpl; [done|by rewrite IH]. Qed.

Lemma length_app_str a b :
  String.length (a +:+ b) = (String.length a + String.length b)%nat.
Proof. induction a as [|x a IH]; simpl; [done|by rewrite IH]. Qed.

Lemma app_str_inv_head a b c : a +:+ b = a +:+ c -> b = c.
Proof. induction a as [|x a IH]; simpl; [done|]. intros [= H]. auto. Qed.

Lemma rev_string_app_spec s acc : rev_string_app s acc = rev_string s +:+ acc.
Proof.
  unfold rev_string. revert acc. induction s as [|c s IH]; intros acc; simpl.
  - done.
  - rewrite IH, (IH (String c "")), <- app_str_assoc. done.
Qed.

Lemma rev_string_cons c s : rev_string (String c s) = rev_string s +:+ str1 c.
Proof. unfold rev_string at 1. simpl. by rewrite rev_string_app_spec. Qed.

Lemma rev_string_append a b : rev_string (a +:+ b) = rev_string b +:+ rev_string a.
Proof.
  induction a as [|c a IH]; simpl.
  - change (rev_string "") with "". by rewrite app_str_nil_r.
  - by rewrite !rev_string_cons, IH, app_str_assoc.
Qed.

Lemma rev_string_involutive s : rev_string (rev_string s) = s.
Proof.
  induction s as [|c s IH]; [done|].
  by rewrite rev_string_cons, rev_string_append, IH.
Qed.

Lemma strip_prefix_spec p s r : strip_prefix p s = Some r <-> s = p +:+ r.
Proof.
  revert s. induction p as [|a p IH]; intros s; simpl.
  - split; congruence.
  - destruct s as [|b s]; [split; congruence|].
    destruct (Ascii.eqb_spec a b) as [->|Hne].
    + rewrite IH. split; congruence.
    + split; congruence.
Qed.

(** The separator found by [cut] is the first one, and cutting loses nothing. *)
Lemma cut_spec sep s before rest :
  cut sep s = Some (before, rest) -> s = before +:+ sep +:+ rest.
Proof.
  revert before. induction s as [|c s IH]; intros before; simpl;
    destruct (strip_prefix sep _) as [r|] eqn:E.
  - intros [= <- <-]. by apply strip_prefix_spec in E.
  - done.
  - intros [= <- <-]. by apply strip_prefix_spec in E.
  - destruct (cut sep s) as [[b r]|] eqn:Ec; [|done].
    intros [= <- <-]. simpl. f_equal. eauto.
Qed.

(** A string none of whose bytes occurs in [sep] is skipped by [cut]. *)
Fixpoint str_all (P : ascii -> bool) (s : string) : bool :=
  match s with
  | "" => true
  | String c s => P c && str_all P s
  end.

Lemma str_all_app P a b : str_all P (a +:+ b) = str_all P a && str_all P b.
Proof. induction a as [|c a IH]; simpl; [done|]. by rewrite IH, andb_assoc. Qed.

Lemma str_all_impl (P Q : ascii -> bool) s :
  (forall c, P c = true -> Q c = true) -> str_all P s = true -> str_all Q s = true.
Proof.
  intros HPQ. induction s as [|c s IH]; simpl; [done|].
  intros H. apply andb_true_iff in H as [H1 H2]. by rewrite HPQ, IH.
Qed.

Lemma cut_skip c sep pre s :
  str_all (fun a => negb (Ascii.eqb a c)) pre = true ->
  cut (String c sep) (pre +:+ s) =
  match cut (String c sep) s with
  | Some (before, rest) => Some (pre +:+ before, rest)
  | None => None
  end.
Proof.
  induction pre as [|a pre IH]; simpl; intros H.
  - by destruct (cut (String c sep) s) as [[b r]|].
  - apply andb_true_iff in H as [Hne H].
    rewrite negb_true_iff, Ascii.eqb_neq in Hne.
    destruct (Ascii.eqb_spec c a) as [->|_]; [done|].
    rewrite (IH H). by destruct (cut (String c sep) s) as [[b r]|].
Qed.

Lemma cut_none_of_all c sep s :
  str_all (fun a => negb (Ascii.eqb a c)) s = true -> cut (String c sep) s = None.
Proof.
  intros H. rewrite <- (app_str_nil_r s), cut_skip by done. simpl. done.
Qed.

(** Printable ASCII bytes are not blanks, so [TrimSpace] keeps a string that
    starts and ends with one. *)
Definition is_graphic (c : ascii) : bool :=
  (33 <=? byte_val c)%N && (byte_val c <=? 126)%N.

Definition hd_graphic (s : string) : bool :=
  match s with "" => true | String c _ => is_graphic c end.

Definition last_graphic (s : string) : bool := hd_graphic (rev_string s).

Lemma strip_one_graphic l s :
  forallb (fun p => match p with "" => false | String c _ => negb (is_graphic c) end) l = true ->
  hd_graphic s = true -> strip_one l s = None \/ s = "".
Proof.
  intros Hl Hs. destruct s as [|c s]; [by right|left].
  induction l as [|p l IH]; simpl in *; [done|].
  apply andb_true_iff in Hl as [Hp Hl].
  destruct p as [|a p]; [done|]. simpl.
  destruct (Ascii.eqb_spec a c) as [->|_].
  - rewrite Hs in Hp. done.
  - auto.
Qed.

Lemma trim_left_graphic l s :
  forallb (fun p => match p with "" => false | String c _ => negb (is_graphic c) end) l = true ->
  hd_graphic s = true -> trim_left l s = s.
Proof.
  intros Hl Hs. unfold trim_left.
  destruct (strip_one_graphic l s Hl Hs) as [E| ->]; [|done].
  destruct (String.length s); simpl; [done|]. by rewrite E.
Qed.

Lemma TrimSpace_graphic s :
  hd_graphic s = true -> last_graphic s = true -> TrimSpace s = s.
Proof.
  intros Hh Hl. unfold TrimSpace, trim_right.
  rewrite (trim_left_graphic unicode_spaces s) by done.
  rewrite trim_left_graphic by done. apply rev_string_involutive.
Qed.

Lemma hd_graphic_app a b : hd_graphic a = true -> a <> "" -> hd_graphic (a +:+ b) = true.
Proof. by destruct a. Qed.

Lemma last_graphic_app a b : last_graphic b = true -> b <> "" -> last_graphic (a +:+ b) = true.
Proof.
  unfold last_graphic. intros H Hb. rewrite rev_string_append.
  apply hd_graphic_app; [done|].
  intros E. apply Hb. rewrite <- (rev_string_involutive b), E. done.
Qed.

(** Leading and trailing single blanks disappear around a graphic string. *)
Lemma trim_left_space s :
  hd_graphic s = true -> trim_left unicode_spaces (" " +:+ s) = s.
Proof.
  intros Hs. unfold trim_left. simpl String.length.
  assert (E : strip_one unicode_spaces (" " +:+ s) = Some s) by done.
  cbn [trim_left_fuel]. rewrite E.
  fold (trim_left unicode_spaces s). by apply trim_left_graphic.
Qed.

Lemma TrimSpace_lead s :
  hd_graphic s = true -> last_graphic s = true -> TrimSpace (" " +:+ s) = s.
Proof.
  intros Hh Hl. unfold TrimSpace, trim_right.
  rewrite trim_left_space by done.
  rewrite trim_left_graphic by done. apply rev_string_involutive.
Qed.

Lemma TrimSpace_trail s :
  hd_graphic s = true -> last_graphic s = true -> s <> "" -> TrimSpace (s +:+ " ") = s.
Proof.
  intros Hh Hl Hne. unfold TrimSpace, trim_right.
  rewrite (trim_left_graphic unicode_spaces); [|done|by apply hd_graphic_app].
  rewrite rev_string_append. change (rev_string " ") with " ".
  unfold trim_left. simpl String.length.
  assert (E : strip_one (map rev_string unicode_spaces) (" " +:+ rev_string s) = Some (rev_string s)) by done.
  cbn [trim_left_fuel]. rewrite E.
  fold (trim_left (map rev_string unicode_spaces) (rev_string s)).
  rewrite trim_left_graphic by done. apply rev_string_involutive.
Qed.

Lemma split_byte_nonempty c s : split_byte c s <> [].
Proof.
  destruct s as [|a s]; simpl; [done|].
  destruct (Ascii.eqb a c); [done|]. by destruct (split_byte c s).
Qed.

#[export] Hint Resolve TrimSpace_graphic : ntn.

(** ** Decimal round trip *)

Fixpoint dec_val (s : string) (acc : N) : N :=
  match s with
  | "" => acc
  | String c s => dec_val s (acc * 10 + (byte_val c - 48))
  end.

Lemma byte_val_digit d : (d < 10)%N -> byte_val (byte_of (48 + d)) = (48 + d)%N.
Proof. intros. unfold byte_val, byte_of. apply N_ascii_embedding. lia. Qed.

Lemma digits_fuel_val fuel n acc :
  (n < 10 ^ N.of_nat fuel)%N ->
  exists k, forall a, dec_val (digits_fuel fuel n acc) a = dec_val acc (a * k + n).
Proof.
  revert n acc. induction fuel as [|fuel IH]; intros n acc Hn.
  - simpl in *. exists 1%N. intros a. f_equal. lia.
  - cbn [digits_fuel]. pose proof (N.mod_lt n 10) as Hm.
    destruct (N.ltb_spec n 10) as [Hlt|Hge].
    + exists 10%N. intros a. cbn [dec_val]. rewrite byte_val_digit by lia.
      rewrite N.mod_small by lia. f_equal. lia.
    + rewrite Nat2N.inj_succ, N.pow_succ_r' in Hn.
      destruct (IH (n / 10)%N (String (byte_of (48 + n mod 10)) acc)) as [k Hk].
      { apply N.Div0.div_lt_upper_bound. lia. }
      exists (k * 10)%N. intros a. rewrite Hk. cbn [dec_val]. rewrite byte_val_digit by lia.
      f_equal. pose proof (N.div_mod' n 10) as Hdm. clear - Hdm. revert Hdm.
      generalize (n / 10)%N (n mod 10)%N. intros q r ->.
      rewrite (N.add_comm 48), N.add_sub, N.mul_add_distr_r, N.mul_assoc, N.add_assoc. lia.
Qed.

Lemma fmt_N_val n : dec_val (fmt_N n) 0 = n.
Proof.
  unfold fmt_N. destruct (digits_fuel_val (S (N.to_nat (N.log2 n))) n "") as [k Hk].
  - rewrite Nat2N.inj_succ, N2Nat.id. destruct n as [|p]; [done|].
    destruct (N.log2_spec (Npos p)) as [_ H]; [done|].
    apply (N.lt_le_trans _ (2 ^ N.succ (N.log2 (Npos p)))); [done|].
    apply N.pow_le_mono_l. done.
  - rewrite Hk. simpl. lia.
Qed.

Lemma digits_fuel_digits fuel n acc :
  str_all is_digit acc = true -> str_all is_digit (digits_fuel fuel n acc) = true.
Proof.
  revert n acc. induction fuel as [|fuel IH]; intros n acc H; [done|]. cbn [digits_fuel].
  assert (Hd : str_all is_digit (String (byte_of (48 + n mod 10)) acc) = true).
  { simpl. rewrite H, andb_true_r. pose proof (N.mod_lt n 10) as Hm. unfold is_digit.
    revert Hm. generalize (n mod 10)%N. intros d Hm.
    rewrite byte_val_digit by lia. apply andb_true_iff. split; apply N.leb_le; lia. }
  destruct (n <? 10)%N; auto.
Qed.

Lemma fmt_N_digits n : str_all is_digit (fmt_N n) = true.
Proof. by apply digits_fuel_digits. Qed.

Definition int_val (s : string) : Z :=
  match s with
  | String c r => if Ascii.eqb c "-"%char then - Z.of_N (dec_val r 0) else Z.of_N (dec_val s 0)
  | "" => 0
  end.

Lemma fmt_d_val z : int_val (fmt_d z) = z.
Proof.
  assert (Hpos : forall n, int_val (fmt_N n) = Z.of_N n).
  { intros n. pose proof (fmt_N_val n) as Hv. pose proof (fmt_N_digits n) as Hd.
    destruct (fmt_N n) as [|c r]; [simpl in *; lia|]. unfold int_val.
    destruct (Ascii.eqb_spec c "-"%char) as [->|_]; [done|]. by rewrite Hv. }
  unfold fmt_d. destruct z as [|p|p].
  - apply Hpos.
  - rewrite Hpos. lia.
  - cbn [int_val String.append]. simpl. rewrite fmt_N_val. lia.
Qed.

Lemma fmt_d_inj a b : fmt_d a = fmt_d b -> a = b.
Proof. intros H. by rewrite <- (fmt_d_val a), <- (fmt_d_val b), H. Qed.

Lemma app_str_inv_tail a b c : a +:+ c = b +:+ c -> a = b.
Proof.
  intros H. rewrite <- (rev_string_involutive a), <- (rev_string_involutive b).
  f_equal. apply (app_str_inv_head (rev_string c)).
  by rewrite <- !rev_string_append, H.
Qed.

(** ** The order of strings, byte by byte *)

Definition str_lt (a b : string) : bool := String.ltb a b.

Lemma str_lt_irrefl a : str_lt a a = false.
Proof.
  unfold str_lt, String.ltb. pose proof (String.compare_antisym a a).
  destruct (String.compare a a); done.
Qed.

Lemma str_lt_trans a b c : str_lt a b = true -> str_lt b c = true -> str_lt a c = true.
Proof.
  unfold str_lt, String.ltb. revert b c.
  induction a as [|x a IH]; intros [|y b] [|z c]; simpl; try done.
  unfold Ascii.compare.
  destruct (N.compare_spec (N_of_ascii x) (N_of_ascii y)) as [E1|L1|G1]; try done;
    destruct (N.compare_spec (N_of_ascii y) (N_of_ascii z)) as [E2|L2|G2]; try done; intros H1 H2.
  - rewrite E1, E2, N.compare_refl. eauto.
  - rewrite E1, (proj2 (N.compare_lt_iff _ _) L2). done.
  - rewrite <- E2, (proj2 (N.compare_lt_iff _ _) L1). done.
  - by rewrite (proj2 (N.compare_lt_iff _ _) (N.lt_trans _ _ _ L1 L2)).
Qed.

Lemma str_lt_total a b : a <> b -> str_lt a b = false -> str_lt b a = true.
Proof.
  unfold str_lt, String.ltb. rewrite (String.compare_antisym b a). intros Hne.
  destruct (String.compare a b) eqn:E; simpl; try done.
  by apply String.compare_eq_iff in E.
Qed.

(** ** Lengths *)

Lemma trim_left_suffix l s : exists p, s = p +:+ trim_left l s.
Proof.
  unfold trim_left. generalize (String.length s) as n. intros n.
  revert s. induction n as [|n IH]; intros s; simpl; [by exists ""|].
  destruct (strip_one l s) as [r|] eqn:E; [|by exists ""].
  assert (Hs : exists p, s = p +:+ r).
  { clear IH. revert E. induction l as [|q l IHl]; simpl; [done|].
    destruct (strip_prefix q s) as [r'|] eqn:Eq; [|done].
    intros [= <-]. apply strip_prefix_spec in Eq. eauto. }
  destruct Hs as [p ->]. destruct (IH r) as [p' Hp']. exists (p +:+ p').
  by rewrite <- app_str_assoc, <- Hp'.
Qed.

Lemma trim_right_prefix l s : exists p, s = trim_right l s +:+ p.
Proof.
  unfold trim_right. destruct (trim_left_suffix (map rev_string l) (rev_string s)) as [p Hp].
  exists (rev_string p). by rewrite <- rev_string_append, <- Hp, rev_string_involutive.
Qed.

Lemma TrimRight_prefix s cutset : exists p, s = TrimRight s cutset +:+ p.
Proof. apply trim_right_prefix. Qed.

Lemma length_substring n s : String.length (String.substring 0 n s) = min n (String.length s).
Proof. revert s. induction n as [|n IH]; intros [|c s]; simpl; auto. Qed.

Lemma length_TrimRight s cutset : (String.length (TrimRight s cutset) <= String.length s)%nat.
Proof. destruct (TrimRight_prefix s cutset) as [p Hp]. rewrite Hp at 2. rewrite length_app_str. lia. Qed.

(** Trimming stops at a byte outside the cut set. *)
Lemma strip_one_bytes l d r :
  strip_one (map str1 l) (String d r) = if existsb (Ascii.eqb d) l then Some r else None.
Proof.
  induction l as [|c l IH]; [done|]. cbn [map strip_one existsb].
  rewrite IH. cbn [str1 strip_prefix]. rewrite (Ascii.eqb_sym d c). by destruct (Ascii.eqb c d).
Qed.

Lemma trim_left_stops n l x c y :
  existsb (Ascii.eqb c) l = false ->
  exists x', trim_left_fuel n (map str1 l) (x +:+ String c y) = x' +:+ String c y.
Proof.
  intros Hc. revert x. induction n as [|n IH]; intros x; [by exists x|]. cbn [trim_left_fuel].
  destruct x as [|d x]; cbn [String.append]; rewrite strip_one_bytes.
  - rewrite Hc. by exists "".
  - destruct (existsb (Ascii.eqb d) l); [apply IH|]. by exists (String d x).
Qed.

Lemma TrimRight_stops p c s cutset :
  existsb (Ascii.eqb c) (bytes_of cutset) = false ->
  exists s', TrimRight (p +:+ String c s) cutset = p +:+ String c s'.
Proof.
  intros Hc. unfold TrimRight, trim_right, trim_left. rewrite map_map.
  rewrite (map_ext (fun x => rev_string (str1 x)) str1) by done.
  rewrite rev_string_append, rev_string_cons, <- app_str_assoc.
  change (str1 c +:+ rev_string p) with (String c (rev_string p)).
  destruct (trim_left_stops (String.length (rev_string s +:+ String c (rev_string p))) _
    (rev_string s) c (rev_string p) Hc) as [x' ->].
  exists (rev_string x'). rewrite rev_string_append, rev_string_cons, rev_string_involutive.
  by rewrite <- app_str_assoc.
Qed.

(** ** Lines *)

Definition without (c : ascii) (s : string) : bool := str_all (fun a => negb (Ascii.eqb a c)) s.

Lemma without_app c a b : without c (a +:+ b) = without c a && without c b.
Proof. apply str_all_app. Qed.

Lemma without_replicate c n s : without c s = true -> without c (replicate_str n s) = true.
Proof. intros H. induction n as [|n IH]; [done|]. cbn [replicate_str]. by rewrite without_app, H, IH. Qed.

Lemma str_all_substring P n m s : str_all P s = true -> str_all P (String.substring n m s) = true.
Proof.
  revert n m. induction s as [|c s IH]; intros [|n] [|m]; simpl; try done.
  - intros [H1 H2]%andb_true_iff. by rewrite H1, IH.
  - intros [H1 H2]%andb_true_iff. auto.
  - intros [H1 H2]%andb_true_iff. auto.
Qed.

Lemma split_byte_app c a b :
  without c a = true -> split_byte c (a +:+ String c b) = a :: split_byte c b.
Proof.
  induction a as [|x a IH]; simpl.
  - intros _. by rewrite Ascii.eqb_refl.
  - unfold without. cbn [str_all]. intros [Hx%negb_true_iff Ha]%andb_true_iff. by rewrite Hx, IH.
Qed.

Lemma split_byte_single c a : without c a = true -> split_byte c a = [a].
Proof.
  induction a as [|x a IH]; simpl; [done|].
  unfold without. cbn [str_all]. intros [Hx%negb_true_iff Ha]%andb_true_iff. by rewrite Hx, IH.
Qed.

(** Splitting undoes joining when no piece contains the separator. *)
Lemma split_byte_Join c l :
  l <> [] -> Forall (fun s => without c s = true) l -> split_byte c (Join l (str1 c)) = l.
Proof.
  intros Hne H. induction H as [|s l Hs Hl IH]; [done|].
  destruct l as [|t l]; [by apply split_byte_single|].
  change (Join (s :: t :: l) (str1 c)) with (s +:+ String c (Join (t :: l) (str1 c))).
  rewrite split_byte_app by done. by rewrite IH.
Qed.

Lemma trim_left_spaces l n c r :
  strip_one l (String c r) = None -> (forall s, strip_one l (String " " s) = Some s) ->
  trim_left l (replicate_str n " " +:+ String c r) = String c r.
Proof.
  intros Hc Hsp. unfold trim_left.
  assert (H : forall k, n <= k -> trim_left_fuel k l (replicate_str n " " +:+ String c r) = String c r).
  { induction n as [|n IH]; intros k Hk; simpl.
    - destruct k as [|k]; [done|]. cbn [trim_left_fuel]. by rewrite Hc.
    - destruct k as [|k]; [lia|]. cbn [trim_left_fuel]. rewrite Hsp. apply IH. lia. }
  apply H. rewrite length_app_str. clear. induction n as [|n IH]; simpl in *; lia.
Qed.

Lemma strip_one_graphic_head l c r :
  forallb (fun p => match p with "" => false | String a _ => negb (is_graphic a) end) l = true ->
  is_graphic c = true -> strip_one l (String c r) = None.
Proof. intros Hl Hc. destruct (strip_one_graphic l (String c r) Hl Hc); done. Qed.

(** A member of the cut set is removed without touching a graphic byte. *)
Lemma strip_one_keeps_graphic l s r :
  forallb (str_all (fun a => negb (is_graphic a))) l = true ->
  strip_one l s = Some r ->
  str_all (fun a => negb (is_graphic a)) r = str_all (fun a => negb (is_graphic a)) s.
Proof.
  intros Hl. induction l as [|p l IH]; simpl in *; [done|]. apply andb_true_iff in Hl as [Hp Hl].
  destruct (strip_prefix p s) as [r'|] eqn:E; [|auto]. intros [= ->].
  apply strip_prefix_spec in E as ->. by rewrite str_all_app, Hp.
Qed.

Lemma trim_left_keeps_graphic l s :
  forallb (str_all (fun a => negb (is_graphic a))) l = true ->
  str_all (fun a => negb (is_graphic a)) (trim_left l s) = str_all (fun a => negb (is_graphic a)) s.
Proof.
  intros Hl. unfold trim_left. generalize (String.length s). intros k. revert s.
  induction k as [|k IH]; intros s; [done|]. cbn [trim_left_fuel].
  destruct (strip_one l s) as [r|] eqn:E; [|done]. rewrite IH. by eapply strip_one_keeps_graphic.
Qed.

Lemma str_all_rev P s : str_all P (rev_string s) = str_all P s.
Proof.
  induction s as [|c s IH]; [done|]. rewrite rev_string_cons, str_all_app, IH. simpl.
  rewrite andb_true_r. apply andb_comm.
Qed.

(** A line with a graphic byte is not blank, and trimming shows that byte first. *)
Lemma TrimSpace_not_blank s :
  str_all (fun a => negb (is_graphic a)) s = false -> TrimSpace s <> "".
Proof.
  intros Hs He. unfold TrimSpace, trim_right in He.
  pose proof (trim_left_keeps_graphic unicode_spaces s eq_refl) as H1.
  pose proof (trim_left_keeps_graphic (map rev_string unicode_spaces)
    (rev_string (trim_left unicode_spaces s)) eq_refl) as H2.
  rewrite str_all_rev, H1, Hs in H2. apply (f_equal rev_string) in He.
  rewrite rev_string_involutive in He. by rewrite He in H2.
Qed.

Lemma TrimSpace_indented n c r :
  is_graphic c = true -> exists p, TrimSpace (replicate_str n " " +:+ String c r) = String c p.
Proof.
  intros Hc.
  assert (Hne : TrimSpace (replicate_str n " " +:+ String c r) <> "").
  { apply TrimSpace_not_blank. rewrite str_all_app. simpl. rewrite Hc. apply andb_false_r. }
  unfold TrimSpace in *.
  assert (Ht : trim_left unicode_spaces (replicate_str n " " +:+ String c r) = String c r).
  { apply trim_left_spaces; [|intros; reflexivity]. by apply strip_one_graphic_head. }
  rewrite Ht in *. destruct (trim_right_prefix unicode_spaces (String c r)) as [p Hp].
  destruct (trim_right unicode_spaces (String c r)) as [|x t]; [done|].
  simpl in Hp. injection Hp as -> _. eauto.
Qed.
