(* ===== verification/GoJson.v ===== *)
(** * encoding/json: string encoding

    What [json.Marshal] writes for a string: quotes around the text, the
    escapes of the ASCII control characters, of the quote and the backslash,
    of the characters HTML treats specially, of U+2028 and U+2029, and the
    replacement of invalid UTF-8.  [json_scan] reads such a literal back; the
    round trip is what makes encoded keys collision free. *)

From S2P Require Import Prelude GoStrings.
From Stdlib Require Import Ascii.
Local Open Scope string_scope.
Local Arguments String.append !_ _ /.

Definition dq : ascii := byte_of 34.
Definition bslash : ascii := byte_of 92.

Definition hex_digit (n : N) : ascii := byte_of (if (n <? 10)%N then 48 + n else 87 + n).

Definition hex_val (c : ascii) : N :=
  let b := byte_val c in if (b <? 58)%N then (b - 48)%N else (b - 87)%N.

(** The two-character escapes. *)
Definition short_escapes : list (N * N) :=
  [(92, 92); (34, 34); (8, 98); (12, 102); (10, 110); (13, 114); (9, 116)]%N.

Definition html_unsafe (b : N) : bool :=
  (b <? 32)%N || (b =? 60)%N || (b =? 62)%N || (b =? 38)%N.

Definition escape_ascii (c : ascii) : string :=
  let b := byte_val c in
  match find (fun p => (fst p =? b)%N) short_escapes with
  | Some (_, e) => String bslash (String (byte_of e) "")
  | None =>
      if html_unsafe b
      then String bslash ("u00" +:+ String (hex_digit (b / 16)) (String (hex_digit (b mod 16)) ""))
      else String c ""
  end.

(** [utf8.DecodeRuneInString] at a byte that is not ASCII: how many
    continuation bytes the encoding has, or nothing when it is invalid. *)
Definition between (lo hi : N) (c : ascii) : bool :=
  (lo <=? byte_val c)%N && (byte_val c <=? hi)%N.

Definition cont_bytes (c : ascii) (r : string) : option nat :=
  match r with
  | "" => None
  | String c1 r1 =>
      let two := between 194 223 c && between 128 191 c1 in
      let ok3 := (between 224 224 c && between 160 191 c1)
                 || (between 225 236 c && between 128 191 c1)
                 || (between 237 237 c && between 128 159 c1)
                 || (between 238 239 c && between 128 191 c1) in
      let ok4 := (between 240 240 c && between 144 191 c1)
                 || (between 241 243 c && between 128 191 c1)
                 || (between 244 244 c && between 128 143 c1) in
      if two then Some 1
      else match r1 with
           | "" => None
           | String c2 r2 =>
               if ok3 && between 128 191 c2 then Some 2
               else match r2 with
                    | "" => None
                    | String c3 _ =>
                        if ok4 && between 128 191 c2 && between 128 191 c3 then Some 3 else None
                    end
           end
  end.

(** U+2028 and U+2029 are E2 80 A8 and E2 80 A9. *)
Definition line_separator (c : ascii) (r : string) : option ascii :=
  match r with
  | String c1 (String c2 _) =>
      if between 226 226 c && between 128 128 c1 then
        if between 168 168 c2 then Some (byte_of 56)
        else if between 169 169 c2 then Some (byte_of 57) else None
      else None
  | _ => None
  end.

(** What is left to do with the bytes of a multi-byte rune: copy or drop. *)
Inductive rune_mode := Fresh | Copying (n : nat) | Dropping (n : nat).

Definition copying (n : nat) : rune_mode := match n with O => Fresh | S _ => Copying n end.
Definition dropping (n : nat) : rune_mode := match n with O => Fresh | S _ => Dropping n end.

Fixpoint json_escape (m : rune_mode) (s : string) : string :=
  match s with
  | "" => ""
  | String c r =>
      match m with
      | Copying n => String c (json_escape (copying (pred n)) r)
      | Dropping n => json_escape (dropping (pred n)) r
      | Fresh =>
          if (byte_val c <? 128)%N then escape_ascii c +:+ json_escape Fresh r
          else match line_separator c r with
               | Some d => String bslash ("u202" +:+ String d (json_escape (Dropping 2) r))
               | None =>
                   match cont_bytes c r with
                   | Some n => String c (json_escape (copying n) r)
                   | None => String bslash ("ufffd" +:+ json_escape Fresh r)
                   end
               end
      end
  end.

Definition json_string (s : string) : string :=
  String dq (json_escape Fresh s +:+ String dq "").

(** [utf8.ValidString]. *)
Fixpoint valid_utf8_from (n : nat) (s : string) : bool :=
  match s with
  | "" => true
  | String c r =>
      match n with
      | S n => valid_utf8_from n r
      | O => if (byte_val c <? 128)%N then valid_utf8_from 0 r
             else match cont_bytes c r with
                  | Some n => valid_utf8_from n r
                  | None => false
                  end
      end
  end.

Definition valid_utf8 (s : string) : bool := valid_utf8_from 0 s.

(** ** Reading a literal back *)

Definition unescape_u (h1 h2 h3 h4 : ascii) : string :=
  if Ascii.eqb h1 "2"%char
  then String (byte_of 226) (String (byte_of 128) (String (byte_of (112 + byte_val h4)) ""))
  else String (byte_of (hex_val h3 * 16 + hex_val h4)) "".

Definition unescape_short (e : ascii) : ascii :=
  match find (fun p => (snd p =? byte_val e)%N) short_escapes with
  | Some (b, _) => byte_of b
  | None => e
  end.

(** The text up to the closing quote, and what follows it. *)
Fixpoint json_scan (s : string) : option (string * string) :=
  match s with
  | "" => None
  | String c r =>
      if Ascii.eqb c dq then Some ("", r)
      else if Ascii.eqb c bslash then
        match r with
        | String e r' =>
            if Ascii.eqb e "u"%char then
              match r' with
              | String h1 (String h2 (String h3 (String h4 r''))) =>
                  match json_scan r'' with
                  | Some (t, rest) => Some (unescape_u h1 h2 h3 h4 +:+ t, rest)
                  | None => None
                  end
              | _ => None
              end
            else match json_scan r' with
                 | Some (t, rest) => Some (String (unescape_short e) t, rest)
                 | None => None
                 end
        | "" => None
        end
      else match json_scan r with
           | Some (t, rest) => Some (String c t, rest)
           | None => None
           end
  end.

Definition scan_cons (p : string) (o : option (string * string)) : option (string * string) :=
  match o with Some (t, rest) => Some (p +:+ t, rest) | None => None end.

(** Every ASCII character: checked by enumeration. *)
Lemma escape_ascii_scan c s :
  (byte_val c < 128)%N ->
  json_scan (escape_ascii c +:+ s) = scan_cons (String c "") (json_scan s).
Proof.
  destruct c as [[] [] [] [] [] [] [] []]; intros Hc; try (exfalso; revert Hc; clear; done);
    cbv -[json_scan String.append]; cbn [String.append json_scan];
    cbn [Ascii.eqb Bool.eqb]; by destruct (json_scan s) as [[]|].
Qed.

Lemma high_byte_scan c s :
  (128 <= byte_val c)%N ->
  json_scan (String c s) = scan_cons (String c "") (json_scan s).
Proof.
  intros Hc. cbn [json_scan].
  destruct (Ascii.eqb_spec c dq) as [->|_]; [exfalso; revert Hc; clear; done|].
  destruct (Ascii.eqb_spec c bslash) as [->|_]; [exfalso; revert Hc; clear; done|].
  by destruct (json_scan s) as [[]|].
Qed.

Lemma between_val lo hi c : between lo hi c = true -> (lo <= byte_val c <= hi)%N.
Proof. unfold between. rewrite andb_true_iff, !N.leb_le. done. Qed.

Lemma between_eq b c : between b b c = true -> c = byte_of b.
Proof.
  intros H%between_val. assert (Hb : byte_val c = b) by lia. rewrite <- Hb.
  unfold byte_of, byte_val. by rewrite ascii_N_embedding.
Qed.

(** The continuation bytes of a valid rune are not ASCII. *)
Lemma cont_bytes_high c r n :
  cont_bytes c r = Some n ->
  exists p r', r = p +:+ r' /\ String.length p = n /\ n <> 0 /\
               str_all (fun c => 128 <=? byte_val c)%N p = true.
Proof.
  unfold cont_bytes. destruct r as [|c1 r]; [done|].
  destruct (between 194 223 c && between 128 191 c1) eqn:H2.
  - intros [= <-]. apply andb_true_iff in H2 as [_ H%between_val].
    exists (String c1 ""), r. repeat split; [done|]. simpl. rewrite andb_true_r.
    by apply N.leb_le; lia.
  - destruct r as [|c2 r]; [done|].
    match goal with |- context [if ?a && between 128 191 c2 then _ else _] =>
      destruct (a && between 128 191 c2) eqn:H3 end.
    + intros [= <-]. exists (String c1 (String c2 "")), r. repeat split; [done|]. simpl.
      apply andb_true_iff in H3 as [H3 Hc2%between_val].
      rewrite !orb_true_iff, !andb_true_iff in H3.
      rewrite andb_true_r, andb_true_iff, !N.leb_le. split; [|lia].
      destruct H3 as [[[[_ H]|[_ H]]|[_ H]]|[_ H]]; apply between_val in H; lia.
    + destruct r as [|c3 r]; [done|].
      match goal with |- context [if ?a && between 128 191 c3 then _ else _] =>
        destruct (a && between 128 191 c3) eqn:H4 end; [|done].
      intros [= <-]. exists (String c1 (String c2 (String c3 ""))), r. repeat split; [done|].
      simpl. rewrite !andb_true_iff, !orb_true_iff, !andb_true_iff in H4.
      destruct H4 as [[H4 Hc2%between_val] Hc3%between_val].
      rewrite andb_true_r, !andb_true_iff, !N.leb_le. split; [|lia].
      destruct H4 as [[[_ H]|[_ H]]|[_ H]]; apply between_val in H; lia.
Qed.

Lemma escape_copying p r :
  json_escape (copying (String.length p)) (p +:+ r) = p +:+ json_escape Fresh r.
Proof.
  induction p as [|c p IH]; [done|]. cbn [String.length copying String.append json_escape pred].
  by rewrite IH.
Qed.

Lemma valid_skip p r : valid_utf8_from (String.length p) (p +:+ r) = valid_utf8_from 0 r.
Proof. induction p as [|c p IH]; [done|]. apply IH. Qed.

Lemma high_bytes_scan p s :
  str_all (fun c => 128 <=? byte_val c)%N p = true ->
  json_scan (p +:+ s) = scan_cons p (json_scan s).
Proof.
  induction p as [|c p IH]; intros H.
  - change ("" +:+ s) with s. destruct (json_scan s) as [[t u]|]; reflexivity.
  - simpl in H. apply andb_true_iff in H as [Hc%N.leb_le Hp].
    cbn [String.append]. rewrite high_byte_scan by lia. rewrite IH by done.
    by destruct (json_scan s) as [[]|].
Qed.

Lemma line_separator_bytes c r d :
  line_separator c r = Some d ->
  exists r', r = String (byte_of 128) (String (byte_of (112 + byte_val d)) r') /\
             c = byte_of 226 /\ (d = byte_of 56 \/ d = byte_of 57).
Proof.
  unfold line_separator. destruct r as [|c1 [|c2 r]]; [done..|].
  destruct (between 226 226 c && between 128 128 c1) eqn:H; [|done].
  apply andb_true_iff in H as [->%between_eq ->%between_eq].
  destruct (between 168 168 c2) eqn:E1; [apply between_eq in E1 as ->|].
  - intros [= <-]. exists r. split; [done|]. split; [done|]. by left.
  - destruct (between 169 169 c2) eqn:E2; [apply between_eq in E2 as ->|done].
    intros [= <-]. exists r. split; [done|]. split; [done|]. by right.
Qed.

(** Reading what was written gives the text back, whatever follows. *)
Lemma json_scan_escape s rest :
  valid_utf8 s = true ->
  json_scan (json_escape Fresh s +:+ String dq rest) = Some (s, rest).
Proof.
  unfold valid_utf8. remember (String.length s) as len eqn:Hlen.
  revert s Hlen. induction len as [len IH] using lt_wf_ind; intros s -> Hv.
  destruct s as [|c r]; [done|]. cbn [json_escape valid_utf8_from] in *.
  destruct (N.ltb_spec (byte_val c) 128) as [Hc|Hc].
  - rewrite <- app_str_assoc, escape_ascii_scan by done.
    by rewrite (IH (String.length r)) by (done || simpl; lia).
  - destruct (line_separator c r) as [d|] eqn:Hl.
    + apply line_separator_bytes in Hl as (r' & -> & -> & Hd).
      assert (Hv' : valid_utf8_from 0 r' = true).
      { destruct Hd as [-> | ->]; exact Hv. }
      cbn [json_escape pred dropping String.append json_scan].
      cbn [json_scan]. change (Ascii.eqb bslash dq) with false.
      change (Ascii.eqb bslash bslash) with true. change (Ascii.eqb "u"%char "u"%char) with true.
      cbv iota. rewrite (IH (String.length r')) by (done || simpl; lia).
      by destruct Hd as [-> | ->].
    + destruct (cont_bytes c r) as [n|] eqn:Hn; [|done].
      destruct (cont_bytes_high _ _ _ Hn) as (p & r' & -> & <- & _ & Hp).
      rewrite escape_copying. rewrite valid_skip in Hv. cbn [String.append].
      rewrite <- app_str_assoc, high_byte_scan, high_bytes_scan by done.
      rewrite (IH (String.length r')); [done| |done|done].
      simpl. rewrite length_app_str. lia.
Qed.

(** Two literals that agree with what follows them are literals of one text. *)
Lemma json_string_prefix_inj s t r1 r2 :
  valid_utf8 s = true -> valid_utf8 t = true ->
  json_string s +:+ r1 = json_string t +:+ r2 -> s = t /\ r1 = r2.
Proof.
  intros Hs Ht H. unfold json_string in H. cbn [String.append] in H.
  injection H as H. rewrite <- !app_str_assoc in H. cbn [String.append] in H.
  assert (Some (s, r1) = Some (t, r2)) as [= -> ->]; [|done].
  by rewrite <- (json_scan_escape s r1), <- (json_scan_escape t r2), H.
Qed.
