(* ===== verification/GoUnicode.v ===== *)
(** * Go runes

    UTF-8 text as runes: decoding (an invalid byte is U+FFFD), encoding,
    [strings.Fields], and the classes of package unicode that the source asks
    for. *)

From S2P Require Import Prelude GoStrings GoJson.
From Stdlib Require Import Ascii.
Local Open Scope string_scope.
Local Arguments String.append !_ _ /.

(** ** Decoding *)

(** The code point of the encoding that starts with [c] and goes on with [n]
    bytes of [r]. *)
Fixpoint code_point (acc : N) (n : nat) (r : string) : N :=
  match n, r with
  | S n, String c r => code_point (acc * 64 + byte_val c mod 64) n r
  | _, _ => acc
  end.

Definition rune_value (c : ascii) (n : nat) (r : string) : N :=
  code_point (byte_val c mod (match n with 1%nat => 32 | 2%nat => 16 | _ => 8 end))%N n r.

(** A rune: its code point and its encoding. *)
Abbreviation rune := (N * string)%type.

Definition invalid_rune : rune := (65533%N, string_of_bytes [239; 191; 189]%N).

(** [for _, r := range s]; an invalid byte is U+FFFD. *)
Fixpoint runes (skip : nat) (s : string) : list rune :=
  match s with
  | "" => []
  | String c r =>
      match skip with
      | S k => runes k r
      | O =>
          if (byte_val c <? 128)%N then (byte_val c, str1 c) :: runes 0 r
          else match cont_bytes c r with
               | None => invalid_rune :: runes 0 r
               | Some n => (rune_value c n r, String c (String.substring 0 n r)) :: runes n r
               end
      end
  end.

Definition encode (l : list rune) : string := foldr (fun r s => r.2 +:+ s) "" l.
Definition byte_len (l : list rune) : nat := String.length (encode l).

Definition in_ranges (l : list (N * N)) (r : N) : bool :=
  existsb (fun p => (p.1 <=? r)%N && (r <=? p.2)%N) l.

(** [unicode.IsControl]. *)
Definition IsControl (r : N) : bool := in_ranges [(0, 31); (127, 159)]%N r.

(** [unicode.Cf]. *)
Definition Cf (r : N) : bool :=
  in_ranges
    [(173, 173); (1536, 1541); (1564, 1564); (1757, 1757); (1807, 1807); (2192, 2193); (2274, 2274);
     (6158, 6158); (8203, 8207); (8234, 8238); (8288, 8292); (8294, 8303); (65279, 65279);
     (65529, 65531); (69821, 69821); (69837, 69837); (78896, 78911); (113824, 113827);
     (119155, 119162); (917505, 917505); (917536, 917631)]%N r.

(** [unicode.IsSpace]. *)
Definition IsSpace (r : N) : bool :=
  in_ranges
    [(9, 13); (32, 32); (133, 133); (160, 160); (5760, 5760); (8192, 8202); (8232, 8233);
     (8239, 8239); (8287, 8287); (12288, 12288)]%N r.

(** The maximal runs outside white space, [cur] being the one at hand. *)
Fixpoint fields_of (cur : list rune) (l : list rune) : list (list rune) :=
  match l with
  | [] => match cur with [] => [] | _ => [rev cur] end
  | r :: l =>
      if IsSpace r.1 then match cur with [] => fields_of [] l | _ => rev cur :: fields_of [] l end
      else fields_of (r :: cur) l
  end.

(** [strings.Fields]. *)
Definition Fields (s : string) : list string := map encode (fields_of [] (runes 0 s)).

Definition space_rune : rune := (32%N, " ").

(** ** Lemmas *)

(** A rune that decodes to itself in front of anything. *)
Definition good (r : rune) : Prop :=
  (forall s, runes 0 (r.2 +:+ s) = r :: runes 0 s) /\ (1 <= String.length r.2 <= 4)%nat.

Lemma runes_encode l : Forall good l -> runes 0 (encode l) = l.
Proof. induction 1 as [|r l [Hr _] _ IH]; [done|]. cbn [encode foldr]. fold (encode l). by rewrite Hr, IH. Qed.

Lemma runes_skip n s t : (String.length s = n)%nat -> runes n (s +:+ t) = runes 0 t.
Proof. revert n. induction s as [|c s IH]; intros n <-; [done|]. cbn. by apply IH. Qed.

(** [cont_bytes] looks at no byte behind the encoding. *)
Lemma cont_bytes_local c r n :
  cont_bytes c r = Some n ->
  (1 <= n <= 3)%nat /\ String.length (String.substring 0 n r) = n /\
  forall t, cont_bytes c (String.substring 0 n r +:+ t) = Some n /\
    rune_value c n (String.substring 0 n r +:+ t) = rune_value c n r.
Proof.
  unfold cont_bytes. destruct r as [|c1 r1]; [done|].
  destruct (between 194 223 c && between 128 191 c1) eqn:E2.
  { intros [= <-]. split; [lia|]. destruct r1; (split; [done|]); intros t; cbn; by rewrite ?E2. }
  destruct r1 as [|c2 r2]; [done|].
  match goal with |- (if ?b then _ else _) = _ -> _ => destruct b eqn:E3 end.
  { intros [= <-]. split; [lia|]. destruct r2; (split; [done|]); intros t; cbn; by rewrite E2, E3. }
  destruct r2 as [|c3 r3]; [done|].
  match goal with |- (if ?b then _ else _) = _ -> _ => destruct b eqn:E4 end; [|done].
  intros [= <-]. split; [lia|]. destruct r3; (split; [done|]); intros t; cbn; by rewrite E2, E3, E4.
Qed.

Lemma high_byte_rune c r n :
  (byte_val c <? 128)%N = false -> cont_bytes c r = Some n ->
  good (rune_value c n r, String c (String.substring 0 n r)).
Proof.
  intros Hc Hn. destruct (cont_bytes_local _ _ _ Hn) as (Hle & Hlen & Ht). split.
  - intros s. cbn [snd String.append runes]. rewrite Hc. destruct (Ht s) as [-> ->].
    rewrite runes_skip by done. do 3 f_equal.
    clear -Hlen. revert Hlen. generalize (String.substring 0 n r) as p. intros p <-.
    revert s. induction p as [|a p IH]; intros s; [by destruct s|]. cbn. by rewrite IH.
  - cbn [snd String.length]. lia.
Qed.

Lemma runes_good n s : Forall good (runes n s).
Proof.
  revert n. induction s as [|c s IH]; intros [|n]; cbn [runes]; try done.
  destruct (byte_val c <? 128)%N eqn:Hc.
  - constructor; [|done]. split; [|cbn; lia]. intros t. cbn. by rewrite Hc.
  - destruct (cont_bytes c s) as [k|] eqn:Hk; constructor; auto.
    + by apply high_byte_rune.
    + split; [|cbn; lia]. intros t. destruct t; reflexivity.
Qed.

Lemma space_good : good space_rune.
Proof. split; [done|cbn; lia]. Qed.

Lemma encode_app a b : encode (a ++ b)%list = encode a +:+ encode b.
Proof. induction a as [|r a IH]; [done|]. cbn. rewrite <- app_str_assoc. f_equal. exact IH. Qed.

Lemma byte_len_app a b : byte_len (a ++ b)%list = (byte_len a + byte_len b)%nat.
Proof. unfold byte_len. by rewrite encode_app, length_app_str. Qed.

Lemma byte_len_cons r l : byte_len (r :: l) = (String.length r.2 + byte_len l)%nat.
Proof. unfold byte_len. cbn. apply length_app_str. Qed.

Lemma byte_len_rev l : byte_len (rev l) = byte_len l.
Proof.
  induction l as [|r l IH]; [done|]. cbn [rev]. rewrite byte_len_app, !byte_len_cons, IH.
  unfold byte_len at 2. cbn. lia.
Qed.

(** Fields joined by blanks, as runes. *)
Fixpoint join_runes (l : list (list rune)) : list rune :=
  match l with
  | [] => []
  | [f] => f
  | f :: l => (f ++ space_rune :: join_runes l)%list
  end.

Lemma Join_encode l : Join (map encode l) " " = encode (join_runes l).
Proof.
  induction l as [|f l IH]; [done|]. destruct l as [|g l]; [done|].
  cbn [map Join join_runes] in *. by rewrite encode_app, IH.
Qed.

Lemma fields_spec cur l :
  Forall good l -> Forall good cur ->
  (byte_len (join_runes (fields_of cur l)) <= byte_len cur + byte_len l)%nat.
Proof.
  revert cur. induction l as [|r l IH]; intros cur Hl Hc; cbn [fields_of].
  { destruct cur; cbn [join_runes]; [cbn; lia|rewrite byte_len_rev; lia]. }
  apply Forall_cons in Hl as [Hr Hl]. rewrite byte_len_cons. pose proof (proj2 Hr) as Hlen.
  destruct (IsSpace r.1).
  - specialize (IH [] Hl (List.Forall_nil _)). change (byte_len []) with 0%nat in IH.
    destruct cur as [|c cur]; [lia|]. cbn [join_runes].
    destruct (fields_of [] l) as [|f fs]; [rewrite byte_len_rev; lia|].
    rewrite byte_len_app, byte_len_cons, byte_len_rev. cbn [snd space_rune String.length] in *. lia.
  - specialize (IH (r :: cur) Hl). rewrite byte_len_cons in IH.
    assert (Forall good (r :: cur)) by by constructor. specialize (IH H). lia.
Qed.

Lemma fields_all (P : rune -> Prop) cur l :
  Forall P l -> Forall (fun r => P r /\ IsSpace r.1 = false) cur ->
  Forall (Forall (fun r => P r /\ IsSpace r.1 = false)) (fields_of cur l).
Proof.
  revert cur. induction l as [|r l IH]; intros cur Hl Hc; cbn [fields_of].
  { destruct cur; [constructor|]. constructor; [|constructor]. by apply Forall_rev. }
  apply Forall_cons in Hl as [Hr Hl]. destruct (IsSpace r.1) eqn:E.
  - destruct cur; [by apply IH|]. constructor; [by apply Forall_rev|]. by apply IH.
  - apply IH; [done|]. by constructor.
Qed.

Lemma join_all (P : rune -> Prop) l : P space_rune -> Forall (Forall P) l -> Forall P (join_runes l).
Proof.
  intros Hs. induction 1 as [|f l Hf Hl IH]; [constructor|]. destruct l; [done|].
  cbn [join_runes]. apply Forall_app. split; [done|]. by constructor.
Qed.

(** Text that displays as it reads: no control or format rune, and no white
    space but single-byte blanks. *)
Definition tame (r : rune) : Prop :=
  IsControl r.1 = false /\ Cf r.1 = false /\ (IsSpace r.1 = true -> r = space_rune).

Lemma tame_check l :
  forallb (fun r => negb (IsControl r.1) && negb (Cf r.1) && (negb (IsSpace r.1) || bool_decide (r = space_rune))) l
    = true -> Forall tame l.
Proof.
  induction l as [|r l IH]; [constructor|]. cbn [forallb].
  intros [[[H1%negb_true_iff H2%negb_true_iff]%andb_true_iff H3]%andb_true_iff Hl]%andb_true_iff.
  constructor; [|by apply IH]. split_and!; [done..|]. intros Hs. rewrite Hs in H3.
  by apply bool_decide_eq_true in H3.
Qed.

(** A rune without effect on a display. *)
Definition plain (r : rune) : Prop := good r /\ IsControl r.1 = false /\ Cf r.1 = false.

Lemma space_plain : plain space_rune.
Proof. split; [apply space_good|done]. Qed.

(** Words joined by blanks, from plain runes. *)
Lemma fields_tame b :
  Forall plain b ->
  exists j, Join (Fields (encode b)) " " = encode j /\ (byte_len j <= byte_len b)%nat /\
    Forall (fun r => good r /\ tame r) j.
Proof.
  intros Hb. assert (Hg : Forall good b) by (eapply Forall_impl; [exact Hb|]; by intros r []).
  exists (join_runes (fields_of [] b)). unfold Fields. rewrite runes_encode, Join_encode by done.
  split; [done|]. split.
  - pose proof (fields_spec [] b Hg (List.Forall_nil _)) as H. change (byte_len []) with 0%nat in H. lia.
  - apply join_all; [split; [apply space_good|by repeat split]|].
    eapply Forall_impl; [apply (fields_all _ [] b Hb); constructor|].
    intros f Hf. eapply Forall_impl; [exact Hf|]. intros r ((?&?&?)&?).
    split; [done|]. repeat split; congruence.
Qed.
