(* ===== verification/GoRegexp.v ===== *)
(** * Regular expressions

    The patterns of the resource schemas ([+kubebuilder:validation:Pattern] and
    the CEL function [matches]) are regular expressions of the syntax of package
    regexp.  The file has their abstract syntax, an executable matcher by
    derivatives, the language an expression denotes, and that the two agree.
    All classes used by the schemas are sets of ASCII characters, so an
    expression reads bytes. *)

From S2P Require Import Prelude GoStrings.
From Stdlib Require Import Ascii.
Local Open Scope string_scope.
Local Arguments String.append !_ _ /.

Inductive regex :=
| RVoid
| REps
| RClass (p : ascii -> bool)
| RCat (a b : regex)
| RAlt (a b : regex)
| RStar (a : regex).

(** ** Matching by derivatives *)

Fixpoint nullable (r : regex) : bool :=
  match r with
  | RVoid | RClass _ => false
  | REps | RStar _ => true
  | RCat a b => nullable a && nullable b
  | RAlt a b => nullable a || nullable b
  end.

(** Concatenation and alternative with their units removed, which keeps the
    derivatives small. *)
Definition cat (a b : regex) : regex :=
  match a, b with
  | RVoid, _ | _, RVoid => RVoid
  | REps, _ => b
  | _, REps => a
  | _, _ => RCat a b
  end.

Definition alt (a b : regex) : regex :=
  match a, b with
  | RVoid, _ => b
  | _, RVoid => a
  | _, _ => RAlt a b
  end.

Fixpoint deriv (c : ascii) (r : regex) : regex :=
  match r with
  | RVoid | REps => RVoid
  | RClass p => if p c then REps else RVoid
  | RCat a b =>
      if nullable a then alt (cat (deriv c a) b) (deriv c b) else cat (deriv c a) b
  | RAlt a b => alt (deriv c a) (deriv c b)
  | RStar a => cat (deriv c a) r
  end.

(** [regexp.MatchString] of an expression anchored at both ends. *)
Fixpoint matchString (r : regex) (s : string) : bool :=
  match s with
  | "" => nullable r
  | String c s => matchString (deriv c r) s
  end.

(** ** The syntax of the patterns *)

Definition RChar (c : ascii) : regex := RClass (Ascii.eqb c).
Definition RRange (a b : ascii) : regex :=
  RClass (fun c => (byte_val a <=? byte_val c) && (byte_val c <=? byte_val b))%N.
Definition RDigit : regex := RClass is_digit.
Definition ROpt (r : regex) : regex := RAlt REps r.
Definition RPlus (r : regex) : regex := RCat r (RStar r).
Definition RAny : regex := RStar (RClass (fun _ => true)).

(** The literal text [s]. *)
Fixpoint RText (s : string) : regex :=
  match s with
  | "" => REps
  | String c s => RCat (RChar c) (RText s)
  end.

(** One of several texts. *)
Definition ROneOf (l : list string) : regex := foldr (fun s r => RAlt (RText s) r) RVoid l.

(** [r{n}], and at most [n] times [r]. *)
Fixpoint RTimes (n : nat) (r : regex) : regex :=
  match n with
  | O => REps
  | S n => RCat r (RTimes n r)
  end.

Fixpoint RUpTo (n : nat) (r : regex) : regex :=
  match n with
  | O => REps
  | S n => ROpt (RCat r (RUpTo n r))
  end.

(** [r{m,n}]. *)
Definition RBetween (m n : nat) (r : regex) : regex := RCat (RTimes m r) (RUpTo (n - m) r).

(** ** The language of an expression *)

Inductive matches : regex -> string -> Prop :=
| match_eps : matches REps ""
| match_class p c : p c = true -> matches (RClass p) (String c "")
| match_cat a b s t : matches a s -> matches b t -> matches (RCat a b) (s +:+ t)
| match_left a b s : matches a s -> matches (RAlt a b) s
| match_right a b s : matches b s -> matches (RAlt a b) s
| match_stop a : matches (RStar a) ""
| match_more a s t : matches a s -> matches (RStar a) t -> matches (RStar a) (s +:+ t).
#[export] Hint Constructors matches : ntn.

Lemma matches_cat a b s :
  matches (RCat a b) s <-> exists x y, s = x +:+ y /\ matches a x /\ matches b y.
Proof.
  split; [inversion 1; subst; eauto 6|]. intros (x & y & -> & Ha & Hb). by constructor.
Qed.

Lemma matches_alt a b s : matches (RAlt a b) s <-> matches a s \/ matches b s.
Proof. split; [inversion 1; auto|]. intros [?|?]; eauto with ntn. Qed.

Lemma matches_class p s : matches (RClass p) s <-> exists c, s = str1 c /\ p c = true.
Proof. split; [inversion 1; subst; by eexists|]. intros (c & -> & ?). by constructor. Qed.

Lemma matches_eps s : matches REps s <-> s = "".
Proof. split; [by inversion 1|]. intros ->. constructor. Qed.

Lemma matches_void s : ~ matches RVoid s.
Proof. inversion 1. Qed.

(** The first non-empty round of a star. *)
Lemma matches_star_cons a c s :
  matches (RStar a) (String c s) ->
  exists x y, s = x +:+ y /\ matches a (String c x) /\ matches (RStar a) y.
Proof.
  intros H. remember (RStar a) as r eqn:Er. remember (String c s) as w eqn:Ew.
  revert Er Ew. induction H as [| | | | | |a' [|d x] t Ha _ Hs IH]; intros [=]; subst.
  - done.
  - intros Ew. by apply IH.
  - intros [= -> <-]. eauto.
Qed.

Lemma matches_cat_smart a b s : matches (cat a b) s <-> matches (RCat a b) s.
Proof.
  rewrite matches_cat. split.
  - intros H. destruct a, b; cbn in H;
      try (by apply matches_void in H); try (by apply matches_cat in H);
      try (exists "", s; by eauto with ntn);
      exists s, ""; rewrite app_str_nil_r; eauto with ntn.
  - intros (x & y & -> & Ha & Hb). destruct a, b; cbn;
      try (by apply matches_void in Ha); try (by apply matches_void in Hb);
      try (apply matches_eps in Ha as ->; done);
      try (apply matches_eps in Hb as ->; by rewrite app_str_nil_r); by constructor.
Qed.

Lemma matches_alt_smart a b s : matches (alt a b) s <-> matches (RAlt a b) s.
Proof.
  rewrite matches_alt. split.
  - intros H. destruct a, b; cbn in H; auto; by apply matches_alt in H.
  - intros [H|H]; destruct a, b; cbn; auto with ntn; by apply matches_void in H.
Qed.

Lemma nullable_spec r : nullable r = true <-> matches r "".
Proof.
  induction r as [| |p|a IHa b IHb|a IHa b IHb|a IHa]; cbn.
  - split; [done|]. intros H%matches_void. done.
  - split; auto with ntn.
  - split; [done|]. inversion 1.
  - rewrite andb_true_iff, IHa, IHb, matches_cat. split.
    + intros [? ?]. exists "", "". auto.
    + intros (x & y & E & ? & ?). by destruct x, y.
  - by rewrite orb_true_iff, IHa, IHb, matches_alt.
  - split; auto with ntn.
Qed.

(** A derivative denotes the tails of the words that begin with the character. *)
Lemma deriv_spec c r s : matches (deriv c r) s <-> matches r (String c s).
Proof.
  revert s. induction r as [| |p|a IHa b IHb|a IHa b IHb|a IHa]; intros s; cbn [deriv].
  - split; intros H; inversion H.
  - split; intros H; inversion H.
  - rewrite matches_class. destruct (p c) eqn:E.
    + rewrite matches_eps. split; [intros ->; eauto|]. by intros (d & [= <- ->] & ?).
    + split; [intros H; inversion H|]. intros (d & [= <- ->] & ?). congruence.
  - assert (matches (cat (deriv c a) b) s <->
      exists x y, s = x +:+ y /\ matches a (String c x) /\ matches b y) as Hl.
    { rewrite matches_cat_smart, matches_cat. by setoid_rewrite IHa. }
    rewrite matches_cat. destruct (nullable a) eqn:En.
    + rewrite matches_alt_smart, matches_alt, Hl, IHb. apply nullable_spec in En. split.
      * intros [(x & y & -> & ? & ?)|?]; [by exists (String c x), y|by exists "", (String c s)].
      * intros ([|d x] & y & E & Ha & Hb); cbn in E; [subst; by right|].
        injection E as -> ->. left. eauto.
    + rewrite Hl. split.
      * intros (x & y & -> & ? & ?). by exists (String c x), y.
      * intros ([|d x] & y & E & Ha & Hb); [apply nullable_spec in Ha; congruence|].
        injection E as -> ->. eauto.
  - by rewrite matches_alt_smart, !matches_alt, IHa, IHb.
  - rewrite matches_cat_smart, matches_cat. setoid_rewrite IHa. split.
    + intros (x & y & -> & ? & ?). by apply (match_more a (String c x)).
    + intros (x & y & -> & ? & ?)%matches_star_cons. eauto.
Qed.

(** The matcher decides the language. *)
Theorem matchString_spec r s : matchString r s = true <-> matches r s.
Proof.
  revert r. induction s as [|c s IH]; intros r; cbn; [apply nullable_spec|].
  by rewrite IH, deriv_spec.
Qed.

(** ** Languages of the derived forms *)

Lemma matches_char c s : matches (RChar c) s <-> s = str1 c.
Proof.
  unfold RChar. rewrite matches_class. split.
  - by intros (d & -> & <-%Ascii.eqb_eq).
  - intros ->. exists c. by rewrite Ascii.eqb_refl.
Qed.

Lemma matches_text t s : matches (RText t) s <-> s = t.
Proof.
  revert s. induction t as [|c t IH]; intros s; cbn; [apply matches_eps|].
  rewrite matches_cat. setoid_rewrite matches_char. setoid_rewrite IH. split.
  - by intros (x & y & -> & -> & ->).
  - intros ->. by exists (str1 c), t.
Qed.

Lemma matches_one_of l s : matches (ROneOf l) s <-> s ∈ l.
Proof.
  induction l as [|t l IH]; cbn.
  - split; [intros []%matches_void|intros []%elem_of_nil].
  - by rewrite matches_alt, matches_text, elem_of_cons, IH.
Qed.

Lemma matches_opt r s : matches (ROpt r) s <-> s = "" \/ matches r s.
Proof. unfold ROpt. by rewrite matches_alt, matches_eps. Qed.

(** A star of a class: every character is of the class. *)
Lemma matches_star_class p s : matches (RStar (RClass p)) s <-> str_all p s = true.
Proof.
  induction s as [|c s IH]; cbn; [split; auto with ntn|]. rewrite andb_true_iff, <- IH. split.
  - intros (x & y & -> & (d & [= -> ->] & Hd)%matches_class & ?)%matches_star_cons. done.
  - intros [? ?]. apply (match_more _ (str1 c)); [by constructor|done].
Qed.

Lemma matches_plus_class p s : matches (RPlus (RClass p)) s <-> str_all p s = true /\ s <> "".
Proof.
  unfold RPlus. rewrite matches_cat. setoid_rewrite matches_class. setoid_rewrite matches_star_class.
  split.
  - intros (x & y & -> & (c & -> & Hc) & Hy). cbn. by rewrite Hc, Hy.
  - destruct s as [|c s]; [by intros [_ []]|]. cbn. intros [[? ?]%andb_true_iff _].
    exists (str1 c), s. eauto.
Qed.

Lemma matches_up_to_class n p s :
  matches (RUpTo n (RClass p)) s -> str_all p s = true /\ String.length s <= n.
Proof.
  revert s. induction n as [|n IH]; intros s; cbn [RUpTo].
  - intros ->%matches_eps. done.
  - intros [->|(x & y & -> & (c & -> & Hc)%matches_class & [H1 H2]%IH)%matches_cat]%matches_opt;
      [cbn; auto with lia|]. cbn. rewrite Hc. split; [done|lia].
Qed.

Lemma matches_times_class n p s :
  matches (RTimes n (RClass p)) s -> str_all p s = true /\ String.length s = n.
Proof.
  revert s. induction n as [|n IH]; intros s; cbn [RTimes].
  - by intros ->%matches_eps.
  - intros (x & y & -> & (c & -> & Hc)%matches_class & [H1 H2]%IH)%matches_cat.
    cbn. rewrite Hc. auto.
Qed.

(** A bounded repetition of a class: between [m] and [n] characters of it. *)
Lemma matches_between_class m n p s :
  m <= n -> matches (RBetween m n (RClass p)) s ->
  str_all p s = true /\ m <= String.length s <= n.
Proof.
  intros Hmn (x & y & -> & [H1 H2]%matches_times_class & [H3 H4]%matches_up_to_class)%matches_cat.
  rewrite str_all_app, H1, H3, length_app_str. split; [done|lia].
Qed.
