(* ===== verification/ObjectGraph.v ===== *)
(** * Objects in memory, and copying them

    Go values as graphs of objects with addresses: what a pointer or a slice
    refers to is behind an address, and two values that hold the same address
    share it.  On this, the statements [controller-gen] writes into
    [DeepCopyInto] methods: a shallow assignment of the whole struct, then one
    statement per field that needs more.  [covers] decides whether the
    statements suffice for a type, and [act_deep] shows what that buys. *)

From S2P Require Import Prelude GoStrings.
Local Open Scope string_scope.

Local Unset Elimination Schemes.

(** A value without references, nil, a reference to one object (a pointer) or
    to several (a slice), a struct. *)
Inductive obj :=
| Leaf (v : string)
| Nil
| Ref (a : nat) (items : list obj)
| Fields (fs : list (string * obj)).

Fixpoint obj_ind' (P : obj -> Prop) (HL : forall v, P (Leaf v)) (HN : P Nil)
  (HR : forall a xs, Forall P xs -> P (Ref a xs))
  (HF : forall fs, Forall (fun fx => P fx.2) fs -> P (Fields fs)) (o : obj) : P o :=
  match o with
  | Leaf v => HL v
  | Nil => HN
  | Ref a xs =>
      HR a xs ((fix go (l : list obj) : Forall P l :=
        match l with
        | [] => Forall_nil_2 P
        | x :: l => Forall_cons_2 P x l (obj_ind' P HL HN HR HF x) (go l)
        end) xs)
  | Fields fs =>
      HF fs ((fix go (l : list (string * obj)) : Forall (fun fx => P fx.2) l :=
        match l with
        | [] => Forall_nil_2 _
        | (f, x) :: l => Forall_cons_2 (fun fx => P fx.2) (f, x) l (obj_ind' P HL HN HR HF x) (go l)
        end) fs)
  end.

(** The addresses an object is made of, and the value regardless of them. *)
Fixpoint addrs (o : obj) : list nat :=
  match o with
  | Ref a xs => a :: concat (map addrs xs)
  | Fields fs => concat (map (fun '(_, x) => addrs x) fs)
  | _ => []
  end.

Fixpoint erase (o : obj) : obj :=
  match o with
  | Ref _ xs => Ref 0 (map erase xs)
  | Fields fs => Fields (map (fun '(f, x) => (f, erase x)) fs)
  | _ => o
  end.

(** A write through a reference: seen wherever the address is held. *)
Fixpoint write (a : nat) (new : list obj) (o : obj) : obj :=
  match o with
  | Ref b xs => if (b =? a)%nat then Ref b new else Ref b (map (write a new) xs)
  | Fields fs => Fields (map (fun '(f, x) => (f, write a new x)) fs)
  | _ => o
  end.

(** ** Types *)

Inductive ty :=
| TLeaf
| TPtr (t : ty)
| TSlice (t : ty)
| TStruct (fs : list (string * ty)).

Fixpoint has_ty (o : obj) (t : ty) {struct o} : bool :=
  match o, t with
  | Leaf _, TLeaf => true
  | Nil, TPtr _ | Nil, TSlice _ => true
  | Ref _ xs, TPtr t => (length xs =? 1)%nat && forallb (fun x => has_ty x t) xs
  | Ref _ xs, TSlice t => forallb (fun x => has_ty x t) xs
  | Fields fs, TStruct ts =>
      (fix go (fs : list (string * obj)) (ts : list (string * ty)) : bool :=
         match fs, ts with
         | [], [] => true
         | (f, x) :: fs, (g, t) :: ts => str_eqb f g && has_ty x t && go fs ts
         | _, _ => false
         end) fs ts
  | _, _ => false
  end.

(** A type without references: assignment copies its values. *)
Fixpoint flat (t : ty) : bool :=
  match t with
  | TLeaf => true
  | TStruct ts => forallb (fun '(_, t) => flat t) ts
  | _ => false
  end.

(** ** Copying *)

(** A statement about a field, in the methods that are generated:
    [out.F = in.F]; [in.F.DeepCopyInto(&out.F)]; a new object behind a pointer
    that is not nil, filled by assignment or [DeepCopyInto]; a new slice,
    filled by [copy] or element by element. *)
Inductive action :=
| Assign
| Into (p : plan)
| New (p : plan)
| Make (p : plan)
with plan := Plan (ops : list (string * action)).

(** [*out = *in] and nothing more. *)
Definition shallow : plan := Plan [].

Definition op (p : plan) (f : string) : action :=
  let 'Plan ops := p in
  match List.find (fun fa => str_eqb fa.1 f) ops with
  | Some (_, a) => a
  | None => Assign
  end.

(** Map with a counter of allocated addresses. *)
Section MapState.
Context {A : Type} (f : A -> nat -> A * nat).

Fixpoint mapS (l : list A) (next : nat) : list A * nat :=
  match l with
  | [] => ([], next)
  | x :: l =>
      let '(x, next) := f x next in
      let '(l, next) := mapS l next in
      (x :: l, next)
  end.

End MapState.

(** Run a statement on the value of its field; each statement of a method
    touches a field of its own, so they are taken in the order of the fields. *)
Fixpoint act (o : obj) (a : action) (next : nat) {struct o} : obj * nat :=
  match a, o with
  | Into p, Fields fs =>
      let '(fs, next) :=
        mapS (fun '(f, x) next => let '(x, next) := act x (op p f) next in ((f, x), next)) fs next in
      (Fields fs, next)
  | New p, Ref _ xs | Make p, Ref _ xs =>
      let '(xs, next) := mapS (fun x next => act x (Into p) next) xs next in
      (Ref next xs, S next)
  | _, _ => (o, next)
  end.

(** The methods: [in.DeepCopyInto(out)] on a struct, and [in.DeepCopy()] on a
    pointer. *)
Definition DeepCopyInto (p : plan) (o : obj) (next : nat) : obj * nat := act o (Into p) next.
Definition DeepCopy (p : plan) (o : obj) (next : nat) : obj * nat :=
  match o with
  | Nil => (Nil, next)
  | _ => act o (New p) next
  end.

Definition DeepCopyObject (copy : obj -> nat -> obj * nat) (o : obj) (next : nat) : obj * nat :=
  let '(c, next) := copy o next in
  match c with Nil => (Nil, next) | _ => (c, next) end.

(** Whether a statement copies a field of a type completely. *)
Fixpoint covers (t : ty) (a : action) {struct t} : bool :=
  match a, t with
  | Assign, _ => flat t
  | Into _, TLeaf => true
  | Into p, TStruct ts => forallb (fun '(f, t) => covers t (op p f)) ts
  | New p, TPtr t | Make p, TSlice t => covers t (Into p)
  | _, _ => false
  end.

Local Set Elimination Schemes.

(** * Properties *)

(** A copy: the same value, made of addresses that did not exist, none of them
    used twice. *)
Definition fresh_copy {A B} (er : A -> B) (ad : A -> list nat) (x : A) (n : nat) (r : A * nat) : Prop :=
  n <= r.2 /\ er r.1 = er x /\ Forall (fun a => n <= a < r.2) (ad r.1) /\ NoDup (ad r.1).

Lemma mapS_fresh {A B} (er : A -> B) ad (f : A -> nat -> A * nat) l :
  (forall x n, x ∈ l -> fresh_copy er ad x n (f x n)) ->
  forall n, fresh_copy (map er) (fun l => concat (map ad l)) l n (mapS f l n).
Proof.
  induction l as [|x l IH]; intros H n; cbn [mapS].
  { repeat split; [done|constructor|constructor]. }
  pose proof (H x n ltac:(apply elem_of_cons; by left)) as (L1 & E1 & F1 & N1).
  destruct (f x n) as [x' n1]. cbn [fst snd] in *.
  assert (Hl : forall y m, y ∈ l -> fresh_copy er ad y m (f y m)) by (intros y m Hy; apply H, elem_of_cons; by right).
  destruct (IH Hl n1) as (L2 & E2 & F2 & N2).
  destruct (mapS f l n1) as [l' n2]. cbn [fst snd] in *. rewrite !Forall_forall in *.
  split; [cbn; lia|]. split; [cbn; congruence|]. cbn [map concat fst]. split.
  - rewrite Forall_forall. intros a [Ha|Ha]%elem_of_app; [apply F1 in Ha|apply F2 in Ha]; cbn; lia.
  - apply NoDup_app. split_and!; [done| |done]. intros a Ha Ha'. apply F1 in Ha. apply F2 in Ha'. lia.
Qed.

Lemma flat_addrs o t : has_ty o t = true -> flat t = true -> addrs o = [].
Proof.
  revert t. induction o as [v| |a xs IH|fs IH] using obj_ind'; intros t; [done|done|by destruct t|].
  destruct t as [| | |ts]; try done. cbn [has_ty flat addrs]. revert ts.
  induction fs as [|[f x] fs IHfs]; intros [|[g t] ts]; try done.
  rewrite Forall_cons in IH. destruct IH as [Hx Hfs]. cbn [map concat forallb].
  rewrite !andb_true_iff. intros [[_ Ht] Hts] [Hft Hfts]. cbn [snd] in Hx.
  by rewrite (Hx t Ht Hft), (IHfs Hfs ts Hts Hfts).
Qed.

Lemma unchanged_fresh o n : addrs o = [] -> fresh_copy erase addrs o n (o, n).
Proof. intros E. unfold fresh_copy. cbn. rewrite E. repeat split; [lia|constructor..]. Qed.

(** The elements behind a reference. *)
Lemma items_fresh p t xs :
  Forall (fun x => forall a t, has_ty x t = true -> covers t a = true -> forall n, fresh_copy erase addrs x n (act x a n)) xs ->
  forallb (fun x => has_ty x t) xs = true -> covers t (Into p) = true ->
  forall b n, fresh_copy erase addrs (Ref b xs) n
    (let '(ys, m) := mapS (fun x m => act x (Into p) m) xs n in (Ref m ys, S m)).
Proof.
  intros IH Ht Hc b n. rewrite forallb_elem_of in Ht. rewrite Forall_forall in IH.
  pose proof (mapS_fresh erase addrs (fun x m => act x (Into p) m) xs
    (fun x m Hx => IH x Hx (Into p) t (Ht x Hx) Hc m) n) as (L & E & F & N).
  destruct (mapS _ xs n) as [ys m]. cbn [fst snd] in *. unfold fresh_copy. cbn. rewrite Forall_forall in F.
  split; [lia|]. split; [by rewrite E|]. split.
  - constructor; [lia|]. rewrite Forall_forall. intros a Ha. apply F in Ha. lia.
  - constructor; [|done]. intros Ha. apply F in Ha. lia.
Qed.

(** A statement that covers the type of its field makes a copy of it. *)
Theorem act_deep o : forall a t, has_ty o t = true -> covers t a = true ->
  forall n, fresh_copy erase addrs o n (act o a n).
Proof.
  induction o as [v| |b xs IH|fs IH] using obj_ind'; intros a t Ht Hc n.
  - destruct a; by apply unchanged_fresh.
  - destruct a; by apply unchanged_fresh.
  - destruct a as [|p|p|p], t as [|t|t|ts]; try done; cbn [has_ty covers act] in *.
    + apply andb_true_iff in Ht as [_ Ht]. by apply (items_fresh p t).
    + by apply (items_fresh p t).
  - destruct t as [| | |ts]; try done. destruct a as [|p|p|p]; try done.
    + apply unchanged_fresh. by apply (flat_addrs _ (TStruct ts)).
    + cbn [act]. set (g := fun '(f, x) m => let '(x, m) := act x (op p f) m in ((f, x), m)).
      assert (Hg : forall fx m, fx ∈ fs ->
        fresh_copy (fun '(f, x) => (f, erase x)) (fun '(_, x) => addrs x) fx m (g fx m)).
      { clear n. cbn [has_ty covers] in Ht, Hc. revert ts Ht Hc.
        induction fs as [|[f x] fs IHfs]; intros [|[f' t] ts] Ht Hc [f0 x0] m Hin; try done;
          [by apply elem_of_nil in Hin|].
        rewrite Forall_cons in IH. destruct IH as [Hx Hfs]. cbn [forallb snd] in *.
        rewrite !andb_true_iff, str_eqb_eq in Ht. rewrite andb_true_iff in Hc.
        destruct Ht as [[-> Ht] Hts], Hc as [Hc Hcs].
        apply elem_of_cons in Hin as [[= -> ->]|Hin]; [|by apply (IHfs Hfs ts)].
        specialize (Hx _ _ Ht Hc m). cbn. destruct (act x (op p f') m) as [x' m'].
        destruct Hx as (? & E & ? & ?). unfold fresh_copy. cbn in *. by rewrite E. }
      pose proof (mapS_fresh _ _ g fs Hg n) as (L & E & F & N).
      destruct (mapS g fs n) as [fs' m]. unfold fresh_copy. cbn in *. by rewrite E.
Qed.

(** ** What a copy is good for *)

Lemma write_elsewhere a new o : a ∉ addrs o -> write a new o = o.
Proof.
  induction o as [v| |b xs IH|fs IH] using obj_ind'; cbn [addrs write]; [done|done|..].
  - rewrite not_elem_of_cons. intros [Hb Hn]. rewrite (proj2 (Nat.eqb_neq b a)) by done. f_equal.
    induction xs as [|x xs IHxs]; [done|]. rewrite Forall_cons in IH. destruct IH as [Hx Hxs].
    cbn in Hn |- *. apply not_elem_of_app in Hn as [H1 H2]. by rewrite Hx, IHxs.
  - intros Hn. f_equal. induction fs as [|[f x] fs IHfs]; [done|]. rewrite Forall_cons in IH.
    destruct IH as [Hx Hfs]. cbn in Hn, Hx |- *. apply not_elem_of_app in Hn as [H1 H2]. by rewrite Hx, IHfs.
Qed.

(** No write through a reference that existed before reaches a copy. *)
Lemma copy_immune o n r a new :
  fresh_copy erase addrs o n r -> a < n -> write a new r.1 = r.1.
Proof.
  intros (_ & _ & F & _) Ha. apply write_elsewhere. intros Hin. rewrite Forall_forall in F.
  apply F in Hin. lia.
Qed.
