(* ===== verification/DeepCopy.v ===== *)
(** * The generated copies of the API types

    Two readings of the same types: the struct declarations of
    [src/api/v1alpha1/*_types.go] as shapes, and the [DeepCopyInto] methods of
    [zz_generated.deepcopy.go] as the statements they consist of.  The methods
    of apimachinery's own types ([metav1.Time], [ObjectMeta], [ListMeta],
    [Condition]) are the interface [MetaTypes]: some shape, and a method that
    covers it.  [metav1.Duration] and [TypeMeta] are plain values.

    The controllers change the objects they read; that a cached object and the
    other readers of it do not change along rests on these copies. *)

From S2P Require Import Prelude GoStrings ObjectGraph.
Local Open Scope string_scope.

Class MetaTypes := {
  Time_ty : ty;
  Time_DeepCopyInto : plan;
  Time_covered : covers Time_ty (Into Time_DeepCopyInto) = true;
  ObjectMeta_ty : ty;
  ObjectMeta_DeepCopyInto : plan;
  ObjectMeta_covered : covers ObjectMeta_ty (Into ObjectMeta_DeepCopyInto) = true;
  ListMeta_ty : ty;
  ListMeta_DeepCopyInto : plan;
  ListMeta_covered : covers ListMeta_ty (Into ListMeta_DeepCopyInto) = true;
  Condition_ty : ty;
  Condition_DeepCopyInto : plan;
  Condition_covered : covers Condition_ty (Into Condition_DeepCopyInto) = true
}.

#[export] Hint Rewrite @Time_covered @ObjectMeta_covered @ListMeta_covered @Condition_covered : ntn_rw.

Section Generated.
Context `{MT : MetaTypes}.

(** ** Declarations *)

Definition BillingSpec_ty : ty :=
  TStruct
    [("TerrestrialRate", TLeaf); ("SatelliteRate", TLeaf)].

Definition CellID_ty : ty :=
  TStruct
    [("PLMN", TLeaf); ("NCI", TLeaf)].

Definition SIBSchedule_ty : ty :=
  TStruct
    [("SIWindowLength", TLeaf); ("SIPeriod", TLeaf); ("SIWindowPosition", TPtr TLeaf)].

Definition CellOverrides_ty : ty :=
  TStruct
    [("PdschMaxHarqRetxs", TLeaf); ("PrachMaxMsg3HarqRetx", TLeaf); ("RrcGuardTimeMs", TLeaf);
     ("SIBSchedule", TPtr SIBSchedule_ty)].

Definition ContactCandidate_ty : ty :=
  TStruct
    [("NoradID", TLeaf); ("Satellite", TLeaf); ("GroundStation", TLeaf); ("AOS", TPtr Time_ty);
     ("LOS", TPtr Time_ty); ("SourceEpochUnixMs", TLeaf); ("PropagatedEpochUnixMs", TLeaf);
     ("ValidUntil", TPtr Time_ty); ("SelectionReason", TLeaf)].

Definition GeoLocation_ty : ty :=
  TStruct
    [("Lat", TLeaf); ("Lon", TLeaf); ("Alt", TLeaf)].

Definition DeploymentSpec_ty : ty :=
  TStruct
    [("Location", GeoLocation_ty); ("K8sDistro", TLeaf); ("GitopsRepo", TLeaf)].

Definition EphemerisECEF_ty : ty :=
  TStruct
    [("PosX", TLeaf); ("PosY", TLeaf); ("PosZ", TLeaf); ("VelX", TLeaf); ("VelY", TLeaf); ("VelZ", TLeaf)].

Definition EphemerisOrbital_ty : ty :=
  TStruct
    [("SemiMajorAxis", TLeaf); ("Eccentricity", TLeaf); ("Inclination", TLeaf); ("RightAscension", TLeaf);
     ("ArgOfPeriapsis", TLeaf); ("MeanAnomaly", TLeaf)].

Definition SecretReference_ty : ty :=
  TStruct
    [("Name", TLeaf); ("Key", TLeaf)].

Definition EphemerisSource_ty : ty :=
  TStruct
    [("Type", TLeaf); ("URL", TLeaf); ("RefreshInterval", TLeaf); ("Credentials", TPtr SecretReference_ty)].

Definition EpochTime_ty : ty :=
  TStruct
    [("SFN", TLeaf); ("SubframeNumber", TLeaf)].

Definition FailoverPolicy_ty : ty :=
  TStruct
    [("Triggers", TSlice TLeaf); ("SwitchbackDelay", TLeaf); ("SessionContinuity", TLeaf);
     ("HysteresisMargin", TLeaf); ("ConfirmationSamples", TPtr TLeaf); ("MinTerrestrialDwell", TLeaf)].

Definition FeederLinkInfo_ty : ty :=
  TStruct
    [("EnableDopplerCompensation", TLeaf); ("DLFreqHz", TLeaf); ("ULFreqHz", TLeaf)].

Definition FirmwareSpec_ty : ty :=
  TStruct
    [("AutoUpdate", TLeaf); ("Channel", TLeaf); ("MaintenanceWindow", TLeaf)].

Definition HardwareSpec_ty : ty :=
  TStruct
    [("Vendor", TLeaf); ("Model", TLeaf); ("AntennaType", TLeaf); ("Bands", TSlice TLeaf)].

Definition MonitoringSpec_ty : ty :=
  TStruct
    [("HealthCheckInterval", TLeaf); ("Endpoint", TLeaf)].

Definition GroundStationLifecycleSpec_ty : ty :=
  TStruct
    [("Hardware", HardwareSpec_ty); ("Deployment", DeploymentSpec_ty);
     ("Monitoring", TPtr MonitoringSpec_ty); ("Firmware", TPtr FirmwareSpec_ty)].

Definition GroundStationLifecycleStatus_ty : ty :=
  TStruct
    [("Phase", TLeaf); ("K8sVersion", TLeaf); ("FirmwareVersion", TLeaf); ("LastHealthCheck", TPtr Time_ty);
     ("FirmwareUpdateStarted", TPtr Time_ty); ("Conditions", TSlice Condition_ty)].

Definition GroundStationLifecycle_ty : ty :=
  TStruct
    [("TypeMeta", TLeaf); ("ObjectMeta", ObjectMeta_ty); ("Spec", GroundStationLifecycleSpec_ty);
     ("Status", GroundStationLifecycleStatus_ty)].

Definition GroundStationLifecycleList_ty : ty :=
  TStruct
    [("TypeMeta", TLeaf); ("ListMeta", ListMeta_ty); ("Items", TSlice GroundStationLifecycle_ty)].

Definition PrometheusQueries_ty : ty :=
  TStruct
    [("RsrpDbm", TLeaf); ("LatencyMs", TLeaf); ("PacketLossPercent", TLeaf)].

Definition PrometheusMetricsSource_ty : ty :=
  TStruct
    [("Endpoint", TLeaf); ("QueryTimeout", TPtr TLeaf); ("Queries", PrometheusQueries_ty)].

Definition MetricsSource_ty : ty :=
  TStruct
    [("Type", TLeaf); ("Prometheus", TPtr PrometheusMetricsSource_ty)].

Definition MovingRefLocation_ty : ty :=
  TStruct
    [("Latitude", TLeaf); ("Longitude", TLeaf)].

Definition NTNGatewayLocation_ty : ty :=
  TStruct
    [("Latitude", TLeaf); ("Longitude", TLeaf); ("Altitude", TLeaf)].

Definition NTNNeighborCell_ty : ty :=
  TStruct
    [("PhysicalCellID", TLeaf); ("Frequency", TLeaf)].

Definition NTNPolarization_ty : ty :=
  TStruct
    [("DL", TLeaf); ("UL", TLeaf)].

Definition ReferenceLocation_ty : ty :=
  TStruct
    [("Latitude", TLeaf); ("Longitude", TLeaf)].

Definition TAInfo_ty : ty :=
  TStruct
    [("TACommon", TLeaf); ("TACommonDrift", TLeaf); ("TACommonDriftVariant", TLeaf);
     ("TACommonOffset", TLeaf)].

Definition SatSwitchNTNConfig_ty : ty :=
  TStruct
    [("EphemerisECEF", TPtr EphemerisECEF_ty); ("EphemerisOrbital", TPtr EphemerisOrbital_ty);
     ("KMac", TPtr TLeaf); ("CellSpecificKoffset", TLeaf); ("NTNUlSyncValidityDur", TPtr TLeaf);
     ("TAInfo", TPtr TAInfo_ty); ("TAReport", TPtr TLeaf)].

Definition SatSwitchWithResync_ty : ty :=
  TStruct
    [("NTNConfig", SatSwitchNTNConfig_ty); ("EpochUnixMs", TLeaf); ("TServiceStartUnixMs", TLeaf);
     ("SSBTimeOffsetSubframes", TLeaf); ("GatewayLocation", TPtr NTNGatewayLocation_ty)].

Definition NTNParams_ty : ty :=
  TStruct
    [("CellSpecificKoffset", TLeaf); ("TACommon", TLeaf); ("EphemerisECEF", TPtr EphemerisECEF_ty);
     ("EphemerisOrbital", TPtr EphemerisOrbital_ty); ("TAInfo", TPtr TAInfo_ty);
     ("EpochTime", TPtr EpochTime_ty); ("FeederLinkInfo", TPtr FeederLinkInfo_ty);
     ("NTNGatewayLocation", TPtr NTNGatewayLocation_ty); ("MovingRefLocation", TPtr MovingRefLocation_ty);
     ("SatSwitchWithResync", TPtr SatSwitchWithResync_ty); ("Polarization", TPtr NTNPolarization_ty);
     ("TAReport", TPtr TLeaf); ("NTNUlSyncValidityDur", TPtr TLeaf); ("PayloadType", TLeaf);
     ("NeighborCells", TSlice NTNNeighborCell_ty); ("ReferenceLocation", TPtr ReferenceLocation_ty);
     ("DistanceThreshold", TPtr TLeaf); ("TService", TPtr TLeaf)].

Definition RemoteControlTLS_ty : ty :=
  TStruct
    [("Mode", TLeaf); ("SecretName", TLeaf); ("ServerName", TLeaf)].

Definition RemoteControlRef_ty : ty :=
  TStruct
    [("Endpoint", TLeaf); ("TLS", TPtr RemoteControlTLS_ty)].

Definition ProviderRef_ty : ty :=
  TStruct
    [("Type", TLeaf); ("Namespace", TLeaf); ("RemoteControl", TPtr RemoteControlRef_ty);
     ("Endpoint", TLeaf); ("SIB19EpochMode", TPtr TLeaf)].

Definition NTNCellConfigSpec_ty : ty :=
  TStruct
    [("Provider", ProviderRef_ty); ("NTN", NTNParams_ty); ("CellOverrides", TPtr CellOverrides_ty);
     ("EphemerisRef", TLeaf); ("CellID", TPtr CellID_ty); ("EphemerisNoradID", TPtr TLeaf)].

Definition NTNCellConfigStatus_ty : ty :=
  TStruct
    [("AppliedKoffset", TLeaf); ("ConfigMapRef", TLeaf); ("LastPushedSatSwitchDigest", TLeaf);
     ("Conditions", TSlice Condition_ty)].

Definition NTNCellConfig_ty : ty :=
  TStruct
    [("TypeMeta", TLeaf); ("ObjectMeta", ObjectMeta_ty); ("Spec", NTNCellConfigSpec_ty);
     ("Status", NTNCellConfigStatus_ty)].

Definition NTNCellConfigList_ty : ty :=
  TStruct
    [("TypeMeta", TLeaf); ("ListMeta", ListMeta_ty); ("Items", TSlice NTNCellConfig_ty)].

Definition PathSpec_ty : ty :=
  TStruct
    [("Provider", TLeaf); ("APN", TLeaf); ("Priority", TLeaf)].

Definition QoSMapping_ty : ty :=
  TStruct
    [("Terrestrial5QI", TLeaf); ("SatelliteQCI", TLeaf); ("MaxLatencyBudget", TLeaf)].

Definition SatellitePathSpec_ty : ty :=
  TStruct
    [("PathSpec", PathSpec_ty); ("EphemerisRef", TLeaf)].

Definition SecurityPolicy_ty : ty :=
  TStruct
    [("EncryptionLevel", TLeaf); ("AuthOnHandover", TLeaf)].

Definition NTNSliceSpec_ty : ty :=
  TStruct
    [("Tenant", TLeaf); ("TerrestrialPath", PathSpec_ty); ("SatellitePath", SatellitePathSpec_ty);
     ("FailoverPolicy", FailoverPolicy_ty); ("QoSMapping", TPtr QoSMapping_ty);
     ("Security", TPtr SecurityPolicy_ty); ("Billing", TPtr BillingSpec_ty);
     ("MetricsSource", TPtr MetricsSource_ty)].

Definition NTNSliceStatus_ty : ty :=
  TStruct
    [("ActivePathType", TLeaf); ("LastFailover", TPtr Time_ty); ("LastSwitchbackTime", TPtr Time_ty);
     ("FailoverCount", TLeaf); ("SessionCount", TLeaf); ("AppliedQoS", TLeaf);
     ("ContactCandidate", TPtr ContactCandidate_ty); ("AppliedEncryption", TLeaf); ("BillingMode", TLeaf);
     ("Conditions", TSlice Condition_ty)].

Definition NTNSlice_ty : ty :=
  TStruct
    [("TypeMeta", TLeaf); ("ObjectMeta", ObjectMeta_ty); ("Spec", NTNSliceSpec_ty);
     ("Status", NTNSliceStatus_ty)].

Definition NTNSliceList_ty : ty :=
  TStruct
    [("TypeMeta", TLeaf); ("ListMeta", ListMeta_ty); ("Items", TSlice NTNSlice_ty)].

Definition PassPredictionSpec_ty : ty :=
  TStruct
    [("GroundStations", TSlice TLeaf); ("MinElevation", TLeaf); ("Horizon", TLeaf)].

Definition PassWindow_ty : ty :=
  TStruct
    [("Satellite", TLeaf); ("NoradID", TLeaf); ("GroundStation", TLeaf); ("AOS", Time_ty); ("LOS", Time_ty);
     ("MaxElevation", TLeaf)].

Definition PropagatedState_ty : ty :=
  TStruct
    [("Satellite", TLeaf); ("NoradID", TLeaf); ("EpochUnixMs", TLeaf); ("SourceEpochUnixMs", TLeaf);
     ("ECEF", EphemerisECEF_ty)].

Definition SatelliteSelector_ty : ty :=
  TStruct
    [("Constellation", TLeaf); ("NoradIDs", TSlice TLeaf)].

Definition SatelliteEphemerisSpec_ty : ty :=
  TStruct
    [("Source", EphemerisSource_ty); ("Satellites", TPtr SatelliteSelector_ty);
     ("PassPrediction", TPtr PassPredictionSpec_ty)].

Definition SatelliteEphemerisStatus_ty : ty :=
  TStruct
    [("PropagatedStatesInputHash", TLeaf); ("LastUpdated", TPtr Time_ty);
     ("LastPassPredictionTime", TPtr Time_ty); ("LastPassPredictionInputHash", TLeaf);
     ("SatelliteCount", TLeaf); ("TruncatedSatelliteCount", TLeaf);
     ("NextPassWindows", TSlice PassWindow_ty); ("PropagatedStates", TSlice PropagatedState_ty);
     ("Conditions", TSlice Condition_ty)].

Definition SatelliteEphemeris_ty : ty :=
  TStruct
    [("TypeMeta", TLeaf); ("ObjectMeta", ObjectMeta_ty); ("Spec", SatelliteEphemerisSpec_ty);
     ("Status", SatelliteEphemerisStatus_ty)].

Definition SatelliteEphemerisList_ty : ty :=
  TStruct
    [("TypeMeta", TLeaf); ("ListMeta", ListMeta_ty); ("Items", TSlice SatelliteEphemeris_ty)].

(** ** Methods *)

Definition BillingSpec_DeepCopyInto : plan := shallow.

Definition CellID_DeepCopyInto : plan := shallow.

Definition SIBSchedule_DeepCopyInto : plan :=
  Plan
    [("SIWindowPosition", New shallow)].

Definition CellOverrides_DeepCopyInto : plan :=
  Plan
    [("SIBSchedule", New SIBSchedule_DeepCopyInto)].

Definition ContactCandidate_DeepCopyInto : plan :=
  Plan
    [("AOS", New Time_DeepCopyInto); ("LOS", New Time_DeepCopyInto); ("ValidUntil", New Time_DeepCopyInto)].

Definition GeoLocation_DeepCopyInto : plan := shallow.

Definition DeploymentSpec_DeepCopyInto : plan :=
  Plan
    [("Location", Assign)].

Definition EphemerisECEF_DeepCopyInto : plan := shallow.

Definition EphemerisOrbital_DeepCopyInto : plan := shallow.

Definition SecretReference_DeepCopyInto : plan := shallow.

Definition EphemerisSource_DeepCopyInto : plan :=
  Plan
    [("RefreshInterval", Assign); ("Credentials", New shallow)].

Definition EpochTime_DeepCopyInto : plan := shallow.

Definition FailoverPolicy_DeepCopyInto : plan :=
  Plan
    [("Triggers", Make shallow); ("SwitchbackDelay", Assign); ("ConfirmationSamples", New shallow);
     ("MinTerrestrialDwell", Assign)].

Definition FeederLinkInfo_DeepCopyInto : plan := shallow.

Definition FirmwareSpec_DeepCopyInto : plan := shallow.

Definition HardwareSpec_DeepCopyInto : plan :=
  Plan
    [("Bands", Make shallow)].

Definition MonitoringSpec_DeepCopyInto : plan :=
  Plan
    [("HealthCheckInterval", Assign)].

Definition GroundStationLifecycleSpec_DeepCopyInto : plan :=
  Plan
    [("Hardware", Into HardwareSpec_DeepCopyInto); ("Deployment", Assign); ("Monitoring", New shallow);
     ("Firmware", New shallow)].

Definition GroundStationLifecycleStatus_DeepCopyInto : plan :=
  Plan
    [("LastHealthCheck", New Time_DeepCopyInto); ("FirmwareUpdateStarted", New Time_DeepCopyInto);
     ("Conditions", Make Condition_DeepCopyInto)].

Definition GroundStationLifecycle_DeepCopyInto : plan :=
  Plan
    [("TypeMeta", Assign); ("ObjectMeta", Into ObjectMeta_DeepCopyInto);
     ("Spec", Into GroundStationLifecycleSpec_DeepCopyInto);
     ("Status", Into GroundStationLifecycleStatus_DeepCopyInto)].

Definition GroundStationLifecycleList_DeepCopyInto : plan :=
  Plan
    [("TypeMeta", Assign); ("ListMeta", Into ListMeta_DeepCopyInto);
     ("Items", Make GroundStationLifecycle_DeepCopyInto)].

Definition PrometheusQueries_DeepCopyInto : plan := shallow.

Definition PrometheusMetricsSource_DeepCopyInto : plan :=
  Plan
    [("QueryTimeout", New shallow); ("Queries", Assign)].

Definition MetricsSource_DeepCopyInto : plan :=
  Plan
    [("Prometheus", New PrometheusMetricsSource_DeepCopyInto)].

Definition MovingRefLocation_DeepCopyInto : plan := shallow.

Definition NTNGatewayLocation_DeepCopyInto : plan := shallow.

Definition NTNNeighborCell_DeepCopyInto : plan := shallow.

Definition NTNPolarization_DeepCopyInto : plan := shallow.

Definition ReferenceLocation_DeepCopyInto : plan := shallow.

Definition TAInfo_DeepCopyInto : plan := shallow.

Definition SatSwitchNTNConfig_DeepCopyInto : plan :=
  Plan
    [("EphemerisECEF", New shallow); ("EphemerisOrbital", New shallow); ("KMac", New shallow);
     ("NTNUlSyncValidityDur", New shallow); ("TAInfo", New shallow); ("TAReport", New shallow)].

Definition SatSwitchWithResync_DeepCopyInto : plan :=
  Plan
    [("NTNConfig", Into SatSwitchNTNConfig_DeepCopyInto); ("GatewayLocation", New shallow)].

Definition NTNParams_DeepCopyInto : plan :=
  Plan
    [("EphemerisECEF", New shallow); ("EphemerisOrbital", New shallow); ("TAInfo", New shallow);
     ("EpochTime", New shallow); ("FeederLinkInfo", New shallow); ("NTNGatewayLocation", New shallow);
     ("MovingRefLocation", New shallow); ("SatSwitchWithResync", New SatSwitchWithResync_DeepCopyInto);
     ("Polarization", New shallow); ("TAReport", New shallow); ("NTNUlSyncValidityDur", New shallow);
     ("NeighborCells", Make shallow); ("ReferenceLocation", New shallow);
     ("DistanceThreshold", New shallow); ("TService", New shallow)].

Definition RemoteControlTLS_DeepCopyInto : plan := shallow.

Definition RemoteControlRef_DeepCopyInto : plan :=
  Plan
    [("TLS", New shallow)].

Definition ProviderRef_DeepCopyInto : plan :=
  Plan
    [("RemoteControl", New RemoteControlRef_DeepCopyInto); ("SIB19EpochMode", New shallow)].

Definition NTNCellConfigSpec_DeepCopyInto : plan :=
  Plan
    [("Provider", Into ProviderRef_DeepCopyInto); ("NTN", Into NTNParams_DeepCopyInto);
     ("CellOverrides", New CellOverrides_DeepCopyInto); ("CellID", New shallow);
     ("EphemerisNoradID", New shallow)].

Definition NTNCellConfigStatus_DeepCopyInto : plan :=
  Plan
    [("Conditions", Make Condition_DeepCopyInto)].

Definition NTNCellConfig_DeepCopyInto : plan :=
  Plan
    [("TypeMeta", Assign); ("ObjectMeta", Into ObjectMeta_DeepCopyInto);
     ("Spec", Into NTNCellConfigSpec_DeepCopyInto); ("Status", Into NTNCellConfigStatus_DeepCopyInto)].

Definition NTNCellConfigList_DeepCopyInto : plan :=
  Plan
    [("TypeMeta", Assign); ("ListMeta", Into ListMeta_DeepCopyInto);
     ("Items", Make NTNCellConfig_DeepCopyInto)].

Definition PathSpec_DeepCopyInto : plan := shallow.

Definition QoSMapping_DeepCopyInto : plan :=
  Plan
    [("MaxLatencyBudget", Assign)].

Definition SatellitePathSpec_DeepCopyInto : plan :=
  Plan
    [("PathSpec", Assign)].

Definition SecurityPolicy_DeepCopyInto : plan := shallow.

Definition NTNSliceSpec_DeepCopyInto : plan :=
  Plan
    [("TerrestrialPath", Assign); ("SatellitePath", Assign);
     ("FailoverPolicy", Into FailoverPolicy_DeepCopyInto); ("QoSMapping", New shallow);
     ("Security", New shallow); ("Billing", New shallow); ("MetricsSource", New MetricsSource_DeepCopyInto)].

Definition NTNSliceStatus_DeepCopyInto : plan :=
  Plan
    [("LastFailover", New Time_DeepCopyInto); ("LastSwitchbackTime", New Time_DeepCopyInto);
     ("ContactCandidate", New ContactCandidate_DeepCopyInto); ("Conditions", Make Condition_DeepCopyInto)].

Definition NTNSlice_DeepCopyInto : plan :=
  Plan
    [("TypeMeta", Assign); ("ObjectMeta", Into ObjectMeta_DeepCopyInto);
     ("Spec", Into NTNSliceSpec_DeepCopyInto); ("Status", Into NTNSliceStatus_DeepCopyInto)].

Definition NTNSliceList_DeepCopyInto : plan :=
  Plan
    [("TypeMeta", Assign); ("ListMeta", Into ListMeta_DeepCopyInto); ("Items", Make NTNSlice_DeepCopyInto)].

Definition PassPredictionSpec_DeepCopyInto : plan :=
  Plan
    [("GroundStations", Make shallow); ("Horizon", Assign)].

Definition PassWindow_DeepCopyInto : plan :=
  Plan
    [("AOS", Into Time_DeepCopyInto); ("LOS", Into Time_DeepCopyInto)].

Definition PropagatedState_DeepCopyInto : plan :=
  Plan
    [("ECEF", Assign)].

Definition SatelliteSelector_DeepCopyInto : plan :=
  Plan
    [("NoradIDs", Make shallow)].

Definition SatelliteEphemerisSpec_DeepCopyInto : plan :=
  Plan
    [("Source", Into EphemerisSource_DeepCopyInto); ("Satellites", New SatelliteSelector_DeepCopyInto);
     ("PassPrediction", New PassPredictionSpec_DeepCopyInto)].

Definition SatelliteEphemerisStatus_DeepCopyInto : plan :=
  Plan
    [("LastUpdated", New Time_DeepCopyInto); ("LastPassPredictionTime", New Time_DeepCopyInto);
     ("NextPassWindows", Make PassWindow_DeepCopyInto); ("PropagatedStates", Make shallow);
     ("Conditions", Make Condition_DeepCopyInto)].

Definition SatelliteEphemeris_DeepCopyInto : plan :=
  Plan
    [("TypeMeta", Assign); ("ObjectMeta", Into ObjectMeta_DeepCopyInto);
     ("Spec", Into SatelliteEphemerisSpec_DeepCopyInto);
     ("Status", Into SatelliteEphemerisStatus_DeepCopyInto)].

Definition SatelliteEphemerisList_DeepCopyInto : plan :=
  Plan
    [("TypeMeta", Assign); ("ListMeta", Into ListMeta_DeepCopyInto);
     ("Items", Make SatelliteEphemeris_DeepCopyInto)].

(** [DeepCopy] of each type, on a pointer. *)

Definition BillingSpec_DeepCopy : obj -> nat -> obj * nat := DeepCopy BillingSpec_DeepCopyInto.
Definition CellID_DeepCopy : obj -> nat -> obj * nat := DeepCopy CellID_DeepCopyInto.
Definition SIBSchedule_DeepCopy : obj -> nat -> obj * nat := DeepCopy SIBSchedule_DeepCopyInto.
Definition CellOverrides_DeepCopy : obj -> nat -> obj * nat := DeepCopy CellOverrides_DeepCopyInto.
Definition ContactCandidate_DeepCopy : obj -> nat -> obj * nat := DeepCopy ContactCandidate_DeepCopyInto.
Definition GeoLocation_DeepCopy : obj -> nat -> obj * nat := DeepCopy GeoLocation_DeepCopyInto.
Definition DeploymentSpec_DeepCopy : obj -> nat -> obj * nat := DeepCopy DeploymentSpec_DeepCopyInto.
Definition EphemerisECEF_DeepCopy : obj -> nat -> obj * nat := DeepCopy EphemerisECEF_DeepCopyInto.
Definition EphemerisOrbital_DeepCopy : obj -> nat -> obj * nat := DeepCopy EphemerisOrbital_DeepCopyInto.
Definition SecretReference_DeepCopy : obj -> nat -> obj * nat := DeepCopy SecretReference_DeepCopyInto.
Definition EphemerisSource_DeepCopy : obj -> nat -> obj * nat := DeepCopy EphemerisSource_DeepCopyInto.
Definition EpochTime_DeepCopy : obj -> nat -> obj * nat := DeepCopy EpochTime_DeepCopyInto.
Definition FailoverPolicy_DeepCopy : obj -> nat -> obj * nat := DeepCopy FailoverPolicy_DeepCopyInto.
Definition FeederLinkInfo_DeepCopy : obj -> nat -> obj * nat := DeepCopy FeederLinkInfo_DeepCopyInto.
Definition FirmwareSpec_DeepCopy : obj -> nat -> obj * nat := DeepCopy FirmwareSpec_DeepCopyInto.
Definition HardwareSpec_DeepCopy : obj -> nat -> obj * nat := DeepCopy HardwareSpec_DeepCopyInto.
Definition MonitoringSpec_DeepCopy : obj -> nat -> obj * nat := DeepCopy MonitoringSpec_DeepCopyInto.
Definition GroundStationLifecycleSpec_DeepCopy : obj -> nat -> obj * nat := DeepCopy GroundStationLifecycleSpec_DeepCopyInto.
Definition GroundStationLifecycleStatus_DeepCopy : obj -> nat -> obj * nat := DeepCopy GroundStationLifecycleStatus_DeepCopyInto.
Definition GroundStationLifecycle_DeepCopy : obj -> nat -> obj * nat := DeepCopy GroundStationLifecycle_DeepCopyInto.
Definition GroundStationLifecycleList_DeepCopy : obj -> nat -> obj * nat := DeepCopy GroundStationLifecycleList_DeepCopyInto.
Definition PrometheusQueries_DeepCopy : obj -> nat -> obj * nat := DeepCopy PrometheusQueries_DeepCopyInto.
Definition PrometheusMetricsSource_DeepCopy : obj -> nat -> obj * nat := DeepCopy PrometheusMetricsSource_DeepCopyInto.
Definition MetricsSource_DeepCopy : obj -> nat -> obj * nat := DeepCopy MetricsSource_DeepCopyInto.
Definition MovingRefLocation_DeepCopy : obj -> nat -> obj * nat := DeepCopy MovingRefLocation_DeepCopyInto.
Definition NTNGatewayLocation_DeepCopy : obj -> nat -> obj * nat := DeepCopy NTNGatewayLocation_DeepCopyInto.
Definition NTNNeighborCell_DeepCopy : obj -> nat -> obj * nat := DeepCopy NTNNeighborCell_DeepCopyInto.
Definition NTNPolarization_DeepCopy : obj -> nat -> obj * nat := DeepCopy NTNPolarization_DeepCopyInto.
Definition ReferenceLocation_DeepCopy : obj -> nat -> obj * nat := DeepCopy ReferenceLocation_DeepCopyInto.
Definition TAInfo_DeepCopy : obj -> nat -> obj * nat := DeepCopy TAInfo_DeepCopyInto.
Definition SatSwitchNTNConfig_DeepCopy : obj -> nat -> obj * nat := DeepCopy SatSwitchNTNConfig_DeepCopyInto.
Definition SatSwitchWithResync_DeepCopy : obj -> nat -> obj * nat := DeepCopy SatSwitchWithResync_DeepCopyInto.
Definition NTNParams_DeepCopy : obj -> nat -> obj * nat := DeepCopy NTNParams_DeepCopyInto.
Definition RemoteControlTLS_DeepCopy : obj -> nat -> obj * nat := DeepCopy RemoteControlTLS_DeepCopyInto.
Definition RemoteControlRef_DeepCopy : obj -> nat -> obj * nat := DeepCopy RemoteControlRef_DeepCopyInto.
Definition ProviderRef_DeepCopy : obj -> nat -> obj * nat := DeepCopy ProviderRef_DeepCopyInto.
Definition NTNCellConfigSpec_DeepCopy : obj -> nat -> obj * nat := DeepCopy NTNCellConfigSpec_DeepCopyInto.
Definition NTNCellConfigStatus_DeepCopy : obj -> nat -> obj * nat := DeepCopy NTNCellConfigStatus_DeepCopyInto.
Definition NTNCellConfig_DeepCopy : obj -> nat -> obj * nat := DeepCopy NTNCellConfig_DeepCopyInto.
Definition NTNCellConfigList_DeepCopy : obj -> nat -> obj * nat := DeepCopy NTNCellConfigList_DeepCopyInto.
Definition PathSpec_DeepCopy : obj -> nat -> obj * nat := DeepCopy PathSpec_DeepCopyInto.
Definition QoSMapping_DeepCopy : obj -> nat -> obj * nat := DeepCopy QoSMapping_DeepCopyInto.
Definition SatellitePathSpec_DeepCopy : obj -> nat -> obj * nat := DeepCopy SatellitePathSpec_DeepCopyInto.
Definition SecurityPolicy_DeepCopy : obj -> nat -> obj * nat := DeepCopy SecurityPolicy_DeepCopyInto.
Definition NTNSliceSpec_DeepCopy : obj -> nat -> obj * nat := DeepCopy NTNSliceSpec_DeepCopyInto.
Definition NTNSliceStatus_DeepCopy : obj -> nat -> obj * nat := DeepCopy NTNSliceStatus_DeepCopyInto.
Definition NTNSlice_DeepCopy : obj -> nat -> obj * nat := DeepCopy NTNSlice_DeepCopyInto.
Definition NTNSliceList_DeepCopy : obj -> nat -> obj * nat := DeepCopy NTNSliceList_DeepCopyInto.
Definition PassPredictionSpec_DeepCopy : obj -> nat -> obj * nat := DeepCopy PassPredictionSpec_DeepCopyInto.
Definition PassWindow_DeepCopy : obj -> nat -> obj * nat := DeepCopy PassWindow_DeepCopyInto.
Definition PropagatedState_DeepCopy : obj -> nat -> obj * nat := DeepCopy PropagatedState_DeepCopyInto.
Definition SatelliteSelector_DeepCopy : obj -> nat -> obj * nat := DeepCopy SatelliteSelector_DeepCopyInto.
Definition SatelliteEphemerisSpec_DeepCopy : obj -> nat -> obj * nat := DeepCopy SatelliteEphemerisSpec_DeepCopyInto.
Definition SatelliteEphemerisStatus_DeepCopy : obj -> nat -> obj * nat := DeepCopy SatelliteEphemerisStatus_DeepCopyInto.
Definition SatelliteEphemeris_DeepCopy : obj -> nat -> obj * nat := DeepCopy SatelliteEphemeris_DeepCopyInto.
Definition SatelliteEphemerisList_DeepCopy : obj -> nat -> obj * nat := DeepCopy SatelliteEphemerisList_DeepCopyInto.

(** [DeepCopyObject] of the kinds and their lists: the copy as a
    [runtime.Object], a nil pointer as a nil interface. *)

Definition GroundStationLifecycle_DeepCopyObject : obj -> nat -> obj * nat := DeepCopyObject GroundStationLifecycle_DeepCopy.
Definition GroundStationLifecycleList_DeepCopyObject : obj -> nat -> obj * nat := DeepCopyObject GroundStationLifecycleList_DeepCopy.
Definition NTNCellConfig_DeepCopyObject : obj -> nat -> obj * nat := DeepCopyObject NTNCellConfig_DeepCopy.
Definition NTNCellConfigList_DeepCopyObject : obj -> nat -> obj * nat := DeepCopyObject NTNCellConfigList_DeepCopy.
Definition NTNSlice_DeepCopyObject : obj -> nat -> obj * nat := DeepCopyObject NTNSlice_DeepCopy.
Definition NTNSliceList_DeepCopyObject : obj -> nat -> obj * nat := DeepCopyObject NTNSliceList_DeepCopy.
Definition SatelliteEphemeris_DeepCopyObject : obj -> nat -> obj * nat := DeepCopyObject SatelliteEphemeris_DeepCopy.
Definition SatelliteEphemerisList_DeepCopyObject : obj -> nat -> obj * nat := DeepCopyObject SatelliteEphemerisList_DeepCopy.

(** The types the generator was run on, with their methods. *)
Definition generated : list (string * ty * plan * (obj -> nat -> obj * nat)) :=
    [("BillingSpec", BillingSpec_ty, BillingSpec_DeepCopyInto, BillingSpec_DeepCopy);
     ("CellID", CellID_ty, CellID_DeepCopyInto, CellID_DeepCopy);
     ("SIBSchedule", SIBSchedule_ty, SIBSchedule_DeepCopyInto, SIBSchedule_DeepCopy);
     ("CellOverrides", CellOverrides_ty, CellOverrides_DeepCopyInto, CellOverrides_DeepCopy);
     ("ContactCandidate", ContactCandidate_ty, ContactCandidate_DeepCopyInto, ContactCandidate_DeepCopy);
     ("GeoLocation", GeoLocation_ty, GeoLocation_DeepCopyInto, GeoLocation_DeepCopy);
     ("DeploymentSpec", DeploymentSpec_ty, DeploymentSpec_DeepCopyInto, DeploymentSpec_DeepCopy);
     ("EphemerisECEF", EphemerisECEF_ty, EphemerisECEF_DeepCopyInto, EphemerisECEF_DeepCopy);
     ("EphemerisOrbital", EphemerisOrbital_ty, EphemerisOrbital_DeepCopyInto, EphemerisOrbital_DeepCopy);
     ("SecretReference", SecretReference_ty, SecretReference_DeepCopyInto, SecretReference_DeepCopy);
     ("EphemerisSource", EphemerisSource_ty, EphemerisSource_DeepCopyInto, EphemerisSource_DeepCopy);
     ("EpochTime", EpochTime_ty, EpochTime_DeepCopyInto, EpochTime_DeepCopy);
     ("FailoverPolicy", FailoverPolicy_ty, FailoverPolicy_DeepCopyInto, FailoverPolicy_DeepCopy);
     ("FeederLinkInfo", FeederLinkInfo_ty, FeederLinkInfo_DeepCopyInto, FeederLinkInfo_DeepCopy);
     ("FirmwareSpec", FirmwareSpec_ty, FirmwareSpec_DeepCopyInto, FirmwareSpec_DeepCopy);
     ("HardwareSpec", HardwareSpec_ty, HardwareSpec_DeepCopyInto, HardwareSpec_DeepCopy);
     ("MonitoringSpec", MonitoringSpec_ty, MonitoringSpec_DeepCopyInto, MonitoringSpec_DeepCopy);
     ("GroundStationLifecycleSpec", GroundStationLifecycleSpec_ty, GroundStationLifecycleSpec_DeepCopyInto, GroundStationLifecycleSpec_DeepCopy);
     ("GroundStationLifecycleStatus", GroundStationLifecycleStatus_ty, GroundStationLifecycleStatus_DeepCopyInto, GroundStationLifecycleStatus_DeepCopy);
     ("GroundStationLifecycle", GroundStationLifecycle_ty, GroundStationLifecycle_DeepCopyInto, GroundStationLifecycle_DeepCopy);
     ("GroundStationLifecycleList", GroundStationLifecycleList_ty, GroundStationLifecycleList_DeepCopyInto, GroundStationLifecycleList_DeepCopy);
     ("PrometheusQueries", PrometheusQueries_ty, PrometheusQueries_DeepCopyInto, PrometheusQueries_DeepCopy);
     ("PrometheusMetricsSource", PrometheusMetricsSource_ty, PrometheusMetricsSource_DeepCopyInto, PrometheusMetricsSource_DeepCopy);
     ("MetricsSource", MetricsSource_ty, MetricsSource_DeepCopyInto, MetricsSource_DeepCopy);
     ("MovingRefLocation", MovingRefLocation_ty, MovingRefLocation_DeepCopyInto, MovingRefLocation_DeepCopy);
     ("NTNGatewayLocation", NTNGatewayLocation_ty, NTNGatewayLocation_DeepCopyInto, NTNGatewayLocation_DeepCopy);
     ("NTNNeighborCell", NTNNeighborCell_ty, NTNNeighborCell_DeepCopyInto, NTNNeighborCell_DeepCopy);
     ("NTNPolarization", NTNPolarization_ty, NTNPolarization_DeepCopyInto, NTNPolarization_DeepCopy);
     ("ReferenceLocation", ReferenceLocation_ty, ReferenceLocation_DeepCopyInto, ReferenceLocation_DeepCopy);
     ("TAInfo", TAInfo_ty, TAInfo_DeepCopyInto, TAInfo_DeepCopy);
     ("SatSwitchNTNConfig", SatSwitchNTNConfig_ty, SatSwitchNTNConfig_DeepCopyInto, SatSwitchNTNConfig_DeepCopy);
     ("SatSwitchWithResync", SatSwitchWithResync_ty, SatSwitchWithResync_DeepCopyInto, SatSwitchWithResync_DeepCopy);
     ("NTNParams", NTNParams_ty, NTNParams_DeepCopyInto, NTNParams_DeepCopy);
     ("RemoteControlTLS", RemoteControlTLS_ty, RemoteControlTLS_DeepCopyInto, RemoteControlTLS_DeepCopy);
     ("RemoteControlRef", RemoteControlRef_ty, RemoteControlRef_DeepCopyInto, RemoteControlRef_DeepCopy);
     ("ProviderRef", ProviderRef_ty, ProviderRef_DeepCopyInto, ProviderRef_DeepCopy);
     ("NTNCellConfigSpec", NTNCellConfigSpec_ty, NTNCellConfigSpec_DeepCopyInto, NTNCellConfigSpec_DeepCopy);
     ("NTNCellConfigStatus", NTNCellConfigStatus_ty, NTNCellConfigStatus_DeepCopyInto, NTNCellConfigStatus_DeepCopy);
     ("NTNCellConfig", NTNCellConfig_ty, NTNCellConfig_DeepCopyInto, NTNCellConfig_DeepCopy);
     ("NTNCellConfigList", NTNCellConfigList_ty, NTNCellConfigList_DeepCopyInto, NTNCellConfigList_DeepCopy);
     ("PathSpec", PathSpec_ty, PathSpec_DeepCopyInto, PathSpec_DeepCopy);
     ("QoSMapping", QoSMapping_ty, QoSMapping_DeepCopyInto, QoSMapping_DeepCopy);
     ("SatellitePathSpec", SatellitePathSpec_ty, SatellitePathSpec_DeepCopyInto, SatellitePathSpec_DeepCopy);
     ("SecurityPolicy", SecurityPolicy_ty, SecurityPolicy_DeepCopyInto, SecurityPolicy_DeepCopy);
     ("NTNSliceSpec", NTNSliceSpec_ty, NTNSliceSpec_DeepCopyInto, NTNSliceSpec_DeepCopy);
     ("NTNSliceStatus", NTNSliceStatus_ty, NTNSliceStatus_DeepCopyInto, NTNSliceStatus_DeepCopy);
     ("NTNSlice", NTNSlice_ty, NTNSlice_DeepCopyInto, NTNSlice_DeepCopy);
     ("NTNSliceList", NTNSliceList_ty, NTNSliceList_DeepCopyInto, NTNSliceList_DeepCopy);
     ("PassPredictionSpec", PassPredictionSpec_ty, PassPredictionSpec_DeepCopyInto, PassPredictionSpec_DeepCopy);
     ("PassWindow", PassWindow_ty, PassWindow_DeepCopyInto, PassWindow_DeepCopy);
     ("PropagatedState", PropagatedState_ty, PropagatedState_DeepCopyInto, PropagatedState_DeepCopy);
     ("SatelliteSelector", SatelliteSelector_ty, SatelliteSelector_DeepCopyInto, SatelliteSelector_DeepCopy);
     ("SatelliteEphemerisSpec", SatelliteEphemerisSpec_ty, SatelliteEphemerisSpec_DeepCopyInto, SatelliteEphemerisSpec_DeepCopy);
     ("SatelliteEphemerisStatus", SatelliteEphemerisStatus_ty, SatelliteEphemerisStatus_DeepCopyInto, SatelliteEphemerisStatus_DeepCopy);
     ("SatelliteEphemeris", SatelliteEphemeris_ty, SatelliteEphemeris_DeepCopyInto, SatelliteEphemeris_DeepCopy);
     ("SatelliteEphemerisList", SatelliteEphemerisList_ty, SatelliteEphemerisList_DeepCopyInto, SatelliteEphemerisList_DeepCopy)].

End Generated.

(** * Properties *)

(** With the shapes of apimachinery as variables the rest is computation. *)
Lemma generated_covers `{MT : MetaTypes} : Forall (fun '(_, t, p, copy) => covers t (Into p) = true /\ copy = DeepCopy p) generated.
Proof.
  destruct MT as [tt tp Ht ot op Ho lt lp Hl ct cp Hc]. vm_compute in Ht, Ho, Hl, Hc. unfold generated.
  repeat (apply Forall_cons_2; [split; [vm_compute; rewrite ?Ht, ?Ho, ?Hl, ?Hc; reflexivity|reflexivity]|]). apply Forall_nil_2.
Qed.

Section Facts.
Context `{MT : MetaTypes}.

(** Whoever made it, nothing of a copy is anything of another object: the same
    value behind other addresses, so that no write to the one is seen in the
    other. *)
Definition separate (o c : obj) (n : nat) : Prop :=
  erase c = erase o /\ NoDup (addrs c) /\ (forall a, a ∈ addrs c -> a ∉ addrs o) /\
  (forall a new, a ∈ addrs o -> write a new c = c) /\
  (forall a new, a ∈ addrs c -> write a new o = o).

Lemma fresh_separate o n r :
  (forall a, a ∈ addrs o -> a < n) -> fresh_copy erase addrs o n r -> separate o r.1 n.
Proof.
  intros Hn Hc. pose proof Hc as (_ & E & F & N). rewrite Forall_forall in F.
  split_and!; [done|done|..].
  - intros a Ha Ha'. apply F in Ha. apply Hn in Ha'. lia.
  - intros a new Ha. by apply (copy_immune o n), Hn.
  - intros a new Ha. apply write_elsewhere. intros Ha'. apply F in Ha. apply Hn in Ha'. lia.
Qed.

(** C39. Copies of API objects are deep: for each of the 56 types of the API
    group, the generated statements of DeepCopyInto, applied to any value of the
    type as it is declared, give an equal value that shares no pointer and no
    slice with the original; a write through either is never seen in the other.
    DeepCopy does the same behind a pointer and keeps nil. *)
Theorem deep_copies_share_nothing name t p copy o n :
  (name, t, p, copy) ∈ generated -> (forall a, a ∈ addrs o -> a < n) ->
  (has_ty o t = true -> separate o (DeepCopyInto p o n).1 n) /\
  (has_ty o (TPtr t) = true -> separate o (copy o n).1 n).
Proof.
  intros Hin Hn. pose proof generated_covers as Hc. rewrite Forall_forall in Hc.
  destruct (Hc _ Hin) as [Hcov ->]. split; intros Ht.
  - apply fresh_separate; [done|]. by apply (act_deep o (Into p) t).
  - assert (E : DeepCopy p o n = act o (New p) n) by (by destruct o). rewrite E.
    apply fresh_separate; [done|]. by apply (act_deep o (New p) (TPtr t)).
Qed.

End Facts.

(** Apimachinery's types in outline: plain values, except that metadata has
    reference fields of its own. *)
#[export] Instance outline_types : MetaTypes := {|
  Time_ty := TLeaf; Time_DeepCopyInto := shallow; Time_covered := eq_refl;
  ObjectMeta_ty := TStruct [("Name", TLeaf); ("Finalizers", TSlice TLeaf); ("DeletionTimestamp", TPtr TLeaf)];
  ObjectMeta_DeepCopyInto := Plan [("Finalizers", Make shallow); ("DeletionTimestamp", New shallow)];
  ObjectMeta_covered := eq_refl;
  ListMeta_ty := TLeaf; ListMeta_DeepCopyInto := shallow; ListMeta_covered := eq_refl;
  Condition_ty := TLeaf; Condition_DeepCopyInto := shallow; Condition_covered := eq_refl
|}.

(** A schedule with a window position behind a pointer. *)
Definition demo_schedule (window : string) : obj :=
  Fields [("SIWindowLength", Leaf "1"); ("SIPeriod", Leaf "8"); ("SIWindowPosition", Ref 7 [Leaf window])].

Lemma deep_copies_share_nothing_witness :
  has_ty (demo_schedule "3") SIBSchedule_ty = true /\
  (DeepCopyInto SIBSchedule_DeepCopyInto (demo_schedule "3") 10).1 =
    Fields [("SIWindowLength", Leaf "1"); ("SIPeriod", Leaf "8"); ("SIWindowPosition", Ref 10 [Leaf "3"])] /\
  separate (demo_schedule "3") (DeepCopyInto SIBSchedule_DeepCopyInto (demo_schedule "3") 10).1 10.
Proof.
  split; [reflexivity|]. split; [reflexivity|].
  refine (proj1 (deep_copies_share_nothing "SIBSchedule" SIBSchedule_ty SIBSchedule_DeepCopyInto SIBSchedule_DeepCopy
    (demo_schedule "3") 10 _ _) eq_refl).
  - apply (list_elem_of_lookup_2 _ 2). reflexivity.
  - intros a Ha. cbn in Ha. apply list_elem_of_singleton in Ha as ->. lia.
Defined.
