(* ===== verification/MockProvider.v ===== *)
(** * The recording provider

    [src/pkg/provider/mock.go]: a provider that answers with the errors it is
    configured with, counts its calls and keeps what it was given.  The frames
    of runtime pushes are kept as copies, so that a later change of the caller's
    objects cannot rewrite what was recorded.  What is shared and what is not is
    the point of this component, so its state holds objects with addresses
    ([ObjectGraph]) and other code may write through the addresses it holds. *)

From S2P Require Import Prelude GoStrings ObjectGraph DeepCopy.
From stdpp Require Import relations.
Local Open Scope string_scope.

Section Mock.
Context `{MT : MetaTypes}.

(** [EphemerisUpdate], [RuntimeUpdate] and [ResolvedRemoteControl] of
    [interface.go]; a [tls.Config] is one value behind its pointer. *)
Definition EphemerisUpdate_ty : ty :=
  TStruct [("ECEF", TPtr EphemerisECEF_ty); ("Orbital", TPtr EphemerisOrbital_ty)].

Definition RuntimeUpdate_ty : ty :=
  TStruct [("Cell", TStruct [("PLMN", TLeaf); ("NCI", TLeaf)]); ("EpochUnixMs", TLeaf);
           ("UlSyncValidityDur", TLeaf); ("Ephemeris", EphemerisUpdate_ty);
           ("SatSwitch", TPtr SatSwitchWithResync_ty)].

Definition ResolvedRemoteControl_ty : ty :=
  TStruct [("Endpoint", TLeaf); ("TLSConfig", TPtr TLeaf); ("AuthToken", TLeaf)].

Record MockProvider := mkMock {
  ApplyErr : option string;
  StatusErr : option string;
  EphemerisErr : option string;
  RuntimeErr : option string;
  CleanupErr : option string;
  ApplyCalls : nat;
  StatusCalls : nat;
  EphemerisCalls : nat;
  RuntimeCalls : nat;
  CleanupCalls : nat;
  LastSpec : obj;                   (* a pointer, or nil *)
  LastEphemeris : option obj;
  LastRuntime : option obj;
  LastTarget : option obj;
  StatusValue : obj;                (* a pointer, or nil *)
  RuntimeHistory : list obj;
  TargetHistory : list obj
}.

Definition mock_ApplyCellConfig (m : MockProvider) (spec : obj) : option string * MockProvider :=
  (ApplyErr m,
   mkMock (ApplyErr m) (StatusErr m) (EphemerisErr m) (RuntimeErr m) (CleanupErr m)
     (S (ApplyCalls m)) (StatusCalls m) (EphemerisCalls m) (RuntimeCalls m) (CleanupCalls m)
     spec (LastEphemeris m) (LastRuntime m) (LastTarget m) (StatusValue m) (RuntimeHistory m) (TargetHistory m)).

(** [GetCellStatus]: the configured status itself, or a new empty one. *)
Definition mock_GetCellStatus (m : MockProvider) (next : nat) (empty : obj) : obj * option string * MockProvider * nat :=
  let m' := mkMock (ApplyErr m) (StatusErr m) (EphemerisErr m) (RuntimeErr m) (CleanupErr m)
     (ApplyCalls m) (S (StatusCalls m)) (EphemerisCalls m) (RuntimeCalls m) (CleanupCalls m)
     (LastSpec m) (LastEphemeris m) (LastRuntime m) (LastTarget m) (StatusValue m) (RuntimeHistory m) (TargetHistory m) in
  match StatusValue m with
  | Nil => (Ref next [empty], StatusErr m, m', S next)
  | v => (v, StatusErr m, m', next)
  end.

Definition mock_PushEphemerisUpdate (m : MockProvider) (update : obj) : option string * MockProvider :=
  (EphemerisErr m,
   mkMock (ApplyErr m) (StatusErr m) (EphemerisErr m) (RuntimeErr m) (CleanupErr m)
     (ApplyCalls m) (StatusCalls m) (S (EphemerisCalls m)) (RuntimeCalls m) (CleanupCalls m)
     (LastSpec m) (Some update) (LastRuntime m) (LastTarget m) (StatusValue m) (RuntimeHistory m) (TargetHistory m)).

(** The statements that make the frame of the history. *)
Definition hist_plan : plan :=
  Plan [("SatSwitch", New SatSwitchWithResync_DeepCopyInto);
        ("Ephemeris", Into (Plan [("ECEF", New EphemerisECEF_DeepCopyInto);
                                  ("Orbital", New EphemerisOrbital_DeepCopyInto)]))].

Definition mock_PushRuntimeUpdate (m : MockProvider) (next : nat) (target update : obj)
  : option string * MockProvider * nat :=
  let '(hist, next) := act update (Into hist_plan) next in
  (RuntimeErr m,
   mkMock (ApplyErr m) (StatusErr m) (EphemerisErr m) (RuntimeErr m) (CleanupErr m)
     (ApplyCalls m) (StatusCalls m) (EphemerisCalls m) (S (RuntimeCalls m)) (CleanupCalls m)
     (LastSpec m) (LastEphemeris m) (Some update) (Some target) (StatusValue m)
     (RuntimeHistory m ++ [hist])%list (TargetHistory m ++ [target])%list,
   next).

Definition mock_Cleanup (m : MockProvider) : option string * MockProvider :=
  (CleanupErr m,
   mkMock (ApplyErr m) (StatusErr m) (EphemerisErr m) (RuntimeErr m) (CleanupErr m)
     (ApplyCalls m) (StatusCalls m) (EphemerisCalls m) (RuntimeCalls m) (S (CleanupCalls m))
     (LastSpec m) (LastEphemeris m) (LastRuntime m) (LastTarget m) (StatusValue m) (RuntimeHistory m) (TargetHistory m)).

(** Somebody writes through an address: everything the mock holds is affected. *)
Definition write_mock (a : nat) (new : list obj) (m : MockProvider) : MockProvider :=
  mkMock (ApplyErr m) (StatusErr m) (EphemerisErr m) (RuntimeErr m) (CleanupErr m)
    (ApplyCalls m) (StatusCalls m) (EphemerisCalls m) (RuntimeCalls m) (CleanupCalls m)
    (write a new (LastSpec m)) (write a new <$> LastEphemeris m) (write a new <$> LastRuntime m)
    (write a new <$> LastTarget m) (write a new (StatusValue m))
    (map (write a new) (RuntimeHistory m)) (map (write a new) (TargetHistory m)).

(** ** A test at work *)

(** The mock, the next free address, the addresses of the copies in the history,
    and the values that were pushed, at the time of each push. *)
Record TestState := mkTest {
  tsMock : MockProvider;
  tsNext : nat;
  tsCopies : list nat;
  tsPushed : list obj
}.

(** Calls of the interface, allocations, and writes through any address that is
    not one of the history's own. *)
Inductive test_step : TestState -> TestState -> Prop :=
| test_apply m n c l spec e m' :
    mock_ApplyCellConfig m spec = (e, m') -> test_step (mkTest m n c l) (mkTest m' n c l)
| test_status m n c l empty v e m' n' :
    mock_GetCellStatus m n empty = (v, e, m', n') -> test_step (mkTest m n c l) (mkTest m' n' c l)
| test_ephemeris m n c l update e m' :
    mock_PushEphemerisUpdate m update = (e, m') -> test_step (mkTest m n c l) (mkTest m' n c l)
| test_runtime m n c l target update e m' n' :
    has_ty update RuntimeUpdate_ty = true ->
    mock_PushRuntimeUpdate m n target update = (e, m', n') ->
    test_step (mkTest m n c l)
      (mkTest m' n' (c ++ addrs (act update (Into hist_plan) n).1)%list (l ++ [erase update])%list)
| test_cleanup m n c l e m' :
    mock_Cleanup m = (e, m') -> test_step (mkTest m n c l) (mkTest m' n c l)
| test_alloc m n c l k : test_step (mkTest m n c l) (mkTest m (n + k) c l)
| test_write m n c l a new : a ∉ c -> test_step (mkTest m n c l) (mkTest (write_mock a new m) n c l).

Record test_inv (s : TestState) : Prop := {
  ti_values : map erase (RuntimeHistory (tsMock s)) = tsPushed s;
  ti_own : forall h a, h ∈ RuntimeHistory (tsMock s) -> a ∈ addrs h -> a ∈ tsCopies s;
  ti_calls : length (RuntimeHistory (tsMock s)) = RuntimeCalls (tsMock s)
}.

(** The copying statements cover everything a runtime update refers to. *)
Lemma hist_plan_covers : covers RuntimeUpdate_ty (Into hist_plan) = true.
Proof. vm_compute. reflexivity. Qed.

Lemma test_step_inv s s' : test_step s s' -> test_inv s -> test_inv s'.
Proof.
  intros Hs [Hv Ho Hc]. destruct Hs as [m n c l spec e m' E|m n c l empty v e m' n' E|m n c l update e m' E
    |m n c l target update e m' n' Ht E|m n c l e m' E|m n c l k|m n c l a new Ha]; cbn [tsMock tsCopies tsPushed] in *.
  - injection E as <- <-. by split.
  - unfold mock_GetCellStatus in E. destruct (StatusValue m); injection E as <- <- <- <-; by split.
  - injection E as <- <-. by split.
  - unfold mock_PushRuntimeUpdate in E.
    destruct (act_deep update (Into hist_plan) RuntimeUpdate_ty Ht hist_plan_covers n) as (_ & Ee & _ & _).
    destruct (act update (Into hist_plan) n) as [hist n1]. injection E as <- <- <-. cbn [fst] in *.
    split; cbn [tsMock RuntimeHistory RuntimeCalls tsCopies tsPushed].
    + rewrite map_app, Hv. cbn. by rewrite Ee.
    + intros h a [Hh|Hh]%elem_of_app Ha'; apply elem_of_app; [left; by eapply Ho|right].
      by apply list_elem_of_singleton in Hh as ->.
    + rewrite length_app, Hc. cbn. lia.
  - injection E as <- <-. by split.
  - by split.
  - assert (E : map (write a new) (RuntimeHistory m) = RuntimeHistory m).
    { rewrite <- (map_id (RuntimeHistory m)) at 2. apply map_ext_in. intros h Hh%list_elem_of_In.
      apply write_elsewhere. intros Ha'. by apply Ha, (Ho h). }
    split; cbn [tsMock write_mock RuntimeHistory RuntimeCalls tsCopies tsPushed]; rewrite ?E; by auto.
Qed.

(** The history is what was pushed: after any calls, allocations and writes by
    others, entry by entry the recorded frames have the values the updates had
    when they were pushed, one per call. *)
Theorem history_is_what_was_pushed m n s :
  RuntimeHistory m = [] -> RuntimeCalls m = 0 -> rtc test_step (mkTest m n [] []) s ->
  map erase (RuntimeHistory (tsMock s)) = tsPushed s /\
  length (RuntimeHistory (tsMock s)) = RuntimeCalls (tsMock s).
Proof.
  intros Hh Hc Hr. apply (rtc_invariant _ test_inv _ _ test_step_inv) in Hr as [Hv _ Hl]; [done|].
  split; cbn; rewrite ?Hh, ?Hc; [done| |done]. by intros ? ? ?%elem_of_nil.
Qed.

End Mock.

(** The same does not hold for the targets, although they are said to be copied
    as well: the recorded target shares its TLS configuration with the caller. *)
Definition blank_mock : MockProvider :=
  mkMock None None None None None 0 0 0 0 0 Nil None None None Nil [] [].

Definition demo_target (conf : string) : obj :=
  Fields [("Endpoint", Leaf "gnb:8001"); ("TLSConfig", Ref 3 [Leaf conf]); ("AuthToken", Leaf "")].

Definition demo_frame (x : string) : obj :=
  Fields [("Cell", Fields [("PLMN", Leaf "00101"); ("NCI", Leaf "1")]); ("EpochUnixMs", Leaf "1");
          ("UlSyncValidityDur", Leaf "5");
          ("Ephemeris", Fields [("ECEF", Ref 4 [Fields [("PosX", Leaf x); ("PosY", Leaf "0"); ("PosZ", Leaf "0");
             ("VelX", Leaf "0"); ("VelY", Leaf "0"); ("VelZ", Leaf "0")]]); ("Orbital", Nil)]);
          ("SatSwitch", Nil)].

Definition recorded : MockProvider := (mock_PushRuntimeUpdate blank_mock 10 (demo_target "a") (demo_frame "1")).1.2.

Example targets_are_shared :
  has_ty (demo_frame "1") RuntimeUpdate_ty = true /\
  map erase (RuntimeHistory (write_mock 4 [Leaf "x"] recorded)) = map erase (RuntimeHistory recorded) /\
  TargetHistory recorded = [demo_target "a"] /\
  TargetHistory (write_mock 3 [Leaf "b"] recorded) = [demo_target "b"].
Proof. repeat split; vm_compute; reflexivity. Qed.
