(* ===== verification/GoNet.v ===== *)
(** * Host and port: the parts of [net] and [net/url] that are used

    [net.SplitHostPort] and [net.JoinHostPort], the [Host] of a parsed URL with
    [URL.Hostname] and [URL.Port], and the address [net/http] dials for a URL.
    Parsing a URL itself and internationalised host names stay arguments of
    the definitions that need them. *)

From S2P Require Import Prelude GoStrings.
From Stdlib Require Import Ascii.
Local Open Scope string_scope.
Local Arguments String.append !_ _ /.

Definition has (c : ascii) (s : string) : bool := negb (without c s).

(** Cut at the last occurrence of a byte. *)
Fixpoint cut_last (c : ascii) (s : string) : option (string * string) :=
  match s with
  | EmptyString => None
  | String a s =>
      match cut_last c s with
      | Some (before, after) => Some (String a before, after)
      | None => if Ascii.eqb a c then Some ("", s) else None
      end
  end.

(** Cut at the first occurrence of a byte. *)
Definition cut_first (c : ascii) (s : string) : option (string * string) := cut (str1 c) s.

(** [net.SplitHostPort]; every error is [None].  In the bracketed form the
    first closing bracket stands right before the last colon. *)
Definition SplitHostPort (hostport : string) : option (string * string) :=
  match cut_last ":" hostport with
  | None => None
  | Some (upto, port) =>
      match hostport with
      | String "[" rest =>
          match cut_first "]" rest with
          | None => None
          | Some (host, after) =>
              match cut_last ":" after with
              | Some ("", _) =>
                  if has "[" rest || has "]" after then None else Some (host, port)
              | _ => None
              end
          end
      | _ =>
          if has ":" upto || has "[" hostport || has "]" hostport then None
          else Some (upto, port)
      end
  end.

(** [net.JoinHostPort]. *)
Definition JoinHostPort (host port : string) : string :=
  if has ":" host then "[" +:+ host +:+ "]:" +:+ port else host +:+ ":" +:+ port.

(** The parts of [url.URL] that are read. *)
Record URL := mkURL { Scheme : string; User : bool; Host : string }.

(** [url.splitHostPort]: a port is digits only. *)
Definition url_split (hostPort : string) : string * string :=
  let '(host, port) :=
    match cut_last ":" hostPort with
    | Some (h, p) => if str_all is_digit p then (h, p) else (hostPort, "")
    | None => (hostPort, "")
    end in
  (match host with
   | String "[" rest =>
       match rev_string rest with
       | String "]" inner => rev_string inner
       | _ => host
       end
   | _ => host
   end, port).

Definition Hostname (u : URL) : string := fst (url_split (Host u)).
Definition Port (u : URL) : string := snd (url_split (Host u)).

(** [portMap] of [net/http]. *)
Definition portMap (scheme : string) : string :=
  if str_eqb scheme "http" then "80"
  else if str_eqb scheme "https" then "443"
  else if str_eqb scheme "socks5" || str_eqb scheme "socks5h" then "1080"
  else "".

(** [canonicalAddr]; [idna] converts a host name that is not ASCII. *)
Definition idnaASCII (idna : string -> string) (host : string) : string :=
  if is_ascii host then host else idna host.

Definition canonicalAddr (idna : string -> string) (u : URL) : string :=
  JoinHostPort (idnaASCII idna (Hostname u))
    (if str_eqb (Port u) "" then portMap (Scheme u) else Port u).

(** * Properties *)

Lemma has_app c a b : has c (a +:+ b) = has c a || has c b.
Proof. unfold has. by rewrite without_app, negb_andb. Qed.

Lemma has_cons c a s : has c (String a s) = Ascii.eqb a c || has c s.
Proof. unfold has, without. simpl. by rewrite negb_andb, negb_involutive. Qed.

Lemma cut_last_none c s : has c s = false -> cut_last c s = None.
Proof.
  induction s as [|a s IH]; [done|]. rewrite has_cons. intros [Ha Hs]%orb_false_iff. simpl.
  by rewrite IH, Ha.
Qed.

Lemma cut_last_app c a b : has c b = false -> cut_last c (a +:+ String c b) = Some (a, b).
Proof.
  intros Hb. induction a as [|x a IH]; simpl; [|by rewrite IH].
  by rewrite cut_last_none, Ascii.eqb_refl.
Qed.

Lemma cut_last_spec c s a b : cut_last c s = Some (a, b) -> s = a +:+ String c b /\ has c b = false.
Proof.
  revert a b. induction s as [|x s IH]; intros a b; simpl; [done|].
  destruct (cut_last c s) as [[p q]|] eqn:E.
  - intros [= <- <-]. destruct (IH _ _ eq_refl) as [-> Hq]. done.
  - destruct (Ascii.eqb_spec x c) as [->|]; [|done]. intros [= <- <-]. split; [done|].
    clear IH. induction s as [|y s IHs]; [done|]. simpl in E. rewrite has_cons.
    destruct (cut_last c s) as [[]|]; [done|]. destruct (Ascii.eqb y c); [done|]. by apply IHs.
Qed.

Lemma cut_first_app c a b : has c a = false -> cut_first c (a +:+ String c b) = Some (a, b).
Proof.
  intros Ha. unfold cut_first, str1. rewrite (cut_skip c "" a).
  - simpl. rewrite Ascii.eqb_refl. by rewrite app_str_nil_r.
  - unfold has in Ha. by apply negb_false_iff in Ha.
Qed.

(** The two forms of an address are taken apart again. *)
Lemma split_bracketed host port :
  has "[" host = false -> has "]" host = false ->
  has ":" port = false -> has "[" port = false -> has "]" port = false ->
  SplitHostPort ("[" +:+ host +:+ "]:" +:+ port) = Some (host, port).
Proof.
  intros Ho Hc Hp Hpo Hpc. unfold SplitHostPort.
  replace ("[" +:+ host +:+ "]:" +:+ port)
    with (("[" +:+ host +:+ "]") +:+ String ":" port) by (rewrite <- !app_str_assoc; done).
  rewrite cut_last_app by done. rewrite <- !app_str_assoc. cbn [String.append].
  rewrite cut_first_app by done.
  change (String ":" port) with ("" +:+ String ":" port). rewrite cut_last_app by done.
  cbn [String.append]. rewrite has_app, !has_cons, Ho, Hpc, Hpo. done.
Qed.

Lemma split_plain host port :
  has ":" host = false -> has "[" host = false -> has "]" host = false ->
  has ":" port = false -> has "[" port = false -> has "]" port = false ->
  SplitHostPort (host +:+ ":" +:+ port) = Some (host, port).
Proof.
  intros E Ho Hc Hp Hpo Hpc. unfold SplitHostPort. change (":" +:+ port) with (String ":" port).
  rewrite cut_last_app by done. rewrite E, !has_app, !has_cons, Ho, Hc, Hpo, Hpc.
  destruct host as [|a host]; [done|]. cbn [String.append].
  rewrite has_cons in Ho. apply orb_false_iff in Ho as [Ho _].
  destruct a as [[] [] [] [] [] [] [] []]; try done.
Qed.

(** A host without brackets and a port without colon or brackets come back from
    the joined form, for names, IPv4 and IPv6 addresses alike. *)
Theorem split_join host port :
  has "[" host = false -> has "]" host = false ->
  has ":" port = false -> has "[" port = false -> has "]" port = false ->
  SplitHostPort (JoinHostPort host port) = Some (host, port).
Proof.
  intros. unfold JoinHostPort. destruct (has ":" host) eqn:E; [by apply split_bracketed|by apply split_plain].
Qed.

Lemma all_has_not P c s : P c = false -> str_all P s = true -> has c s = false.
Proof.
  intros Hc. induction s as [|a s IH]; [done|]. simpl. intros [Ha Hs]%andb_true_iff.
  rewrite has_cons, IH by done. destruct (Ascii.eqb_spec a c) as [->|]; [congruence|done].
Qed.

Lemma digits_has c s : is_digit c = false -> str_all is_digit s = true -> has c s = false.
Proof. apply all_has_not. Qed.

Lemma Port_digits u : str_all is_digit (Port u) = true.
Proof.
  unfold Port, url_split. destruct (cut_last ":" (Host u)) as [[h p]|]; [|done].
  by destruct (str_all is_digit p) eqn:E.
Qed.

Lemma portMap_digits s : str_all is_digit (portMap s) = true.
Proof. unfold portMap. by repeat destruct (str_eqb _ _). Qed.

(** What is dialled for a URL is split again into the host of that URL. *)
Lemma canonicalAddr_host idna u :
  let host := idnaASCII idna (Hostname u) in
  has "[" host = false -> has "]" host = false ->
  exists port, SplitHostPort (canonicalAddr idna u) = Some (host, port).
Proof.
  intros host Ho Hc. exists (if str_eqb (Port u) "" then portMap (Scheme u) else Port u).
  assert (Hd : str_all is_digit (if str_eqb (Port u) "" then portMap (Scheme u) else Port u) = true).
  { destruct (str_eqb _ ""); [apply portMap_digits|apply Port_digits]. }
  apply split_join; try done; by apply digits_has.
Qed.

Example addresses :
  SplitHostPort "gnb.ran:8001" = Some ("gnb.ran", "8001") /\
  SplitHostPort "[2001:db8::1]:8001" = Some ("2001:db8::1", "8001") /\
  SplitHostPort "gnb.ran" = None /\ SplitHostPort "2001:db8::1" = None /\
  SplitHostPort "[::1]" = None /\ SplitHostPort "[::1]x:80" = None /\ SplitHostPort "[a]:b:80" = None /\
  canonicalAddr id (mkURL "https" false "celestrak.org") = "celestrak.org:443" /\
  canonicalAddr id (mkURL "http" false "[fd00::7]:9090") = "[fd00::7]:9090" /\
  Hostname (mkURL "http" false "[fd00::7]:9090") = "fd00::7".
Proof. repeat split; vm_compute; reflexivity. Qed.
