(* ===== verification/GoTime.v ===== *)
(** * Go times and durations

    [time.Time] is the number of nanoseconds since the zero time
    0001-01-01T00:00:00Z (monotonic readings and locations are left out: every
    time is read in UTC), [time.Duration] a 64-bit count of nanoseconds.
    [Sub] saturates as the library does; [metav1.Time] keeps whole seconds when
    it is written to the API server. *)

From S2P Require Import Prelude GoStrings.

Local Open Scope Z_scope.

Abbreviation Time := Z (only parsing).
Abbreviation Duration := Z (only parsing).

Definition Nanosecond : Duration := 1.
Definition Microsecond : Duration := 1000.
Definition Millisecond : Duration := 1000000.
Definition Second : Duration := 1000000000.
Definition Minute : Duration := 60 * Second.
Definition Hour : Duration := 60 * Minute.

Definition zero_time : Time := 0.
Definition IsZero (t : Time) : bool := t =? 0.
Definition After (t u : Time) : bool := u <? t.
Definition Before (t u : Time) : bool := t <? u.
Definition Equal (t u : Time) : bool := t =? u.

(** [t.Add(d)], [t.Sub(u)] (saturating) and the wrapping difference of two
    durations. *)
Definition Add (t : Time) (d : Duration) : Time := t + d.
Definition Sub (t u : Time) : Duration := sat64 (t - u).
Definition dur_sub (a b : Duration) : Duration := wrap64 (a - b).

(** [t.Truncate(d)]: down to a multiple of [d] since the zero time. *)
Definition Truncate (t : Time) (d : Duration) : Time :=
  if d <=? 0 then t else t - t mod d.

(** A [metav1.Time] after a round trip through its JSON form. *)
Definition metav1_stored (t : Time) : Time := Truncate t Second.

(** Seconds from the zero time to 1970-01-01, and [time.UnixMilli]. *)
Definition unix_epoch : Time := 62135596800 * Second.
Definition UnixMilli (ms : Z) : Time := unix_epoch + ms * Millisecond.

(** [t.UnixMilli()]. *)
Definition to_unix_milli (t : Time) : Z := (t - unix_epoch) / Millisecond.

(** Clock fields of [t.UTC()]. *)
Definition clock_hour (t : Time) : Z := t / Hour mod 24.
Definition clock_minute (t : Time) : Z := t / Minute mod 60.
Definition clock_second (t : Time) : Z := t / Second mod 60.

(** ** Duration.Round *)

Definition less_than_half (x y : Z) : bool := x + x <? y.

Definition duration_round (d m : Duration) : Duration :=
  if m <=? 0 then d else
  let r := Z.rem d m in
  if d <? 0 then
    let r := - r in
    if less_than_half r m then d + r
    else let d1 := wrap64 (d - m + r) in
         if d1 <? d then d1 else int64_min
  else
    if less_than_half r m then d - r
    else let d1 := wrap64 (d + m - r) in
         if d <? d1 then d1 else int64_max.

(** ** Duration.String *)

(** [fmtFrac]: the last [prec] decimal digits of [v] as a fraction without
    trailing zeros, and [v] divided by their weight. *)
Fixpoint fmt_frac (prec : nat) (v : Z) (print : bool) (acc : string) : string * Z :=
  match prec with
  | O => (if print then String.append "." acc else acc, v)
  | S prec =>
      let digit := v mod 10 in
      let print := print || negb (digit =? 0) in
      fmt_frac prec (v / 10) print
        (if print then String.append (fmt_d digit) acc else acc)
  end.

Definition duration_string (d : Duration) : string :=
  let u := Z.abs d in
  let body :=
    if u <? Second then
      if u =? 0 then "0s"%string
      else
        let '(prec, unit) :=
          if u <? Microsecond then (0%nat, "ns"%string)
          else if u <? Millisecond then (3%nat, "µs"%string)
          else (6%nat, "ms"%string) in
        let '(frac, v) := fmt_frac prec u false unit in
        String.append (fmt_d v) frac
    else
      let '(frac, v) := fmt_frac 9 u false "s"%string in
      let secs := String.append (fmt_d (v mod 60)) frac in
      let mins := v / 60 in
      if mins =? 0 then secs else
      let with_m := String.append (fmt_d (mins mod 60)) (String.append "m" secs) in
      let hours := mins / 60 in
      if hours =? 0 then with_m
      else String.append (fmt_d hours) (String.append "h" with_m) in
  if d <? 0 then String.append "-" body else body.

(** ** RFC 3339 *)

(** Civil date of a day number counted from 0001-01-01, by the usual
    400-year-era computation on years that start in March. *)
Definition civil_of_days (days : Z) : Z * Z * Z :=
  let z := days + 306 in
  let era := z / 146097 in
  let doe := z mod 146097 in
  let yoe := (doe - doe / 1460 + doe / 36524 - doe / 146096) / 365 in
  let doy := doe - (365 * yoe + yoe / 4 - yoe / 100) in
  let mp := (5 * doy + 2) / 153 in
  let day := doy - (153 * mp + 2) / 5 + 1 in
  let month := if mp <? 10 then mp + 3 else mp - 9 in
  let year := yoe + era * 400 + (if month <=? 2 then 1 else 0) in
  (year, month, day).

(** [t.UTC().Format(time.RFC3339)]. *)
Definition format_rfc3339 (t : Time) : string :=
  let '(y, mo, d) := civil_of_days (t / (24 * Hour)) in
  (fmt_0d 4 y +:+ "-" +:+ fmt_0d 2 mo +:+ "-" +:+ fmt_0d 2 d +:+ "T"
   +:+ fmt_0d 2 (clock_hour t) +:+ ":" +:+ fmt_0d 2 (clock_minute t) +:+ ":"
   +:+ fmt_0d 2 (clock_second t) +:+ "Z")%string.

(** [t.UTC().Format(time.RFC3339Nano)]. *)
Definition format_rfc3339nano (t : Time) : string :=
  let '(y, mo, d) := civil_of_days (t / (24 * Hour)) in
  (fmt_0d 4 y +:+ "-" +:+ fmt_0d 2 mo +:+ "-" +:+ fmt_0d 2 d +:+ "T"
   +:+ fmt_0d 2 (clock_hour t) +:+ ":" +:+ fmt_0d 2 (clock_minute t) +:+ ":"
   +:+ fmt_0d 2 (clock_second t) +:+ (fmt_frac 9 (t mod Second) false "").1 +:+ "Z")%string.

Example format_rfc3339nano_samples :
  (format_rfc3339nano (UnixMilli 1709210096789), format_rfc3339nano unix_epoch) =
  ("2024-02-29T12:34:56.789Z", "1970-01-01T00:00:00Z")%string.
Proof. vm_compute. reflexivity. Qed.

Example format_rfc3339_unix0 : format_rfc3339 unix_epoch = "1970-01-01T00:00:00Z"%string.
Proof. vm_compute. reflexivity. Qed.

Example format_rfc3339_leap :
  format_rfc3339 (UnixMilli 1709210096789) = "2024-02-29T12:34:56Z"%string.
Proof. vm_compute. reflexivity. Qed.

Example duration_string_mixed :
  duration_string (Hour + 1500 * Millisecond) = "1h0m1.5s"%string /\
  duration_string (90 * Second) = "1m30s"%string /\
  duration_string (-1100000) = "-1.1ms"%string.
Proof. vm_compute. done. Qed.

(** ** Lemmas *)

Lemma Sub_lt_iff t u d :
  int64_min < d <= int64_max -> Sub t u < d <-> t - u < d.
Proof. unfold Sub, sat64. lia. Qed.

Lemma Sub_le_iff t u d :
  int64_min <= d < int64_max -> Sub t u <= d <-> t - u <= d.
Proof. unfold Sub, sat64. lia. Qed.

Lemma Sub_self t : Sub t t = 0.
Proof. unfold Sub. by rewrite Z.sub_diag. Qed.

(** [t.Sub(u)] only shrinks when [u] grows. *)
Lemma Sub_antitone t u v : u <= v -> Sub t v <= Sub t u.
Proof. unfold Sub, sat64. lia. Qed.

Lemma Sub_monotone t t' u : t <= t' -> Sub t u <= Sub t' u.
Proof. unfold Sub, sat64. lia. Qed.

Lemma Truncate_le t d : Truncate t d <= t.
Proof.
  unfold Truncate. destruct (Z.leb_spec d 0); [lia|].
  pose proof (Z.mod_pos_bound t d). lia.
Qed.

Lemma Truncate_gt t d : 0 < d -> t - d < Truncate t d.
Proof.
  unfold Truncate. intros. destruct (Z.leb_spec d 0); [lia|].
  pose proof (Z.mod_pos_bound t d). lia.
Qed.

Lemma Truncate_idemp t d : Truncate (Truncate t d) d = Truncate t d.
Proof.
  unfold Truncate. destruct (Z.leb_spec d 0) as [|Hd]; [done|].
  rewrite Zminus_mod, Z.mod_mod, Z.sub_diag, Z.mod_0_l by lia. lia.
Qed.

Lemma Truncate_mono t u d : t <= u -> Truncate t d <= Truncate u d.
Proof.
  unfold Truncate. destruct (Z.leb_spec d 0) as [|Hd]; [done|]. intros.
  rewrite (Z.mod_eq t d), (Z.mod_eq u d) by lia.
  pose proof (Z.div_le_mono t u d). nia.
Qed.

Lemma metav1_stored_le t : metav1_stored t <= t.
Proof. apply Truncate_le. Qed.

#[export] Hint Resolve metav1_stored_le Truncate_le : ntn.
