(* ===== verification/GoTimeParse.v ===== *)
(** * Go time parsing

    [time.Parse] for the layouts the source uses: a date and a time of day with
    six fractional digits, without, and the two RFC 3339 layouts.  As the library
    does, a layout without a fraction still reads one behind the seconds, the
    hour may have a single digit, and an offset may be as large as 24:60. *)

From S2P Require Import Prelude GoStrings GoTime.
From Stdlib Require Import Ascii.
Local Open Scope string_scope.
Local Open Scope Z_scope.
Local Arguments String.append !_ _ /.

(** ** Calendar *)

Definition is_leap (y : Z) : bool :=
  (y mod 4 =? 0) && (negb (y mod 100 =? 0) || (y mod 400 =? 0)).

Definition days_in (month year : Z) : Z :=
  if month =? 2 then if is_leap year then 29 else 28
  else if (month =? 4) || (month =? 6) || (month =? 9) || (month =? 11) then 30 else 31.

(** The day number of a date, counted from 0001-01-01. *)
Definition days_of_civil (y m d : Z) : Z :=
  let y := if m <=? 2 then y - 1 else y in
  let era := y / 400 in
  let yoe := y mod 400 in
  let mp := if m <=? 2 then m + 9 else m - 3 in
  let doy := (153 * mp + 2) / 5 + d - 1 in
  era * 146097 + (yoe * 365 + yoe / 4 - yoe / 100 + doy) - 306.

(** ** Numbers *)

Definition digit_at (s : string) : option (Z * string) :=
  match s with
  | String c r => if is_digit c then Some (digit_val c, r) else None
  | "" => None
  end.

(** [getnum]: two digits, or one when it is not [fixed]. *)
Definition getnum (fixed : bool) (s : string) : option (Z * string) :=
  match digit_at s with
  | None => None
  | Some (a, r) =>
      match digit_at r with
      | Some (b, r') => Some (10 * a + b, r')
      | None => if fixed then None else Some (a, r)
      end
  end.

(** [atoi] of package time. *)
Definition time_atoi (s : string) : option Z :=
  let '(neg, body) := match s with
                      | String "-" r => (true, r)
                      | String "+" r => (false, r)
                      | _ => (false, s)
                      end in
  if str_all is_digit body
  then let v := Z.of_N (dec_val body 0) in Some (if neg then - v else v) else None.

Definition comma_or_period (c : ascii) : bool := Ascii.eqb c "." || Ascii.eqb c ",".

(** [parseNanoseconds] of the [nbytes] leading bytes. *)
Definition parseNanoseconds (value : string) (nbytes : nat) : option Z :=
  match value with
  | String c r =>
      if comma_or_period c then
        let nbytes := Nat.min nbytes 10 in
        match time_atoi (String.substring 0 (nbytes - 1) r) with
        | Some ns => if ns <? 0 then None else Some (ns * 10 ^ Z.of_nat (10 - nbytes))
        | None => None
        end
      else None
  | "" => None
  end.

Fixpoint leading_digits (s : string) : nat :=
  match s with
  | String c r => if is_digit c then S (leading_digits r) else 0%nat
  | "" => 0%nat
  end.

Definition drop_bytes (n : nat) (s : string) : string := String.substring n (String.length s - n) s.

(** ** Layouts *)

(** What follows the seconds: exactly six digits, nothing, or any number. *)
Inductive frac_layout := Frac6 | FracNone | FracAny.

(** A fraction with at least one digit in front of [s]. *)
Definition has_fraction (s : string) : bool :=
  match s with
  | String c (String d _) => comma_or_period c && is_digit d
  | _ => false
  end.

Definition read_fraction (f : frac_layout) (s : string) : option (Z * string) :=
  let take n := match parseNanoseconds s n with
                | Some ns => Some (ns, drop_bytes n s)
                | None => None
                end in
  match f with
  | Frac6 => if (String.length s <? 7)%nat then None else take 7%nat
  | FracNone | FracAny => if has_fraction s then take (S (leading_digits (drop_bytes 1 s))) else Some (0, s)
  end.

(** The layout [Z07:00]: the offset in seconds. *)
Definition read_zone (s : string) : option (Z * string) :=
  match s with
  | String "Z" r => Some (0, r)
  | String sign r =>
      match getnum true r with
      | Some (hr, String ":" r) =>
          match getnum true r with
          | Some (mm, r) =>
              if (24 <? hr) || (60 <? mm) then None
              else let off := (hr * 60 + mm) * 60 in
                   if Ascii.eqb sign "+" then Some (off, r)
                   else if Ascii.eqb sign "-" then Some (- off, r) else None
          | None => None
          end
      | _ => None
      end
  | "" => None
  end.

Definition expect (c : ascii) (s : string) : option string :=
  match s with String d r => if Ascii.eqb c d then Some r else None | "" => None end.

Definition read_year (s : string) : option (Z * string) :=
  match s with
  | String a (String b (String c (String d r))) =>
      if is_digit a then
        match time_atoi (String a (String b (String c (String d "")))) with
        | Some y => Some (y, r)
        | None => None
        end
      else None
  | _ => None
  end.

Definition in_range (lo hi z : Z) : option unit := if (lo <=? z) && (z <=? hi) then Some tt else None.

(** [time.Parse] for "2006-01-02T15:04:05", a fraction and perhaps a zone. *)
Definition parse_datetime (f : frac_layout) (zone : bool) (s : string) : option Time :=
  '(y, s) ← read_year s; s ← expect "-" s;
  '(mo, s) ← getnum true s; _ ← in_range 1 12 mo; s ← expect "-" s;
  '(d, s) ← getnum true s; s ← expect "T" s;
  '(hh, s) ← getnum false s; _ ← in_range 0 23 hh; s ← expect ":" s;
  '(mi, s) ← getnum true s; _ ← in_range 0 59 mi; s ← expect ":" s;
  '(ss, s) ← getnum true s; _ ← in_range 0 59 ss;
  '(ns, s) ← read_fraction f s;
  '(off, s) ← (if zone then read_zone s else Some (0, s));
  if negb (str_eqb s "") then None
  else
    _ ← in_range 1 (days_in mo y) d;
    Some (days_of_civil y mo d * (24 * Hour) + hh * Hour + mi * Minute + ss * Second + ns - off * Second).

Definition parse_rfc3339nano (s : string) : option Time := parse_datetime FracAny true s.
Definition parse_rfc3339 (s : string) : option Time := parse_datetime FracNone true s.

Example parse_time_samples :
  map (parse_datetime Frac6 false) ["2024-02-29T12:34:56.789000"; "2024-02-29T12:34:56.789"; "2023-02-29T12:34:56.789000"] =
    [Some (UnixMilli 1709210096789); None; None] /\
  map (parse_datetime FracNone false) ["2024-02-29T12:34:56"; "2024-02-29T12:34:56.789"; "2024-02-29T12:34:56Z"] =
    [Some (UnixMilli 1709210096000); Some (UnixMilli 1709210096789); None] /\
  map parse_rfc3339nano ["2024-02-29T12:34:56.789Z"; "2024-02-29T14:34:56+02:00"; "1970-01-01T00:00:00Z"; ""] =
    [Some (UnixMilli 1709210096789); Some (UnixMilli 1709210096000); Some unix_epoch; None].
Proof. vm_compute. split_and!; reflexivity. Qed.

(** ** Calendar round trip *)

(** Linear arithmetic with quotients and remainders. *)
Ltac div_lia := Z.to_euclidean_division_equations; lia.

(** Years of the computation start in March; [yoe] counts them in an era of 400. *)
Definition year_start (yoe : Z) : Z := yoe * 365 + yoe / 4 - yoe / 100.
Definition year_len (yoe : Z) : Z := if is_leap (yoe + 1) then 366 else 365.
Definition year_guess (doe : Z) : Z := doe - doe / 1460 + doe / 36524 - doe / 146096.

Definition years : list Z := map Z.of_nat (seq 0 400).

Lemma in_years y : 0 <= y < 400 -> In y years.
Proof. intros. apply in_map_iff. exists (Z.to_nat y). split; [lia|]. apply in_seq. lia. Qed.

Lemma year_table y :
  0 <= y < 400 ->
  year_guess (year_start y) / 365 = y /\ year_guess (year_start y + year_len y - 1) / 365 = y /\
  year_start y + year_len y = (if y =? 399 then 146097 else year_start (y + 1)).
Proof.
  intros Hy.
  assert (H : forallb (fun y => (year_guess (year_start y) / 365 =? y) &&
      (year_guess (year_start y + year_len y - 1) / 365 =? y) &&
      (year_start y + year_len y =? (if y =? 399 then 146097 else year_start (y + 1)))) years = true)
    by (vm_compute; reflexivity).
  rewrite forallb_forall in H. specialize (H y (in_years y Hy)).
  apply andb_true_iff in H as [[H1 H2]%andb_true_iff H3]. apply Z.eqb_eq in H1, H2, H3. done.
Qed.

Lemma year_guess_mono a b : 0 <= a <= b -> b < 146097 -> year_guess a <= year_guess b.
Proof.
  intros Ha. assert (Hn : exists n : nat, b = a + Z.of_nat n) by (exists (Z.to_nat (b - a)); lia).
  destruct Hn as [n ->]. induction n as [|n IH]; intros Hn; [rewrite Z.add_0_r; lia|].
  etransitivity; [apply IH; lia|].
  assert (Hstep : forall d, 0 <= d -> d + 1 < 146097 -> year_guess d <= year_guess (d + 1)).
  { intros d Hd Hd'. unfold year_guess.
    pose proof (Z.div_mod d 1460). pose proof (Z.mod_pos_bound d 1460).
    assert ((d + 1) / 1460 <= d / 1460 + 1).
    { apply Z.lt_succ_r. apply Z.div_lt_upper_bound; lia. }
    assert (d / 36524 <= (d + 1) / 36524) by (apply Z.div_le_mono; lia).
    assert (d / 146096 = 0) by (apply Z.div_small; lia).
    destruct (decide (d + 1 = 146096)) as [E|E].
    - assert (d = 146095) as -> by lia. vm_compute. discriminate.
    - assert ((d + 1) / 146096 = 0) by (apply Z.div_small; lia). lia. }
  specialize (Hstep (a + Z.of_nat n)). replace (a + Z.of_nat (S n)) with (a + Z.of_nat n + 1) in * by lia.
  apply Hstep; lia.
Qed.

(** Every day of an era lies in one of its years, and the computation finds it. *)
Lemma era_year doe :
  0 <= doe < 146097 ->
  exists y, 0 <= y < 400 /\ year_start y <= doe < year_start y + year_len y /\ year_guess doe / 365 = y.
Proof.
  intros Hd.
  assert (Hcover : forall k : nat, (k <= 400)%nat ->
     doe < (if (Z.of_nat k =? 400) then 146097 else year_start (Z.of_nat k)) ->
     exists y, 0 <= y < 400 /\ year_start y <= doe < year_start y + year_len y).
  { induction k as [|k IH]; intros Hk H; [change (doe < 0) in H; lia|].
    destruct (Z_lt_le_dec doe (year_start (Z.of_nat k))) as [Hlt|Hge].
    - apply IH; [lia|]. destruct (Z.eqb_spec (Z.of_nat k) 400); lia.
    - exists (Z.of_nat k). split; [lia|]. split; [done|].
      destruct (year_table (Z.of_nat k)) as (_ & _ & ->); [lia|]. revert H.
      replace (Z.of_nat (S k)) with (Z.of_nat k + 1) by lia.
      destruct (Z.eqb_spec (Z.of_nat k + 1) 400), (Z.eqb_spec (Z.of_nat k) 399); intros; lia. }
  destruct (Hcover 400%nat) as (y & Hy & Hin); [lia|change (doe < 146097); lia|]. exists y. split; [done|]. split; [done|].
  destruct (year_table y Hy) as (H1 & H2 & H3).
  assert (0 <= year_start y).
  { unfold year_start. pose proof (Z.div_pos y 4). assert (y / 100 <= y) by (apply Z.div_le_upper_bound; lia). lia. }
  pose proof (year_guess_mono (year_start y) doe ltac:(lia) ltac:(lia)) as M1.
  pose proof (year_guess_mono doe (year_start y + year_len y - 1) ltac:(lia)) as M2.
  assert (year_start y + year_len y - 1 < 146097).
  { rewrite H3. destruct (Z.eqb_spec y 399); [lia|]. unfold year_start.
    pose proof (Z.div_mod (y + 1) 4). pose proof (Z.mod_pos_bound (y + 1) 4).
    pose proof (Z.div_pos (y + 1) 100). lia. }
  specialize (M2 ltac:(lia)).
  pose proof (Z.div_le_mono (year_guess (year_start y)) (year_guess doe) 365 ltac:(lia) M1).
  pose proof (Z.div_le_mono (year_guess doe) _ 365 ltac:(lia) M2). lia.
Qed.

(** Month and day of a day counted from the first of March. *)
Definition month_of (doy : Z) : Z :=
  let mp := (5 * doy + 2) / 153 in if mp <? 10 then mp + 3 else mp - 9.
Definition day_of (doy : Z) : Z := doy - (153 * ((5 * doy + 2) / 153) + 2) / 5 + 1.

Definition month_limit (leap : bool) (m : Z) : Z :=
  if m =? 2 then if leap then 29 else 28
  else if (m =? 4) || (m =? 6) || (m =? 9) || (m =? 11) then 30 else 31.

Lemma month_table (doy : Z) (leap : bool) :
  0 <= doy < (if leap then 366 else 365) ->
  1 <= month_of doy <= 12 /\ 1 <= day_of doy <= month_limit leap (month_of doy) /\
  (if month_of doy <=? 2 then month_of doy + 9 else month_of doy - 3) = (5 * doy + 2) / 153.
Proof.
  intros Hd.
  assert (H : forallb (fun d : Z => forallb (fun leap : bool =>
      (d =? 365) && negb leap ||
      ((1 <=? month_of d) && (month_of d <=? 12) && (1 <=? day_of d) && (day_of d <=? month_limit leap (month_of d)) &&
      ((if month_of d <=? 2 then month_of d + 9 else month_of d - 3) =? (5 * d + 2) / 153))) [true; false])
      (map Z.of_nat (seq 0 366)) = true) by (vm_compute; reflexivity).
  rewrite forallb_forall in H. specialize (H doy). rewrite forallb_forall in H.
  assert (Hin : In doy (map Z.of_nat (seq 0 366))).
  { apply in_map_iff. exists (Z.to_nat doy). split; [lia|]. apply in_seq. destruct leap; lia. }
  specialize (H Hin leap). assert (Hl : In leap [true; false]) by (destruct leap; cbn; auto).
  specialize (H Hl). apply orb_true_iff in H as [H|H].
  - apply andb_true_iff in H as [->%Z.eqb_eq ?%negb_true_iff]. subst leap. lia.
  - repeat (apply andb_true_iff in H as [H ?]).
    rewrite ?Z.leb_le, ?Z.eqb_eq in *. lia.
Qed.

Lemma is_leap_period y k : is_leap (y + 400 * k) = is_leap y.
Proof.
  unfold is_leap. replace (y + 400 * k) with (y + (100 * k) * 4) at 1 by lia.
  replace (y + 400 * k) with (y + (4 * k) * 100) at 1 by lia.
  replace (y + 400 * k) with (y + k * 400) by lia. by rewrite !Z.mod_add.
Qed.

(** The civil date of a day number is a date of the calendar, and its day
    number is the one it came from. *)
Lemma civil_roundtrip n :
  let '(y, m, d) := civil_of_days n in
  days_of_civil y m d = n /\ 1 <= m <= 12 /\ 1 <= d <= days_in m y.
Proof.
  unfold civil_of_days. set (z := n + 306). set (era := z / 146097). set (doe := z mod 146097).
  assert (Hdoe : 0 <= doe < 146097) by (apply Z.mod_pos_bound; lia).
  assert (Hz : z = 146097 * era + doe) by (apply Z.div_mod; lia).
  destruct (era_year doe Hdoe) as (yoe & Hyoe & Hin & Hg).
  unfold year_guess in Hg. rewrite Hg. fold (year_start yoe).
  set (doy := doe - (365 * yoe + yoe / 4 - yoe / 100)).
  assert (Hdoy : doy = doe - year_start yoe) by (unfold doy, year_start; lia).
  destruct (month_table doy (is_leap (yoe + 1))) as (Hm & Hday & Hmp).
  { unfold year_len in Hin. destruct (is_leap (yoe + 1)); lia. }
  fold (month_of doy). fold (day_of doy).
  set (year := yoe + era * 400 + (if month_of doy <=? 2 then 1 else 0)).
  split; [|split; [done|]].
  - unfold days_of_civil. rewrite Hmp.
    replace (if month_of doy <=? 2 then year - 1 else year) with (yoe + era * 400)
      by (unfold year; destruct (month_of doy <=? 2); lia).
    rewrite Z.div_add, Z.mod_add by lia. rewrite Z.div_small, Z.mod_small by lia.
    unfold day_of, year_start in *. lia.
  - split; [lia|]. etransitivity; [apply Hday|]. unfold month_limit, days_in.
    destruct (Z.eqb_spec (month_of doy) 2) as [E|]; [|done].
    unfold year. rewrite E. cbn [Z.leb Z.compare Pos.compare Pos.compare_cont].
    replace (yoe + era * 400 + 1) with (yoe + 1 + 400 * era) by lia. by rewrite is_leap_period.
Qed.

(** ** Text round trip *)

Lemma digits_fuel_length k fuel n acc :
  (n < 10 ^ N.of_nat (S k))%N -> (String.length (digits_fuel fuel n acc) <= S k + String.length acc)%nat.
Proof.
  revert fuel n acc. induction k as [|k IH]; intros fuel n acc Hn.
  - destruct fuel as [|fuel]; [cbn; lia|]. cbn [digits_fuel].
    destruct (N.ltb_spec n 10) as [_|]; [cbn; lia|]. change (10 ^ N.of_nat 1)%N with 10%N in Hn. lia.
  - destruct fuel as [|fuel]; [cbn; lia|]. cbn [digits_fuel]. destruct (N.ltb_spec n 10) as [_|]; [cbn; lia|].
    etransitivity; [apply (IH fuel (n / 10)%N (String _ acc))|cbn; lia].
    rewrite Nat2N.inj_succ, N.pow_succ_r' in Hn. apply N.Div0.div_lt_upper_bound. lia.
Qed.

Lemma fmt_d_nonneg z : 0 <= z -> fmt_d z = fmt_N (Z.to_N z).
Proof. by destruct z. Qed.

Lemma fmt_d_length k z :
  0 <= z < 10 ^ Z.of_nat (S k) -> (String.length (fmt_d z) <= S k)%nat.
Proof.
  intros Hz. rewrite fmt_d_nonneg by lia. unfold fmt_N.
  etransitivity; [apply (digits_fuel_length k)|cbn; lia].
  apply N2Z.inj_lt. rewrite N2Z.inj_pow, Z2N.id, nat_N_Z by lia. lia.
Qed.

Lemma dec_val_zeros n s a : a = 0%N -> dec_val (replicate_str n "0" +:+ s) a = dec_val s a.
Proof. intros ->. induction n as [|n IH]; [done|]. cbn. exact IH. Qed.

Lemma replicate_length n : String.length (replicate_str n "0") = n.
Proof. induction n as [|n IH]; [done|]. cbn. by rewrite IH. Qed.

Lemma replicate_digits n : str_all is_digit (replicate_str n "0") = true.
Proof. by induction n. Qed.

(** A decimal with leading zeros: [w] digits of value [z]. *)
Definition decimal (w : nat) (z : Z) (s : string) : Prop :=
  String.length s = w /\ str_all is_digit s = true /\ Z.of_N (dec_val s 0) = z.

Lemma fmt_0d_decimal w z : 0 <= z < 10 ^ Z.of_nat (S w) -> decimal (S w) z (fmt_0d (S w) z).
Proof.
  intros Hz. pose proof (fmt_d_length w z Hz) as Hl. unfold fmt_0d, decimal.
  rewrite length_app_str, replicate_length, str_all_app, replicate_digits, dec_val_zeros by done.
  rewrite fmt_d_nonneg in * by lia. rewrite fmt_N_digits, fmt_N_val, Z2N.id by lia.
  split_and!; [lia|done..].
Qed.

Lemma time_atoi_decimal w z s : decimal w z s -> time_atoi s = Some z.
Proof.
  intros (_ & Hd & Hv). unfold time_atoi. destruct s as [|c s].
  - cbn in *. by subst.
  - assert (Hc : is_digit c = true) by (cbn in Hd; by apply andb_true_iff in Hd as [? _]).
    destruct (ascii_dec c "-") as [->|H1]; [done|]. destruct (ascii_dec c "+") as [->|H2]; [done|].
    replace (match c with "-"%char => (true, s) | "+"%char => (false, s) | _ => (false, String c s) end)
      with (false, String c s).
    + rewrite Hd. by rewrite Hv.
    + clear -H1 H2. destruct c as [[] [] [] [] [] [] [] []]; try reflexivity; congruence.
Qed.

Lemma read_year_decimal y s t : decimal 4 y s -> read_year (s +:+ t) = Some (y, t).
Proof.
  intros H. pose proof (time_atoi_decimal _ _ _ H) as Ha. destruct H as (Hl & Hd & _).
  do 4 (destruct s as [|? s]; [discriminate Hl|]). destruct s; [|discriminate Hl].
  cbn [String.append read_year]. rewrite Ha.
  cbn [str_all] in Hd. apply andb_true_iff in Hd as [-> _]. done.
Qed.

Lemma digit_at_digit c s : is_digit c = true -> digit_at (String c s) = Some (digit_val c, s).
Proof. cbn. by intros ->. Qed.

Lemma getnum_decimal fixed n s t : decimal 2 n s -> getnum fixed (s +:+ t) = Some (n, t).
Proof.
  intros (Hl & Hd & Hv). do 2 (destruct s as [|? s]; [discriminate Hl|]). destruct s; [|discriminate Hl].
  cbn [str_all] in Hd. apply andb_true_iff in Hd as [H1 [H2 _]%andb_true_iff].
  cbn [String.append]. unfold getnum. rewrite !digit_at_digit by done. do 2 f_equal.
  revert Hv. cbn [dec_val]. unfold digit_val. unfold is_digit in H1, H2.
  apply andb_true_iff in H1 as [?%N.leb_le ?%N.leb_le]. apply andb_true_iff in H2 as [?%N.leb_le ?%N.leb_le]. lia.
Qed.

Lemma expect_char c s : expect c (String c s) = Some s.
Proof. cbn. by rewrite Ascii.eqb_refl. Qed.

Lemma in_range_ok lo hi z : lo <= z <= hi -> in_range lo hi z = Some tt.
Proof. intros. unfold in_range. by rewrite (proj2 (Z.leb_le _ _)), (proj2 (Z.leb_le _ _)) by lia. Qed.

Lemma dec_val_app a b acc : dec_val (a +:+ b) acc = dec_val b (dec_val a acc).
Proof. revert acc. induction a as [|c a IH]; intros acc; [done|]. cbn. apply IH. Qed.

Lemma one_digit d : 0 <= d < 10 -> decimal 1 d (fmt_d d).
Proof.
  intros Hd. assert (H : In d [0; 1; 2; 3; 4; 5; 6; 7; 8; 9]) by (cbn; lia).
  cbn in H. repeat destruct H as [<-|H]; [by vm_compute..|done].
Qed.

Lemma decimal_snoc p v d a b :
  decimal p v a -> 0 <= v -> decimal 1 d b -> decimal (S p) (10 * v + d) (a +:+ b).
Proof.
  intros (Hl & Hs & Hv) Hv0 (Hl' & Hs' & Hv'). destruct b as [|c [|]]; try discriminate Hl'.
  split_and!.
  - rewrite length_app_str, Hl. cbn. lia.
  - by rewrite str_all_app, Hs, Hs'.
  - rewrite dec_val_app. cbn [dec_val] in *. lia.
Qed.

(** [p] digits in front of [acc]. *)
Lemma fmt_frac_printing p v acc :
  0 <= v -> exists ds, fmt_frac p v true acc = ("." +:+ ds +:+ acc, v / 10 ^ Z.of_nat p) /\
    decimal p (v mod 10 ^ Z.of_nat p) ds.
Proof.
  revert v acc. induction p as [|p IH]; intros v acc Hv.
  - exists "". cbn. rewrite Z.div_1_r, Z.mod_1_r. by repeat split.
  - cbn [fmt_frac orb]. pose proof (Z.mod_pos_bound v 10 ltac:(lia)) as Hd.
    destruct (IH (v / 10) (String.append (fmt_d (v mod 10)) acc)) as (ds & E & Hds); [apply Z.div_pos; lia|].
    exists (ds +:+ fmt_d (v mod 10)). rewrite E, <- app_str_assoc.
    rewrite Nat2Z.inj_succ, Z.pow_succ_r, Z.div_div, Z.rem_mul_r by lia.
    split; [done|]. rewrite Z.add_comm. apply decimal_snoc; [done| |by apply one_digit].
    apply Z.mod_pos_bound. lia.
Qed.

(** A fraction without trailing zeros. *)
Lemma fmt_frac_spec p v :
  0 <= v < 10 ^ Z.of_nat p ->
  (v = 0 /\ (fmt_frac p v false "").1 = "") \/
  exists w u ds, (fmt_frac p v false "").1 = "." +:+ ds /\ (1 <= w <= p)%nat /\ decimal w u ds /\ 0 <= u /\
    u * 10 ^ Z.of_nat (p - w) = v.
Proof.
  revert v. induction p as [|p IH]; intros v Hv; [left; cbn in *; split; [lia|done]|].
  cbn [fmt_frac orb]. rewrite Nat2Z.inj_succ, Z.pow_succ_r in Hv by lia.
  pose proof (Z.div_mod v 10 ltac:(lia)) as Hdm. pose proof (Z.mod_pos_bound v 10 ltac:(lia)) as Hm.
  assert (Hq : 0 <= v / 10 < 10 ^ Z.of_nat p).
  { split; [apply Z.div_pos; lia|apply Z.div_lt_upper_bound; lia]. }
  destruct (Z.eqb_spec (v mod 10) 0) as [E|E]; cbn [negb].
  - destruct (IH (v / 10) Hq) as [[H0 ->]|(w & u & ds & -> & Hw & Hd & Hu & Hv')].
    + left. split; [lia|done].
    + right. exists w, u, ds. split; [done|]. split; [lia|]. split; [done|]. split; [done|].
      replace (S p - w)%nat with (S (p - w))%nat by lia. rewrite Nat2Z.inj_succ, Z.pow_succ_r by lia. lia.
  - right. destruct (fmt_frac_printing p (v / 10) (String.append (fmt_d (v mod 10)) "")) as (ds & -> & Hds); [lia|].
    rewrite Z.mod_small in Hds by lia. cbn [fst]. rewrite app_str_nil_r.
    exists (S p), v, (ds +:+ fmt_d (v mod 10)). split; [done|]. split; [lia|]. split; [|split; [lia|]].
    + rewrite Hdm at 1. apply decimal_snoc; [done|lia|by apply one_digit].
    + rewrite Nat.sub_diag. cbn. lia.
Qed.

Lemma substring_prefix a b : String.substring 0 (String.length a) (a +:+ b) = a.
Proof. induction a as [|c a IH]; cbn; [by destruct b|]. by rewrite IH. Qed.

Lemma substring_all s : String.substring 0 (String.length s) s = s.
Proof. rewrite <- (app_str_nil_r s) at 2. apply substring_prefix. Qed.

Lemma drop_bytes_app a b : drop_bytes (String.length a) (a +:+ b) = b.
Proof.
  unfold drop_bytes. rewrite length_app_str, Nat.add_comm, Nat.add_sub.
  induction a as [|c a IH]; [apply substring_all|]. cbn. apply IH.
Qed.

Lemma leading_digits_app ds c s :
  str_all is_digit ds = true -> is_digit c = false -> leading_digits (ds +:+ String c s) = String.length ds.
Proof.
  intros Hd Hc. induction ds as [|d ds IH]; cbn [leading_digits String.append String.length]; [by rewrite Hc|].
  cbn in Hd. apply andb_true_iff in Hd as [-> Hd]. by rewrite IH.
Qed.

Lemma read_fraction_spec v :
  0 <= v < Second -> read_fraction FracAny ((fmt_frac 9 v false "").1 +:+ "Z") = Some (v, "Z").
Proof.
  intros Hv. destruct (fmt_frac_spec 9 v Hv) as [[-> ->]|(w & u & ds & -> & Hw & Hd & Hu & <-)]; [done|].
  pose proof Hd as (Hl & Hs & _). destruct ds as [|c ds]; [cbn in Hl; lia|]. cbn [String.append].
  unfold read_fraction. cbn [has_fraction]. cbn [str_all] in Hs. apply andb_true_iff in Hs as [Hc Hs].
  rewrite Hc. cbn [comma_or_period Ascii.eqb Bool.eqb orb andb].
  change (drop_bytes 1 (String "." (String c (ds +:+ "Z")))) with (drop_bytes (String.length ".") ("." +:+ (String c ds +:+ "Z"))).
  rewrite drop_bytes_app, leading_digits_app; [|cbn; by rewrite Hc, Hs|done]. rewrite Hl.
  unfold parseNanoseconds. cbn [comma_or_period Ascii.eqb Bool.eqb orb].
  rewrite Nat.min_l by lia. replace (S w - 1)%nat with (String.length (String c ds)) by (rewrite Hl; lia).
  change (String c (ds +:+ "Z")) with (String c ds +:+ "Z"). rewrite substring_prefix.
  rewrite (time_atoi_decimal _ _ _ Hd). rewrite (proj2 (Z.ltb_ge u 0)) by lia. do 3 f_equal.
  change (String "." (String c ds +:+ "Z")) with (("." +:+ String c ds) +:+ "Z").
  replace (S w) with (String.length ("." +:+ String c ds)) by (cbn [String.append String.length] in *; lia).
  apply drop_bytes_app.
Qed.

Lemma civil_year n :
  0 <= n < 3652059 -> let '(y, _, _) := civil_of_days n in 1 <= y <= 9999.
Proof.
  intros Hn. pose proof (civil_roundtrip n) as H. destruct (civil_of_days n) as [[y m] d].
  destruct H as (E & Hm & Hd).
  assert (Hmono : forall k, (k / 400 * 146097 + (k mod 400 * 365 + k mod 400 / 4 - k mod 400 / 100) <= n -> k < 9999) /\
      (k / 400 * 146097 + (k mod 400 * 365 + k mod 400 / 4 - k mod 400 / 100) < 3652425 -> k < 10000) /\
      (-366 < k / 400 * 146097 + (k mod 400 * 365 + k mod 400 / 4 - k mod 400 / 100) -> 0 <= k) /\
      (1 <= k / 400 * 146097 + (k mod 400 * 365 + k mod 400 / 4 - k mod 400 / 100) -> 1 <= k)).
  { intros k. pose proof (Z.div_mod k 400 ltac:(lia)) as Hk. pose proof (Z.mod_pos_bound k 400 ltac:(lia)) as Hr.
    revert Hk Hr. generalize (k / 400) (k mod 400). intros e r Hk Hr.
    assert (0 <= r / 4 - r / 100 <= 96 /\ r / 4 - r / 100 <= r) by (clear -Hr; div_lia).
    destruct (decide (e = 24 /\ r = 399)) as [[-> ->]|Hne]; [clear -Hk Hn; div_lia|].
    split_and!; intros; lia. }
  assert (Hdl : d <= 31) by (unfold days_in in Hd; repeat case_match; lia).
  revert E. unfold days_of_civil. destruct (Z.leb_spec m 2) as [Hm2|Hm2].
  - set (doy := (153 * (m + 9) + 2) / 5). assert (306 <= doy <= 337) by (unfold doy; clear -Hm Hm2; div_lia).
    destruct (Hmono (y - 1)) as (H1 & H2 & H3 & H4). intros E. lia.
  - set (doy := (153 * (m - 3) + 2) / 5). assert (0 <= doy <= 275) by (unfold doy; clear -Hm Hm2; div_lia).
    destruct (Hmono y) as (H1 & H2 & H3 & H4). intros E. lia.
Qed.

(** Every instant of the years 1 to 9999 survives being written in RFC 3339 with
    nanoseconds and read back. *)
Lemma rfc3339nano_roundtrip t :
  0 <= t < 3652059 * (24 * Hour) -> parse_rfc3339nano (format_rfc3339nano t) = Some t.
Proof.
  intros Ht. unfold format_rfc3339nano. set (n := t / (24 * Hour)).
  assert (Hn : 0 <= n < 3652059).
  { split; [apply Z.div_pos|apply Z.div_lt_upper_bound]; unfold Hour, Minute, Second in *; lia. }
  pose proof (civil_roundtrip n) as Hc. pose proof (civil_year n Hn) as Hy.
  destruct (civil_of_days n) as [[y mo] d]. destruct Hc as (E & Hmo & Hd).
  assert (Hd31 : d <= 31) by (unfold days_in in Hd; repeat case_match; lia).
  assert (Hh : 0 <= clock_hour t <= 23) by (pose proof (Z.mod_pos_bound (t / Hour) 24); unfold clock_hour; lia).
  assert (Hmi : 0 <= clock_minute t <= 59) by (pose proof (Z.mod_pos_bound (t / Minute) 60); unfold clock_minute; lia).
  assert (Hs : 0 <= clock_second t <= 59) by (pose proof (Z.mod_pos_bound (t / Second) 60); unfold clock_second; lia).
  unfold parse_rfc3339nano, parse_datetime.
  rewrite (read_year_decimal y) by (apply (fmt_0d_decimal 3); lia). cbn [mbind option_bind].
  cbn [String.append]. rewrite !expect_char. cbn [mbind option_bind].
  rewrite (getnum_decimal _ mo) by (apply (fmt_0d_decimal 1); lia). cbn [mbind option_bind].
  rewrite in_range_ok by lia. cbn [mbind option_bind String.append]. rewrite expect_char. cbn [mbind option_bind].
  rewrite (getnum_decimal _ d) by (apply (fmt_0d_decimal 1); lia). cbn [mbind option_bind String.append].
  rewrite expect_char. cbn [mbind option_bind].
  rewrite (getnum_decimal _ (clock_hour t)) by (apply (fmt_0d_decimal 1); lia). cbn [mbind option_bind].
  rewrite in_range_ok by lia. cbn [mbind option_bind String.append]. rewrite expect_char. cbn [mbind option_bind].
  rewrite (getnum_decimal _ (clock_minute t)) by (apply (fmt_0d_decimal 1); lia). cbn [mbind option_bind].
  rewrite in_range_ok by lia. cbn [mbind option_bind String.append]. rewrite expect_char. cbn [mbind option_bind].
  rewrite (getnum_decimal _ (clock_second t)) by (apply (fmt_0d_decimal 1); lia). cbn [mbind option_bind].
  rewrite in_range_ok by lia. cbn [mbind option_bind].
  rewrite read_fraction_spec by (apply Z.mod_pos_bound; done). cbn [mbind option_bind].
  cbn [read_zone]. cbn [mbind option_bind]. rewrite str_eqb_refl. cbn [negb]. rewrite in_range_ok by lia.
  cbn [mbind option_bind]. rewrite E. f_equal. unfold n, clock_hour, clock_minute, clock_second.
  unfold Hour, Minute, Second. clear. div_lia.
Qed.
