(* ===== verification/GoFloat.v ===== *)
(** * IEEE 754 double precision numbers

    [float64] is the binary64 instance of the Standard Library's
    specification floats, so NaN, the infinities, the two zeros, rounding and
    overflow behave as in Go.  The file models the comparisons and operations
    the operators use, [strconv.ParseFloat] with 64 bits (decimal and
    hexadecimal literals, underscores, infinities and NaN, range errors) and
    the shortest decimal form behind the verbs [%g] and [FormatFloat(-1)]. *)

From S2P Require Import Prelude GoStrings.
From Stdlib Require Import SpecFloat Ascii String.
Local Open Scope Z_scope.

Definition float64 := spec_float.

Definition f_lt (a b : float64) : bool := SFltb a b.
Definition f_le (a b : float64) : bool := SFleb a b.
Definition f_gt (a b : float64) : bool := SFltb b a.
Definition f_ge (a b : float64) : bool := SFleb b a.
Definition f_add (a b : float64) : float64 := SFadd 53 1024 a b.
Definition f_sub (a b : float64) : float64 := SFsub 53 1024 a b.
Definition f_mul (a b : float64) : float64 := SFmul 53 1024 a b.
Definition f_div (a b : float64) : float64 := SFdiv 53 1024 a b.
Definition f_zero : float64 := S754_zero false.
Definition f_of_Z (z : Z) : float64 := binary_normalize 53 1024 z 0 false.

Definition IsNaN (f : float64) : bool :=
  match f with S754_nan => true | _ => false end.
Definition IsInf (f : float64) : bool :=
  match f with S754_infinity _ => true | _ => false end.
Definition is_finite (f : float64) : bool := negb (IsNaN f) && negb (IsInf f).

#[export] Instance float64_eq_dec : EqDecision float64.
Proof. unfold float64. solve_decision. Defined.

(** ** Correctly rounded conversions *)

(** The float nearest to [(-1)^neg * m * 10^e]. *)
Definition of_decimal (neg : bool) (m : N) (e : Z) : float64 :=
  match m with
  | N0 => S754_zero neg
  | Npos p =>
      if 0 <=? e
      then binary_round 53 1024 neg (Z.to_pos (Zpos p * 10 ^ e)) 0
      else
        let '(q, e', l) := SFdiv_core_binary 53 1024 (Zpos p) 0 (10 ^ (- e)) 0 in
        binary_round_aux 53 1024 neg q e' l
  end.

(** The float nearest to [(-1)^neg * m * 2^e]. *)
Definition of_binary (neg : bool) (m : N) (e : Z) : float64 :=
  match m with
  | N0 => S754_zero neg
  | Npos p => binary_round 53 1024 neg p e
  end.

(** ** strconv.ParseFloat *)

Inductive NumError := ErrSyntax | ErrRange.

Definition hex_val (c : ascii) : option Z :=
  if is_digit c then Some (digit_val c)
  else
    let v := Z.of_N (byte_val (lower_byte c)) in
    if (97 <=? v) && (v <=? 102) then Some (v - 87) else None.

Definition digit_in (hex : bool) (c : ascii) : option Z :=
  if hex then hex_val c
  else if is_digit c then Some (digit_val c) else None.

(** Mantissa scanner: accumulated digits, number of digits after the point,
    whether a point, a digit and an underscore were seen. *)
Record mant := Mant {
  m_val : Z; m_frac : Z; m_dot : bool; m_digits : bool; m_under : bool
}.

Fixpoint read_mant (hex : bool) (s : string) (st : mant) : mant * string :=
  match s with
  | EmptyString => (st, s)
  | String c rest =>
      if Ascii.eqb c "_"%char then
        read_mant hex rest (Mant (m_val st) (m_frac st) (m_dot st) (m_digits st) true)
      else if Ascii.eqb c "."%char then
        if m_dot st then (st, s)
        else read_mant hex rest (Mant (m_val st) (m_frac st) true (m_digits st) (m_under st))
      else
        match digit_in hex c with
        | Some d =>
            let base := if hex then 16 else 10 in
            read_mant hex rest
              (Mant (m_val st * base + d)
                    (if m_dot st then m_frac st + 1 else m_frac st)
                    (m_dot st) true (m_under st))
        | None => (st, s)
        end
  end.

(** Exponent digits; the accumulator stops growing at 10000 as in the library. *)
Fixpoint read_exp (s : string) (e : Z) (under : bool) : Z * bool * string :=
  match s with
  | EmptyString => (e, under, s)
  | String c rest =>
      if Ascii.eqb c "_"%char then read_exp rest e true
      else if is_digit c then
        read_exp rest (if e <? 10000 then e * 10 + digit_val c else e) under
      else (e, under, s)
  end.

Definition take_sign (s : string) : bool * string :=
  match s with
  | String c rest =>
      if Ascii.eqb c "+"%char then (false, rest)
      else if Ascii.eqb c "-"%char then (true, rest)
      else (false, s)
  | EmptyString => (false, s)
  end.

Inductive saw_kind := saw_start | saw_digit | saw_underscore | saw_other.

Fixpoint underscores_ok (hex : bool) (s : string) (saw : saw_kind) : bool :=
  match s with
  | EmptyString => match saw with saw_underscore => false | _ => true end
  | String c rest =>
      match digit_in hex c with
      | Some _ => underscores_ok hex rest saw_digit
      | None =>
          if Ascii.eqb c "_"%char then
            match saw with
            | saw_digit => underscores_ok hex rest saw_underscore
            | _ => false
            end
          else
            match saw with
            | saw_underscore => false
            | _ => underscores_ok hex rest saw_other
            end
      end
  end.

(** [underscoreOK], with its optional sign and base prefix. *)
Definition underscoreOK (s : string) : bool :=
  let '(_, s) := take_sign s in
  match s with
  | String z (String x rest) =>
      let x' := lower_byte x in
      if Ascii.eqb z "0"%char &&
         (Ascii.eqb x' "b"%char || Ascii.eqb x' "o"%char || Ascii.eqb x' "x"%char)
      then underscores_ok (Ascii.eqb x' "x"%char) rest saw_digit
      else underscores_ok false s saw_start
  | _ => underscores_ok false s saw_start
  end.

(** [special]: the infinities and NaN, in any case. *)
Definition special (s : string) : option float64 :=
  let '(neg, body) := take_sign s in
  let signed := negb (bool_decide (body = s)) in
  let l := lower_ascii body in
  if bool_decide (l = "inf"%string) || bool_decide (l = "infinity"%string)
  then Some (S754_infinity neg)
  else if bool_decide (l = "nan"%string) && negb signed then Some S754_nan
  else None.

(** [readFloat] followed by the conversion; the whole string must be read. *)
Definition read_number (s : string) : option float64 :=
  let '(neg, body) := take_sign s in
  let '(hex, digits) :=
    match body with
    | String z (String x ((String _ _) as rest)) =>
        if Ascii.eqb z "0"%char && Ascii.eqb (lower_byte x) "x"%char
        then (true, rest) else (false, body)
    | _ => (false, body)
    end in
  let '(m, rest) := read_mant hex digits (Mant 0 0 false false false) in
  if negb (m_digits m) then None else
  let exp_char := if hex then "p"%char else "e"%char in
  let expo : option (Z * bool * string) :=
    match rest with
    | String c after =>
        if Ascii.eqb (lower_byte c) exp_char then
          let '(eneg, es) := take_sign after in
          match es with
          | String d _ =>
              if is_digit d then
                let '(e, u, tail) := read_exp es 0 false in
                Some (if eneg then - e else e, u, tail)
              else None
          | EmptyString => None
          end
        else if hex then None else Some (0, false, rest)
    | EmptyString => if hex then None else Some (0, false, rest)
    end in
  match expo with
  | Some (e, u, EmptyString) =>
      if (m_under m || u) && negb (underscoreOK s) then None
      else
        Some (if hex then of_binary neg (Z.to_N (m_val m)) (e - 4 * m_frac m)
              else of_decimal neg (Z.to_N (m_val m)) (e - m_frac m))
  | _ => None
  end.

(** [strconv.ParseFloat(s, 64)]: a literal that overflows is a range error. *)
Definition ParseFloat (s : string) : result NumError float64 :=
  match special s with
  | Some f => Ok f
  | None =>
      match read_number s with
      | Some (S754_infinity _) => Err ErrRange
      | Some f => Ok f
      | None => Err ErrSyntax
      end
  end.

(** ** Shortest decimal form *)

(** [|f| = num/den] for a finite non-zero float. *)
Definition as_ratio (m : positive) (e : Z) : Z * Z :=
  if 0 <=? e then (Zpos m * 2 ^ e, 1) else (Zpos m, 2 ^ (- e)).

(** The decimal point position [dp] with [10^(dp-1) <= num/den < 10^dp],
    searched upwards from a lower bound. *)
Fixpoint find_dp (fuel : nat) (num den dp : Z) : Z :=
  match fuel with
  | O => dp
  | S fuel =>
      if (if 0 <=? dp then num <? den * 10 ^ dp else num * 10 ^ (- dp) <? den)
      then dp else find_dp fuel num den (dp + 1)
  end.

(** Candidates with [n] digits around [num/den], the nearest first. *)
Definition candidates (num den dp n : Z) : list Z :=
  let k := n - dp in
  let '(a, b) := if 0 <=? k then (num * 10 ^ k, den) else (num, den * 10 ^ (- k)) in
  let q := a / b in
  let r := a mod b in
  if (2 * r <? b) || ((2 * r =? b) && Z.even q) then [q; q + 1] else [q + 1; q].

Fixpoint shortest_digits (fuel : nat) (f : float64) (num den dp n : Z) : Z * Z :=
  let ok d := bool_decide (of_decimal false (Z.to_N d) (dp - n) = f) in
  match fuel with
  | O => (num, dp)
  | S fuel =>
      match List.find ok (candidates num den dp n) with
      | Some d => (d, dp - n)
      | None => shortest_digits fuel f num den dp (n + 1)
      end
  end.

Fixpoint strip_zeros (fuel : nat) (d e : Z) : Z * Z :=
  match fuel with
  | O => (d, e)
  | S fuel => if (d mod 10 =? 0) && negb (d =? 0) then strip_zeros fuel (d / 10) (e + 1) else (d, e)
  end.

(** Digits [d] and exponent [e] of the shortest decimal [d * 10^e] that reads
    back as the positive finite float [m * 2^e2]. *)
Definition shortest (m : positive) (e2 : Z) : Z * Z :=
  let '(num, den) := as_ratio m e2 in
  let dp0 := (Z.log2 (Zpos m) + e2) * 30103 / 100000 - 1 in
  let dp := find_dp 8 num den dp0 in
  let '(d, e) := shortest_digits 18 (S754_finite false m e2) num den dp 1 in
  strip_zeros 20 d e.

Definition take_str (n : nat) (s : string) : string := String.substring 0 n s.
Definition drop_str (n : nat) (s : string) : string :=
  String.substring n (String.length s - n) s.

(** Plain decimal notation of [d * 10^e]. *)
Definition fixed_notation (d e : Z) : string :=
  let ds := fmt_d d in
  if 0 <=? e then ds +:+ replicate_str (Z.to_nat e) "0"
  else
    let n := String.length ds in
    let k := Z.to_nat (- e) in
    if (k <? n)%nat then take_str (n - k) ds +:+ "." +:+ drop_str (n - k) ds
    else "0." +:+ replicate_str (k - n) "0" +:+ ds.

(** Exponent notation [d.ddde±xx]. *)
Definition exp_notation (d e : Z) : string :=
  let ds := fmt_d d in
  let x := Z.of_nat (String.length ds) - 1 + e in
  let frac := drop_str 1 ds in
  let sign := if x <? 0 then "-"%string else "+"%string in
  (take_str 1 ds +:+ (if bool_decide (frac = EmptyString) then EmptyString else "." +:+ frac)
   +:+ "e" +:+ sign +:+ fmt_0d 2 (Z.abs x))%string.

(** The verb [%g]: exponent notation below [1e-4] and from [1e6] on, the
    thresholds of the shortest precision. *)
Definition fmt_g (f : float64) : string :=
  match f with
  | S754_nan => "NaN"%string
  | S754_infinity s => if s then "-Inf"%string else "+Inf"%string
  | S754_zero s => if s then "-0"%string else "0"%string
  | S754_finite s m e2 =>
      let '(d, e) := shortest m e2 in
      let x := Z.of_nat (String.length (fmt_d d)) - 1 + e in
      let body := if (x <? -4) || (6 <=? x) then exp_notation d e else fixed_notation d e in
      if s then ("-" +:+ body)%string else body
  end.

(** [strconv.FormatFloat(f, 'f', -1, 64)]: plain decimal notation always. *)
Definition fmt_f (f : float64) : string :=
  match f with
  | S754_nan => "NaN"%string
  | S754_infinity s => if s then "-Inf"%string else "+Inf"%string
  | S754_zero s => if s then "-0"%string else "0"%string
  | S754_finite s m e2 =>
      let '(d, e) := shortest m e2 in
      if s then ("-" +:+ fixed_notation d e)%string else fixed_notation d e
  end.

Example parse_samples :
  ParseFloat "-120" = Ok (f_of_Z (-120)) /\
  ParseFloat "0x1p4" = Ok (f_of_Z 16) /\
  ParseFloat "1_000.5e-1" = ParseFloat "100.05" /\
  ParseFloat "1e999" = Err ErrRange /\
  ParseFloat "1__0" = Err ErrSyntax /\
  ParseFloat "-Infinity" = Ok (S754_infinity true) /\
  ParseFloat "+nan" = Err ErrSyntax /\
  ParseFloat "" = Err ErrSyntax.
Proof. vm_compute. repeat split. Qed.

Example fmt_g_samples :
  map (fun s => match ParseFloat s with Ok f => fmt_g f | Err _ => EmptyString end)
    ["0.1"; "10"; "1000000"; "-2.5e-7"; "1.7976931348623157e308"; "5e-324"]%string =
  ["0.1"; "10"; "1e+06"; "-2.5e-07"; "1.7976931348623157e+308"; "5e-324"]%string.
Proof. vm_compute. reflexivity. Qed.

(** ** Rounding to integers *)

(** The verb [%.nf]: the exact value rounded to [prec] decimals, ties to even. *)
Definition fmt_fixed (prec : nat) (f : float64) : string :=
  let body (q : Z) :=
    let p := 10 ^ Z.of_nat prec in
    (fmt_d (q / p) +:+ (if (prec =? 0)%nat then "" else "." +:+ fmt_0d prec (q mod p)))%string in
  let sign (s : bool) := if s then "-"%string else ""%string in
  match f with
  | S754_nan => "NaN"%string
  | S754_infinity s => if s then "-Inf"%string else "+Inf"%string
  | S754_zero s => (sign s +:+ body 0)%string
  | S754_finite s m e =>
      let '(num, den) := as_ratio m e in
      let a := num * 10 ^ Z.of_nat prec in
      let q := a / den in
      let r := a mod den in
      let up := (den <? 2 * r) || ((2 * r =? den) && Z.odd q) in
      (sign s +:+ body (if up then q + 1 else q))%string
  end.

(** [math.Round]: to the nearest integer, ties away from zero. *)
Definition f_round (f : float64) : float64 :=
  match f with
  | S754_finite s m e =>
      if 0 <=? e then f
      else let den := 2 ^ (- e) in
           let q := (2 * Zpos m + den) / (2 * den) in
           of_binary s (Z.to_N q) 0
  | _ => f
  end.

(** The integer part of a finite float. *)
Definition f_trunc (f : float64) : Z :=
  match f with
  | S754_finite s m e =>
      let '(num, den) := as_ratio m e in
      let q := num / den in if s then - q else q
  | _ => 0
  end.

(** [int(f)]; outside the range of 64 bits the result is the one of amd64. *)
Definition int_of_float (f : float64) : Z :=
  let z := f_trunc f in
  if is_finite f && (int64_min <=? z) && (z <=? int64_max) then z else int64_min.

Example rounding_samples :
  (fmt_fixed 1 (of_decimal false 4725 (-2)), fmt_fixed 0 (of_decimal false 5 (-1)),
   fmt_fixed 1 (of_decimal true 4 (-2)), fmt_fixed 0 (of_decimal false 14361 (-1))) =
    ("47.2", "0", "-0.0", "1436")%string /\
  map (fun f => int_of_float (f_round f)) [of_decimal false 25 (-1); of_decimal true 25 (-1); of_decimal false 49 (-2)] =
    [3; -3; 0].
Proof. vm_compute. split; reflexivity. Qed.

(** ** Order lemmas *)

Lemma SFcompare_antisym a b :
  SFcompare b a = option_map CompOpp (SFcompare a b).
Proof.
  destruct a as [s|s| |s m e], b as [t|t| |t n f]; simpl; try done;
    try (by destruct s, t); try (by destruct s); try (by destruct t).
  f_equal. rewrite (Z.compare_antisym e f).
  destruct s, t; try done; destruct (Z.compare e f); simpl; try done;
    fold (Pos.compare m n); fold (Pos.compare n m);
    rewrite (Pos.compare_antisym m n); by destruct (Pos.compare m n).
Qed.

Lemma SFcompare_refl a : IsNaN a = false -> SFcompare a a = Some Eq.
Proof.
  destruct a as [s|s| |s m e]; try done; [by destruct s|].
  intros _. simpl. rewrite Z.compare_refl. fold (Pos.compare m m).
  rewrite Pos.compare_refl. by destruct s.
Qed.

Lemma SFcompare_some a b :
  IsNaN a = false -> IsNaN b = false -> exists c, SFcompare a b = Some c.
Proof. destruct a, b; simpl; eauto; done. Qed.

(** No order holds both ways, NaN or not. *)
Lemma f_lt_not_ge a b : f_lt a b = true -> f_ge a b = false.
Proof.
  unfold f_lt, f_ge, SFltb, SFleb. rewrite (SFcompare_antisym a b).
  by destruct (SFcompare a b) as [[]|].
Qed.

Lemma f_gt_not_le a b : f_gt a b = true -> f_le a b = false.
Proof. intros H. apply (f_lt_not_ge b a) in H. exact H. Qed.

(** Away from NaN the order is total. *)
Lemma f_ge_negb_lt a b :
  IsNaN a = false -> IsNaN b = false -> f_ge a b = negb (f_lt a b).
Proof.
  intros Ha Hb. destruct (SFcompare_some a b Ha Hb) as [c E].
  unfold f_lt, f_ge, SFltb, SFleb. rewrite (SFcompare_antisym a b), E.
  by destruct c.
Qed.

Lemma f_le_negb_gt a b :
  IsNaN a = false -> IsNaN b = false -> f_le a b = negb (f_gt a b).
Proof. intros Ha Hb. exact (f_ge_negb_lt b a Hb Ha). Qed.

Lemma is_finite_not_nan f : is_finite f = true -> IsNaN f = false.
Proof. by destruct f. Qed.

#[export] Hint Resolve is_finite_not_nan : ntn.

(** ** Adding a zero *)

Definition is_zero (f : float64) : bool :=
  match f with S754_zero _ => true | _ => false end.

Lemma SFcompare_add_zero a v z :
  is_zero z = true -> SFcompare (f_add v z) a = SFcompare v a.
Proof. destruct z; try done. intros _. destruct v as [[]|[]| |]; destruct s; by destruct a. Qed.

Lemma SFcompare_sub_zero a v z :
  is_zero z = true -> SFcompare (f_sub v z) a = SFcompare v a.
Proof. destruct z; try done. intros _. destruct v as [[]|[]| |]; destruct s; by destruct a. Qed.

Lemma f_ge_add_zero a v z : is_zero z = true -> f_ge a (f_add v z) = f_ge a v.
Proof. intros Hz. unfold f_ge, SFleb. by rewrite SFcompare_add_zero. Qed.

Lemma f_le_sub_zero a v z : is_zero z = true -> f_le a (f_sub v z) = f_le a v.
Proof.
  intros Hz. unfold f_le, SFleb.
  rewrite (SFcompare_antisym _ a), SFcompare_sub_zero by done.
  by rewrite <- SFcompare_antisym.
Qed.

Lemma f_lt_sub_zero v z : is_zero z = true -> f_lt (f_sub v z) f_zero = f_lt v f_zero.
Proof. intros Hz. unfold f_lt, SFltb. by rewrite SFcompare_sub_zero. Qed.

(** Below a negative number is below zero. *)
Lemma f_le_neg_trans a v : f_le a v = true -> f_lt v f_zero = true -> f_le a f_zero = true.
Proof.
  unfold f_le, f_lt, SFleb, SFltb, f_zero.
  destruct a as [sa|sa| |sa ma ea], v as [sv|sv| |sv mv ev]; simpl; try done;
    destruct sa; try done; destruct sv; done.
Qed.

(** A margin that is neither negative nor NaN is a zero or positive. *)
Lemma nonneg_margin_cases z :
  IsNaN z = false -> f_lt z f_zero = false -> is_zero z = true \/ f_le z f_zero = false.
Proof.
  unfold f_le, f_lt, SFleb, SFltb, f_zero.
  destruct z as [s|s| |s m e]; simpl; try done; auto; destruct s; auto; done.
Qed.

(** The negation of a comparison away from NaN. *)
Lemma f_not_firing_ge a b :
  IsNaN a = false -> IsNaN b = false ->
  f_lt a b = false \/ f_le a b = false -> f_ge a b = true.
Proof.
  intros Ha Hb. destruct (SFcompare_some a b Ha Hb) as [c E].
  unfold f_lt, f_le, f_ge, SFltb, SFleb. rewrite (SFcompare_antisym a b), E.
  destruct c; simpl; intuition.
Qed.

Lemma f_not_firing_le a b :
  IsNaN a = false -> IsNaN b = false ->
  f_gt a b = false \/ f_ge a b = false -> f_le a b = true.
Proof. intros Ha Hb H. by apply (f_not_firing_ge b a). Qed.
