(* ===== verification/GoDecimal.v ===== *)
(** * Decimal literals

    When a decimal literal is read as a finite number: the rounding of a
    significand and an exponent that are not too large, the scanners of
    [strconv.ParseFloat] on the literals the resource schemas let through, and
    their composition. *)

From S2P Require Import Prelude GoStrings GoFloat.
From Stdlib Require Import Ascii SpecFloat.
Local Open Scope Z_scope.
Local Arguments String.append !_ _ /.

(** ** Rounding *)

Lemma digits2_pos_size p : digits2_pos p = Pos.size p.
Proof. by induction p as [p IH|p IH|]; cbn; rewrite ?IH. Qed.

Lemma digits2_pos_log2 p : Zpos (digits2_pos p) = Z.log2 (Zpos p) + 1.
Proof. rewrite digits2_pos_size. destruct p; cbn; lia. Qed.

Lemma digits2_bound m : 0 <= m -> m < 2 ^ Zdigits2 m.
Proof.
  intros Hm. destruct m as [|p|p]; [cbn; lia| |lia]. cbn [Zdigits2]. rewrite digits2_pos_log2.
  apply (Z.log2_spec (Zpos p)). lia.
Qed.

Lemma digits2_least m k : 0 <= m -> 0 <= k -> m < 2 ^ k -> Zdigits2 m <= k.
Proof.
  intros Hm Hk H. destruct m as [|p|p]; [cbn; lia| |lia]. cbn [Zdigits2]. rewrite digits2_pos_log2.
  apply Z.log2_lt_pow2 in H; lia.
Qed.

Lemma digits2_nonneg m : 0 <= Zdigits2 m.
Proof. destruct m; cbn; lia. Qed.

Lemma shr_1_half mrs : 0 <= shr_m mrs -> shr_m (shr_1 mrs) = shr_m mrs / 2.
Proof.
  destruct mrs as [[|[p|p|]|p] r s]; cbn; intros; try lia; try done;
    [by rewrite <- Z.div2_div|by rewrite <- Z.div2_div].
Qed.

Lemma shr_iter p mrs :
  0 <= shr_m mrs -> shr_m (iter_pos shr_1 p mrs) = shr_m mrs / 2 ^ Zpos p.
Proof.
  assert (Hdiv : forall x a b, 0 <= x -> 0 <= a -> 0 <= b -> x / 2 ^ a / 2 ^ b = x / 2 ^ (a + b)).
  { intros x a b ? ? ?. rewrite Z.div_div, <- Z.pow_add_r by lia. done. }
  revert mrs. induction p as [p IH|p IH|]; intros mrs Hm; cbn [iter_pos].
  - assert (0 <= shr_m (shr_1 mrs)) by (rewrite shr_1_half by done; apply Z.div_pos; lia).
    rewrite IH, IH, shr_1_half by (rewrite ?IH by done; try done; apply Z.div_pos; lia).
    replace (shr_m mrs / 2) with (shr_m mrs / 2 ^ 1) by done.
    rewrite !(Hdiv (shr_m mrs)) by lia. do 2 f_equal. lia.
  - rewrite IH, IH by (rewrite ?IH by done; try done; apply Z.div_pos; lia).
    rewrite Hdiv by lia. do 2 f_equal. lia.
  - by rewrite shr_1_half.
Qed.

Lemma shr_record_of_loc_m m l : shr_m (shr_record_of_loc m l) = m.
Proof. by destruct l as [|[]]. Qed.

(** One alignment: how far the exponent moves and what is left of the bits. *)
Lemma shr_fexp_spec m e l r e' :
  0 <= m -> shr_fexp 53 1024 m e l = (r, e') ->
  0 <= shr_m r /\ e' = Z.max e (fexp 53 1024 (Zdigits2 m + e)) /\
  shr_m r < 2 ^ Z.max 0 (Zdigits2 m + e - e').
Proof.
  intros Hm. unfold shr_fexp, shr. pose proof (digits2_bound m Hm) as Hd.
  pose proof (digits2_nonneg m).
  assert (shr_m (shr_record_of_loc m l) = m) as E by apply shr_record_of_loc_m.
  destruct (fexp 53 1024 (Zdigits2 m + e) - e) as [|p|p] eqn:En; intros [= <- <-].
  - rewrite E. split_and!; [done|lia|]. replace (Z.max 0 _) with (Zdigits2 m) by lia. done.
  - rewrite shr_iter, E by lia. split_and!; [apply Z.div_pos; lia|lia|].
    apply Z.div_lt_upper_bound; [lia|]. rewrite <- Z.pow_add_r by lia.
    eapply Z.lt_le_trans; [exact Hd|]. apply Z.pow_le_mono_r; lia.
  - rewrite E. split_and!; [done|lia|]. replace (Z.max 0 _) with (Zdigits2 m) by lia. done.
Qed.

Lemma round_even_bound m l : 0 <= m -> m <= round_nearest_even m l <= m + 1.
Proof. intros Hm. destruct l as [|[]]; cbn; [lia|destruct (Z.even m); lia|lia|lia]. Qed.

Lemma fexp_bound d : fexp 53 1024 d = Z.max (d - 53) (-1074).
Proof. done. Qed.

(** Rounding does not overflow below [2^1023]. *)
Lemma round_aux_finite s m e l :
  0 <= m -> e <= 970 -> Zdigits2 m + e <= 1023 ->
  is_finite (binary_round_aux 53 1024 s m e l) = true.
Proof.
  intros Hm He Hd. unfold binary_round_aux.
  destruct (shr_fexp 53 1024 m e l) as [r e1] eqn:E1.
  apply shr_fexp_spec in E1 as (Hr & -> & Hlt); [|done]. rewrite fexp_bound in *.
  set (e1 := Z.max e _) in *. pose proof (round_even_bound (shr_m r) (loc_of_shr_record r) Hr) as Hn.
  set (n := round_nearest_even _ _) in *.
  assert (Zdigits2 n <= Z.max 0 (Zdigits2 m + e - e1) + 1) as Hdn.
  { apply digits2_least; [lia|lia|]. rewrite Z.pow_add_r by lia.
    assert (1 <= 2 ^ Z.max 0 (Zdigits2 m + e - e1)) by (apply Z.lt_pred_le, Z.pow_pos_nonneg; lia). lia. }
  destruct (shr_fexp 53 1024 n e1 loc_Exact) as [r2 e2] eqn:E2.
  apply shr_fexp_spec in E2 as (Hr2 & -> & _); [|lia]. rewrite fexp_bound.
  destruct (shr_m r2) as [|p|p]; [done| |lia].
  destruct (Z.leb_spec (Z.max e1 (Z.max (Zdigits2 n + e1 - 53) (-1074))) (1024 - 53)) as [_|Hbig]; [done|].
  exfalso. unfold e1 in *. lia.
Qed.

Lemma shl_iter_digits d m : Zpos (digits2_pos (Pos.iter xO m d)) = Zpos (digits2_pos m) + Zpos d.
Proof.
  induction d as [|d IH] using Pos.peano_ind; [cbn; lia|].
  rewrite Pos.iter_succ. cbn [digits2_pos]. rewrite !Pos2Z.inj_succ, IH. lia.
Qed.

Lemma binary_round_finite s m e :
  e <= 970 -> Zdigits2 (Zpos m) + e <= 1023 -> is_finite (binary_round 53 1024 s m e) = true.
Proof.
  intros He Hd. unfold binary_round, shl_align. cbn [Zdigits2] in Hd.
  destruct (fexp 53 1024 (Zpos (digits2_pos m) + e) - e) as [|p|p] eqn:E;
    apply round_aux_finite; cbn [Zdigits2]; try lia.
  rewrite shl_iter_digits. lia.
Qed.

Lemma round_aux_sign m e l : f_lt (binary_round_aux 53 1024 false m e l) f_zero = false.
Proof.
  unfold binary_round_aux. destruct (shr_fexp _ _ _ _ _) as [r e1].
  destruct (shr_fexp _ _ _ _ _) as [r2 e2]. destruct (shr_m r2); [done| |done].
  by destruct (_ <=? _).
Qed.

(** A decimal of moderate size is a finite number, and its sign is the written one. *)
Lemma of_decimal_finite neg m e :
  Z.of_N m * 10 ^ Z.max 0 e < 2 ^ 1023 -> is_finite (of_decimal neg m e) = true.
Proof.
  intros H. destruct m as [|p]; [done|]. cbn [of_decimal Z.of_N] in *.
  destruct (Z.leb_spec 0 e) as [He|He].
  - rewrite Z.max_r in H by done. apply binary_round_finite; [lia|].
    assert (0 < 10 ^ e) by (apply Z.pow_pos_nonneg; lia).
    rewrite Z2Pos.id by nia. rewrite Z.add_0_r. apply digits2_least; lia.
  - rewrite Z.max_l, Z.mul_1_r in H by lia.
    assert (0 < 10 ^ (- e)) as H10 by (apply Z.pow_pos_nonneg; lia).
    unfold SFdiv_core_binary. set (e' := Z.min _ _).
    assert (e' <= 0) by (unfold e'; lia).
    destruct (Z.div_eucl _ _) as [q r] eqn:Eq.
    assert (q = (Zpos p * 2 ^ (- e')) / 10 ^ (- e)) as ->.
    { unfold Z.div. destruct (0 - 0 - e') as [|k|k] eqn:Ek; [| |lia].
      - replace (- e') with 0 by lia. rewrite Z.mul_1_r, Eq. done.
      - rewrite Z.shiftl_mul_pow2 in Eq by lia. replace (- e') with (Zpos k) by lia. by rewrite Eq. }
    assert (0 < 2 ^ (- e')) by (apply Z.pow_pos_nonneg; lia).
    apply round_aux_finite; [apply Z.div_pos; nia|lia|].
    assert (Zdigits2 (Zpos p * 2 ^ (- e') / 10 ^ (- e)) <= 1023 + - e'); [|lia].
    apply digits2_least; [apply Z.div_pos; nia|lia|]. rewrite Z.pow_add_r by lia.
    apply Z.div_lt_upper_bound; nia.
Qed.

Lemma of_decimal_sign m e : f_lt (of_decimal false m e) f_zero = false.
Proof.
  destruct m as [|p]; [done|]. cbn [of_decimal]. destruct (0 <=? e).
  - unfold binary_round. destruct (shl_align _ _ _). apply round_aux_sign.
  - destruct (SFdiv_core_binary _ _ _ _ _ _) as [[? ?] ?]. apply round_aux_sign.
Qed.

(** ** Scanning *)

Lemma digit_not_special c :
  is_digit c = true ->
  Ascii.eqb c "_" = false /\ Ascii.eqb c "." = false /\ Ascii.eqb c "+" = false /\
  Ascii.eqb c "-" = false /\ digit_in false c = Some (digit_val c) /\ 0 <= digit_val c <= 9.
Proof.
  intros Hc. assert (0 <= digit_val c <= 9).
  { unfold is_digit, digit_val in *. apply andb_true_iff in Hc as [?%N.leb_le ?%N.leb_le]. lia. }
  unfold digit_in. rewrite Hc. split_and!; try lia; try done;
    match goal with |- Ascii.eqb c ?d = false => by destruct (Ascii.eqb_spec c d) as [->|] end.
Qed.

Abbreviation slen s := (Z.of_nat (String.length s)).

(** The mantissa scanner reads a run of digits. *)
Lemma read_mant_digits ds rest st :
  str_all is_digit ds = true -> 0 <= m_val st ->
  exists v,
    read_mant false (ds +:+ rest) st =
    read_mant false rest
      (Mant v (if m_dot st then m_frac st + slen ds else m_frac st) (m_dot st)
         (m_digits st || negb (str_eqb ds "")) (m_under st)) /\
    0 <= v < (m_val st + 1) * 10 ^ slen ds.
Proof.
  revert st. induction ds as [|c ds IH]; intros st Hd Hv.
  - exists (m_val st). destruct st as [v f d g u]; cbn in *. rewrite Z.add_0_r, orb_false_r.
    destruct d; split; [done|lia|done|lia].
  - cbn [str_all] in Hd. apply andb_true_iff in Hd as [Hc Hd].
    destruct (digit_not_special c Hc) as (E1 & E2 & _ & _ & E3 & Hr).
    cbn [String.append read_mant]. rewrite E1, E2, E3.
    destruct (IH (Mant (m_val st * 10 + digit_val c)
      (if m_dot st then m_frac st + 1 else m_frac st) (m_dot st) true (m_under st)) Hd)
      as (v & -> & Hb); [cbn; lia|].
    cbn [m_val m_frac m_dot m_digits m_under] in *. exists v. split.
    + f_equal. f_equal; [|by rewrite orb_true_r].
      cbn [String.length]. destruct (m_dot st); lia.
    + cbn [String.length]. rewrite Nat2Z.inj_succ, Z.pow_succ_r by lia.
      assert (0 < 10 ^ slen ds) by (apply Z.pow_pos_nonneg; lia). nia.
Qed.

(** The exponent scanner reads a run of digits to the end. *)
Lemma read_exp_digits ds e :
  str_all is_digit ds = true -> 0 <= e ->
  exists e', read_exp ds e false = (e', false, ""%string) /\ 0 <= e' < (e + 1) * 10 ^ slen ds.
Proof.
  revert e. induction ds as [|c ds IH]; intros e Hd He; [exists e; cbn; split; [done|lia]|].
  cbn [str_all] in Hd. apply andb_true_iff in Hd as [Hc Hd].
  destruct (digit_not_special c Hc) as (E1 & _ & _ & _ & _ & Hr).
  cbn [read_exp]. rewrite E1, Hc. cbn [String.length]. rewrite Nat2Z.inj_succ, Z.pow_succ_r by lia.
  assert (0 < 10 ^ slen ds) by (apply Z.pow_pos_nonneg; lia).
  set (e1 := if e <? 10000 then e * 10 + digit_val c else e).
  assert (0 <= e1 <= e * 10 + 9) by (unfold e1; destruct (e <? 10000); lia).
  destruct (IH e1 Hd) as (e' & -> & ?); [lia|]. eexists. split; [done|]. nia.
Qed.

(** A decimal literal: sign, digits before and after an optional point, and an
    optional exponent. *)
Record literal := mkLiteral {
  lSign : string;
  lInt : string;
  lDot : bool;
  lFrac : string;
  lExp : option (ascii * string * string)
}.

Definition exp_text (x : option (ascii * string * string)) : string :=
  match x with Some (c, sg, ds) => String c (sg +:+ ds) | None => "" end.

Definition literal_text (l : literal) : string :=
  lSign l +:+ lInt l +:+ (if lDot l then "." else "") +:+ lFrac l +:+ exp_text (lExp l).

Definition signs : list string := [""; "+"; "-"]%string.

Record literal_ok (l : literal) : Prop := mkLiteralOk {
  lo_sign : lSign l ∈ signs;
  lo_int : str_all is_digit (lInt l) = true;
  lo_frac : str_all is_digit (lFrac l) = true;
  lo_dot : lDot l = false -> lFrac l = ""%string;
  lo_some : lInt l <> ""%string \/ lFrac l <> ""%string;
  lo_exp : forall c sg ds, lExp l = Some (c, sg, ds) ->
    (c = "e"%char \/ c = "E"%char) /\ sg ∈ signs /\ str_all is_digit ds = true /\ ds <> ""%string
}.

(** Digits of the exponent. *)
Definition exp_len (l : literal) : Z :=
  match lExp l with Some (_, _, ds) => slen ds | None => 0 end.

Lemma take_sign_none c s : is_digit c = true \/ c = "."%char -> take_sign (String c s) = (false, String c s).
Proof.
  intros [Hc| ->]; [|done]. destruct (digit_not_special c Hc) as (_ & _ & E1 & E2 & _ & _).
  cbn. by rewrite E1, E2.
Qed.

(** The body of a literal after its sign begins with a digit or a point. *)
Definition body_text (l : literal) : string :=
  lInt l +:+ (if lDot l then "." else "") +:+ lFrac l +:+ exp_text (lExp l).

Lemma body_head l :
  literal_ok l -> exists c s, body_text l = String c s /\ (is_digit c = true \/ c = "."%char).
Proof.
  intros [_ Hi Hf Hd Hs _]. unfold body_text. destruct (lInt l) as [|c ip].
  - destruct (lDot l); [cbn; by eauto|]. by destruct Hs, (Hd eq_refl).
  - cbn in *. apply andb_true_iff in Hi as [Hc _]. eauto.
Qed.

Lemma take_sign_text l :
  literal_ok l -> take_sign (literal_text l) = (str_eqb (lSign l) "-", body_text l).
Proof.
  intros Hl. destruct (body_head l Hl) as (c & s & E & Hc).
  unfold literal_text. fold (body_text l). rewrite E.
  pose proof (lo_sign l Hl) as Hs. unfold signs in Hs.
  rewrite !elem_of_cons, elem_of_nil in Hs. destruct Hs as [->|[->|[->|[]]]]; [|done|done].
  cbn [String.append]. rewrite take_sign_none by done. done.
Qed.

Definition num_char (c : ascii) : bool :=
  is_digit c || bool_decide (c ∈ ["."; "e"; "E"; "+"; "-"]%char).

Lemma num_char_digits s : str_all is_digit s = true -> str_all num_char s = true.
Proof. apply str_all_impl. intros c Hc. unfold num_char. by rewrite Hc. Qed.

Lemma sign_chars sg : sg ∈ signs -> str_all num_char sg = true.
Proof. unfold signs. rewrite !elem_of_cons, elem_of_nil. by intros [->|[->|[->|[]]]]. Qed.

Lemma exp_chars l : literal_ok l -> str_all num_char (exp_text (lExp l)) = true.
Proof.
  intros Hl. destruct (lExp l) as [[[c sg] ds]|] eqn:E; [|done].
  destruct (lo_exp l Hl c sg ds E) as (Hc & Hs & Hd & _). cbn. rewrite str_all_app.
  rewrite sign_chars, num_char_digits by done. by destruct Hc as [-> | ->].
Qed.

Lemma body_chars l : literal_ok l -> str_all num_char (body_text l) = true.
Proof.
  intros Hl. unfold body_text. rewrite !str_all_app, exp_chars by done.
  rewrite (num_char_digits (lInt l)), (num_char_digits (lFrac l)) by apply Hl. by destruct (lDot l).
Qed.

(** A literal has the characters of a number only, and no angle bracket among them. *)
Lemma literal_chars l : literal_ok l -> str_all num_char (literal_text l) = true.
Proof.
  intros Hl. unfold literal_text. fold (body_text l). rewrite str_all_app, body_chars by done.
  rewrite sign_chars by apply Hl. done.
Qed.

Lemma num_char_not_hex c : num_char c = true -> Ascii.eqb (lower_byte c) "x" = false.
Proof. by destruct c as [[] [] [] [] [] [] [] []]. Qed.

Lemma special_literal l : literal_ok l -> special (literal_text l) = None.
Proof.
  intros Hl. unfold special. rewrite take_sign_text by done.
  destruct (body_head l Hl) as (c & s & -> & Hc). cbn [lower_ascii].
  assert (Ascii.eqb (lower_byte c) "i" = false /\ Ascii.eqb (lower_byte c) "n" = false) as [E1 E2].
  { destruct Hc as [Hc| ->]; [|done]. by destruct c as [[] [] [] [] [] [] [] []]. }
  assert (forall t, Ascii.eqb (lower_byte c) t = false ->
    forall u, String (lower_byte c) (lower_ascii s) <> String t u) as Hne.
  { intros t Ht u [= E _]. rewrite E, Ascii.eqb_refl in Ht. done. }
  by rewrite !(bool_decide_eq_false_2 (String _ _ = _)) by auto.
Qed.

(** Where the mantissa scanner stops. *)
Lemma read_mant_stop l st :
  literal_ok l -> read_mant false (exp_text (lExp l)) st = (st, exp_text (lExp l)).
Proof.
  intros Hl. destruct (lExp l) as [[[c sg] ds]|] eqn:E; [|done].
  destruct (lo_exp l Hl c sg ds E) as ([-> | ->] & _); done.
Qed.

Lemma read_mant_literal l :
  literal_ok l ->
  exists v,
    read_mant false (body_text l) (Mant 0 0 false false false) =
    (Mant v (slen (lFrac l)) (lDot l) true false, exp_text (lExp l)) /\
    0 <= v < 10 ^ (slen (lInt l) + slen (lFrac l)).
Proof.
  intros Hl. pose proof Hl as [_ Hi Hf Hd Hs _]. unfold body_text.
  destruct (read_mant_digits (lInt l) ((if lDot l then "." else "") +:+ lFrac l +:+ exp_text (lExp l))
    (Mant 0 0 false false false) Hi) as (v & -> & Hv); [done|].
  cbn [m_val m_frac m_dot m_digits m_under orb] in *. destruct (lDot l) eqn:Ed.
  - cbn [String.append read_mant Ascii.eqb Bool.eqb m_dot m_val m_frac m_digits m_under].
    destruct (read_mant_digits (lFrac l) (exp_text (lExp l)) (Mant v 0 true (negb (str_eqb (lInt l) "")) false) Hf)
      as (w & -> & Hw); [cbn; lia|].
    cbn [m_val m_frac m_dot m_digits m_under] in *. rewrite read_mant_stop by done.
    exists w. split.
    + f_equal. rewrite Z.add_0_l. f_equal. destruct Hs as [H|H]; apply str_eqb_neq in H; rewrite H; [done|].
      apply orb_true_r.
    + rewrite Z.pow_add_r by lia. nia.
  - rewrite (Hd eq_refl) in *. cbn [String.append String.length]. rewrite read_mant_stop by done.
    exists v. destruct Hs as [Hs|[]]; [|done]. apply str_eqb_neq in Hs. rewrite Hs, Z.add_0_r. split; [done|lia].
Qed.

(** [readFloat] on a literal: significand, exponent and sign. *)
Lemma read_number_literal l :
  literal_ok l ->
  exists v e,
    read_number (literal_text l) =
    Some (of_decimal (str_eqb (lSign l) "-") (Z.to_N v) (e - slen (lFrac l))) /\
    0 <= v < 10 ^ (slen (lInt l) + slen (lFrac l)) /\ e <= 10 ^ exp_len l.
Proof.
  intros Hl. unfold read_number. rewrite take_sign_text by done.
  assert (forall rest : string,
    match body_text l with
    | String z (String x (String _ _ as rest)) =>
        if Ascii.eqb z "0" && Ascii.eqb (lower_byte x) "x" then (true, rest) else (false, body_text l)
    | _ => (false, body_text l)
    end = (false, body_text l)) as Hhex.
  { intros _. pose proof (body_chars l Hl) as Hb.
    destruct (body_text l) as [|z [|x [|y r]]]; [done..|]. cbn in Hb.
    apply andb_true_iff in Hb as [_ [Hx _]%andb_true_iff].
    rewrite num_char_not_hex, andb_false_r by done. done. }
  rewrite (Hhex ""%string). destruct (read_mant_literal l Hl) as (v & -> & Hv).
  cbn [m_digits negb m_under m_val m_frac]. unfold exp_len.
  destruct (lExp l) as [[[c sg] ds]|] eqn:Ex; [|exists v, 0; cbn; auto with lia].
  destruct (lo_exp l Hl c sg ds Ex) as (Hc & Hsg & Hd & Hne).
  cbn [exp_text]. assert (Ascii.eqb (lower_byte c) "e" = true) as -> by by destruct Hc as [-> | ->].
  destruct ds as [|d ds]; [done|]. pose proof Hd as Hd'. cbn [str_all] in Hd'.
  apply andb_true_iff in Hd' as [Hdig _].
  assert (take_sign (sg +:+ String d ds) = (str_eqb sg "-", String d ds)) as ->.
  { unfold signs in Hsg. rewrite !elem_of_cons, elem_of_nil in Hsg.
    destruct Hsg as [->|[->|[->|[]]]]; [|done|done]. apply take_sign_none. auto. }
  rewrite Hdig. destruct (read_exp_digits (String d ds) 0 Hd) as (e & -> & He); [done|].
  exists v, (if str_eqb sg "-" then - e else e). split_and!; try lia; [done|].
  destruct (str_eqb sg "-"); lia.
Qed.

(** A literal whose digits and exponent are few is read as a finite number,
    non-negative when it has no minus sign. *)
Theorem ParseFloat_literal l :
  literal_ok l -> slen (lInt l) + slen (lFrac l) <= 40 -> exp_len l <= 2 ->
  exists f, ParseFloat (literal_text l) = Ok f /\ is_finite f = true /\
            (lSign l <> "-"%string -> f_lt f f_zero = false).
Proof.
  intros Hl Hn He. unfold ParseFloat. rewrite special_literal by done.
  destruct (read_number_literal l Hl) as (v & e & -> & Hv & Hb).
  set (f := of_decimal _ _ _).
  assert (is_finite f = true) as Hf.
  { apply of_decimal_finite. rewrite Z2N.id by lia.
    assert (v < 10 ^ 40) by (eapply Z.lt_le_trans; [apply Hv|]; apply Z.pow_le_mono_r; lia).
    assert (10 ^ exp_len l <= 10 ^ 2) by (apply Z.pow_le_mono_r; lia).
    assert (10 ^ Z.max 0 (e - slen (lFrac l)) <= 10 ^ 100) by (apply Z.pow_le_mono_r; lia).
    assert (0 < 10 ^ Z.max 0 (e - slen (lFrac l))) by (apply Z.pow_pos_nonneg; lia).
    assert (10 ^ 40 * 10 ^ 100 < 2 ^ 1023) by (by apply Z.ltb_lt; vm_compute). nia. }
  exists f. split_and!; [by destruct f|done|].
  intros Hs. apply str_eqb_neq in Hs. unfold f. rewrite Hs. apply of_decimal_sign.
Qed.
