(* ===== verification/Schema.v ===== *)
(** * Validation rules of the resource schemas

    The API server checks every resource against the rules the types of
    [src/api/v1alpha1] carry as markers ([+kubebuilder:validation:...]).  This file
    has the kinds of rules they use: lengths in characters, enumerations, ranges,
    patterns, and rules on optional fields.  A rule applies to a field that is
    present; a decoded field with [omitempty] is absent when it has the zero
    value.  It also relates the patterns for numbers to [strconv.ParseFloat]. *)

From S2P Require Import Prelude GoStrings GoUnicode GoRegexp GoTime GoFloat GoDecimal.
From Stdlib Require Import Ascii.
Local Open Scope string_scope.
Local Arguments String.append !_ _ /.

(** ** Kinds of rules *)

(** [MinLength] and [MaxLength] count characters. *)
Definition rune_count (s : string) : nat := length (runes 0 s).
Definition MaxLength (n : nat) (s : string) : bool := (rune_count s <=? n)%nat.
Definition MinLength (n : nat) (s : string) : bool := (n <=? rune_count s)%nat.
Definition MinItems {A} (n : nat) (l : list A) : bool := (n <=? length l)%nat.
Definition MaxItems {A} (n : nat) (l : list A) : bool := (length l <=? n)%nat.

Definition Enum {A} `{EqDecision A} (l : list A) (x : A) : bool := bool_decide (x ∈ l).
Definition InRange (lo hi z : Z) : bool := (lo <=? z)%Z && (z <=? hi)%Z.

(** A rule on an optional field: a pointer, a string, a number. *)
Definition present {A} (rule : A -> bool) (o : option A) : bool :=
  match o with Some x => rule x | None => true end.
Definition present_str (rule : string -> bool) (s : string) : bool := str_eqb s "" || rule s.
Definition present_int (rule : Z -> bool) (z : Z) : bool := (z =? 0)%Z || rule z.

Definition is_some {A} (o : option A) : bool := match o with Some _ => true | None => false end.

(** ** Patterns *)

(** [^[0-9]+\.?[0-9]*$] and [^-?[0-9]+\.?[0-9]*$]. *)
Definition decimal_re : regex := RCat (RPlus RDigit) (RCat (ROpt (RChar ".")) (RStar RDigit)).
Definition signed_decimal_re : regex := RCat (ROpt (RChar "-")) decimal_re.
(** [^https?://], which is not anchored at the end. *)
Definition http_re : regex := RCat (RText "http") (RCat (ROpt (RChar "s")) (RCat (RText "://") RAny)).

(** ** Lemmas *)

Lemma ascii_rune_count s : str_all (fun c => (byte_val c <? 128)%N) s = true -> rune_count s = String.length s.
Proof.
  unfold rune_count. induction s as [|c s IH]; [done|]. cbn [str_all runes String.length].
  intros [-> ?]%andb_true_iff. cbn. auto.
Qed.

Lemma num_char_ascii c : num_char c = true -> (byte_val c <? 128)%N = true.
Proof. by destruct c as [[] [] [] [] [] [] [] []]. Qed.

Lemma num_rune_count s : str_all num_char s = true -> rune_count s = String.length s.
Proof. intros H. apply ascii_rune_count. revert H. apply str_all_impl, num_char_ascii. Qed.

Lemma Enum_spec `{EqDecision A} (l : list A) x : Enum l x = true <-> x ∈ l.
Proof. unfold Enum. by rewrite bool_decide_eq_true. Qed.

Lemma InRange_spec lo hi z : InRange lo hi z = true <-> (lo <= z <= hi)%Z.
Proof. unfold InRange. rewrite andb_true_iff, !Z.leb_le. done. Qed.

(** What a text of the number pattern is: a literal without exponent. *)
Lemma decimal_literal s :
  matches decimal_re s ->
  exists l, s = literal_text l /\ literal_ok l /\ lSign l = "" /\ lExp l = None.
Proof.
  intros (ip & r & -> & [Hi Hn]%matches_plus_class & (d & fp & -> & Hd & Hf%matches_star_class)%matches_cat)%matches_cat.
  apply matches_opt in Hd as [->|Hd%matches_char]; [|subst d].
  - (* every digit is before the point *)
    exists (mkLiteral "" (ip +:+ fp) false "" None). unfold literal_text. cbn.
    rewrite !app_str_nil_r. split_and!; [done| |done|done].
    constructor; cbn; try done; [set_solver|by rewrite str_all_app, Hi, Hf|].
    left. by destruct ip.
  - exists (mkLiteral "" ip true fp None). unfold literal_text. cbn.
    rewrite !app_str_nil_r. split_and!; [done| |done|done].
    constructor; cbn; try done; [set_solver|]. by left.
Qed.

Lemma signed_decimal_literal s :
  matches signed_decimal_re s ->
  exists l, s = literal_text l /\ literal_ok l /\ lExp l = None.
Proof.
  intros (sg & r & -> & Hs & (l & -> & Hl & Es & Ee)%decimal_literal)%matches_cat.
  exists (mkLiteral sg (lInt l) (lDot l) (lFrac l) None). unfold literal_text. cbn.
  rewrite Es, Ee. split_and!; [done| |done]. destruct Hl. constructor; cbn; try done.
  apply matches_opt in Hs as [->|Hs%matches_char]; [|subst sg]; set_solver.
Qed.

(** A text of moderate length that matches a number pattern is a finite number. *)
Lemma literal_bounded l n :
  literal_ok l -> lExp l = None -> MaxLength n (literal_text l) = true -> (n <= 40)%nat ->
  exists f, ParseFloat (literal_text l) = Ok f /\ is_finite f = true /\
            (lSign l <> "-" -> f_lt f f_zero = false).
Proof.
  intros Hl He Hm Hn. apply ParseFloat_literal; [done| |unfold exp_len; by rewrite He].
  unfold MaxLength in Hm. rewrite num_rune_count in Hm by by apply literal_chars.
  apply Nat.leb_le in Hm. unfold literal_text in Hm. rewrite !length_app_str in Hm. lia.
Qed.

Lemma decimal_parses s n :
  matchString decimal_re s = true -> MaxLength n s = true -> (n <= 40)%nat ->
  exists f, ParseFloat s = Ok f /\ is_finite f = true /\ f_lt f f_zero = false.
Proof.
  intros (l & -> & Hl & Es & Ee)%matchString_spec%decimal_literal Hm Hn.
  destruct (literal_bounded l n Hl Ee Hm Hn) as (f & ? & ? & Hs). exists f.
  split_and!; [done..|]. apply Hs. by rewrite Es.
Qed.

Lemma signed_decimal_parses s n :
  matchString signed_decimal_re s = true -> MaxLength n s = true -> (n <= 40)%nat ->
  exists f, ParseFloat s = Ok f /\ is_finite f = true.
Proof.
  intros (l & -> & Hl & Ee)%matchString_spec%signed_decimal_literal Hm Hn.
  destruct (literal_bounded l n Hl Ee Hm Hn) as (f & ? & ? & _). eauto.
Qed.

(** Blanks around a text that begins and ends with a graphic character. *)
Definition is_blank (c : ascii) : bool := Ascii.eqb c " ".

Lemma trim_left_blanks b s :
  str_all is_blank b = true -> hd_graphic s = true -> trim_left unicode_spaces (b +:+ s) = s.
Proof.
  induction b as [|c b IH]; cbn [str_all]; [by intros; apply trim_left_graphic|].
  intros [E%Ascii.eqb_eq Hb]%andb_true_iff Hs. subst c. rewrite <- (IH Hb Hs) at 2. done.
Qed.

Lemma rev_blanks b : str_all is_blank b = true -> str_all is_blank (rev_string b) = true.
Proof.
  induction b as [|c b IH]; [done|]. cbn [str_all]. intros [Hc Hb]%andb_true_iff.
  rewrite rev_string_cons, str_all_app, IH by done. cbn. by rewrite Hc.
Qed.

Lemma trim_right_blanks b s :
  str_all is_blank b = true -> last_graphic s = true -> trim_right unicode_spaces (s +:+ b) = s.
Proof.
  intros Hb%rev_blanks Hs. unfold trim_right, last_graphic in *. rewrite rev_string_append.
  assert (trim_left (map rev_string unicode_spaces) (rev_string b +:+ rev_string s) = rev_string s) as ->;
    [|apply rev_string_involutive].
  revert Hb. generalize (rev_string b). intros b'. induction b' as [|c b' IH]; cbn [str_all].
  - intros _. by apply trim_left_graphic.
  - intros [E%Ascii.eqb_eq Hb]%andb_true_iff. subst c. by rewrite <- (IH Hb) at 2.
Qed.

Lemma TrimSpace_blanks a s b :
  str_all is_blank a = true -> str_all is_blank b = true ->
  hd_graphic s = true -> last_graphic s = true -> s <> "" -> TrimSpace (a +:+ s +:+ b) = s.
Proof.
  intros Ha Hb Hh Hl Hn. unfold TrimSpace. rewrite trim_left_blanks; [by apply trim_right_blanks|done|].
  by apply hd_graphic_app.
Qed.
