(* ===== verification/Failover.v ===== *)
(** * Package slice: triggers and the failover decision

    Models [src/pkg/slice/failover.go]: trigger expressions and their
    evaluation, the parsed trigger set, the base evaluator
    ([EvaluateFailoverWithContext]), the hysteresis evaluator and the
    fail-static decision ([EvaluateSafeHold]).  Log lines are left out; reason
    strings are kept, since they end up in a status condition. *)

From S2P Require Import Prelude GoStrings GoTime GoFloat.
From Stdlib Require Import SpecFloat Ascii.
Local Open Scope string_scope.

(** ** Data *)

Definition PathType := string.
Definition PathTerrestrial : PathType := "terrestrial".
Definition PathSatellite : PathType := "satellite".
Definition PathUnavailable : PathType := "unavailable".

Definition metricRSRP := "rsrp".
Definition metricTerrestrialRSRP := "terrestrialRSRP".
Definition metricLatency := "latency".
Definition metricTerrestrialLatency := "terrestrialLatency".
Definition metricPacketLoss := "packetLoss".
Definition metricTerrestrialPacketLoss := "terrestrialPacketLoss".

Inductive Decision := DecisionStay | DecisionFailover | DecisionSwitchback.

#[export] Instance Decision_eq_dec : EqDecision Decision.
Proof. solve_decision. Defined.

Record FailoverResult := mkResult {
  decision : Decision;
  reason : string;
  targetPath : PathType
}.

Record Metrics := mkMetrics {
  RSRP : float64;
  LatencyMs : float64;
  PacketLossPercent : float64;
  RSRPMissing : bool;
  LatencyMissing : bool;
  PacketLossMissing : bool
}.

Record Trigger := mkTrigger {
  Metric : string;
  Operator : string;
  Value : float64
}.

#[export] Instance Trigger_eq_dec : EqDecision Trigger.
Proof. solve_decision. Defined.

Inductive TriggerError :=
| InvalidTriggerValue (valueStr : string) (e : NumError)
| NonFiniteTriggerValue (valueStr s : string)
| EmptyMetric (s : string)
| UnknownMetric (metric s : string)
| InvalidTriggerFormat (s : string).

(** ** Reading a metric *)

(** The three fields a trigger can read; both spellings name one field. *)
Inductive field := FieldRSRP | FieldLatency | FieldPacketLoss.

Definition trigger_field (metric : string) : option field :=
  if str_eqb metric metricRSRP || str_eqb metric metricTerrestrialRSRP then Some FieldRSRP
  else if str_eqb metric metricLatency || str_eqb metric metricTerrestrialLatency then Some FieldLatency
  else if str_eqb metric metricPacketLoss || str_eqb metric metricTerrestrialPacketLoss then Some FieldPacketLoss
  else None.

Definition field_value (f : field) (m : Metrics) : float64 :=
  match f with
  | FieldRSRP => RSRP m
  | FieldLatency => LatencyMs m
  | FieldPacketLoss => PacketLossPercent m
  end.

Definition field_missing (f : field) (m : Metrics) : bool :=
  match f with
  | FieldRSRP => RSRPMissing m
  | FieldLatency => LatencyMissing m
  | FieldPacketLoss => PacketLossMissing m
  end.

Definition metricMissing (t : Trigger) (m : Metrics) : bool :=
  match trigger_field (Metric t) with
  | Some f => field_missing f m
  | None => false
  end.

(** ** ParseTrigger *)

Definition validMetrics : list string :=
  [metricRSRP; metricTerrestrialRSRP; metricLatency; metricTerrestrialLatency;
   metricPacketLoss; metricTerrestrialPacketLoss].

Definition trigger_operators : list string := ["<="; ">="; "<"; ">"].

(** The body of the loop once [op] splits the expression in two. *)
Definition parse_parts (s op part0 part1 : string) : result TriggerError Trigger :=
  let metric := TrimSpace part0 in
  let valueStr := TrimSpace part1 in
  match ParseFloat valueStr with
  | Err e => Err (InvalidTriggerValue valueStr e)
  | Ok value =>
      if IsNaN value || IsInf value then Err (NonFiniteTriggerValue valueStr s)
      else if str_eqb metric "" then Err (EmptyMetric s)
      else if negb (bool_decide (metric ∈ validMetrics)) then Err (UnknownMetric metric s)
      else Ok (mkTrigger metric op value)
  end.

Fixpoint parse_operators (ops : list string) (s : string) : result TriggerError Trigger :=
  match ops with
  | [] => Err (InvalidTriggerFormat s)
  | op :: ops =>
      match SplitN2 s op with
      | [part0; part1] => parse_parts s op part0 part1
      | _ => parse_operators ops s
      end
  end.

Definition ParseTrigger (s : string) : result TriggerError Trigger :=
  parse_operators trigger_operators (TrimSpace s).

(** ** Evaluating a trigger *)

Definition EvaluateRecovery (t : Trigger) (m : Metrics) (margin : float64) : bool :=
  match trigger_field (Metric t) with
  | None => false
  | Some f =>
      let actual := field_value f m in
      if str_eqb (Operator t) "<" || str_eqb (Operator t) "<=" then
        f_ge actual (f_add (Value t) margin)
      else if str_eqb (Operator t) ">" || str_eqb (Operator t) ">=" then
        let recoveryThreshold := f_sub (Value t) margin in
        let recoveryThreshold := if f_lt recoveryThreshold f_zero then f_zero else recoveryThreshold in
        f_le actual recoveryThreshold
      else false
  end.

Definition Evaluate (t : Trigger) (m : Metrics) : bool :=
  match trigger_field (Metric t) with
  | None => false
  | Some f =>
      let actual := field_value f m in
      if str_eqb (Operator t) "<" then f_lt actual (Value t)
      else if str_eqb (Operator t) ">" then f_gt actual (Value t)
      else if str_eqb (Operator t) "<=" then f_le actual (Value t)
      else if str_eqb (Operator t) ">=" then f_ge actual (Value t)
      else false
  end.

Fixpoint InertTriggers (triggers : list string) (m : Metrics) : list string :=
  match triggers with
  | [] => []
  | s :: rest =>
      match ParseTrigger s with
      | Err _ => InertTriggers rest m
      | Ok t => if metricMissing t m then s :: InertTriggers rest m else InertTriggers rest m
      end
  end.

(** ** The parsed trigger set *)

Record triggerSetResult := mkTriggerSet {
  parsed : list Trigger;
  anyTriggered : bool;
  parseSuffix : string;
  allInvalid : bool;
  hasUnknownTrigger : bool
}.

(** One round of the loop of [parseTriggerSet]: the result so far and the
    number of parse errors counted before the first match. *)
Definition trigger_set_step (m : Metrics) (acc : triggerSetResult * Z) (triggerStr : string)
  : triggerSetResult * Z :=
  let '(r, parseErrors) := acc in
  match ParseTrigger triggerStr with
  | Err _ => (r, if anyTriggered r then parseErrors else (parseErrors + 1)%Z)
  | Ok trigger =>
      if metricMissing trigger m then
        (mkTriggerSet (parsed r) (anyTriggered r) (parseSuffix r) (allInvalid r) true, parseErrors)
      else
        (mkTriggerSet (parsed r ++ [trigger])%list
           (anyTriggered r || Evaluate trigger m)
           (parseSuffix r) (allInvalid r) (hasUnknownTrigger r), parseErrors)
  end.

Definition parseTriggerSet (triggers : list string) (m : Metrics) : triggerSetResult :=
  let '(r, parseErrors) :=
    fold_left (trigger_set_step m) triggers (mkTriggerSet [] false "" false false, 0%Z) in
  if (length (parsed r) =? 0)%nat && (0 <? parseErrors)%Z then
    mkTriggerSet (parsed r) (anyTriggered r) (parseSuffix r) true (hasUnknownTrigger r)
  else if (0 <? parseErrors)%Z then
    mkTriggerSet (parsed r) (anyTriggered r)
      (" (" +:+ fmt_d parseErrors +:+ " of " +:+ fmt_d (Z.of_nat (length triggers))
       +:+ " triggers had parse errors)")
      (allInvalid r) (hasUnknownTrigger r)
  else r.

Definition passEndedReason (ts : triggerSetResult) : string :=
  if anyTriggered ts then "Satellite pass ended, falling back to degraded terrestrial"
  else if hasUnknownTrigger ts || allInvalid ts then
    "Satellite pass ended; returning to terrestrial (recovery unconfirmed)"
  else "Satellite pass ended, terrestrial recovered".

(** ** The evaluators *)

Definition normalize_path (p : PathType) : PathType :=
  if str_eqb p PathTerrestrial || str_eqb p PathSatellite || str_eqb p PathUnavailable
  then p else PathTerrestrial.

Definition all_invalid_reason (triggers : list string) : string :=
  "All " +:+ fmt_d (Z.of_nat (length triggers)) +:+ " trigger expressions are invalid".

(** The [default] arm of the switch: an unavailable path is initialised. *)
Definition evaluate_unavailable (ts : triggerSetResult) (satelliteAvailable : bool) : FailoverResult :=
  if negb (anyTriggered ts) then
    if hasUnknownTrigger ts then
      if satelliteAvailable then
        mkResult DecisionFailover
          ("Terrestrial quality unknown; using the confirmed satellite pass" +:+ parseSuffix ts) PathSatellite
      else
        mkResult DecisionSwitchback
          ("Initializing on terrestrial (quality unconfirmed; no satellite pass)" +:+ parseSuffix ts) PathTerrestrial
    else
      mkResult DecisionSwitchback ("Initializing on terrestrial path" +:+ parseSuffix ts) PathTerrestrial
  else if satelliteAvailable then
    mkResult DecisionFailover ("Terrestrial unavailable, using satellite" +:+ parseSuffix ts) PathSatellite
  else
    mkResult DecisionStay ("Both paths degraded" +:+ parseSuffix ts) PathUnavailable.

Definition EvaluateFailoverWithContext
  (currentPath : PathType) (triggers : list string) (metrics : Metrics)
  (satelliteAvailable : bool) (switchbackDelay : Duration)
  (lastFailover now : Time) : FailoverResult :=
  let ts := parseTriggerSet triggers metrics in
  let currentPath := normalize_path currentPath in
  if str_eqb currentPath PathSatellite && negb satelliteAvailable then
    mkResult DecisionSwitchback (passEndedReason ts +:+ parseSuffix ts) PathTerrestrial
  else if allInvalid ts then
    mkResult DecisionStay (all_invalid_reason triggers) currentPath
  else if str_eqb currentPath PathTerrestrial then
    if negb (anyTriggered ts) then
      mkResult DecisionStay ("Terrestrial path healthy" +:+ parseSuffix ts) PathTerrestrial
    else if negb satelliteAvailable then
      mkResult DecisionStay
        ("Terrestrial degraded but no satellite pass available" +:+ parseSuffix ts) PathTerrestrial
    else
      mkResult DecisionFailover
        ("Terrestrial path degraded, satellite pass available" +:+ parseSuffix ts) PathSatellite
  else if str_eqb currentPath PathSatellite then
    if anyTriggered ts then
      mkResult DecisionStay
        ("Terrestrial still degraded, staying on satellite" +:+ parseSuffix ts) PathSatellite
    else if hasUnknownTrigger ts then
      mkResult DecisionStay
        ("Recovery unconfirmed (a trigger metric is unsourced), holding on satellite" +:+ parseSuffix ts)
        PathSatellite
    else if negb (IsZero lastFailover) && (Sub now lastFailover <? switchbackDelay)%Z then
      mkResult DecisionStay
        ("Terrestrial recovered but switchback delay not elapsed ("
         +:+ duration_string (dur_sub switchbackDelay (Sub now lastFailover)) +:+ " remaining)"
         +:+ parseSuffix ts)
        PathSatellite
    else
      mkResult DecisionSwitchback
        ("Terrestrial recovered, switchback delay elapsed" +:+ parseSuffix ts) PathTerrestrial
  else evaluate_unavailable ts satelliteAvailable.

Definition EvaluateFailover
  (currentPath : PathType) (triggers : list string) (metrics : Metrics)
  (satelliteAvailable : bool) (switchbackDelay : Duration)
  (lastFailover now : Time) : FailoverResult :=
  EvaluateFailoverWithContext currentPath triggers metrics satelliteAvailable
    switchbackDelay lastFailover now.

Definition EvaluateFailoverWithHysteresis
  (currentPath : PathType) (triggers : list string) (metrics : Metrics)
  (satelliteAvailable : bool) (switchbackDelay : Duration)
  (lastFailover now : Time) (hysteresisMargin : float64) : FailoverResult :=
  if negb (str_eqb currentPath PathSatellite) || f_le hysteresisMargin f_zero then
    EvaluateFailoverWithContext currentPath triggers metrics satelliteAvailable
      switchbackDelay lastFailover now
  else
    let ts := parseTriggerSet triggers metrics in
    if negb satelliteAvailable then
      mkResult DecisionSwitchback (passEndedReason ts +:+ parseSuffix ts) PathTerrestrial
    else if allInvalid ts then
      mkResult DecisionStay (all_invalid_reason triggers) currentPath
    else if anyTriggered ts then
      mkResult DecisionStay
        ("Terrestrial still degraded, staying on satellite" +:+ parseSuffix ts) PathSatellite
    else if hasUnknownTrigger ts then
      mkResult DecisionStay
        ("Recovery unconfirmed (a trigger metric is unsourced), holding on satellite" +:+ parseSuffix ts)
        PathSatellite
    else if negb (forallb (fun t => EvaluateRecovery t metrics hysteresisMargin) (parsed ts)) then
      mkResult DecisionStay
        ("Terrestrial in hysteresis dead-band (margin=" +:+ fmt_g hysteresisMargin
         +:+ "), staying on satellite" +:+ parseSuffix ts)
        PathSatellite
    else if negb (IsZero lastFailover) && (Sub now lastFailover <? switchbackDelay)%Z then
      mkResult DecisionStay
        ("Terrestrial recovered past dead-band but switchback delay not elapsed ("
         +:+ duration_string (dur_sub switchbackDelay (Sub now lastFailover)) +:+ " remaining)"
         +:+ parseSuffix ts)
        PathSatellite
    else
      mkResult DecisionSwitchback
        ("Terrestrial recovered past hysteresis dead-band, switchback delay elapsed" +:+ parseSuffix ts)
        PathTerrestrial.

Definition EvaluateSafeHold (currentPath : PathType) (satelliteAvailable : bool) : FailoverResult :=
  let currentPath := normalize_path currentPath in
  if str_eqb currentPath PathSatellite && negb satelliteAvailable then
    mkResult DecisionSwitchback
      "metrics unreliable; switching back to terrestrial because the satellite pass window has ended"
      PathTerrestrial
  else
    mkResult DecisionStay
      "metrics unreliable; holding current path (fail static; orbital signal honored)" currentPath.

(** * Properties *)

(** ** Trigger expressions *)

Lemma parse_parts_ok s op p0 p1 t :
  parse_parts s op p0 p1 = Ok t ->
  Metric t ∈ validMetrics /\ Operator t = op /\ is_finite (Value t) = true.
Proof.
  unfold parse_parts, is_finite.
  destruct (ParseFloat _) as [v|]; [|done].
  destruct (IsNaN v) eqn:?, (IsInf v) eqn:?; simpl; try done.
  repeat split_match; try done. intros [= <-]; simpl.
  apply negb_false_iff, bool_decide_eq_true in Heqb2.
  split_and!; [done|done|]. by rewrite Heqb, Heqb0.
Qed.

Lemma parse_operators_ok ops s t :
  parse_operators ops s = Ok t ->
  Metric t ∈ validMetrics /\ Operator t ∈ ops /\ is_finite (Value t) = true.
Proof.
  induction ops as [|op ops IH]; simpl; [done|].
  unfold SplitN2 in *. destruct (cut op s) as [[p0 p1]|].
  - intros (?&->&?)%parse_parts_ok. rewrite elem_of_cons. auto.
  - intros (?&?&?)%IH. rewrite elem_of_cons. auto.
Qed.

(** Whatever the input, an accepted trigger names one of the six metrics,
    uses one of the four operators and compares with a finite number. *)
Theorem ParseTrigger_sound s t :
  ParseTrigger s = Ok t ->
  Metric t ∈ validMetrics /\ Operator t ∈ trigger_operators /\ is_finite (Value t) = true.
Proof. apply parse_operators_ok. Qed.

Lemma ParseTrigger_sound_witness :
  Metric (mkTrigger "rsrp" "<" (f_of_Z (-120))) ∈ validMetrics.
Proof.
  exact (proj1 (ParseTrigger_sound "rsrp < -120" (mkTrigger "rsrp" "<" (f_of_Z (-120))) eq_refl)).
Defined.

Definition no_angle (c : Ascii.ascii) : bool :=
  negb (Ascii.eqb c "<"%char) && negb (Ascii.eqb c ">"%char).

Lemma no_angle_skip c s :
  c = "<"%char \/ c = ">"%char ->
  str_all no_angle s = true -> str_all (fun a => negb (Ascii.eqb a c)) s = true.
Proof.
  intros Hc. apply str_all_impl. unfold no_angle. intros a Ha.
  apply andb_true_iff in Ha as [H1 H2]. by destruct Hc as [-> | ->].
Qed.

(** Where [cut] finds the angle bracket [c] after a metric that has none. *)
Lemma cut_after_metric c sep metric tail :
  c = "<"%char \/ c = ">"%char -> str_all no_angle metric = true ->
  cut (String c sep) (metric +:+ " " +:+ tail) =
  match cut (String c sep) tail with
  | Some (before, rest) => Some ((metric +:+ " ") +:+ before, rest)
  | None => None
  end.
Proof.
  intros Hc Hm. rewrite app_str_assoc. apply cut_skip.
  rewrite str_all_app, (no_angle_skip c) by auto. by destruct Hc as [-> | ->].
Qed.

Lemma cut_no_angle c sep v :
  c = "<"%char \/ c = ">"%char -> str_all no_angle v = true ->
  cut (String c sep) v = None.
Proof. intros Hc Hv. by apply cut_none_of_all, no_angle_skip. Qed.

(** An operator is found exactly where the expression has its angle bracket. *)
Lemma split_at_operator metric op v :
  op ∈ trigger_operators -> str_all no_angle metric = true -> str_all no_angle v = true ->
  let s := metric +:+ " " +:+ op +:+ " " +:+ v in
  parse_operators trigger_operators s = parse_parts s op (metric +:+ " ") (" " +:+ v).
Proof.
  intros Hop Hm Hv s. unfold trigger_operators in *. cbn [parse_operators].
  unfold SplitN2, s. 
  rewrite (cut_after_metric "<"%char "="), (cut_after_metric ">"%char "="),
    (cut_after_metric "<"%char ""), (cut_after_metric ">"%char "") by auto.
  rewrite !elem_of_cons in Hop; destruct Hop as [->|[->|[->|[->|Hop]]]];
    [..|by apply elem_of_nil in Hop];
    [ change ("<=" +:+ " " +:+ v) with (String "<" (String "=" (String " " v)))
    | change (">=" +:+ " " +:+ v) with (String ">" (String "=" (String " " v)))
    | change ("<" +:+ " " +:+ v) with (String "<" (String " " v))
    | change (">" +:+ " " +:+ v) with (String ">" (String " " v)) ];
    cbn [cut strip_prefix Ascii.eqb Bool.eqb];
    repeat rewrite (cut_no_angle "<"%char) by auto;
    repeat rewrite (cut_no_angle ">"%char) by auto; by rewrite ?app_str_nil_r.
Qed.

Lemma valid_metric_text metric :
  metric ∈ validMetrics ->
  str_all no_angle metric = true /\ hd_graphic metric = true /\
  last_graphic metric = true /\ metric <> "".
Proof.
  unfold validMetrics. rewrite !elem_of_cons, elem_of_nil.
  intros [->|[->|[->|[->|[->|[->|[]]]]]]]; vm_compute; split_and!; done.
Qed.

(** Printing a trigger as [metric op value] and parsing it back gives the
    same metric, the same operator and the number the value reads as. *)
Theorem ParseTrigger_roundtrip metric op v f :
  metric ∈ validMetrics -> op ∈ trigger_operators ->
  str_all no_angle v = true -> hd_graphic v = true -> last_graphic v = true -> v <> "" ->
  ParseFloat v = Ok f -> is_finite f = true ->
  ParseTrigger (metric +:+ " " +:+ op +:+ " " +:+ v) = Ok (mkTrigger metric op f).
Proof.
  intros Hm Hop Hv Hh Hl Hne Hp Hf.
  destruct (valid_metric_text metric Hm) as (Hma & Hmh & Hml & Hmne).
  unfold ParseTrigger. rewrite TrimSpace_graphic.
  - rewrite split_at_operator by done. unfold parse_parts.
    rewrite TrimSpace_trail, TrimSpace_lead, Hp by done.
    unfold is_finite in Hf. apply andb_true_iff in Hf as [->%negb_true_iff ->%negb_true_iff].
    simpl. assert (E : str_eqb metric "" = false) by by apply str_eqb_neq.
    rewrite E, bool_decide_eq_true_2 by done. done.
  - by apply hd_graphic_app.
  - rewrite app_str_assoc, (app_str_assoc _ op), (app_str_assoc _ " ").
    by apply last_graphic_app.
Qed.

Lemma ParseTrigger_roundtrip_witness :
  ParseTrigger ("packetLoss" +:+ " " +:+ ">=" +:+ " " +:+ "2.5e1") =
  Ok (mkTrigger "packetLoss" ">=" (f_of_Z 25)).
Proof.
  apply (ParseTrigger_roundtrip "packetLoss" ">=" "2.5e1" (f_of_Z 25));
    first [ by apply (bool_decide_unpack _) | by vm_compute | done ].
Defined.

(** ** The trigger set, declaratively *)

Definition valid_triggers (triggers : list string) : list Trigger :=
  omap (fun s => match ParseTrigger s with Ok t => Some t | Err _ => None end) triggers.

(** The triggers that parse and whose metric has a real source. *)
Definition live_triggers (triggers : list string) (m : Metrics) : list Trigger :=
  List.filter (fun t => negb (metricMissing t m)) (valid_triggers triggers).

Definition some_fires (triggers : list string) (m : Metrics) : bool :=
  existsb (fun t => Evaluate t m) (live_triggers triggers m).

Definition some_unknown (triggers : list string) (m : Metrics) : bool :=
  existsb (fun t => metricMissing t m) (valid_triggers triggers).

Definition some_unparsable (triggers : list string) : bool :=
  existsb (fun s => negb (is_ok (ParseTrigger s))) triggers.

Lemma valid_triggers_cons s rest :
  valid_triggers (s :: rest) =
  match ParseTrigger s with Ok t => t :: valid_triggers rest | Err _ => valid_triggers rest end.
Proof. unfold valid_triggers. simpl. by destruct (ParseTrigger s). Qed.

Lemma live_triggers_cons s rest m :
  live_triggers (s :: rest) m =
  match ParseTrigger s with
  | Ok t => if metricMissing t m then live_triggers rest m else t :: live_triggers rest m
  | Err _ => live_triggers rest m
  end.
Proof.
  unfold live_triggers. rewrite valid_triggers_cons.
  destruct (ParseTrigger s) as [t|]; simpl; [|done]. by destruct (metricMissing t m).
Qed.

Lemma some_fires_cons s rest m :
  some_fires (s :: rest) m =
  match ParseTrigger s with
  | Ok t => if metricMissing t m then some_fires rest m else Evaluate t m || some_fires rest m
  | Err _ => some_fires rest m
  end.
Proof.
  unfold some_fires. rewrite live_triggers_cons.
  destruct (ParseTrigger s) as [t|]; [|done]. by destruct (metricMissing t m).
Qed.

Lemma some_unknown_cons s rest m :
  some_unknown (s :: rest) m =
  match ParseTrigger s with
  | Ok t => metricMissing t m || some_unknown rest m
  | Err _ => some_unknown rest m
  end.
Proof. unfold some_unknown. rewrite valid_triggers_cons. by destruct (ParseTrigger s). Qed.

(** Parse errors met before the first trigger that fires. *)
Fixpoint counted_errors (triggers : list string) (m : Metrics) : Z :=
  match triggers with
  | [] => 0
  | s :: rest =>
      match ParseTrigger s with
      | Err _ => counted_errors rest m + 1
      | Ok t =>
          if metricMissing t m then counted_errors rest m
          else if Evaluate t m then 0
          else counted_errors rest m
      end
  end%Z.

Lemma counted_errors_nonneg triggers m : (0 <= counted_errors triggers m)%Z.
Proof. induction triggers; simpl; [lia|]. repeat split_match; lia. Qed.

Lemma trigger_set_fold triggers m r n :
  fold_left (trigger_set_step m) triggers (r, n) =
  (mkTriggerSet (parsed r ++ live_triggers triggers m)%list
     (anyTriggered r || some_fires triggers m) (parseSuffix r) (allInvalid r)
     (hasUnknownTrigger r || some_unknown triggers m),
   if anyTriggered r then n else (n + counted_errors triggers m)%Z).
Proof.
  revert r n. induction triggers as [|s rest IH]; intros r n; simpl.
  - unfold live_triggers, some_fires, some_unknown; simpl.
    rewrite app_nil_r, !orb_false_r, Z.add_0_r. destruct r; simpl. by destruct anyTriggered0.
  - rewrite live_triggers_cons, some_fires_cons, some_unknown_cons.
    destruct (ParseTrigger s) as [t|e]; simpl.
    + destruct (metricMissing t m); simpl; rewrite IH; simpl.
      * by rewrite orb_true_r.
      * rewrite <- app_assoc. simpl.
        destruct (anyTriggered r), (Evaluate t m); simpl; repeat (done || lia || f_equal).
    + rewrite IH. destruct (anyTriggered r); simpl; repeat (done || lia || f_equal).
Qed.

Lemma counted_errors_pos triggers m :
  live_triggers triggers m = [] ->
  ((0 <? counted_errors triggers m)%Z = some_unparsable triggers).
Proof.
  induction triggers as [|s rest IH]; simpl; [done|].
  rewrite live_triggers_cons. unfold some_unparsable in *. simpl.
  destruct (ParseTrigger s) as [t|e]; simpl.
  - destruct (metricMissing t m); simpl; [auto|done].
  - intros _. apply Z.ltb_lt. pose proof (counted_errors_nonneg rest m). lia.
Qed.

(** The four fields of the parsed set that drive the decision. *)
Lemma parseTriggerSet_fields triggers m :
  let r := parseTriggerSet triggers m in
  parsed r = live_triggers triggers m /\
  anyTriggered r = some_fires triggers m /\
  hasUnknownTrigger r = some_unknown triggers m /\
  allInvalid r = bool_decide (live_triggers triggers m = []) && some_unparsable triggers.
Proof.
  unfold parseTriggerSet. rewrite trigger_set_fold. simpl. rewrite Z.add_0_l.
  destruct (live_triggers triggers m) as [|t ts] eqn:E; simpl.
  - rewrite <- (counted_errors_pos triggers m E).
    by destruct (0 <? counted_errors triggers m)%Z.
  - by destruct (0 <? counted_errors triggers m)%Z.
Qed.

(** The single pass of [parseTriggerSet], with its early-exit error
    accounting, computes what the policy means: the parsed list is the live
    triggers in order, [anyTriggered] is the disjunction over them,
    [hasUnknownTrigger] says a valid trigger has no source, and [allInvalid]
    holds exactly when no trigger is live although some do not parse. *)
Theorem parseTriggerSet_spec triggers m :
  let r := parseTriggerSet triggers m in
  parsed r = live_triggers triggers m /\
  (anyTriggered r = true <->
     exists t, t ∈ live_triggers triggers m /\ Evaluate t m = true) /\
  (hasUnknownTrigger r = true <->
     exists s t, s ∈ triggers /\ ParseTrigger s = Ok t /\ metricMissing t m = true) /\
  (allInvalid r = true <->
     live_triggers triggers m = [] /\ exists s, s ∈ triggers /\ is_ok (ParseTrigger s) = false).
Proof.
  intros r. destruct (parseTriggerSet_fields triggers m) as (Hp & Ha & Hu & Hi).
  fold r in Hp, Ha, Hu, Hi. rewrite Hp, Ha, Hu, Hi. split_and!; [done|..].
  - unfold some_fires. rewrite existsb_exists. setoid_rewrite list_elem_of_In. done.
  - unfold some_unknown, valid_triggers. rewrite existsb_exists. setoid_rewrite <- list_elem_of_In.
    setoid_rewrite list_elem_of_omap. split.
    + intros (t & (s & Hs & Ht) & Hm). destruct (ParseTrigger s) eqn:E; [|done].
      simplify_eq. eauto.
    + intros (s & t & Hs & Ht & Hm). exists t. split; [|done]. exists s. by rewrite Ht.
  - rewrite andb_true_iff, bool_decide_eq_true. unfold some_unparsable.
    rewrite existsb_exists. setoid_rewrite <- list_elem_of_In.
    by setoid_rewrite negb_true_iff.
Qed.

Lemma live_not_invalid triggers m t :
  t ∈ live_triggers triggers m -> allInvalid (parseTriggerSet triggers m) = false.
Proof.
  intros Ht. destruct (parseTriggerSet_fields triggers m) as (_ & _ & _ & ->).
  apply andb_false_iff. left. apply bool_decide_eq_false. intros E.
  rewrite E in Ht. by apply elem_of_nil in Ht.
Qed.

Lemma some_fires_not_invalid triggers m :
  some_fires triggers m = true -> allInvalid (parseTriggerSet triggers m) = false.
Proof.
  unfold some_fires. rewrite existsb_exists. intros (t & Ht & _).
  by apply (live_not_invalid triggers m t), list_elem_of_In.
Qed.

(** ** The decision *)

Lemma normalize_path_cases p :
  normalize_path p = PathTerrestrial \/ normalize_path p = PathSatellite \/
  normalize_path p = PathUnavailable.
Proof.
  unfold normalize_path. destruct (str_eqb p PathTerrestrial) eqn:E1.
  { apply str_eqb_eq in E1. auto. }
  destruct (str_eqb p PathSatellite) eqn:E2; [apply str_eqb_eq in E2; auto|].
  destruct (str_eqb p PathUnavailable) eqn:E3; [apply str_eqb_eq in E3; auto|]. auto.
Qed.

Lemma normalize_satellite : normalize_path PathSatellite = PathSatellite.
Proof. done. Qed.

Lemma normalize_terrestrial : normalize_path PathTerrestrial = PathTerrestrial.
Proof. done. Qed.

(** Reduce an evaluator to its decision tree over an opaque trigger set. *)
Ltac open_evaluator :=
  unfold EvaluateFailoverWithHysteresis, EvaluateFailoverWithContext,
    EvaluateSafeHold, evaluate_unavailable, all_invalid_reason in *;
  repeat match goal with
  | |- context [parseTriggerSet ?l ?m] =>
      let ts := fresh "ts" in set (ts := parseTriggerSet l m) in *
  end.

(** A decision together with the path it leads to is well formed: staying
    keeps the (normalised) path, failing over leaves a non-satellite path for a
    satellite that is available, switching back leaves a non-terrestrial path. *)
Definition legal_transition (currentPath : PathType) (satelliteAvailable : bool)
  (r : FailoverResult) : Prop :=
  match decision r with
  | DecisionStay =>
      targetPath r = normalize_path currentPath /\
      (targetPath r = PathSatellite -> satelliteAvailable = true)
  | DecisionFailover =>
      targetPath r = PathSatellite /\ satelliteAvailable = true /\
      normalize_path currentPath <> PathSatellite
  | DecisionSwitchback =>
      targetPath r = PathTerrestrial /\ normalize_path currentPath <> PathTerrestrial
  end.

Lemma context_legal cur triggers m avail delay last now :
  legal_transition cur avail (EvaluateFailoverWithContext cur triggers m avail delay last now).
Proof.
  open_evaluator. unfold legal_transition.
  destruct (normalize_path_cases cur) as [-> |[-> | ->]]; simpl;
    destruct avail; simpl; repeat split_match; simpl; simplify_eq; done.
Qed.

Lemma hysteresis_legal cur triggers m avail delay last now margin :
  legal_transition cur avail
    (EvaluateFailoverWithHysteresis cur triggers m avail delay last now margin).
Proof.
  unfold EvaluateFailoverWithHysteresis.
  destruct (str_eqb cur PathSatellite) eqn:E; simpl; [|apply context_legal].
  destruct (f_le margin f_zero); [apply context_legal|].
  apply str_eqb_eq in E as ->. unfold legal_transition.
  set (ts := parseTriggerSet _ _).
  destruct avail; simpl; repeat split_match; simpl; simplify_eq; done.
Qed.

Lemma safehold_legal cur avail : legal_transition cur avail (EvaluateSafeHold cur avail).
Proof.
  open_evaluator. unfold legal_transition.
  destruct (normalize_path_cases cur) as [-> |[-> | ->]]; destruct avail; done.
Qed.

(** Every decision of the engine is a legal transition: no evaluator ends
    on a satellite that is not available, Stay never moves the path, Failover
    and Switchback always do. *)
Theorem evaluators_legal cur triggers m avail delay last now margin :
  legal_transition cur avail (EvaluateFailover cur triggers m avail delay last now) /\
  legal_transition cur avail
    (EvaluateFailoverWithHysteresis cur triggers m avail delay last now margin) /\
  legal_transition cur avail (EvaluateSafeHold cur avail).
Proof. eauto using context_legal, hysteresis_legal, safehold_legal. Qed.

(** A pass that has physically ended always brings the slice back to
    terrestrial, whatever the triggers, the metrics, the delay, the clocks and
    the margin are. *)
Theorem pass_ended_switches_back triggers m delay last now margin :
  let ended r := decision r = DecisionSwitchback /\ targetPath r = PathTerrestrial in
  ended (EvaluateFailover PathSatellite triggers m false delay last now) /\
  ended (EvaluateFailoverWithHysteresis PathSatellite triggers m false delay last now margin) /\
  ended (EvaluateSafeHold PathSatellite false).
Proof.
  unfold EvaluateFailover, EvaluateFailoverWithHysteresis. simpl.
  destruct (f_le margin f_zero); done.
Qed.

(** From terrestrial the engine fails over exactly when a live trigger fires
    and a satellite is available. *)
Lemma terrestrial_failover_iff triggers m avail delay last now margin :
  decision (EvaluateFailoverWithHysteresis PathTerrestrial triggers m avail delay last now margin)
    = DecisionFailover <->
  avail = true /\ some_fires triggers m = true.
Proof.
  unfold EvaluateFailoverWithHysteresis. simpl. open_evaluator.
  rewrite normalize_terrestrial. simpl.
  destruct (parseTriggerSet_fields triggers m) as (_ & Ha & _ & _). fold ts in Ha.
  rewrite <- Ha. destruct (allInvalid ts) eqn:Ei.
  - simpl. split; [done|]. intros [_ Hf]. rewrite Ha in Hf.
    pose proof (some_fires_not_invalid triggers m Hf). fold ts in H. congruence.
  - destruct (anyTriggered ts), avail; simpl; intuition congruence.
Qed.

(** The switchback delay counted from [last] is over; a zero clock counts as
    elapsed. *)
Definition delay_elapsed (last now : Time) (delay : Duration) : bool :=
  IsZero last || negb (Sub now last <? delay)%Z.

Definition recovered_past (margin : float64) (triggers : list string) (m : Metrics) : bool :=
  f_le margin f_zero ||
  forallb (fun t => EvaluateRecovery t m margin) (live_triggers triggers m).

(** On a satellite that is still overhead the engine hands back to
    terrestrial exactly when the policy is not broken, no live trigger fires,
    no trigger is unsourced, every live trigger has cleared the dead band (when
    there is one) and the delay clock has run out. *)
Theorem satellite_switchback_iff triggers m delay last now margin :
  decision (EvaluateFailoverWithHysteresis PathSatellite triggers m true delay last now margin)
    = DecisionSwitchback <->
  ~ (live_triggers triggers m = [] /\ some_unparsable triggers = true) /\
  some_fires triggers m = false /\
  some_unknown triggers m = false /\
  recovered_past margin triggers m = true /\
  delay_elapsed last now delay = true.
Proof.
  unfold EvaluateFailoverWithHysteresis, recovered_past. simpl. open_evaluator.
  rewrite normalize_satellite. simpl.
  destruct (parseTriggerSet_fields triggers m) as (Hp & Ha & Hu & Hi).
  fold ts in Hp, Ha, Hu, Hi. rewrite <- Hp, <- Ha, <- Hu.
  assert (Hinv : ~ (parsed ts = [] /\ some_unparsable triggers = true) <-> allInvalid ts = false).
  { rewrite Hi, Hp, <- not_true_iff_false, andb_true_iff, bool_decide_eq_true. done. }
  rewrite Hinv. unfold delay_elapsed.
  destruct (f_le margin f_zero), (allInvalid ts), (anyTriggered ts), (hasUnknownTrigger ts),
    (forallb _ (parsed ts)), (IsZero last), (Sub now last <? delay)%Z; simpl; intuition congruence.
Qed.

(** Hysteresis only ever postpones a hand-back: its decision is the base
    evaluator's, except that a switchback under an available satellite may be
    turned into holding on the satellite, and then a live trigger is still
    inside its dead band. *)
Theorem hysteresis_only_postpones cur triggers m avail delay last now margin :
  let b := EvaluateFailoverWithContext cur triggers m avail delay last now in
  let h := EvaluateFailoverWithHysteresis cur triggers m avail delay last now margin in
  (decision h = decision b /\ targetPath h = targetPath b) \/
  (decision b = DecisionSwitchback /\ avail = true /\ cur = PathSatellite /\
   decision h = DecisionStay /\ targetPath h = PathSatellite /\
   exists t, t ∈ live_triggers triggers m /\ EvaluateRecovery t m margin = false).
Proof.
  intros b h. unfold h, EvaluateFailoverWithHysteresis.
  destruct (str_eqb cur PathSatellite) eqn:E; simpl; [|by left].
  destruct (f_le margin f_zero); [by left|].
  apply str_eqb_eq in E as ->. unfold b. open_evaluator.
  rewrite normalize_satellite. simpl.
  destruct (parseTriggerSet_fields triggers m) as (Hp & _). fold ts in Hp.
  destruct avail; simpl; [|by left].
  destruct (allInvalid ts); [by left|]. destruct (anyTriggered ts); [by left|].
  destruct (hasUnknownTrigger ts); [by left|].
  destruct (forallb _ (parsed ts)) eqn:Ef; simpl.
  - left. by destruct (negb (IsZero last) && _).
  - destruct (negb (IsZero last) && _); simpl; [by left|right]. split_and!; try done.
    rewrite Hp in Ef. by apply forallb_false_exists in Ef.
Qed.
