(* ===== verification/AntiFlap.v ===== *)
(** * Package slice: the anti-flap wrapper

    Models the last third of [src/pkg/slice/failover.go]: the per-slice
    anti-flap state and [EvaluateFailoverWithAntiFlap], which updates the
    confirmation and recovery clocks from one observation, runs the hysteresis
    evaluator with the recovery clock, gates a raw failover and starts the
    dwell clock.  The second half reads the wrapper as a state machine over
    sequences of observations and telemetry gaps. *)

From S2P Require Import Prelude GoStrings GoTime GoFloat Failover.
From Stdlib Require Import SpecFloat.
Local Open Scope string_scope.

Record AntiFlapConfig := mkConfig {
  ConfirmationSamples : Z;
  MinTerrestrialDwell : Duration
}.

Record AntiFlapState := mkFlap {
  ConsecutiveDegraded : Z;
  RecoveryObservedAt : Time;
  LastSwitchback : Time;
  LastCountedObservedAt : Time
}.

#[export] Instance AntiFlapState_eq_dec : EqDecision AntiFlapState.
Proof. solve_decision. Defined.

Definition zero_flap : AntiFlapState := mkFlap 0 zero_time zero_time zero_time.

(** ** Classifying an observation *)

Fixpoint terrestrialDegraded (triggers : list string) (m : Metrics) : bool :=
  match triggers with
  | [] => false
  | s :: rest =>
      match ParseTrigger s with
      | Err _ => terrestrialDegraded rest m
      | Ok t =>
          if metricMissing t m then terrestrialDegraded rest m
          else if Evaluate t m then true
          else terrestrialDegraded rest m
      end
  end.

(** The loop of [terrestrialConfirmedRecovered]: [None] is its early
    [return false], [Some sawValid] the flag at the end. *)
Fixpoint recovered_loop (triggers : list string) (m : Metrics) (margin : float64)
  (sawValid : bool) : option bool :=
  match triggers with
  | [] => Some sawValid
  | s :: rest =>
      match ParseTrigger s with
      | Err _ => recovered_loop rest m margin sawValid
      | Ok t =>
          if metricMissing t m then None
          else if negb (EvaluateRecovery t m margin) then None
          else recovered_loop rest m margin true
      end
  end.

Definition terrestrialConfirmedRecovered (triggers : list string) (m : Metrics) (margin : float64) : bool :=
  match recovered_loop triggers m margin false with
  | None => false
  | Some sawValid => negb ((0 <? length triggers)%nat && negb sawValid)
  end.

(** ** The wrapper *)

(** Step 1: only a genuinely new observation moves the clocks. *)
Definition is_new (observedAt : Time) (st : AntiFlapState) : bool :=
  IsZero observedAt || After observedAt (LastCountedObservedAt st).

Definition update_clocks (triggers : list string) (metrics : Metrics) (observedAt now : Time)
  (hysteresisMargin : float64) (st : AntiFlapState) : AntiFlapState :=
  if is_new observedAt st then
    if terrestrialDegraded triggers metrics then
      mkFlap (wrap64 (ConsecutiveDegraded st + 1)) zero_time (LastSwitchback st) observedAt
    else if terrestrialConfirmedRecovered triggers metrics hysteresisMargin then
      mkFlap 0
        (if IsZero (RecoveryObservedAt st) then now else RecoveryObservedAt st)
        (LastSwitchback st) observedAt
    else mkFlap 0 zero_time (LastSwitchback st) observedAt
  else st.

(** Step 3: the confirmation and dwell gates on a raw failover. *)
Definition gate_failover (currentPath : PathType) (now : Time) (cfg : AntiFlapConfig)
  (st : AntiFlapState) (res : FailoverResult) : FailoverResult :=
  if bool_decide (decision res = DecisionFailover) && str_eqb currentPath PathTerrestrial then
    if (1 <? ConfirmationSamples cfg)%Z && (ConsecutiveDegraded st <? ConfirmationSamples cfg)%Z then
      mkResult DecisionStay
        ("Terrestrial degraded, failover unconfirmed (" +:+ fmt_d (ConsecutiveDegraded st)
         +:+ "/" +:+ fmt_d (ConfirmationSamples cfg) +:+ " consecutive samples)")
        currentPath
    else if (0 <? MinTerrestrialDwell cfg)%Z && negb (IsZero (LastSwitchback st)) &&
            (Sub now (LastSwitchback st) <? MinTerrestrialDwell cfg)%Z then
      mkResult DecisionStay
        ("Terrestrial degraded but within min dwell after switchback ("
         +:+ duration_string (dur_sub (MinTerrestrialDwell cfg) (Sub now (LastSwitchback st)))
         +:+ " remaining)")
        currentPath
    else res
  else res.

(** Step 4: the dwell clock starts on a quality-driven hand-back. *)
Definition note_switchback (currentPath : PathType) (satelliteAvailable : bool) (now : Time)
  (res : FailoverResult) (st : AntiFlapState) : AntiFlapState :=
  if bool_decide (decision res = DecisionSwitchback) && satelliteAvailable &&
     str_eqb currentPath PathSatellite
  then mkFlap (ConsecutiveDegraded st) (RecoveryObservedAt st) now (LastCountedObservedAt st)
  else st.

Definition EvaluateFailoverWithAntiFlap
  (currentPath : PathType) (triggers : list string) (metrics : Metrics)
  (observedAt : Time) (satelliteAvailable : bool) (switchbackDelay : Duration)
  (now : Time) (hysteresisMargin : float64) (cfg : AntiFlapConfig) (st : AntiFlapState)
  : FailoverResult * AntiFlapState :=
  let st := update_clocks triggers metrics observedAt now hysteresisMargin st in
  let res := EvaluateFailoverWithHysteresis currentPath triggers metrics
               satelliteAvailable switchbackDelay (RecoveryObservedAt st) now hysteresisMargin in
  let res := gate_failover currentPath now cfg st res in
  let st := note_switchback currentPath satelliteAvailable now res st in
  (res, st).

(** * Properties *)

(** ** Classification *)

Lemma terrestrialDegraded_some_fires triggers m :
  terrestrialDegraded triggers m = some_fires triggers m.
Proof.
  induction triggers as [|s rest IH]; simpl; [done|].
  rewrite some_fires_cons. destruct (ParseTrigger s) as [t|]; [|done].
  by destruct (metricMissing t m), (Evaluate t m).
Qed.

Lemma recovered_loop_spec triggers m margin seen :
  recovered_loop triggers m margin seen =
  if some_unknown triggers m then None
  else if forallb (fun t => EvaluateRecovery t m margin) (live_triggers triggers m)
       then Some (seen || negb (bool_decide (valid_triggers triggers = [])))
       else None.
Proof.
  revert seen. induction triggers as [|s rest IH]; intros seen; [by destruct seen|].
  cbn [recovered_loop].
  rewrite some_unknown_cons, live_triggers_cons, valid_triggers_cons.
  destruct (ParseTrigger s) as [t|]; [|done].
  destruct (metricMissing t m); [done|]. simpl.
  destruct (EvaluateRecovery t m margin); simpl.
  - rewrite IH. by rewrite orb_true_r.
  - by destruct (some_unknown rest m).
Qed.

(** The two stand-alone classifiers agree with the evaluator's own view
    of the policy: degraded is exactly that a live trigger fires, and confirmed
    recovery is exactly that no valid trigger is unsourced, every live trigger
    has cleared the margin, and a non-empty policy has at least one valid
    trigger. *)
Theorem classifiers_match_policy triggers m margin :
  terrestrialDegraded triggers m = anyTriggered (parseTriggerSet triggers m) /\
  (terrestrialConfirmedRecovered triggers m margin = true <->
     hasUnknownTrigger (parseTriggerSet triggers m) = false /\
     (forall t, t ∈ parsed (parseTriggerSet triggers m) -> EvaluateRecovery t m margin = true) /\
     (triggers <> [] -> valid_triggers triggers <> [])).
Proof.
  destruct (parseTriggerSet_fields triggers m) as (Hp & Ha & Hu & _).
  rewrite Hp, Ha, Hu, terrestrialDegraded_some_fires. split; [done|].
  unfold terrestrialConfirmedRecovered. rewrite recovered_loop_spec, <- forallb_elem_of.
  destruct (some_unknown triggers m); [intuition congruence|].
  destruct (forallb _ _); [|intuition congruence]. simpl.
  rewrite negb_true_iff, negb_involutive, andb_false_iff, bool_decide_eq_false, Nat.ltb_ge.
  destruct triggers as [|s rest]; simpl; split; intros; split_and?; try done; try (left; lia).
  - destruct H as [H|H]; [lia|]. done.
  - right. destruct H as (_ & _ & H). by apply H.
Qed.

(** ** One step *)

Lemma gate_failover_cases cur now cfg st res :
  gate_failover cur now cfg st res = res \/
  (decision res = DecisionFailover /\ cur = PathTerrestrial /\
   decision (gate_failover cur now cfg st res) = DecisionStay /\
   targetPath (gate_failover cur now cfg st res) = PathTerrestrial).
Proof.
  unfold gate_failover.
  case_bool_decide as Hd; simpl; [|by left].
  destruct (str_eqb cur PathTerrestrial) eqn:E; [|by left]. apply str_eqb_eq in E as ->.
  destruct ((1 <? _)%Z && _); [by right|].
  destruct ((0 <? _)%Z && _ && _); [by right|by left].
Qed.

(** Anti-flap never invents a switch: the decision is the hysteresis
    evaluator's, measured from the updated recovery clock, or that decision was
    a failover from terrestrial and is turned into staying there. *)
Theorem antiflap_only_downgrades cur triggers m obs avail delay now margin cfg st :
  let st' := update_clocks triggers m obs now margin st in
  let raw := EvaluateFailoverWithHysteresis cur triggers m avail delay
               (RecoveryObservedAt st') now margin in
  let res := fst (EvaluateFailoverWithAntiFlap cur triggers m obs avail delay now margin cfg st) in
  res = raw \/
  (decision raw = DecisionFailover /\ cur = PathTerrestrial /\
   decision res = DecisionStay /\ targetPath res = PathTerrestrial).
Proof. simpl. apply gate_failover_cases. Qed.

Lemma antiflap_legal cur triggers m obs avail delay now margin cfg st :
  legal_transition cur avail
    (fst (EvaluateFailoverWithAntiFlap cur triggers m obs avail delay now margin cfg st)).
Proof.
  simpl. destruct (gate_failover_cases cur now cfg (update_clocks triggers m obs now margin st)
    (EvaluateFailoverWithHysteresis cur triggers m avail delay
       (RecoveryObservedAt (update_clocks triggers m obs now margin st)) now margin))
    as [-> |(_ & -> & Hd & Ht)]; [apply hysteresis_legal|].
  unfold legal_transition. by rewrite Hd, Ht.
Qed.

(** From terrestrial the wrapper fails over exactly when a live trigger
    fires under an available satellite, the confirmation count is reached (when
    more than one sample is asked for) and the dwell since the last hand-back is
    over (when one is configured and a hand-back is recorded). *)
Theorem antiflap_failover_iff triggers m obs avail delay now margin cfg st :
  let st' := update_clocks triggers m obs now margin st in
  decision (fst (EvaluateFailoverWithAntiFlap PathTerrestrial triggers m obs avail delay now margin cfg st))
    = DecisionFailover <->
  avail = true /\ some_fires triggers m = true /\
  (1 < ConfirmationSamples cfg -> ConfirmationSamples cfg <= ConsecutiveDegraded st')%Z /\
  (0 < MinTerrestrialDwell cfg -> LastSwitchback st' <> zero_time ->
     MinTerrestrialDwell cfg <= Sub now (LastSwitchback st'))%Z.
Proof.
  simpl. set (st' := update_clocks triggers m obs now margin st).
  set (raw := EvaluateFailoverWithHysteresis _ _ _ _ _ _ _ _).
  pose proof (terrestrial_failover_iff triggers m avail delay (RecoveryObservedAt st') now margin) as Hraw.
  fold raw in Hraw. unfold gate_failover.
  case_bool_decide as Hd; simpl; [|intuition]. apply Hraw in Hd as Hd'.
  destruct ((1 <? _)%Z && _) eqn:E1; simpl.
  { bool_props. split; [done|]. intros (_&_&H1&_). lia. }
  destruct ((0 <? _)%Z && _ && _) eqn:E2; simpl.
  { bool_props. unfold IsZero, zero_time in *. bool_props. split; [done|]. intros (_&_&_&H2). lia. }
  unfold IsZero, zero_time in *. rewrite !andb_false_iff, ?negb_false_iff, ?Z.ltb_ge, ?Z.eqb_eq in *.
  split; [|done]. intros _. split_and!; intuition lia.
Qed.

(** ** The wrapper as a state machine *)

(** The part of the spec that stays fixed along a run. *)
Record Policy := mkPolicy {
  p_triggers : list string;
  p_delay : Duration;
  p_margin : float64;
  p_cfg : AntiFlapConfig
}.

(** What happens to a slice between two reconciles that evaluate it: an
    observation reaches the wrapper, or a telemetry gap breaks the streaks. *)
Inductive event :=
| Observe (m : Metrics) (observedAt : Time) (avail : bool) (now : Time)
| Gap.

(** What a gap does to the state ([resetRecoveryStreak] of the controller). *)
Definition break_streaks (st : AntiFlapState) : AntiFlapState :=
  mkFlap 0 zero_time (LastSwitchback st) (LastCountedObservedAt st).

Definition observe (p : Policy) (path : PathType) (st : AntiFlapState)
  (m : Metrics) (obs : Time) (avail : bool) (now : Time) : FailoverResult * AntiFlapState :=
  EvaluateFailoverWithAntiFlap path (p_triggers p) m obs avail (p_delay p) now
    (p_margin p) (p_cfg p) st.

(** One step; the decision is [None] for a gap. *)
Definition af_step (p : Policy) (s : PathType * AntiFlapState) (e : event)
  : option FailoverResult * (PathType * AntiFlapState) :=
  let '(path, st) := s in
  match e with
  | Observe m obs avail now =>
      let '(r, st') := observe p path st m obs avail now in
      (Some r, (targetPath r, st'))
  | Gap => (None, (path, break_streaks st))
  end.

Definition af_run (p : Policy) (s : PathType * AntiFlapState) (es : list event)
  : PathType * AntiFlapState :=
  fold_left (fun s e => snd (af_step p s e)) es s.

(** The history of a run: the observations that counted, in order, with a
    break where telemetry was lost. *)
Inductive entry :=
| Counted (m : Metrics) (observedAt now : Time)
| Break.

Definition entry_of (st : AntiFlapState) (e : event) : list entry :=
  match e with
  | Observe m obs _ now => if is_new obs st then [Counted m obs now] else []
  | Gap => [Break]
  end.

Fixpoint history (p : Policy) (s : PathType * AntiFlapState) (es : list event) : list entry :=
  match es with
  | [] => []
  | e :: es => entry_of (snd s) e ++ history p (snd (af_step p s e)) es
  end.

Definition degraded_entry (p : Policy) (x : entry) : Prop :=
  match x with
  | Counted m _ _ => terrestrialDegraded (p_triggers p) m = true
  | Break => False
  end.

Definition recovered_entry (p : Policy) (x : entry) : Prop :=
  match x with
  | Counted m _ _ =>
      terrestrialDegraded (p_triggers p) m = false /\
      terrestrialConfirmedRecovered (p_triggers p) m (p_margin p) = true
  | Break => False
  end.

Definition entry_obs (x : entry) : Time :=
  match x with Counted _ obs _ => obs | Break => zero_time end.
Definition entry_now (x : entry) : Time :=
  match x with Counted _ _ now => now | Break => zero_time end.

(** Timestamps of consecutive counted observations grow, unless the later one
    carries none. *)
Fixpoint distinct_obs (l : list entry) : Prop :=
  match l with
  | x :: ((y :: _) as rest) =>
      (entry_obs y = zero_time \/ entry_obs x < entry_obs y)%Z /\ distinct_obs rest
  | _ => True
  end.

(** The invariant that ties the counters of a state to the history [h] behind
    it. *)
Record explains (p : Policy) (h : list entry) (st : AntiFlapState) : Prop := {
  exp_streak : exists pre run,
    h = (pre ++ run)%list /\ Forall (degraded_entry p) run /\ distinct_obs run /\
    ConsecutiveDegraded st = wrap64 (Z.of_nat (length run)) /\
    (run <> [] -> exists x, last run = Some x /\ entry_obs x = LastCountedObservedAt st);
  exp_recovery : RecoveryObservedAt st <> zero_time ->
    exists pre x run,
      h = (pre ++ x :: run)%list /\ Forall (recovered_entry p) (x :: run) /\
      entry_now x = RecoveryObservedAt st
}.

Lemma explains_initial p st :
  ConsecutiveDegraded st = 0%Z -> RecoveryObservedAt st = zero_time -> explains p [] st.
Proof.
  intros Hc Hr. split; [|done].
  exists [], []. split_and!; [done|by constructor|done|by rewrite Hc|done].
Qed.

Lemma distinct_obs_snoc l x y :
  distinct_obs l -> last l = Some x ->
  (entry_obs y = zero_time \/ entry_obs x < entry_obs y)%Z -> distinct_obs (l ++ [y]).
Proof.
  induction l as [|a l IH]; [done|]. destruct l as [|b l].
  - intros _ [= ->] Hxy. simpl. auto.
  - intros [Hab Hl] Hlast Hxy. simpl in *. split; [done|]. by apply IH.
Qed.

Lemma wrap64_succ z : wrap64 (wrap64 z + 1) = wrap64 (z + 1).
Proof.
  unfold wrap64. f_equal.
  replace ((z + 2 ^ 63) mod 2 ^ 64 - 2 ^ 63 + 1 + 2 ^ 63)%Z
    with ((z + 2 ^ 63) mod 2 ^ 64 + 1)%Z by lia.
  rewrite Z.add_mod_idemp_l by lia. f_equal. lia.
Qed.

Lemma wrap64_le z : (0 <= z)%Z -> (wrap64 z <= z)%Z.
Proof.
  intros. unfold wrap64. pose proof (Z.mod_le (z + 2 ^ 63) (2 ^ 64)). lia.
Qed.

Lemma note_switchback_streaks p h cur avail now res st :
  explains p h st -> explains p h (note_switchback cur avail now res st).
Proof. unfold note_switchback. intros [H1 H2]. destruct (_ && _); by split. Qed.

Lemma update_clocks_explains p h st m obs now :
  explains p h st ->
  explains p (h ++ if is_new obs st then [Counted m obs now] else [])%list
    (update_clocks (p_triggers p) m obs now (p_margin p) st).
Proof.
  intros [(pre & run & Hh & Hf & Hd & Hc & Hl) Hr]. unfold update_clocks.
  destruct (is_new obs st) eqn:Hnew; [|rewrite app_nil_r; split; eauto 10].
  destruct (terrestrialDegraded (p_triggers p) m) eqn:Edeg;
    [|destruct (terrestrialConfirmedRecovered (p_triggers p) m (p_margin p)) eqn:Erec].
  - split; [|done]. exists pre, (run ++ [Counted m obs now])%list. split_and!.
    + by rewrite Hh, app_assoc.
    + apply Forall_app. split; [done|]. by constructor; [|constructor].
    + destruct run as [|a run']; [done|].
      destruct Hl as (x & Hx & Hobs); [done|].
      apply (distinct_obs_snoc _ x); [done|done|]. simpl. rewrite Hobs.
      unfold is_new, IsZero, After, zero_time in *.
      apply orb_true_iff in Hnew as [Hz|Hz]; bool_props; auto.
    + simpl. rewrite Hc, wrap64_succ, length_app. f_equal. simpl. lia.
    + intros _. exists (Counted m obs now). by rewrite last_snoc.
  - split.
    + exists (h ++ [Counted m obs now])%list, []. rewrite app_nil_r. by split_and!.
    + simpl. intros Hne. destruct (IsZero (RecoveryObservedAt st)) eqn:Ez.
      * exists h, (Counted m obs now), []. by split_and!; [|constructor|].
      * unfold IsZero in Ez. bool_props.
        destruct Hr as (pre' & x & run' & Hh' & Hf' & Hn'); [done|].
        exists pre', x, (run' ++ [Counted m obs now])%list. rewrite Hh', <- app_assoc.
        split_and!; [done| |done]. rewrite app_comm_cons. apply Forall_app. by split; [|constructor].
  - split; [|done]. exists (h ++ [Counted m obs now])%list, []. rewrite app_nil_r. by split_and!.
Qed.

Lemma af_step_explains p h s e :
  explains p h (snd s) ->
  explains p (h ++ entry_of (snd s) e)%list (snd (snd (af_step p s e))).
Proof.
  destruct s as [path st]. intros Hx. destruct e as [m obs avail now|]; simpl in *.
  - by apply note_switchback_streaks, update_clocks_explains.
  - split; [|done]. exists (h ++ [Break])%list, []. rewrite app_nil_r. by split_and!.
Qed.

Lemma af_run_explains p h s es :
  explains p h (snd s) -> explains p (h ++ history p s es)%list (snd (af_run p s es)).
Proof.
  revert h s. induction es as [|e es IH]; intros h s Hx; simpl.
  - by rewrite app_nil_r.
  - rewrite app_assoc. by apply IH, af_step_explains.
Qed.

(** ** Soundness of the two gates along a run *)

Lemma distinct_obs_suffix l1 l2 : distinct_obs (l1 ++ l2) -> distinct_obs l2.
Proof.
  induction l1 as [|a l1 IH]; [done|]. intros H. apply IH.
  destruct l1 as [|b l1]; simpl in *; [|by destruct H].
  destruct l2 as [|y l2]; [done|]. by destruct H.
Qed.

Lemma history_snoc p s es e :
  history p s (es ++ [e]) = (history p s es ++ entry_of (snd (af_run p s es)) e)%list.
Proof.
  revert s. induction es as [|a es IH]; intros s; simpl.
  - by rewrite app_nil_r.
  - rewrite IH, app_assoc. done.
Qed.

Lemma af_run_snoc p s es e :
  af_run p s (es ++ [e]) = snd (af_step p (af_run p s es) e).
Proof. unfold af_run. by rewrite fold_left_app. Qed.

(** The streaks of a run that starts with clean clocks, seen through the
    clocks the evaluation of one more observation uses. *)
Lemma run_then_update p path st es m obs avail now :
  ConsecutiveDegraded st = 0%Z -> RecoveryObservedAt st = zero_time ->
  explains p (history p (path, st) (es ++ [Observe m obs avail now]))
    (update_clocks (p_triggers p) m obs now (p_margin p) (snd (af_run p (path, st) es))).
Proof.
  intros Hc Hr. rewrite history_snoc. simpl. apply update_clocks_explains.
  apply (af_run_explains p [] (path, st) es). by apply explains_initial.
Qed.

(** C9. Confirmation counts distinct observations: when a run that starts
    with clean clocks fails over from terrestrial and N > 1 confirmations are
    asked for, its N latest counted observations all fired a trigger, carry
    strictly growing source timestamps (where they carry one), and no telemetry
    gap lies between them. *)
Theorem failover_is_confirmed p path st es m obs avail now :
  let s := af_run p (path, st) es in
  let n := ConfirmationSamples (p_cfg p) in
  ConsecutiveDegraded st = 0%Z -> RecoveryObservedAt st = zero_time ->
  (1 < n)%Z -> fst s = PathTerrestrial ->
  decision (fst (observe p (fst s) (snd s) m obs avail now)) = DecisionFailover ->
  exists pre run,
    history p (path, st) (es ++ [Observe m obs avail now]) = (pre ++ run)%list /\
    Z.of_nat (length run) = n /\ Forall (degraded_entry p) run /\ distinct_obs run.
Proof.
  intros s n Hc Hr Hn Hpath Hdec.
  pose proof (run_then_update p path st es m obs avail now Hc Hr) as [Hs _].
  fold s in Hs. destruct Hs as (pre & run & Hh & Hf & Hd & Hcd & _).
  unfold observe in Hdec. rewrite Hpath in Hdec.
  apply antiflap_failover_iff in Hdec as (_ & _ & Hconf & _).
  specialize (Hconf Hn). rewrite Hcd in Hconf.
  pose proof (wrap64_le (Z.of_nat (length run))) as Hw.
  set (k := (length run - Z.to_nat n)%nat).
  exists (pre ++ take k run)%list, (drop k run).
  rewrite <- app_assoc, take_drop. split_and!; [done|..].
  - rewrite length_drop. unfold k. lia.
  - by apply Forall_drop.
  - apply (distinct_obs_suffix (take k run)). by rewrite take_drop.
Qed.

Definition metrics_not_nan (m : Metrics) : Prop :=
  IsNaN (RSRP m) = false /\ IsNaN (LatencyMs m) = false /\ IsNaN (PacketLossPercent m) = false.

Lemma field_value_not_nan f m : metrics_not_nan m -> IsNaN (field_value f m) = false.
Proof. intros (?&?&?). by destruct f. Qed.

Lemma valid_trigger_shape t triggers :
  t ∈ valid_triggers triggers ->
  Metric t ∈ validMetrics /\ Operator t ∈ trigger_operators /\ is_finite (Value t) = true.
Proof.
  unfold valid_triggers. rewrite list_elem_of_omap. intros (s & _ & Hs).
  destruct (ParseTrigger s) eqn:E; simplify_eq. by eapply parse_operators_ok.
Qed.

(** Without a dead band, a parsed trigger that does not fire has recovered. *)
Lemma quiet_is_recovered t m z triggers :
  t ∈ valid_triggers triggers -> metrics_not_nan m -> is_zero z = true ->
  Evaluate t m = false -> EvaluateRecovery t m z = true.
Proof.
  intros Ht Hm Hz. destruct (valid_trigger_shape _ _ Ht) as (Hmet & Hop & Hfin).
  apply is_finite_not_nan in Hfin. unfold Evaluate, EvaluateRecovery.
  destruct (trigger_field (Metric t)) as [f|] eqn:Ef.
  - pose proof (field_value_not_nan f m Hm) as Ha. set (a := field_value f m) in *.
    assert (Hclamp : f_le a (Value t) = true ->
      f_le a (if f_lt (f_sub (Value t) z) f_zero then f_zero else f_sub (Value t) z) = true).
    { intros Hle. rewrite f_lt_sub_zero by done.
      destruct (f_lt (Value t) f_zero) eqn:E; [by eapply f_le_neg_trans|].
      by rewrite f_le_sub_zero. }
    unfold trigger_operators in Hop. rewrite !elem_of_cons, elem_of_nil in Hop.
    destruct Hop as [->|[->|[->|[->|[]]]]]; simpl;
      rewrite ?f_ge_add_zero by done; intros He;
      auto using f_not_firing_ge, f_not_firing_le.
  - exfalso. unfold validMetrics in Hmet. rewrite !elem_of_cons, elem_of_nil in Hmet.
    by destruct Hmet as [E|[E|[E|[E|[E|[E|[]]]]]]]; rewrite E in Ef.
Qed.

Lemma unparsable_or_all_valid triggers :
  some_unparsable triggers = false -> length (valid_triggers triggers) = length triggers.
Proof.
  induction triggers as [|s rest IH]; [done|].
  rewrite valid_triggers_cons. unfold some_unparsable in *. simpl.
  destruct (ParseTrigger s); simpl; [|done]. intros. f_equal. auto.
Qed.

(** What the evaluator accepts as recovered, the clock update confirms. *)
Lemma switchback_policy_confirms triggers m margin :
  metrics_not_nan m -> IsNaN margin = false -> f_lt margin f_zero = false ->
  ~ (live_triggers triggers m = [] /\ some_unparsable triggers = true) ->
  some_fires triggers m = false -> some_unknown triggers m = false ->
  recovered_past margin triggers m = true ->
  terrestrialConfirmedRecovered triggers m margin = true.
Proof.
  intros Hm Hnan Hneg Hinv Hfire Hunk Hrec.
  unfold terrestrialConfirmedRecovered. rewrite recovered_loop_spec, Hunk.
  assert (Hall : forallb (fun t => EvaluateRecovery t m margin) (live_triggers triggers m) = true).
  { unfold recovered_past in Hrec.
    destruct (nonneg_margin_cases margin Hnan Hneg) as [Hz|Hpos]; [|by rewrite Hpos in Hrec].
    apply forallb_elem_of. intros t Ht. unfold some_fires in Hfire.
    rewrite existsb_false_elem_of in Hfire.
    apply (quiet_is_recovered t m margin triggers); auto.
    unfold live_triggers in Ht. apply elem_of_filter_bool in Ht. tauto. }
  rewrite Hall. simpl. rewrite negb_involutive, negb_true_iff, andb_false_iff.
  case_bool_decide as Hv; [left|by right].
  apply Nat.ltb_ge. destruct (some_unparsable triggers) eqn:E.
  - exfalso. apply Hinv. unfold live_triggers. by rewrite Hv.
  - apply unparsable_or_all_valid in E. rewrite Hv in E. simpl in E. lia.
Qed.

(** C16. A quality hand-back decided on a new observation rests on continuous
    confirmed recovery: there is an unbroken run of counted observations at the
    end of the history, each past the hysteresis margin, whose first one was
    evaluated at least the switchback delay ago. *)
Theorem switchback_after_continuous_recovery p path st es m obs now :
  let s := af_run p (path, st) es in
  ConsecutiveDegraded st = 0%Z -> RecoveryObservedAt st = zero_time ->
  metrics_not_nan m -> IsNaN (p_margin p) = false -> f_lt (p_margin p) f_zero = false ->
  now <> zero_time -> fst s = PathSatellite -> is_new obs (snd s) = true ->
  decision (fst (observe p (fst s) (snd s) m obs true now)) = DecisionSwitchback ->
  exists pre x run,
    history p (path, st) (es ++ [Observe m obs true now]) = (pre ++ x :: run)%list /\
    Forall (recovered_entry p) (x :: run) /\ (p_delay p <= Sub now (entry_now x))%Z.
Proof.
  intros s Hc Hr Hm Hnan Hneg Hnow Hpath Hnew Hdec.
  pose proof (run_then_update p path st es m obs true now Hc Hr) as [_ Hs]. fold s in Hs.
  set (st' := update_clocks _ _ _ _ _ _) in Hs.
  assert (Hsw : decision (EvaluateFailoverWithHysteresis PathSatellite (p_triggers p) m true
      (p_delay p) (RecoveryObservedAt st') now (p_margin p)) = DecisionSwitchback).
  { unfold observe in Hdec. rewrite Hpath in Hdec.
    destruct (antiflap_only_downgrades PathSatellite (p_triggers p) m obs true (p_delay p) now
      (p_margin p) (p_cfg p) (snd s)) as [E|(_ & E & _)]; [|done]. by rewrite E in Hdec. }
  apply satellite_switchback_iff in Hsw as (Hinv & Hfire & Hunk & Hrec & Hel).
  pose proof (switchback_policy_confirms _ _ _ Hm Hnan Hneg Hinv Hfire Hunk Hrec) as Hconf.
  assert (Hclock : RecoveryObservedAt st' <> zero_time).
  { unfold st', update_clocks. rewrite Hnew, terrestrialDegraded_some_fires, Hfire, Hconf. simpl.
    unfold IsZero, zero_time in *. destruct (Z.eqb_spec (RecoveryObservedAt (snd s)) 0); done. }
  destruct (Hs Hclock) as (pre & x & run & Hh & Hf & Hx).
  exists pre, x, run. split_and!; [done|done|]. rewrite Hx.
  unfold delay_elapsed, IsZero, zero_time in *.
  apply orb_true_iff in Hel as [Hel|Hel]; bool_props; [done|lia].
Qed.

(** ** Progress: the gates only delay *)

(** Every event of [es] is a new degraded observation under an available
    satellite; [last] is the source time of the one before. *)
Fixpoint sustained (p : Policy) (last : Time) (es : list event) : Prop :=
  match es with
  | [] => True
  | Observe m obs avail now :: es =>
      avail = true /\ terrestrialDegraded (p_triggers p) m = true /\
      (obs = zero_time \/ (last < obs)%Z) /\ sustained p obs es
  | Gap :: _ => False
  end.

Definition dwell_over (p : Policy) (st : AntiFlapState) (now : Time) : Prop :=
  (0 < MinTerrestrialDwell (p_cfg p) -> LastSwitchback st <> zero_time ->
   MinTerrestrialDwell (p_cfg p) <= Sub now (LastSwitchback st))%Z.

Definition event_now (e : event) : Time :=
  match e with Observe _ _ _ now => now | Gap => zero_time end.

Lemma degraded_update p st m obs now :
  terrestrialDegraded (p_triggers p) m = true ->
  obs = zero_time \/ (LastCountedObservedAt st < obs)%Z ->
  update_clocks (p_triggers p) m obs now (p_margin p) st =
  mkFlap (wrap64 (ConsecutiveDegraded st + 1)) zero_time (LastSwitchback st) obs.
Proof.
  intros Hd Ho. unfold update_clocks, is_new, IsZero, After, zero_time in *. rewrite Hd.
  destruct (Z.eqb_spec obs 0); [done|]. destruct (Z.ltb_spec (LastCountedObservedAt st) obs); [done|lia].
Qed.

(** On terrestrial the wrapper leaves the updated clocks as they are. *)
Lemma terrestrial_keeps_clocks p st m obs avail now :
  snd (observe p PathTerrestrial st m obs avail now) =
  update_clocks (p_triggers p) m obs now (p_margin p) st.
Proof. unfold observe. simpl. unfold note_switchback. by rewrite andb_false_r. Qed.

Lemma observe_stays_terrestrial p st m obs avail now :
  decision (fst (observe p PathTerrestrial st m obs avail now)) <> DecisionFailover ->
  targetPath (fst (observe p PathTerrestrial st m obs avail now)) = PathTerrestrial.
Proof.
  intros Hd. pose proof (antiflap_legal PathTerrestrial (p_triggers p) m obs avail
    (p_delay p) now (p_margin p) (p_cfg p) st) as Hl.
  unfold observe in *. unfold legal_transition in Hl.
  destruct (decision _); [by destruct Hl|done|]. by destruct Hl.
Qed.

Lemma sustained_step p st m obs now es :
  let n := ConfirmationSamples (p_cfg p) in
  (0 <= ConsecutiveDegraded st)%Z ->
  (ConsecutiveDegraded st + Z.of_nat (S (length es)) <= int64_max)%Z ->
  (n <= ConsecutiveDegraded st + Z.of_nat (S (length es)))%Z ->
  sustained p (LastCountedObservedAt st) (Observe m obs true now :: es) ->
  let st' := snd (observe p PathTerrestrial st m obs true now) in
  (0 <= ConsecutiveDegraded st')%Z /\
  (ConsecutiveDegraded st' + Z.of_nat (length es) <= int64_max)%Z /\
  (n <= ConsecutiveDegraded st' + Z.of_nat (length es))%Z /\
  sustained p (LastCountedObservedAt st') es /\ LastSwitchback st' = LastSwitchback st.
Proof.
  intros n Hc Hmax Hn (_ & Hdeg & Hobs & Hes). cbv zeta.
  rewrite terrestrial_keeps_clocks, degraded_update by done. simpl.
  assert (Hmin : (int64_min <= 0)%Z) by (unfold int64_min; lia).
  rewrite wrap64_id by lia. split_and!; [lia|lia|lia|done|done].
Qed.

(** C23. Anti-flap delays a failover but never prevents it: under a sustained
    degradation, N new samples (one if no confirmation is asked for) reach a
    failover, provided the dwell is over when the last of them is evaluated. *)
Theorem sustained_degradation_fails_over p st es e :
  let n := ConfirmationSamples (p_cfg p) in
  (0 <= ConsecutiveDegraded st)%Z ->
  (ConsecutiveDegraded st + Z.of_nat (length (es ++ [e])) <= int64_max)%Z ->
  (n <= ConsecutiveDegraded st + Z.of_nat (length (es ++ [e])))%Z ->
  sustained p (LastCountedObservedAt st) (es ++ [e]) ->
  dwell_over p st (event_now e) ->
  exists before m obs now after,
    (es ++ [e])%list = (before ++ Observe m obs true now :: after)%list /\
    fst (af_run p (PathTerrestrial, st) before) = PathTerrestrial /\
    decision (fst (observe p PathTerrestrial (snd (af_run p (PathTerrestrial, st) before))
                     m obs true now)) = DecisionFailover.
Proof.
  intros n. revert st. induction es as [|a es IH]; intros st Hc Hmax Hn Hs Hdw.
  - destruct e as [m obs avail now|]; [|by destruct Hs]. destruct Hs as (-> & Hdeg & Hobs & _).
    exists [], m, obs, now, []. split_and!; [done|done|]. apply antiflap_failover_iff.
    rewrite <- terrestrialDegraded_some_fires, degraded_update by done. simpl in *.
    assert (Hmin : (int64_min <= 0)%Z) by (unfold int64_min; lia).
    rewrite wrap64_id by lia. split_and!; [done|done|lia|done].
  - destruct a as [m obs avail now|]; [|by destruct Hs].
    assert (avail = true) as -> by by destruct Hs. simpl length in *.
    destruct (decide (decision (fst (observe p PathTerrestrial st m obs true now)) = DecisionFailover))
      as [Hf|Hf].
    { exists [], m, obs, now, (es ++ [e])%list. by split_and!. }
    destruct (sustained_step p st m obs now (es ++ [e]) Hc Hmax Hn Hs) as (Hc'&Hmax'&Hn'&Hs'&Hls).
    apply observe_stays_terrestrial in Hf as Hpath.
    destruct (IH (snd (observe p PathTerrestrial st m obs true now)) Hc' Hmax' Hn' Hs')
      as (before & m' & obs' & now' & after & Heq & Hp & Hdec).
    { unfold dwell_over in *. by rewrite Hls. }
    exists (Observe m obs true now :: before), m', obs', now', after.
    assert (Hrun : af_run p (PathTerrestrial, st) (Observe m obs true now :: before) =
      af_run p (PathTerrestrial, snd (observe p PathTerrestrial st m obs true now)) before).
    { unfold af_run at 1. cbn [fold_left af_step].
      destruct (observe p PathTerrestrial st m obs true now) as [r st'].
      cbn [fst snd] in *. by rewrite Hpath. }
    rewrite Hrun. split_and!; [simpl; by rewrite Heq|done|done].
Qed.

(** ** A zero recovery clock *)

(** The one way around the switchback delay: after a gap has cleared the
    recovery clock, an observation that is not new leaves it at zero, the base
    evaluator reads zero as elapsed, and a healthy replay hands back to
    terrestrial whatever the configured delay is. *)
Theorem replay_after_gap_skips_delay p st m obs now :
  is_new obs st = false ->
  ~ (live_triggers (p_triggers p) m = [] /\ some_unparsable (p_triggers p) = true) ->
  some_fires (p_triggers p) m = false -> some_unknown (p_triggers p) m = false ->
  recovered_past (p_margin p) (p_triggers p) m = true ->
  decision (fst (observe p PathSatellite (break_streaks st) m obs true now)) = DecisionSwitchback.
Proof.
  intros Hnew Hinv Hfire Hunk Hrec. unfold observe. simpl.
  assert (Hheld : update_clocks (p_triggers p) m obs now (p_margin p) (break_streaks st)
    = break_streaks st).
  { unfold update_clocks. unfold is_new in *. simpl. by rewrite Hnew. }
  rewrite Hheld. unfold gate_failover. rewrite andb_false_r.
  apply satellite_switchback_iff. split_and!; done.
Qed.

(** ** Concrete runs *)

Definition demo_policy : Policy :=
  mkPolicy ["rsrp < -110"; "latency > 100"] (60 * Second)%Z (f_of_Z 5)
    (mkConfig 2 (30 * Second)%Z).
Definition demo_metrics (rsrp : Z) : Metrics :=
  mkMetrics (f_of_Z rsrp) (f_of_Z 20) (f_of_Z 0) false false true.
Definition at_s (n : Z) : Time := (unix_epoch + n * Second)%Z.
Definition seen (rsrp n : Z) : event := Observe (demo_metrics rsrp) (at_s n) true (at_s n).

Lemma failover_is_confirmed_witness :
  exists pre run,
    history demo_policy (PathTerrestrial, zero_flap) ([seen (-120) 10] ++ [seen (-130) 40]) =
      (pre ++ run)%list /\
    Z.of_nat (length run) = 2%Z /\ Forall (degraded_entry demo_policy) run /\ distinct_obs run.
Proof.
  apply (failover_is_confirmed demo_policy PathTerrestrial zero_flap [seen (-120) 10]
           (demo_metrics (-130)) (at_s 40) true (at_s 40));
    first [reflexivity | vm_compute; reflexivity].
Defined.

Lemma switchback_after_continuous_recovery_witness :
  exists pre x run,
    history demo_policy (PathSatellite, zero_flap)
      ([seen (-80) 10; seen (-85) 40] ++ [seen (-90) 70]) = (pre ++ x :: run)%list /\
    Forall (recovered_entry demo_policy) (x :: run) /\
    (60 * Second <= Sub (at_s 70) (entry_now x))%Z.
Proof.
  apply (switchback_after_continuous_recovery demo_policy PathSatellite zero_flap
           [seen (-80) 10; seen (-85) 40] (demo_metrics (-90)) (at_s 70) (at_s 70));
    first [reflexivity | vm_compute; repeat split; congruence].
Defined.

Lemma sustained_degradation_fails_over_witness :
  exists before m obs now after,
    ([seen (-120) 10] ++ [seen (-120) 40])%list = (before ++ Observe m obs true now :: after)%list /\
    fst (af_run demo_policy (PathTerrestrial, zero_flap) before) = PathTerrestrial /\
    decision (fst (observe demo_policy PathTerrestrial
                     (snd (af_run demo_policy (PathTerrestrial, zero_flap) before))
                     m obs true now)) = DecisionFailover.
Proof.
  apply (sustained_degradation_fails_over demo_policy zero_flap [seen (-120) 10] (seen (-120) 40)).
  - vm_compute. congruence.
  - vm_compute. congruence.
  - vm_compute. congruence.
  - vm_compute. repeat split; auto.
  - intros _ H. destruct H. reflexivity.
Defined.

(** Thirty seconds after recovery, with a delay of sixty, the replay of the
    observation already counted hands back. *)
Lemma replay_after_gap_skips_delay_witness :
  let st := snd (af_run demo_policy (PathSatellite, zero_flap) [seen (-80) 10]) in
  decision (fst (observe demo_policy PathSatellite st (demo_metrics (-80)) (at_s 10) true (at_s 40)))
    = DecisionStay /\
  decision (fst (observe demo_policy PathSatellite (break_streaks st)
                   (demo_metrics (-80)) (at_s 10) true (at_s 40))) = DecisionSwitchback.
Proof.
  intros st. split; [vm_compute; reflexivity|].
  apply (replay_after_gap_skips_delay demo_policy st (demo_metrics (-80)) (at_s 10) (at_s 40));
    try (vm_compute; reflexivity).
  intros [H _]. vm_compute in H. discriminate H.
Defined.
