(* ===== verification/K8sMeta.v ===== *)
(** * Object metadata, status conditions, events and epoch validity

    The parts of the Kubernetes API machinery the controllers rely on are an
    interface here: [StatusConditions] states the documented behaviour of
    [meta.FindStatusCondition], [SetStatusCondition] and
    [RemoveStatusCondition], and every controller theorem is proved against it.
    [list_conditions] shows that the interface can be met.

    The file also models [internal/controller/events.go] (deferred events and
    condition episodes), [predicates.go] (the watch filter) and
    [ephemeris_freshness.go] (plausibility and freshness of element sets). *)

From S2P Require Import Prelude GoStrings GoTime.
Local Open Scope string_scope.

(** ** Status conditions *)

Inductive ConditionStatus := ConditionTrue | ConditionFalse | ConditionUnknown.

#[export] Instance ConditionStatus_eq_dec : EqDecision ConditionStatus.
Proof. solve_decision. Defined.

(** [metav1.Condition].  [LastTransitionTime] is left out: the library sets it
    itself, and only together with a change of [Status]. *)
Record Condition := mkCond {
  cType : string;
  cStatus : ConditionStatus;
  cReason : string;
  cMessage : string;
  cObservedGeneration : Z
}.

#[export] Instance Condition_eq_dec : EqDecision Condition.
Proof. solve_decision. Defined.

Class StatusConditions := {
  FindStatusCondition : list Condition -> string -> option Condition;
  SetStatusCondition : list Condition -> Condition -> list Condition;
  RemoveStatusCondition : list Condition -> string -> list Condition;
  find_set : forall l c ty,
    FindStatusCondition (SetStatusCondition l c) ty =
    if decide (cType c = ty) then Some c else FindStatusCondition l ty;
  find_remove : forall l ty ty',
    FindStatusCondition (RemoveStatusCondition l ty) ty' =
    if decide (ty = ty') then None else FindStatusCondition l ty';
  set_same : forall l c, FindStatusCondition l (cType c) = Some c -> SetStatusCondition l c = l;
  remove_absent : forall l ty, FindStatusCondition l ty = None -> RemoveStatusCondition l ty = l;
  set_forall : forall P l c, Forall P l -> P c -> Forall P (SetStatusCondition l c);
  remove_forall : forall P l ty, Forall P l -> Forall P (RemoveStatusCondition l ty);
  set_types : forall l c, NoDup (map cType l) -> NoDup (map cType (SetStatusCondition l c));
  remove_types : forall l ty, NoDup (map cType l) -> NoDup (map cType (RemoveStatusCondition l ty))
}.

Section Conditions.
Context `{SC : StatusConditions}.

Definition IsStatusConditionTrue (l : list Condition) (ty : string) : bool :=
  match FindStatusCondition l ty with
  | Some c => bool_decide (cStatus c = ConditionTrue)
  | None => false
  end.

Lemma find_set_eq l c : FindStatusCondition (SetStatusCondition l c) (cType c) = Some c.
Proof. rewrite find_set. by case_decide. Qed.

Lemma find_set_ne l c ty :
  cType c <> ty -> FindStatusCondition (SetStatusCondition l c) ty = FindStatusCondition l ty.
Proof. intros. rewrite find_set. by case_decide. Qed.

End Conditions.

#[export] Hint Rewrite @find_set_eq : ntn_rw.

(** A list of conditions with at most one entry per type that matters: the
    first one. *)
Fixpoint ref_find (l : list Condition) (ty : string) : option Condition :=
  match l with
  | [] => None
  | c :: l => if decide (cType c = ty) then Some c else ref_find l ty
  end.

Fixpoint ref_set (l : list Condition) (c : Condition) : list Condition :=
  match l with
  | [] => [c]
  | c' :: l => if decide (cType c' = cType c) then c :: l else c' :: ref_set l c
  end.

Fixpoint ref_remove (l : list Condition) (ty : string) : list Condition :=
  match l with
  | [] => []
  | c :: l => if decide (cType c = ty) then ref_remove l ty else c :: ref_remove l ty
  end.

Lemma ref_find_set l c ty :
  ref_find (ref_set l c) ty = if decide (cType c = ty) then Some c else ref_find l ty.
Proof.
  induction l as [|a l IH]; simpl; [done|].
  destruct (decide (cType a = cType c)) as [E|E]; simpl; [rewrite E; by case_decide|].
  rewrite IH. repeat case_decide; congruence.
Qed.

Lemma ref_find_remove l ty ty' :
  ref_find (ref_remove l ty) ty' = if decide (ty = ty') then None else ref_find l ty'.
Proof.
  induction l as [|a l IH]; simpl; [by case_decide|].
  repeat (case_decide; simpl); congruence.
Qed.

Lemma ref_set_same l c : ref_find l (cType c) = Some c -> ref_set l c = l.
Proof.
  induction l as [|a l IH]; simpl; [done|]. case_decide; [congruence|].
  intros. f_equal. auto.
Qed.

Lemma ref_remove_absent l ty : ref_find l ty = None -> ref_remove l ty = l.
Proof. induction l as [|a l IH]; simpl; [done|]. case_decide; [done|]. intros. f_equal. auto. Qed.

Lemma ref_set_forall (P : Condition -> Prop) l c : Forall P l -> P c -> Forall P (ref_set l c).
Proof. intros Hl Hc. induction Hl as [|a l Ha Hl IH]; simpl; [by constructor|]. case_decide; by constructor. Qed.

Lemma ref_remove_forall (P : Condition -> Prop) l ty : Forall P l -> Forall P (ref_remove l ty).
Proof. induction 1 as [|a l Ha Hl IH]; simpl; [done|]. case_decide; [done|by constructor]. Qed.

Lemma ref_set_types l c : NoDup (map cType l) -> NoDup (map cType (ref_set l c)).
Proof.
  induction l as [|a l IH]; simpl; [intros _; apply NoDup_singleton|]. rewrite !NoDup_cons. intros [Ha Hl].
  case_decide as E; simpl; rewrite NoDup_cons; [by rewrite <- E|]. split; [|by apply IH].
  clear IH Hl. induction l as [|b l IH]; simpl in *; [set_solver|]. case_decide; simpl; set_solver.
Qed.

Lemma ref_remove_types l ty : NoDup (map cType l) -> NoDup (map cType (ref_remove l ty)).
Proof.
  induction l as [|a l IH]; simpl; [done|]. rewrite NoDup_cons. intros [Ha Hl]. case_decide; [by apply IH|].
  simpl. rewrite NoDup_cons. split; [|by apply IH]. clear IH Hl.
  induction l as [|b l IH]; simpl in *; [done|]. case_decide; simpl; set_solver.
Qed.

Definition list_conditions : StatusConditions := {|
  FindStatusCondition := ref_find;
  SetStatusCondition := ref_set;
  RemoveStatusCondition := ref_remove;
  find_set := ref_find_set;
  find_remove := ref_find_remove;
  set_same := ref_set_same;
  remove_absent := ref_remove_absent;
  set_forall := ref_set_forall;
  remove_forall := ref_remove_forall;
  set_types := ref_set_types;
  remove_types := ref_remove_types
|}.

(** ** Events *)

Inductive EventType := EventTypeNormal | EventTypeWarning.

#[export] Instance EventType_eq_dec : EqDecision EventType.
Proof. solve_decision. Defined.

Record deferredEvent := mkEvent {
  eventType : EventType;
  eventReason : string;
  eventMessage : string
}.

#[export] Instance deferredEvent_eq_dec : EqDecision deferredEvent.
Proof. solve_decision. Defined.

Definition conditionEpisodeChanged (old : option Condition) (newStatus : ConditionStatus)
  (newReason : string) (generation : Z) : bool :=
  match old with
  | None => true
  | Some old =>
      negb (bool_decide (cStatus old = newStatus)) ||
      negb (str_eqb (cReason old) newReason) ||
      negb (cObservedGeneration old =? generation)%Z
  end.

(** Right after a condition was set, the same status, reason and generation do
    not begin a new episode, whatever the message. *)
Lemma episode_settled `{StatusConditions} l ty status reason msg gen :
  conditionEpisodeChanged
    (FindStatusCondition (SetStatusCondition l (mkCond ty status reason msg gen)) ty)
    status reason gen = false.
Proof.
  rewrite find_set. simpl. rewrite decide_True by done. simpl.
  rewrite bool_decide_eq_true_2, str_eqb_refl, Z.eqb_refl by done. done.
Qed.

(** ** Objects *)

Abbreviation UID := string (only parsing).

Record NamespacedName := mkKey { kNamespace : string; kName : string }.

#[export] Instance NamespacedName_eq_dec : EqDecision NamespacedName.
Proof. solve_decision. Defined.

#[export] Instance NamespacedName_countable : Countable NamespacedName.
Proof.
  apply (inj_countable' (fun k => (kNamespace k, kName k)) (fun p => mkKey p.1 p.2)).
  by intros [].
Defined.

Record ObjectMeta := mkMeta {
  Namespace : string;
  Name : string;
  oUID : UID;
  Generation : Z;
  DeletionTimestamp : option Time;
  Finalizers : list string;
  Annotations : gmap string string
}.

#[export] Instance ObjectMeta_eq_dec : EqDecision ObjectMeta.
Proof. solve_decision. Defined.

Definition ObjectKeyFromObject (o : ObjectMeta) : NamespacedName := mkKey (Namespace o) (Name o).

(** The outcome of reading an object from the API server. *)
Inductive GetResult (A : Type) := Found (a : A) | NotFound | GetError (e : string).
Arguments Found {A} a.
Arguments NotFound {A}.
Arguments GetError {A} e.

(** [corev1.Secret]. *)
Record Secret := mkSecret {
  secType : string;
  secLabels : gmap string string;
  secData : gmap string string
}.

(** ** The watch filter *)

Inductive watch_event :=
| CreateEvent
| DeleteEvent
| GenericEvent
| UpdateEvent (old new : option ObjectMeta).

Definition deletion_set (o : ObjectMeta) : bool :=
  match DeletionTimestamp o with Some _ => true | None => false end.

(** [reconcileTriggerPredicate]; [generation_changed] is controller-runtime's
    [GenerationChangedPredicate] on update events. *)
Definition reconcileTriggerPredicate
  (generation_changed : option ObjectMeta -> option ObjectMeta -> bool) (e : watch_event) : bool :=
  match e with
  | UpdateEvent old new =>
      generation_changed old new ||
      match old, new with
      | Some o, Some n => negb (Bool.eqb (deletion_set o) (deletion_set n))
      | _, _ => false
      end
  | _ => true
  end.

(** ** Epoch validity *)

Definition maxEpochAge : Duration := (7 * 24 * Hour)%Z.
Definition maxSourceEpochFutureSkew : Duration := (24 * Hour)%Z.

Inductive epoch_error := ImplausiblyFuture (src now : Time) | TooOld (src : Time) (age : Duration).

Definition sourceEpochPlausible (now src : Time) : option epoch_error :=
  if After src (Add now maxSourceEpochFutureSkew) then Some (ImplausiblyFuture src now) else None.

Definition sourceEpochFresh (now src : Time) : option epoch_error :=
  let age := Sub now src in
  if (maxEpochAge <? age)%Z then Some (TooOld src age) else None.

Lemma fresh_iff now src : sourceEpochFresh now src = None <-> (now - src <= maxEpochAge)%Z.
Proof.
  unfold sourceEpochFresh. rewrite <- (Sub_le_iff now src maxEpochAge) by (vm_compute; split; congruence).
  destruct (Z.ltb_spec maxEpochAge (Sub now src)); split; intros; try done; lia.
Qed.

Lemma plausible_iff now src :
  sourceEpochPlausible now src = None <-> (src - now <= maxSourceEpochFutureSkew)%Z.
Proof.
  unfold sourceEpochPlausible, After, Add.
  destruct (Z.ltb_spec (now + maxSourceEpochFutureSkew) src); split; intros; try done; lia.
Qed.

(** The producer and the consumer cannot disagree about the future: an
    element set the producer accepts as plausible stays plausible at every later
    push, and one that is fresh at a push was fresh whenever it was plausible
    before; only age can turn an accepted set away. *)
Theorem epoch_rules_agree produced pushed src :
  (produced <= pushed)%Z ->
  (sourceEpochPlausible produced src = None -> sourceEpochPlausible pushed src = None) /\
  (sourceEpochFresh pushed src = None -> sourceEpochFresh produced src = None) /\
  (sourceEpochFresh pushed src = None <->
     (src >= pushed - maxEpochAge)%Z).
Proof. intros. rewrite !plausible_iff, !fresh_iff. lia. Qed.

Lemma epoch_rules_agree_witness :
  sourceEpochPlausible (unix_epoch + Hour) (unix_epoch + 2 * Hour)%Z = None.
Proof.
  apply (epoch_rules_agree unix_epoch (unix_epoch + Hour) (unix_epoch + 2 * Hour)%Z);
    vm_compute; congruence.
Defined.
