(* ===== verification/NetGuard.v ===== *)
(** * Package netutil: endpoint allow-lists and the SSRF guard

    Models [src/pkg/netutil/allowlist.go] and [safeclient.go].  The Go
    standard library's URL parser, the resolver and the
    dialer are arguments of the definitions that call them; [net.IP] and
    [net.IPNet.Contains] are written out on bytes. *)

From S2P Require Import Prelude GoStrings GoTime GoNet.
From Stdlib Require Import Ascii.
Local Open Scope string_scope.

(** ** Allow-lists *)

Record EndpointAllowlist := mkAllow { hosts : list string }.

Definition nonempty_trimmed (p : string) : option string :=
  let p := TrimSpace p in if str_eqb p "" then None else Some p.

Section Allowlist.

(** [strings.ToLower] outside ASCII, and [url.Parse]. *)
Variable unicode_lower : string -> string.

Variable url_parse : string -> option URL.

Definition lower (s : string) : string := ToLower unicode_lower s.

Definition ParseEndpointAllowlist (csv : string) : EndpointAllowlist :=
  if str_eqb csv "" then mkAllow []
  else mkAllow (map lower (omap nonempty_trimmed (split_byte ","%char csv))).

Definition ContainsHost (a : EndpointAllowlist) (host : string) : bool :=
  if (length (hosts a) =? 0)%nat then false
  else bool_decide (lower host ∈ hosts a).

Inductive endpoint_error :=
| EndpointParse
| EndpointScheme (scheme : string)
| EndpointUserinfo
| EndpointEmptyHost
| EndpointHostNotListed (host : string).

(** [Check]: [None] is the nil error. *)
Definition Check (a : EndpointAllowlist) (raw : string) : option endpoint_error :=
  match url_parse raw with
  | None => Some EndpointParse
  | Some u =>
      let sch := lower (Scheme u) in
      if negb (str_eqb sch "http") && negb (str_eqb sch "https") then Some (EndpointScheme (Scheme u))
      else if User u then Some EndpointUserinfo
      else
        let host := lower (Hostname u) in
        if str_eqb host "" then Some EndpointEmptyHost
        else if (length (hosts a) =? 0)%nat then None
        else if bool_decide (host ∈ hosts a) then None
        else Some (EndpointHostNotListed host)
  end.

End Allowlist.

(** ** Addresses *)

(** [net.IP]: four or sixteen bytes; anything else is invalid. *)
Definition IP := list Z.

Definition v4InV6Prefix : list Z := [0;0;0;0;0;0;0;0;0;0;255;255]%Z.

Definition To4 (ip : IP) : option IP :=
  if (length ip =? 4)%nat then Some ip
  else if (length ip =? 16)%nat && bool_decide (take 12 ip = v4InV6Prefix) then Some (drop 12 ip)
  else None.

Definition To16 (ip : IP) : option IP :=
  if (length ip =? 4)%nat then Some (v4InV6Prefix ++ ip)%list
  else if (length ip =? 16)%nat then Some ip
  else None.

Record IPNet := mkNet { netIP : list Z; prefixLen : Z }.

(** Byte [i] of the mask [net.CIDRMask(prefixLen, _)]. *)
Definition mask_byte (plen : Z) (i : nat) : Z :=
  let k := Z.max 0 (Z.min 8 (plen - 8 * Z.of_nat i)) in (256 - 2 ^ (8 - k))%Z.

Fixpoint masked_eq (plen : Z) (i : nat) (nn ip : list Z) : bool :=
  match nn, ip with
  | n :: nn, b :: ip =>
      (Z.land n (mask_byte plen i) =? Z.land b (mask_byte plen i))%Z && masked_eq plen (S i) nn ip
  | _, _ => true
  end.

(** [IPNet.Contains]. *)
Definition Contains (n : IPNet) (ip : IP) : bool :=
  let ip := match To4 ip with Some x => x | None => ip end in
  (length ip =? length (netIP n))%nat && masked_eq (prefixLen n) 0 (netIP n) ip.

Definition privateRanges : list IPNet :=
  [ mkNet [10;0;0;0] 8; mkNet [172;16;0;0] 12; mkNet [192;168;0;0] 16;
    mkNet [127;0;0;0] 8; mkNet [169;254;0;0] 16; mkNet [0;0;0;0] 8;
    mkNet [100;64;0;0] 10; mkNet [192;0;0;0] 24; mkNet [198;18;0;0] 15;
    mkNet [224;0;0;0] 4; mkNet [240;0;0;0] 4;
    mkNet [252;0;0;0;0;0;0;0;0;0;0;0;0;0;0;0] 7;
    mkNet [254;128;0;0;0;0;0;0;0;0;0;0;0;0;0;0] 10;
    mkNet [0;0;0;0;0;0;0;0;0;0;0;0;0;0;0;1] 128;
    mkNet [0;0;0;0;0;0;0;0;0;0;0;0;0;0;0;0] 128;
    mkNet [255;0;0;0;0;0;0;0;0;0;0;0;0;0;0;0] 8;
    mkNet [0;100;255;155;0;1;0;0;0;0;0;0;0;0;0;0] 48 ]%Z.

(** The IPv4 destination carried by a 6to4 or well-known NAT64 address. *)
Definition embeddedIPv4 (ip : IP) : option IP :=
  match To16 ip, To4 ip with
  | Some ip16, None =>
      if bool_decide (take 2 ip16 = [32; 2]%Z) then Some (take 4 (drop 2 ip16))
      else if bool_decide (take 12 ip16 = [0;100;255;155;0;0;0;0;0;0;0;0]%Z) then Some (drop 12 ip16)
      else None
  | _, _ => None
  end.

Definition in_private_range (ip : IP) : bool := existsb (fun r => Contains r ip) privateRanges.

(** The recursion goes one level deep: an embedded address has four bytes and
    embeds nothing, so two units of fuel are enough ([IsPrivateIP_eq]). *)
Fixpoint is_private_fuel (fuel : nat) (ip : IP) : bool :=
  match fuel with
  | O => false
  | S fuel =>
      in_private_range ip ||
      match embeddedIPv4 ip with
      | Some v4 => is_private_fuel fuel v4
      | None => false
      end
  end.

Definition IsPrivateIP (ip : IP) : bool := is_private_fuel 2 ip.

(** ** Dialling *)

Inductive dial_error :=
| InvalidAddress (addr : string)
| DNSFailed (host : string)
| NoAddresses (host : string)
| ErrPrivateIP (host : string) (ip : IP)
| AllFailed (host : string).

Section Dial.

Variable unicode_lower : string -> string.
(** The resolver, and the plain dialer: whether a connection to an address and
    port succeeds. *)
Variable LookupIPAddr : string -> option (list IP).
Variable DialContext : IP -> string -> bool.

(** Try the addresses in order: the attempts made, and the one that connected. *)
Fixpoint dial_each (ips : list IP) (port : string) : list IP * option IP :=
  match ips with
  | [] => ([], None)
  | ip :: rest =>
      if DialContext ip port then ([ip], Some ip)
      else let '(tried, conn) := dial_each rest port in (ip :: tried, conn)
  end.

(** [safeDialContext]: the addresses dialled, and the connection or the error. *)
Definition safeDialContext (privateAllowed : EndpointAllowlist) (addr : string)
  : list IP * result dial_error IP :=
  match SplitHostPort addr with
  | None => ([], Err (InvalidAddress addr))
  | Some (host, port) =>
      let hostAllowed := ContainsHost unicode_lower privateAllowed host in
      match LookupIPAddr host with
      | None => ([], Err (DNSFailed host))
      | Some [] => ([], Err (NoAddresses host))
      | Some ips =>
          match (if hostAllowed then None else List.find IsPrivateIP ips) with
          | Some ip => ([], Err (ErrPrivateIP host ip))
          | None =>
              let '(tried, conn) := dial_each ips port in
              (tried, match conn with Some ip => Ok ip | None => Err (AllFailed host) end)
          end
      end
  end.

Inductive redirect_error :=
| TooManyRedirects
| DowngradeRedirect (host : string)
| RedirectUnresolved (host : string)
| RedirectPrivate (host : string) (ip : IP).

(** [CheckRedirect]: the request that would follow and the schemes and hosts of
    the requests made so far, oldest first; [None] lets it follow. *)
Definition CheckRedirect (allow : EndpointAllowlist) (req : URL) (via : list URL)
  : option redirect_error :=
  if (3 <=? length via)%nat then Some TooManyRedirects
  else if match via with
          | first :: _ => str_eqb (Scheme first) "https" && str_eqb (Scheme req) "http"
          | [] => false
          end then Some (DowngradeRedirect (Hostname req))
  else
    let host := Hostname req in
    if ContainsHost unicode_lower allow host then None
    else match LookupIPAddr host with
         | None => Some (RedirectUnresolved host)
         | Some ips =>
             match List.find IsPrivateIP ips with
             | Some ip => Some (RedirectPrivate host ip)
             | None => None
             end
         end.

End Dial.

(** * Properties *)

(** ** Allow-lists *)

Section AllowlistFacts.
Context (unicode_lower : string -> string) (url_parse : string -> option URL).

Lemma scheme_test sch :
  negb (str_eqb sch "http") && negb (str_eqb sch "https") = false <-> sch ∈ ["http"; "https"].
Proof.
  rewrite andb_false_iff, !negb_false_iff, !str_eqb_eq, !elem_of_cons, elem_of_nil. tauto.
Qed.

(** An endpoint passes exactly when it parses as an http or https URL
    without user information, has a host, and that host, in lower case, is one
    of the listed hosts (or nothing is listed). *)
Theorem Check_accepts_iff a raw :
  Check unicode_lower url_parse a raw = None <->
  exists u, url_parse raw = Some u /\
    lower unicode_lower (Scheme u) ∈ ["http"; "https"] /\ User u = false /\
    lower unicode_lower (Hostname u) <> "" /\
    (hosts a = [] \/ lower unicode_lower (Hostname u) ∈ hosts a).
Proof.
  unfold Check. destruct (url_parse raw) as [u|]; [|split; [done|by intros (?&?&_)]].
  set (sch := lower _ (Scheme u)). set (h := lower _ (Hostname u)).
  assert (Hex : forall P : URL -> Prop, (exists u', Some u = Some u' /\ P u') <-> P u).
  { intros P. split; [by intros (? & [= <-] & ?)|eauto]. }
  rewrite Hex. fold sch h. rewrite <- scheme_test, <- (str_eqb_neq h "").
  destruct (negb _ && negb _); [intuition congruence|].
  destruct (User u); [intuition congruence|].
  destruct (str_eqb h ""); [intuition congruence|].
  destruct (hosts a) as [|x l]; simpl; [intuition|].
  case_bool_decide; intuition congruence.
Qed.

Lemma ContainsHost_iff a h :
  ContainsHost unicode_lower a h = true <-> lower unicode_lower h ∈ hosts a.
Proof.
  unfold ContainsHost. destruct (Nat.eqb_spec (length (hosts a)) 0) as [E|E].
  - apply nil_length_inv in E. rewrite E. split; [done|]. intros H. by apply elem_of_nil in H.
  - apply bool_decide_eq_true.
Qed.

End AllowlistFacts.

(** ** Private addresses *)

Definition is_byte (b : Z) : Prop := (0 <= b < 256)%Z.

Definition all_bytes : list Z := map Z.of_nat (seq 0 256).

Lemma byte_forall (P : Z -> bool) b : forallb P all_bytes = true -> is_byte b -> P b = true.
Proof.
  intros H [Hlo Hhi]. rewrite forallb_elem_of in H. apply H.
  apply list_elem_of_In, in_map_iff. exists (Z.to_nat b). split; [lia|]. apply in_seq. lia.
Qed.

(** A masked comparison of a byte, as a test the byte table confirms. *)
Lemma byte_test (mask n : Z) (P : Z -> bool) b :
  forallb (fun b => Bool.eqb (n =? Z.land b mask)%Z (P b)) all_bytes = true ->
  is_byte b -> (n =? Z.land b mask)%Z = P b.
Proof. intros H Hb. by apply Bool.eqb_prop, (byte_forall _ b H Hb). Qed.

Lemma byte_land_255 b : is_byte b -> Z.land b 255 = b.
Proof.
  intros Hb. apply Z.eqb_eq.
  by apply (byte_forall (fun b => Z.land b 255 =? b)%Z); [vm_compute|].
Qed.

(** The ranges that can hold a four-byte address, on its bytes. *)
Definition private_v4 (a b c : Z) : bool :=
  ((10 =? a) || ((172 =? a) && ((16 <=? b) && (b <=? 31))) || ((192 =? a) && (168 =? b)) ||
  (127 =? a) || ((169 =? a) && (254 =? b)) || (0 =? a) ||
  ((100 =? a) && ((64 <=? b) && (b <=? 127))) || ((192 =? a) && ((0 =? b) && (0 =? c))) ||
  ((198 =? a) && ((18 <=? b) && (b <=? 19))) || (224 <=? a))%Z.

(** Evaluate the masks and the masked network bytes, which are constants. *)
Ltac eval_masks :=
  repeat match goal with
  | |- context [mask_byte ?p ?i] =>
      let v := eval vm_compute in (mask_byte p i) in change (mask_byte p i) with v
  | |- context [Z.land (Zpos ?n) ?m] =>
      let v := eval vm_compute in (Z.land (Zpos n) m) in change (Z.land (Zpos n) m) with v
  end;
  rewrite ?Z.land_0_l, ?Z.land_0_r, ?Z.eqb_refl.

Lemma private_range_v4 a b c d :
  is_byte a -> is_byte b -> is_byte c -> is_byte d ->
  in_private_range [a; b; c; d] = private_v4 a b c.
Proof.
  intros Ha Hb Hc Hd. unfold in_private_range, privateRanges, Contains.
  cbn -[Z.land Z.eqb Z.leb]. eval_masks.
  rewrite ?Z.land_0_r, (byte_land_255 a), (byte_land_255 b), (byte_land_255 c) by done.
  rewrite (byte_test 240 16 (fun b => (16 <=? b) && (b <=? 31))%Z b) by (done || vm_compute; done).
  rewrite (byte_test 192 64 (fun b => (64 <=? b) && (b <=? 127))%Z b) by (done || vm_compute; done).
  rewrite (byte_test 254 18 (fun b => (18 <=? b) && (b <=? 19))%Z b) by (done || vm_compute; done).
  rewrite (byte_test 240 224 (fun a => (224 <=? a) && (a <=? 239))%Z a) by (done || vm_compute; done).
  rewrite (byte_test 240 240 (fun a => (240 <=? a))%Z a) by (done || vm_compute; done).
  change (0 =? 0)%Z with true. unfold private_v4.
  rewrite ?andb_true_r, ?andb_assoc, ?orb_false_r, ?orb_assoc.
  rewrite <- (orb_assoc _ ((224 <=? a)%Z && (a <=? 239)%Z)). f_equal. lia.
Qed.

(** An embedded address has four bytes, hence embeds nothing itself. *)
Lemma embeddedIPv4_length ip v4 : embeddedIPv4 ip = Some v4 -> length v4 = 4%nat.
Proof.
  unfold embeddedIPv4, To16, To4. destruct (Nat.eqb_spec (length ip) 4); [done|].
  destruct (Nat.eqb_spec (length ip) 16) as [E|]; [|done]. simpl.
  repeat case_bool_decide; try done; intros [= <-].
  - rewrite length_take, length_drop. lia.
  - rewrite length_drop. lia.
Qed.

Lemma embeddedIPv4_v4 ip : length ip = 4%nat -> embeddedIPv4 ip = None.
Proof. intros E. unfold embeddedIPv4, To16, To4. by rewrite E. Qed.

Lemma is_private_v4 ip fuel : length ip = 4%nat -> is_private_fuel (S fuel) ip = in_private_range ip.
Proof. intros E. simpl. by rewrite embeddedIPv4_v4, orb_false_r. Qed.

(** The source's recursive equation. *)
Lemma IsPrivateIP_eq ip :
  IsPrivateIP ip =
  in_private_range ip ||
  match embeddedIPv4 ip with Some v4 => IsPrivateIP v4 | None => false end.
Proof.
  unfold IsPrivateIP. cbn [is_private_fuel]. destruct (embeddedIPv4 ip) as [v4|] eqn:E; [|done].
  apply embeddedIPv4_length in E. by rewrite embeddedIPv4_v4, orb_false_r.
Qed.

(** Every way to write an IPv4 destination is judged alike: as four
    bytes, IPv4-mapped, inside a 6to4 address or behind the well-known NAT64
    prefix, an address is private exactly when its bytes fall in the blocked
    IPv4 ranges. *)
Theorem private_v4_every_encoding a b c d tail :
  is_byte a -> is_byte b -> is_byte c -> is_byte d -> length tail = 10%nat ->
  let p := private_v4 a b c in
  IsPrivateIP [a; b; c; d] = p /\
  IsPrivateIP (v4InV6Prefix ++ [a; b; c; d])%list = p /\
  IsPrivateIP ([32; 2; a; b; c; d]%Z ++ tail)%list = p /\
  IsPrivateIP ([0;100;255;155;0;0;0;0;0;0;0;0]%Z ++ [a; b; c; d])%list = p.
Proof.
  intros Ha Hb Hc Hd Ht p.
  assert (H4 : IsPrivateIP [a; b; c; d] = p).
  { rewrite IsPrivateIP_eq, private_range_v4 by done. by rewrite orb_false_r. }
  do 10 (destruct tail as [|? tail]; [done|]). destruct tail; [|done].
  split_and!; [done|..]; rewrite IsPrivateIP_eq.
  - rewrite <- H4. unfold in_private_range, Contains. simpl.
    by rewrite IsPrivateIP_eq.
  - rewrite <- H4. unfold embeddedIPv4, To16, To4. simpl. done.
  - rewrite <- H4. unfold embeddedIPv4, To16, To4. simpl. done.
Qed.

Lemma private_v4_every_encoding_witness :
  IsPrivateIP [0;100;255;155;0;0;0;0;0;0;0;0;169;254;169;254]%Z = true.
Proof.
  destruct (private_v4_every_encoding 169 254 169 254 [0;0;0;0;0;0;0;0;0;0]%Z)
    as (_ & _ & _ & H); [unfold is_byte; lia..|reflexivity|]. exact H.
Defined.

(** ** Dialling *)

Section DialFacts.
Context (unicode_lower : string -> string)
  (LookupIPAddr : string -> option (list IP))
  (DialContext : IP -> string -> bool).

Lemma dial_each_tried ips port tried conn :
  dial_each DialContext ips port = (tried, conn) ->
  tried `prefix_of` ips /\
  match conn with
  | Some ip => last tried = Some ip /\ DialContext ip port = true
  | None => tried = ips /\ Forall (fun ip => DialContext ip port = false) ips
  end.
Proof.
  revert tried conn. induction ips as [|ip ips IH]; intros tried conn; simpl.
  - intros [= <- <-]. split_and!; [done|done|by constructor].
  - destruct (DialContext ip port) eqn:E.
    + intros [= <- <-]. split_and!; [by exists ips|done|done].
    + destruct (dial_each DialContext ips port) as [tr cn] eqn:Ed. intros [= <- <-].
      destruct (IH _ _ eq_refl) as [Hp Hc]. split; [by apply prefix_cons|].
      destruct cn as [x|].
      * destruct Hc as [Hl Hd]. split; [|done]. by destruct tr.
      * destruct Hc as [-> Hf]. split; [done|]. by constructor.
Qed.

Lemma find_none_all {A} (f : A -> bool) l :
  List.find f l = None <-> forall x, x ∈ l -> f x = false.
Proof.
  split.
  - intros H x Hx. apply (find_none _ _ H). by apply list_elem_of_In.
  - induction l as [|a l IH]; [done|]. intros H. simpl.
    rewrite (H a) by (apply elem_of_cons; auto). apply IH. intros x Hx. apply H, elem_of_cons. auto.
Qed.

(** No packet leaves for a private address by accident: when the guard
    dials anything at all, the host resolved, the attempts are a prefix of the
    resolved addresses, and either the host is on the private-host allow-list or
    none of the resolved addresses (dialled or not) is private. *)
Theorem safe_dial_guard allow addr ip :
  ip ∈ fst (safeDialContext unicode_lower LookupIPAddr DialContext allow addr) ->
  exists host port ips,
    SplitHostPort addr = Some (host, port) /\ LookupIPAddr host = Some ips /\
    fst (safeDialContext unicode_lower LookupIPAddr DialContext allow addr)
      `prefix_of` ips /\
    (lower unicode_lower host ∈ hosts allow \/ forall x, x ∈ ips -> IsPrivateIP x = false).
Proof.
  unfold safeDialContext. intros Hin.
  destruct (SplitHostPort addr) as [[host port]|]; [|by apply elem_of_nil in Hin].
  exists host, port. destruct (LookupIPAddr host) as [ips|]; [|by apply elem_of_nil in Hin].
  exists ips. do 2 (split; [done|]).
  destruct ips as [|x ips]; [by apply elem_of_nil in Hin|]. set (l := x :: ips) in *.
  destruct (if ContainsHost _ _ _ then None else List.find IsPrivateIP l) as [bad|] eqn:Ef;
    [by apply elem_of_nil in Hin|].
  destruct (dial_each DialContext l port) as [tried conn] eqn:Ed.
  apply dial_each_tried in Ed as [Hp _]. split; [done|].
  destruct (ContainsHost unicode_lower allow host) eqn:Eh.
  - left. by apply ContainsHost_iff.
  - right. by apply find_none_all.
Qed.

(** A redirect is followed only below the hop limit, never from an https
    origin down to http, and only to a host that is allow-listed or resolves to
    no private address. *)
Theorem redirect_guard allow req via :
  CheckRedirect unicode_lower LookupIPAddr allow req via = None <->
  (length via < 3)%nat /\
  (forall first rest, via = first :: rest -> Scheme first = "https" -> Scheme req <> "http") /\
  (lower unicode_lower (Hostname req) ∈ hosts allow \/
   exists ips, LookupIPAddr (Hostname req) = Some ips /\ forall x, x ∈ ips -> IsPrivateIP x = false).
Proof.
  unfold CheckRedirect. rewrite <- ContainsHost_iff.
  destruct (Nat.leb_spec 3 (length via)); [split; [done|lia]|].
  assert (Hdown : match via with
    | first :: _ => str_eqb (Scheme first) "https" && str_eqb (Scheme req) "http"
    | [] => false end = false <->
    (forall first rest, via = first :: rest -> Scheme first = "https" -> Scheme req <> "http")).
  { destruct via as [|f l]; [naive_solver|].
    rewrite andb_false_iff, !str_eqb_neq. split.
    - intros [Hn|Hn] ?? [= <- <-]; naive_solver.
    - intros Hn. destruct (decide (Scheme f = "https")) as [E|E]; [right|by left].
      by eapply Hn. }
  rewrite <- Hdown. destruct (match via with [] => _ | _ => _ end); [intuition congruence|].
  destruct (ContainsHost unicode_lower allow (Hostname req)); [intuition|].
  destruct (LookupIPAddr (Hostname req)) as [ips|].
  - destruct (List.find IsPrivateIP ips) as [bad|] eqn:Ef.
    + split; [done|]. intros (_ & _ & [?|(l & [= <-] & Hl)]); [done|].
      apply find_none_all in Hl. congruence.
    + rewrite find_none_all in Ef. split; [|done]. intros _. split_and!; [lia|done|right; eauto].
  - split; [done|]. by intros (_ & _ & [?|(l & ? & _)]).
Qed.

End DialFacts.
