(* ===== verification/HttpClient.v ===== *)
(** * Package netutil: the guarded HTTP client at work

    [NewSafeHTTPClient] and [WithPrivateHostAllowlist] of
    [src/pkg/netutil/safeclient.go], on a model of what they configure:
    [http.Client] with the three knobs the source sets (the transport's dialer
    and proxy, and the redirect policy), and [Client.Do] as [net/http] runs it,
    with connections that are kept and reused.  The names a host resolves to
    may change between any two lookups, servers answer and redirect as they
    like, and idle connections come and go: all of that is in [HopEnv].

    The functions held by a Go client are named by the closures' constructors
    ([dial_func], [redirect_func], [proxy_func]) together with what they
    capture. *)

From S2P Require Import Prelude GoStrings GoTime GoNet NetGuard.
Local Open Scope string_scope.

(** ** Configuration *)

(** [Transport.DialContext]: the default dialer, or [safeDialContext]. *)
Inductive dial_func :=
| DefaultDial
| SafeDial (dialTimeout : Duration) (privateAllowed : EndpointAllowlist).

(** [Transport.Proxy]. *)
Inductive proxy_func := NilProxy | ProxyFromEnvironment.

(** [Client.CheckRedirect]: nil (ten requests at most), the guard of
    [NewSafeHTTPClient], or the exact-origin rule of the Space-Track fetcher,
    for a base of a scheme and a host. *)
Inductive redirect_func :=
| DefaultRedirect
| SafeRedirect (privateAllowed : EndpointAllowlist)
| OriginRedirect (scheme host : string).

Record Transport := mkTransport { tDialContext : dial_func; tProxy : proxy_func }.

(** [http.DefaultTransport], as far as it matters here. *)
Definition DefaultTransport : Transport := mkTransport DefaultDial ProxyFromEnvironment.

Record Client := mkHTTPClient {
  cTimeout : Duration;
  cTransport : Transport;
  cCheckRedirect : redirect_func;
  cJar : bool
}.

#[export] Instance EndpointAllowlist_eq_dec : EqDecision EndpointAllowlist.
Proof. solve_decision. Defined.
#[export] Instance dial_func_eq_dec : EqDecision dial_func.
Proof. solve_decision. Defined.
#[export] Instance proxy_func_eq_dec : EqDecision proxy_func.
Proof. solve_decision. Defined.
#[export] Instance redirect_func_eq_dec : EqDecision redirect_func.
Proof. solve_decision. Defined.
#[export] Instance Transport_eq_dec : EqDecision Transport.
Proof. solve_decision. Defined.
#[export] Instance Client_eq_dec : EqDecision Client.
Proof. solve_decision. Defined.

Record safeClientOpts := mkSafeOpts { privateHostAllowlist : EndpointAllowlist }.

Definition Option := safeClientOpts -> safeClientOpts.

Definition WithPrivateHostAllowlist (allow : EndpointAllowlist) : Option :=
  fun _ => mkSafeOpts allow.

Definition with_dial (t : Transport) (d : dial_func) : Transport := mkTransport d (tProxy t).
Definition with_proxy (t : Transport) (p : proxy_func) : Transport := mkTransport (tDialContext t) p.

Definition NewSafeHTTPClient (timeout : Duration) (opts : list Option) : Client :=
  let cfg := fold_left (fun o opt => opt o) opts (mkSafeOpts (mkAllow [])) in
  let transport := DefaultTransport in
  let transport := with_dial transport (SafeDial (5 * Second) (privateHostAllowlist cfg)) in
  let transport := with_proxy transport NilProxy in
  mkHTTPClient timeout transport (SafeRedirect (privateHostAllowlist cfg)) false.

(** ** A request *)

Definition Resolver := string -> option (list IP).

(** What the peer of a connection does with a request: the exchange fails, a
    final response, or a redirect, whose location may be unusable. *)
Inductive answer :=
| ExchangeFails
| Responds (status : Z)
| Redirects (location : option URL).

(** The surroundings of one request of a chain: the names at the redirect check
    and at the dial, which addresses accept a connection, the idle connection
    that is tried first, whether the connection is kept, and the peers. *)
Record HopEnv := mkHop {
  hopCheckDNS : Resolver;
  hopDialDNS : Resolver;
  hopConnects : IP -> string -> bool;
  hopReuse : option nat;
  hopKeep : bool;
  hopProxy : URL -> option URL;
  hopPeer : IP -> URL -> answer
}.

(** Idle connections: the scheme and address they were opened for, and where
    they lead. *)
Definition idle_pool := list (string * string * IP).

Inductive do_error :=
| UnsupportedScheme (scheme : string)
| NoHost
| DialFailed (e : dial_error)
| ExchangeFailed
| BadLocation
| RedirectRefused (e : redirect_error)
| RedirectOffOrigin
| StoppedAfterTen
| OutOfFuel.

(** A request that was made: its URL, the addresses dialled for it, and the
    address its connection leads to. *)
Record hop := mkHopLog { hopURL : URL; hopDialled : list IP; hopConn : option IP }.

Section Do.

Variable unicode_lower : string -> string.
Variable idna : string -> string.
(** [strings.EqualFold]. *)
Variable EqualFold : string -> string -> bool.

Definition dial (d : dial_func) (dns : Resolver) (connects : IP -> string -> bool) (addr : string)
  : list IP * result dial_error IP :=
  match d with
  | SafeDial _ allow => safeDialContext unicode_lower dns connects allow addr
  | DefaultDial =>
      match SplitHostPort addr with
      | None => ([], Err (InvalidAddress addr))
      | Some (host, port) =>
          match dns host with
          | None => ([], Err (DNSFailed host))
          | Some ips =>
              let '(tried, conn) := dial_each connects ips port in
              (tried, match conn with Some ip => Ok ip | None => Err (AllFailed host) end)
          end
      end
  end.

Definition check_redirect (r : redirect_func) (dns : Resolver) (req : URL) (via : list URL)
  : option do_error :=
  match r with
  | DefaultRedirect => if (10 <=? length via)%nat then Some StoppedAfterTen else None
  | SafeRedirect allow => RedirectRefused <$> CheckRedirect unicode_lower dns allow req via
  | OriginRedirect scheme host =>
      if (10 <=? length via)%nat then Some StoppedAfterTen
      else if EqualFold (Scheme req) scheme && EqualFold (Host req) host then None
      else Some RedirectOffOrigin
  end.

(** The address to connect to: the proxy's, when there is one. *)
Definition connect_addr (t : Transport) (proxy : URL -> option URL) (u : URL) : string :=
  match tProxy t with
  | NilProxy => canonicalAddr idna u
  | ProxyFromEnvironment =>
      match proxy u with
      | Some p => canonicalAddr idna p
      | None => canonicalAddr idna u
      end
  end.

(** [Transport.getConn]: an idle connection for the same scheme and address,
    or a dial. *)
Definition getConn (t : Transport) (idle : idle_pool) (env : HopEnv) (u : URL)
  : list IP * result dial_error IP :=
  let addr := connect_addr t (hopProxy env) u in
  let fresh := dial (tDialContext t) (hopDialDNS env) (hopConnects env) addr in
  match (i ← hopReuse env; idle !! i) with
  | Some (scheme, addr', ip) =>
      if str_eqb scheme (Scheme u) && str_eqb addr' addr then ([], Ok ip) else fresh
  | None => fresh
  end.

(** [Transport.roundTrip]. *)
Definition roundTrip (t : Transport) (idle : idle_pool) (env : HopEnv) (u : URL)
  : hop * result do_error answer * idle_pool :=
  if negb (str_eqb (Scheme u) "http" || str_eqb (Scheme u) "https")
  then (mkHopLog u [] None, Err (UnsupportedScheme (Scheme u)), idle)
  else if str_eqb (Host u) "" then (mkHopLog u [] None, Err NoHost, idle)
  else
    match getConn t idle env u with
    | (tried, Err e) => (mkHopLog u tried None, Err (DialFailed e), idle)
    | (tried, Ok ip) =>
        (mkHopLog u tried (Some ip), Ok (hopPeer env ip u),
         if hopKeep env then (Scheme u, connect_addr t (hopProxy env) u, ip) :: idle else idle)
    end.

(** [Client.do] from a request that has passed its checks; [via] holds the
    requests made before it. *)
Fixpoint do_from (fuel : nat) (c : Client) (env : nat -> HopEnv) (idle : idle_pool) (via : list URL)
  (u : URL) : list hop * result do_error Z * idle_pool :=
  match fuel with
  | O => ([], Err OutOfFuel, idle)
  | S fuel =>
      let '(h, r, idle) := roundTrip (cTransport c) idle (env (length via)) u in
      match r with
      | Err e => ([h], Err e, idle)
      | Ok ExchangeFails => ([h], Err ExchangeFailed, idle)
      | Ok (Responds status) => ([h], Ok status, idle)
      | Ok (Redirects None) => ([h], Err BadLocation, idle)
      | Ok (Redirects (Some next)) =>
          let via := (via ++ [u])%list in
          match check_redirect (cCheckRedirect c) (hopCheckDNS (env (length via))) next via with
          | Some e => ([h], Err e, idle)
          | None =>
              let '(hops, out, idle) := do_from fuel c env idle via next in (h :: hops, out, idle)
          end
      end
  end.

(** Eleven is more than any policy lets through ([Do_completes]). *)
Definition Do (c : Client) (env : nat -> HopEnv) (idle : idle_pool) (u : URL)
  : list hop * result do_error Z * idle_pool := do_from 11 c env idle [] u.

(** The requests of a client's lifetime, over one connection pool. *)
Fixpoint session (c : Client) (idle : idle_pool) (reqs : list (URL * (nat -> HopEnv))) : list hop :=
  match reqs with
  | [] => []
  | (u, env) :: reqs =>
      let '(hops, _, idle) := Do c env idle u in (hops ++ session c idle reqs)%list
  end.

(** ** The chain ends *)

Definition hop_limit (r : redirect_func) : nat := match r with SafeRedirect _ => 3 | _ => 10 end.

Lemma check_redirect_limit r dns req via :
  check_redirect r dns req via = None -> (length via < hop_limit r)%nat.
Proof.
  destruct r as [|allow|s h]; cbn [check_redirect hop_limit].
  - by destruct (Nat.leb_spec 10 (length via)).
  - intros H%fmap_None. by apply redirect_guard in H as [H _].
  - by destruct (Nat.leb_spec 10 (length via)).
Qed.

Lemma check_redirect_fuel r dns req via : check_redirect r dns req via <> Some OutOfFuel.
Proof.
  destruct r as [|allow|s h]; cbn [check_redirect].
  - by destruct (10 <=? _)%nat.
  - by destruct (CheckRedirect _ _ _ _ _).
  - destruct (10 <=? _)%nat; [done|]. by destruct (_ && _).
Qed.

Lemma roundTrip_fuel t idle env u : snd (fst (roundTrip t idle env u)) <> Err OutOfFuel.
Proof.
  unfold roundTrip. destruct (negb _); [done|]. destruct (str_eqb _ _); [done|].
  by destruct (getConn _ _ _ _) as [? []].
Qed.

Lemma do_from_completes fuel c env idle via u :
  (length via < hop_limit (cCheckRedirect c) <= length via + fuel)%nat ->
  snd (fst (do_from fuel c env idle via u)) <> Err OutOfFuel /\
  (length (fst (fst (do_from fuel c env idle via u))) + length via <= hop_limit (cCheckRedirect c))%nat.
Proof.
  revert idle via u. induction fuel as [|fuel IH]; intros idle via u Hv; [lia|].
  cbn [do_from]. pose proof (roundTrip_fuel (cTransport c) idle (env (length via)) u) as Hr.
  destruct (roundTrip _ _ _ _) as [[h r] idle'].
  destruct r as [[|status|[next|]]|e]; try (simpl in *; split; [congruence|lia]).
  set (via' := (via ++ [u])%list).
  assert (Hl : length via' = S (length via)) by (unfold via'; rewrite length_app; simpl; lia).
  destruct (check_redirect _ _ next via') eqn:Ec.
  - pose proof (check_redirect_fuel (cCheckRedirect c) (hopCheckDNS (env (length via'))) next via').
    simpl. split; [congruence|lia].
  - apply check_redirect_limit in Ec. specialize (IH idle' via' next ltac:(lia)).
    destruct (do_from fuel c env idle' via' next) as [[hops out] idle'']. simpl in *. split; [tauto|lia].
Qed.

(** Every chain of redirects ends, after three requests at most for a guarded
    client and ten for any other. *)
Theorem Do_completes c env idle u :
  snd (fst (Do c env idle u)) <> Err OutOfFuel /\
  (length (fst (fst (Do c env idle u))) <= hop_limit (cCheckRedirect c))%nat.
Proof.
  destruct (do_from_completes 11 c env idle [] u) as [H1 H2].
  - simpl. by destruct (cCheckRedirect c); simpl; lia.
  - cbn [length] in H2. rewrite Nat.add_0_r in H2. by split.
Qed.

(** ** Where a guarded client goes *)

Definition guarded (allow : EndpointAllowlist) (c : Client) : Prop :=
  tProxy (cTransport c) = NilProxy /\ exists t, tDialContext (cTransport c) = SafeDial t allow.

(** An address a client may be connected to for a dialled [addr]. *)
Definition may_reach (allow : EndpointAllowlist) (addr : string) (ip : IP) : Prop :=
  IsPrivateIP ip = true ->
  exists host port, SplitHostPort addr = Some (host, port) /\ lower unicode_lower host ∈ hosts allow.

Definition hop_confined (allow : EndpointAllowlist) (h : hop) : Prop :=
  forall ip, ip ∈ hopDialled h \/ hopConn h = Some ip -> may_reach allow (canonicalAddr idna (hopURL h)) ip.

Definition pool_confined (allow : EndpointAllowlist) (idle : idle_pool) : Prop :=
  forall s addr ip, (s, addr, ip) ∈ idle -> may_reach allow addr ip.

Lemma safe_dial_reach dns connects allow addr tried r :
  safeDialContext unicode_lower dns connects allow addr = (tried, r) ->
  (forall ip, ip ∈ tried -> may_reach allow addr ip) /\
  (forall ip, r = Ok ip -> may_reach allow addr ip).
Proof.
  intros E.
  assert (Ht : forall ip, ip ∈ tried -> may_reach allow addr ip).
  { intros ip Hin Hp. pose proof (safe_dial_guard unicode_lower dns connects allow addr ip) as G.
    rewrite E in G. destruct (G Hin) as (host & port & ips & Hs & _ & Hpre & [Ha|Hn]); [by eauto|].
    simpl in Hpre. rewrite Hn in Hp; [done|]. apply (elem_of_prefix _ _ _ Hin Hpre). }
  split; [done|]. intros ip ->. apply Ht. unfold safeDialContext in E.
  destruct (SplitHostPort addr) as [[host port]|]; [|done]. destruct (dns host) as [ips|]; [|done].
  destruct ips as [|x ips]; [done|].
  destruct (if ContainsHost _ _ _ then None else _); [done|].
  destruct (dial_each connects (x :: ips) port) as [tr [y|]] eqn:Ed; [|done].
  injection E as -> ->. apply dial_each_tried in Ed as (_ & Hl & _). by apply last_Some_elem_of.
Qed.

Lemma roundTrip_confined allow c idle env u h r idle' :
  guarded allow c -> pool_confined allow idle ->
  roundTrip (cTransport c) idle env u = (h, r, idle') -> hop_confined allow h /\ pool_confined allow idle'.
Proof.
  intros [Hp [t Hd]] Hi. unfold roundTrip.
  assert (Hno : hop_confined allow (mkHopLog u [] None)).
  { intros ip [Hin|Hc]; [by apply elem_of_nil in Hin|done]. }
  destruct (negb _); [by intros [= <- <- <-]|]. destruct (str_eqb _ _); [by intros [= <- <- <-]|].
  destruct (getConn _ _ _ _) as [tried conn] eqn:Eg.
  assert (Hg : (forall ip, ip ∈ tried -> may_reach allow (canonicalAddr idna u) ip) /\
               (forall ip, conn = Ok ip -> may_reach allow (canonicalAddr idna u) ip)).
  { unfold getConn, connect_addr in Eg. rewrite Hp, Hd in Eg. cbn [dial] in Eg.
    destruct (hopReuse env ≫= _) as [[[s a] ip]|] eqn:Ei; [|by apply safe_dial_reach in Eg].
    destruct (str_eqb s _ && str_eqb a _) eqn:Em; [|by apply safe_dial_reach in Eg].
    injection Eg as <- <-. apply andb_true_iff in Em as [_ Ea%str_eqb_eq]. subst a.
    split; [by intros ? ?%elem_of_nil|]. intros ? [= <-]. apply bind_Some in Ei as (i & _ & Ei).
    apply (Hi s). by apply (list_elem_of_lookup_2 _ i). }
  destruct Hg as [Ht Hc]. destruct conn as [ip|e]; intros [= <- <- <-].
  - split; [intros x [Hx|[= <-]]; auto|]. destruct (hopKeep env); [|done].
    intros s a x [[= -> -> ->]|Hx]%elem_of_cons; [|by apply (Hi s)].
    unfold connect_addr. rewrite Hp. auto.
  - split; [|done]. by intros x [Hx|?]; auto.
Qed.

Lemma do_from_confined allow c fuel env idle via u hops r idle' :
  guarded allow c -> pool_confined allow idle -> do_from fuel c env idle via u = (hops, r, idle') ->
  Forall (hop_confined allow) hops /\ pool_confined allow idle'.
Proof.
  intros Hg. revert idle via u hops r idle'.
  induction fuel as [|fuel IH]; intros idle via u hops r idle' Hi; cbn [do_from].
  - intros [= <- <- <-]. by split.
  - destruct (roundTrip _ _ _ _) as [[h a] idle1] eqn:Er.
    destruct (roundTrip_confined _ _ _ _ _ _ _ _ Hg Hi Er) as [Hh Hi1].
    destruct a as [[|status|[next|]]|e]; try (intros [= <- <- <-]; by repeat constructor).
    destruct (check_redirect _ _ _ _); [intros [= <- <- <-]; by repeat constructor|].
    destruct (do_from fuel c env idle1 _ next) as [[hs o] idle2] eqn:Ed.
    intros [= <- <- <-]. destruct (IH _ _ _ _ _ _ Hi1 Ed). by repeat constructor.
Qed.

(** Over any number of requests, with connections kept and reused, a guarded
    client is connected only to addresses the guard allows for the URL at
    hand. *)
Lemma session_confined allow c idle reqs :
  guarded allow c -> pool_confined allow idle -> Forall (hop_confined allow) (session c idle reqs).
Proof.
  intros Hg. revert idle. induction reqs as [|[u env] reqs IH]; intros idle Hi; simpl; [constructor|].
  destruct (Do c env idle u) as [[hops r] idle'] eqn:Ed.
  destruct (do_from_confined _ _ _ _ _ _ _ _ _ _ Hg Hi Ed). apply Forall_app. auto.
Qed.

(** ** Redirects *)

(** From an https request no chain of a guarded client goes on in the clear. *)
Lemma do_from_https allow c fuel env idle via u first rest :
  cCheckRedirect c = SafeRedirect allow -> (via ++ [u])%list = first :: rest ->
  Scheme first = "https" -> Scheme u <> "http" ->
  Forall (fun h => Scheme (hopURL h) <> "http") (fst (fst (do_from fuel c env idle via u))).
Proof.
  intros Hc. revert idle via u rest. induction fuel as [|fuel IH]; intros idle via u rest Hv Hf Hu; [constructor|].
  cbn [do_from]. destruct (roundTrip _ _ _ _) as [[h r] idle'] eqn:Er.
  assert (Hh : Scheme (hopURL h) <> "http").
  { unfold roundTrip in Er. destruct (negb _); [by simplify_eq|]. destruct (str_eqb _ _); [by simplify_eq|].
    destruct (getConn _ _ _ _) as [? []]; by simplify_eq. }
  destruct r as [[|status|[next|]]|e]; try by repeat constructor.
  destruct (check_redirect _ _ next _) eqn:Ek; [by repeat constructor|].
  assert (Hn : Scheme next <> "http").
  { rewrite Hc in Ek. simpl in Ek. apply fmap_None in Ek. apply redirect_guard in Ek as (_ & Ek & _).
    by eapply Ek. }
  specialize (IH idle' (via ++ [u])%list next (rest ++ [next])%list).
  destruct (do_from fuel c env idle' _ next) as [[hs o] idle2]. simpl in *.
  constructor; [done|]. apply IH; [by rewrite Hv|done|done].
Qed.

Lemma Do_https allow c env idle u :
  cCheckRedirect c = SafeRedirect allow -> Scheme u = "https" ->
  Forall (fun h => Scheme (hopURL h) <> "http") (fst (fst (Do c env idle u))).
Proof. intros Hc Hu. eapply (do_from_https allow c 11 env idle [] u u []); by rewrite ?Hu. Qed.

End Do.

Lemma NewSafeHTTPClient_guarded timeout allow :
  guarded allow (NewSafeHTTPClient timeout [WithPrivateHostAllowlist allow]).
Proof. split; [done|]. by eexists. Qed.

Lemma NewSafeHTTPClient_strict timeout : guarded (mkAllow []) (NewSafeHTTPClient timeout []).
Proof. split; [done|]. by eexists. Qed.
