(* ===== verification/SliceApi.v ===== *)
(** * The NTNSlice and SatelliteEphemeris resources

    The API types of [src/api/v1alpha1/ntnslice_types.go] and the part of
    [satelliteephemeris_types.go] a slice reads (its ECEF vectors, which no slice
    reads, are left out here; [EphemerisApi] has the whole type). *)

From S2P Require Import Prelude GoTime K8sMeta.
Local Open Scope string_scope.

(** ** Spec *)

Record PrometheusQueries := mkQueries {
  qRsrpDbm : string;
  qLatencyMs : string;
  qPacketLossPercent : string
}.

#[export] Instance PrometheusQueries_eq_dec : EqDecision PrometheusQueries.
Proof. solve_decision. Defined.

Record PrometheusMetricsSource := mkPromSource {
  Endpoint : string;
  QueryTimeout : option Duration;
  PromQueries : PrometheusQueries
}.

Definition MetricsSourceAnnotations := "annotations".
Definition MetricsSourcePrometheus := "prometheus".

Record MetricsSource := mkSource {
  SourceType : string;
  Prometheus : option PrometheusMetricsSource
}.

Record PathSpec := mkPath {
  PathProvider : string;
  APN : string;
  Priority : string
}.

(** [PathSpec], embedded, and the pool of satellites. *)
Record SatellitePathSpec := mkSatellitePath {
  satPath : PathSpec;
  spEphemerisRef : string
}.

Record FailoverPolicy := mkFailoverPolicy {
  Triggers : list string;
  SwitchbackDelay : Duration;
  SessionContinuity : bool;
  HysteresisMargin : string;
  FpConfirmationSamples : option Z;
  FpMinTerrestrialDwell : Duration
}.

Record QoSMapping := mkQoS {
  Terrestrial5QI : Z;
  SatelliteQCI : string;
  MaxLatencyBudget : Duration
}.

Record SecurityPolicy := mkSecurity {
  EncryptionLevel : string;
  AuthOnHandover : string
}.

Record BillingSpec := mkBilling {
  TerrestrialRate : string;
  SatelliteRate : string
}.

Record NTNSliceSpec := mkSliceSpec {
  Tenant : string;
  TerrestrialPath : PathSpec;
  SatellitePath : SatellitePathSpec;
  SliceFailoverPolicy : FailoverPolicy;
  SliceQoS : option QoSMapping;
  SliceSecurity : option SecurityPolicy;
  SliceBilling : option BillingSpec;
  SliceMetricsSource : option MetricsSource
}.

(** [spec.satellitePath.ephemerisRef]. *)
Definition EphemerisRef (spec : NTNSliceSpec) : string := spEphemerisRef (SatellitePath spec).

(** ** Status *)

Record ContactCandidate := mkCandidate {
  ccNoradID : Z;
  ccSatellite : string;
  ccGroundStation : string;
  ccAOS : option Time;
  ccLOS : option Time;
  ccSourceEpochUnixMs : Z;
  ccPropagatedEpochUnixMs : Z;
  ccValidUntil : option Time;
  ccSelectionReason : string
}.

#[export] Instance ContactCandidate_eq_dec : EqDecision ContactCandidate.
Proof. solve_decision. Defined.

Record NTNSliceStatus := mkSliceStatus {
  ActivePathType : string;
  LastFailover : option Time;
  LastSwitchbackTime : option Time;
  FailoverCount : Z;
  AppliedQoS : string;
  StContactCandidate : option ContactCandidate;
  AppliedEncryption : string;
  BillingMode : string;
  SliceConditions : list Condition
}.

#[export] Instance NTNSliceStatus_eq_dec : EqDecision NTNSliceStatus.
Proof. solve_decision. Defined.

Definition ConditionPathActive := "PathActive".
Definition ConditionFailoverReady := "FailoverReady".
Definition ConditionQoSApplied := "QoSApplied".
Definition ConditionSecured := "Secured".
Definition ConditionBillingActive := "BillingActive".
Definition ConditionMetricsStale := "MetricsStale".
Definition ConditionTriggersReady := "TriggersReady".

Record NTNSlice := mkSlice {
  sliceMeta : ObjectMeta;
  sliceSpec : NTNSliceSpec;
  sliceStatus : NTNSliceStatus
}.

(** Status updates in place. *)
Definition set_conditions (st : NTNSliceStatus) (l : list Condition) : NTNSliceStatus :=
  mkSliceStatus (ActivePathType st) (LastFailover st) (LastSwitchbackTime st) (FailoverCount st)
    (AppliedQoS st) (StContactCandidate st) (AppliedEncryption st) (BillingMode st) l.
Definition set_active_path (st : NTNSliceStatus) (p : string) : NTNSliceStatus :=
  mkSliceStatus p (LastFailover st) (LastSwitchbackTime st) (FailoverCount st)
    (AppliedQoS st) (StContactCandidate st) (AppliedEncryption st) (BillingMode st) (SliceConditions st).
Definition set_last_switchback (st : NTNSliceStatus) (t : option Time) : NTNSliceStatus :=
  mkSliceStatus (ActivePathType st) (LastFailover st) t (FailoverCount st)
    (AppliedQoS st) (StContactCandidate st) (AppliedEncryption st) (BillingMode st) (SliceConditions st).
Definition set_failover (st : NTNSliceStatus) (n : Z) (t : option Time) : NTNSliceStatus :=
  mkSliceStatus (ActivePathType st) t (LastSwitchbackTime st) n
    (AppliedQoS st) (StContactCandidate st) (AppliedEncryption st) (BillingMode st) (SliceConditions st).
Definition set_qos (st : NTNSliceStatus) (q : string) : NTNSliceStatus :=
  mkSliceStatus (ActivePathType st) (LastFailover st) (LastSwitchbackTime st) (FailoverCount st)
    q (StContactCandidate st) (AppliedEncryption st) (BillingMode st) (SliceConditions st).
Definition set_candidate (st : NTNSliceStatus) (c : option ContactCandidate) : NTNSliceStatus :=
  mkSliceStatus (ActivePathType st) (LastFailover st) (LastSwitchbackTime st) (FailoverCount st)
    (AppliedQoS st) c (AppliedEncryption st) (BillingMode st) (SliceConditions st).
Definition set_encryption (st : NTNSliceStatus) (e : string) : NTNSliceStatus :=
  mkSliceStatus (ActivePathType st) (LastFailover st) (LastSwitchbackTime st) (FailoverCount st)
    (AppliedQoS st) (StContactCandidate st) e (BillingMode st) (SliceConditions st).
Definition set_billing (st : NTNSliceStatus) (b : string) : NTNSliceStatus :=
  mkSliceStatus (ActivePathType st) (LastFailover st) (LastSwitchbackTime st) (FailoverCount st)
    (AppliedQoS st) (StContactCandidate st) (AppliedEncryption st) b (SliceConditions st).

(** ** SatelliteEphemeris, as a slice reads it *)

Record PassWindow := mkWindow {
  pwSatellite : string;
  pwNoradID : Z;
  pwGroundStation : string;
  AOS : Time;
  LOS : Time
}.

Record PropagatedState := mkState {
  psNoradID : Z;
  EpochUnixMs : Z;
  SourceEpochUnixMs : Z
}.

Record SatelliteEphemeris := mkEphemeris {
  ephMeta : ObjectMeta;
  NextPassWindows : list PassWindow;
  PropagatedStates : list PropagatedState;
  ephConditions : list Condition
}.

Definition ConditionPassesPredicted := "PassesPredicted".
