(* ===== verification/MetricsReaders.v ===== *)
(** * Package slice/metrics: where path quality comes from

    Models [src/pkg/slice/metrics]: the annotation reader, the Prometheus
    reader with its per-query classification, the stale cache that replays the
    last observation, the client pool, and the provider that keeps one cached
    reader per slice and configuration.

    The Prometheus client library is the argument [query]: what an instant
    query on a client returns.  Readers and clients are shared objects in the
    source: a client carries the number it was allocated with, and the readers
    live in a heap that only grows, so a reader handed out by [For] is a
    pointer, a read through it updates the cache every holder sees, and an
    evicted reader stays usable by those who still hold it. *)

From S2P Require Import Prelude GoStrings GoJson GoTime GoFloat Failover GoNet K8sMeta SliceApi NetGuard HttpClient.
From Stdlib Require Import SpecFloat Ascii.
Local Open Scope string_scope.

(** ** Results *)

Record Result := mkReading {
  rMetrics : Metrics;
  Stale : bool;
  LastFreshAt : Time;
  ObservedAt : Time
}.

Inductive read_error :=
| ErrNoMetrics (inner : string)
| ErrContext (e : string)
| ErrQuery (q : string)
| ErrMissingUID.

(** [errors.Is(err, ErrNoMetrics)]. *)
Definition is_no_metrics (e : read_error) : bool :=
  match e with ErrNoMetrics _ => true | _ => false end.

Definition defaultMetrics : Metrics :=
  mkMetrics (f_of_Z (-80)) (f_of_Z 20) (of_decimal false 1 (-1)) false false false.

Definition all_missing (m : Metrics) : Metrics :=
  mkMetrics (RSRP m) (LatencyMs m) (PacketLossPercent m) true true true.

Definition set_field (f : field) (v : float64) (m : Metrics) : Metrics :=
  match f with
  | FieldRSRP => mkMetrics v (LatencyMs m) (PacketLossPercent m) false (LatencyMissing m) (PacketLossMissing m)
  | FieldLatency => mkMetrics (RSRP m) v (PacketLossPercent m) (RSRPMissing m) false (PacketLossMissing m)
  | FieldPacketLoss => mkMetrics (RSRP m) (LatencyMs m) v (RSRPMissing m) (LatencyMissing m) false
  end.

(** ** Annotations *)

Definition annotationRSRP := "ntn.operators.dev/simulated-rsrp".
Definition annotationLatency := "ntn.operators.dev/simulated-latency".
Definition annotationPacketLoss := "ntn.operators.dev/simulated-packet-loss".

Definition parseFinite (s : string) : option float64 :=
  if str_eqb s "" then None
  else match ParseFloat s with
       | Ok v => if IsNaN v || IsInf v then None else Some v
       | Err _ => None
       end.

(** A Go map read: an absent key gives the empty string. *)
Definition annotation (ns : NTNSlice) (k : string) : string :=
  default "" (Annotations (sliceMeta ns) !! k).

Definition from_annotation (ns : NTNSlice) (k : string) (f : field) (m : Metrics) : Metrics :=
  match parseFinite (annotation ns k) with
  | Some v => set_field f v m
  | None => m
  end.

Definition annotation_read (ns : NTNSlice) : Result :=
  let m := all_missing defaultMetrics in
  let m := from_annotation ns annotationRSRP FieldRSRP m in
  let m := from_annotation ns annotationLatency FieldLatency m in
  let m := from_annotation ns annotationPacketLoss FieldPacketLoss m in
  mkReading m false zero_time zero_time.

(** ** Prometheus *)

(** [model.Value]: a scalar, a vector of samples, or another result type. *)
Inductive prom_value :=
| Scalar (v : float64) (ts : Time)
| Vector (samples : list (float64 * Time))
| OtherValue.

Definition reasonQueryError := "query_error".
Definition reasonEmptyVector := "empty_vector".
Definition reasonAmbiguousVector := "ambiguous_vector".
Definition reasonNonFinite := "non_finite".
Definition reasonUnsupportedType := "unsupported_type".

Definition defaultPrometheusTimeout : Duration := (2 * Second)%Z.

(** A pooled client: its identity, the endpoint it was built for, and the HTTP
    client below it; without one the library's default transport is used. *)
Record QueryClient := mkClient {
  clientId : nat;
  clientEndpoint : string;
  clientHTTP : option Client
}.

#[export] Instance QueryClient_eq_dec : EqDecision QueryClient.
Proof. solve_decision. Defined.

(** What a slice's Prometheus reader is built from. *)
Record PromReader := mkPromReader {
  prClient : QueryClient;
  prQueries : PrometheusQueries;
  prTimeout : Duration
}.

Definition NewPrometheusReader (client : QueryClient) (queries : PrometheusQueries)
  (timeout : Duration) : PromReader :=
  mkPromReader client queries
    (if (timeout <=? 0)%Z then defaultPrometheusTimeout else timeout).

Section Readers.

(** An instant query: client, PromQL text, per-query timeout and evaluation
    time; [None] is a query error. *)
Variable query : QueryClient -> string -> Duration -> Time -> option prom_value.

(** [fetch]: the value and its source time, or the error with the reason label
    its counter is bumped under. *)
Definition finite_sample (q : string) (v : float64) (ts : Time)
  : result (read_error * string) (float64 * Time) :=
  if IsNaN v || IsInf v then Err (ErrNoMetrics q, reasonNonFinite) else Ok (v, ts).

Definition fetch (r : PromReader) (now : Time) (q : string)
  : result (read_error * string) (float64 * Time) :=
  match query (prClient r) q (prTimeout r) now with
  | None => Err (ErrQuery q, reasonQueryError)
  | Some (Scalar v ts) => finite_sample q v ts
  | Some (Vector []) => Err (ErrNoMetrics q, reasonEmptyVector)
  | Some (Vector [(v, ts)]) => finite_sample q v ts
  | Some (Vector _) => Err (ErrNoMetrics q, reasonAmbiguousVector)
  | Some OtherValue => Err (ErrNoMetrics q, reasonUnsupportedType)
  end.

Definition reader_fields (r : PromReader) : list (string * field) :=
  [ (qRsrpDbm (prQueries r), FieldRSRP);
    (qLatencyMs (prQueries r), FieldLatency);
    (qPacketLossPercent (prQueries r), FieldPacketLoss) ].

Fixpoint read_fields (r : PromReader) (now : Time) (fields : list (string * field))
  (m : Metrics) (observedAt : Time) : result (read_error * string) (Metrics * Time) :=
  match fields with
  | [] => Ok (m, observedAt)
  | (q, f) :: rest =>
      if str_eqb q "" then read_fields r now rest m observedAt
      else match fetch r now q with
           | Err e => Err e
           | Ok (v, ts) =>
               read_fields r now rest (set_field f v m)
                 (if After ts observedAt then ts else observedAt)
           end
  end.

(** [prometheusReader.Read]; [ctx_err] is [ctx.Err()]. *)
Definition prometheus_read (r : PromReader) (ctx_err : option string) (now : Time)
  : result (read_error * string) Result :=
  match ctx_err with
  | Some e => Err (ErrContext e, "")
  | None =>
      match read_fields r now (reader_fields r) (all_missing defaultMetrics) zero_time with
      | Err e => Err e
      | Ok (m, observedAt) => Ok (mkReading m false zero_time observedAt)
      end
  end.

(** ** The stale cache *)

Record staleEntry := mkStale {
  seMetrics : Metrics;
  seFreshAt : Time;
  seObservedAt : Time
}.

Record CachedReader := mkCached {
  crInner : PromReader;
  crCache : gmap UID staleEntry
}.

Definition NewStaleCache (inner : PromReader) : CachedReader := mkCached inner ∅.

(** [staleCache.Read]: the reading, the cache afterwards, whether the stale
    counter was bumped and the inner reader's error reason.  [ctx_err] is the
    parent context when the inner read starts, [ctx_err'] after it failed;
    [now] is the inner reader's clock and [freshAt] the cache's, read after. *)
Definition stale_read (c : CachedReader) (uid : UID) (ctx_err ctx_err' : option string)
  (now freshAt : Time) : result read_error Result * CachedReader * bool * option string :=
  if str_eqb uid "" then (Err ErrMissingUID, c, false, None)
  else
    match prometheus_read (crInner c) ctx_err now with
    | Ok res =>
        let entry := mkStale (rMetrics res) freshAt (ObservedAt res) in
        (Ok (mkReading (rMetrics res) (Stale res) freshAt (ObservedAt res)),
         mkCached (crInner c) (<[uid := entry]> (crCache c)), false, None)
    | Err (e, why) =>
        match ctx_err' with
        | Some ce => (Err (ErrContext ce), c, false, Some why)
        | None =>
            match crCache c !! uid with
            | None => (Err (ErrNoMetrics why), c, false, Some why)
            | Some cached =>
                (Ok (mkReading (seMetrics cached) true (seFreshAt cached) (seObservedAt cached)),
                 c, true, Some why)
            end
        end
    end.

End Readers.

(** ** The client pool *)

Record ClientPool := mkPool {
  clients : gmap string QueryClient;
  httpClient : option Client;
  allocated : nat
}.

(** [PoolOption]; the only one there is. *)
Inductive PoolOption := WithSafeClient (allow : EndpointAllowlist).

Definition apply_option (p : ClientPool) (o : PoolOption) : ClientPool :=
  match o with
  | WithSafeClient allow =>
      mkPool (clients p) (Some (NewSafeHTTPClient 0 [WithPrivateHostAllowlist allow])) (allocated p)
  end.

Definition NewClientPool (opts : list PoolOption) : ClientPool :=
  fold_left apply_option opts (mkPool ∅ None 0).

Inductive pool_error := PoolEmptyEndpoint | PoolBuild (endpoint : string).

Section Pool.

(** [promapi.NewClient] accepts the address. *)
Variable address_ok : string -> bool.

(** The lookup under the read lock. *)
Definition pool_lookup (p : ClientPool) (endpoint : string) : option QueryClient :=
  clients p !! endpoint.

(** [buildPromClient], outside every lock: a new object. *)
Definition buildPromClient (p : ClientPool) (endpoint : string)
  : result pool_error QueryClient * ClientPool :=
  if address_ok endpoint
  then (Ok (mkClient (allocated p) endpoint (httpClient p)),
        mkPool (clients p) (httpClient p) (S (allocated p)))
  else (Err (PoolBuild endpoint), p).

(** The second check and the store, under the write lock. *)
Definition pool_commit (p : ClientPool) (endpoint : string) (built : QueryClient)
  : QueryClient * ClientPool :=
  match clients p !! endpoint with
  | Some existing => (existing, p)
  | None => (built, mkPool (<[endpoint := built]> (clients p)) (httpClient p) (allocated p))
  end.

(** [Get] run alone. *)
Definition pool_get (p : ClientPool) (endpoint : string) : result pool_error QueryClient * ClientPool :=
  if str_eqb endpoint "" then (Err PoolEmptyEndpoint, p)
  else match pool_lookup p endpoint with
       | Some c => (Ok c, p)
       | None =>
           match buildPromClient p endpoint with
           | (Err e, p) => (Err e, p)
           | (Ok built, p) => let '(c, p) := pool_commit p endpoint built in (Ok c, p)
           end
       end.

(** [Get] run by many goroutines: where each of them stands, and the three
    points at which it can be interrupted. *)
Inductive getter :=
| GetStart (endpoint : string)
| GetMissed (endpoint : string)
| GetBuilt (endpoint : string) (built : QueryClient)
| GetDone (endpoint : string) (r : result pool_error QueryClient).

Definition getter_step (p : ClientPool) (g : getter) : getter * ClientPool :=
  match g with
  | GetStart e =>
      if str_eqb e "" then (GetDone e (Err PoolEmptyEndpoint), p)
      else match pool_lookup p e with
           | Some c => (GetDone e (Ok c), p)
           | None => (GetMissed e, p)
           end
  | GetMissed e =>
      match buildPromClient p e with
      | (Err err, p) => (GetDone e (Err err), p)
      | (Ok built, p) => (GetBuilt e built, p)
      end
  | GetBuilt e built => let '(c, p) := pool_commit p e built in (GetDone e (Ok c), p)
  | GetDone e r => (GetDone e r, p)
  end.

(** One goroutine moves. *)
Inductive pool_step : ClientPool * list getter -> ClientPool * list getter -> Prop :=
| pool_step_at p gs i g g' p' :
    gs !! i = Some g -> getter_step p g = (g', p') ->
    pool_step (p, gs) (p', <[i := g']> gs).

Definition all_start (gs : list getter) : Prop := forall g, g ∈ gs -> exists e, g = GetStart e.

End Pool.

(** ** The provider *)

Record readerKey := mkReaderKey {
  rkNamespace : string;
  rkName : string;
  rkUid : UID;
  rkFingerprint : string
}.

#[export] Instance readerKey_eq_dec : EqDecision readerKey.
Proof. solve_decision. Defined.

#[export] Instance readerKey_countable : Countable readerKey.
Proof.
  apply (inj_countable' (fun k => (rkNamespace k, rkName k, rkUid k, rkFingerprint k))
           (fun p => mkReaderKey p.1.1.1 p.1.1.2 p.1.2 p.2)).
  by intros [].
Defined.

(** A reader value: the stateless annotation reader, or a pointer into the
    heap of cached Prometheus readers. *)
Inductive Reader := AnnotationReader | PromPtr (i : nat).

#[export] Instance Reader_eq_dec : EqDecision Reader.
Proof. solve_decision. Defined.

Record Provider := mkProvider {
  pPool : ClientPool;
  pReaders : gmap readerKey nat;
  pHeap : list CachedReader;
  pAllow : EndpointAllowlist;
  pStaleUsed : gmap NamespacedName Z     (* ReaderStaleUsedTotal *)
}.

Definition NewProvider (pool : ClientPool) (allow : EndpointAllowlist) : Provider :=
  mkProvider pool ∅ [] allow ∅.

Inductive provider_error :=
| UnsupportedSourceType (ty : string)
| MissingPrometheusBlock
| UnsavedSlice
| EndpointRefused (e : endpoint_error)
| NoQueries
| ClientError (e : pool_error).

(** [QueryTimeout] as a duration; nil is zero. *)
Definition query_timeout (src : PrometheusMetricsSource) : Duration :=
  match QueryTimeout src with Some t => t | None => 0%Z end.

Definition json_key (k : string) : string := String dq (k +:+ String dq ":").

Definition prometheusFingerprint (src : PrometheusMetricsSource) : string :=
  "{" +:+ json_key "e" +:+ json_string (Endpoint src)
  +:+ "," +:+ json_key "r" +:+ json_string (qRsrpDbm (PromQueries src))
  +:+ "," +:+ json_key "l" +:+ json_string (qLatencyMs (PromQueries src))
  +:+ "," +:+ json_key "p" +:+ json_string (qPacketLossPercent (PromQueries src))
  +:+ "," +:+ json_key "t" +:+ fmt_d (query_timeout src) +:+ "}".

Definition reader_key (ns : NTNSlice) (src : PrometheusMetricsSource) : readerKey :=
  mkReaderKey (Namespace (sliceMeta ns)) (Name (sliceMeta ns)) (oUID (sliceMeta ns))
    (prometheusFingerprint src).

Section Provide.

Variable unicode_lower : string -> string.
Variable url_parse : string -> option URL.
Variable address_ok : string -> bool.
Variable query : QueryClient -> string -> Duration -> Time -> option prom_value.

(** What [For] refuses or selects before it looks at its cache. *)
Definition select_source (ns : NTNSlice)
  : result provider_error (option PrometheusMetricsSource) :=
  match SliceMetricsSource (sliceSpec ns) with
  | None => Ok None
  | Some src =>
      if str_eqb (SourceType src) "" || str_eqb (SourceType src) MetricsSourceAnnotations then Ok None
      else if negb (str_eqb (SourceType src) MetricsSourcePrometheus)
      then Err (UnsupportedSourceType (SourceType src))
      else match Prometheus src with
           | None => Err MissingPrometheusBlock
           | Some prom => if str_eqb (oUID (sliceMeta ns)) "" then Err UnsavedSlice else Ok (Some prom)
           end
  end.

Definition with_pool (p : Provider) (pool : ClientPool) : Provider :=
  mkProvider pool (pReaders p) (pHeap p) (pAllow p) (pStaleUsed p).

Definition buildReader (p : Provider) (src : PrometheusMetricsSource)
  : result provider_error nat * Provider :=
  match NetGuard.Check unicode_lower url_parse (pAllow p) (Endpoint src) with
  | Some e => (Err (EndpointRefused e), p)
  | None =>
      let q := PromQueries src in
      if str_eqb (qRsrpDbm q) "" && str_eqb (qLatencyMs q) "" && str_eqb (qPacketLossPercent q) ""
      then (Err NoQueries, p)
      else match pool_get address_ok (pPool p) (Endpoint src) with
           | (Err e, pool) => (Err (ClientError e), with_pool p pool)
           | (Ok qclient, pool) =>
               let reader := NewStaleCache (NewPrometheusReader qclient q (query_timeout src)) in
               (Ok (length (pHeap p)),
                mkProvider pool (pReaders p) (pHeap p ++ [reader]) (pAllow p) (pStaleUsed p))
           end
  end.

(** The write-locked part of [For]. *)
Definition for_commit (p : Provider) (key : readerKey) (reader : nat) : nat * Provider :=
  match pReaders p !! key with
  | Some existing => (existing, p)
  | None =>
      let kept := filter (fun kr : readerKey * nat =>
        ~ (rkUid kr.1 = rkUid key /\ rkFingerprint kr.1 <> rkFingerprint key)) (pReaders p) in
      (reader, mkProvider (pPool p) (<[key := reader]> kept) (pHeap p) (pAllow p) (pStaleUsed p))
  end.

Definition For (p : Provider) (ns : NTNSlice) : result provider_error Reader * Provider :=
  match select_source ns with
  | Err e => (Err e, p)
  | Ok None => (Ok AnnotationReader, p)
  | Ok (Some src) =>
      let key := reader_key ns src in
      match pReaders p !! key with
      | Some r => (Ok (PromPtr r), p)
      | None =>
          match buildReader p src with
          | (Err e, p) => (Err e, p)
          | (Ok reader, p) => let '(r, p) := for_commit p key reader in (Ok (PromPtr r), p)
          end
      end
  end.

Definition Evict (p : Provider) (key : NamespacedName) : Provider :=
  mkProvider (pPool p)
    (filter (fun kr : readerKey * nat =>
       ~ (rkNamespace kr.1 = kNamespace key /\ rkName kr.1 = kName key)) (pReaders p))
    (pHeap p) (pAllow p) (delete key (pStaleUsed p)).

(** [reader.Read(ctx, ns)]. A pointer into the heap always designates a
    reader; the [None] case does not arise. *)
Definition Reader_Read (p : Provider) (r : Reader) (ns : NTNSlice)
  (ctx_err ctx_err' : option string) (now freshAt : Time) : result read_error Result * Provider :=
  match r with
  | AnnotationReader => (Ok (annotation_read ns), p)
  | PromPtr i =>
      match pHeap p !! i with
      | None => (Err (ErrNoMetrics "dangling"), p)
      | Some c =>
          let '(res, c', bumped, _) :=
            stale_read query c (oUID (sliceMeta ns)) ctx_err ctx_err' now freshAt in
          let key := ObjectKeyFromObject (sliceMeta ns) in
          let used := if bumped
            then <[key := (default 0%Z (pStaleUsed p !! key) + 1)%Z]> (pStaleUsed p)
            else pStaleUsed p in
          (res, mkProvider (pPool p) (pReaders p) (<[i := c']> (pHeap p)) (pAllow p) used)
      end
  end.

(** The provider shared by many reconciles: the calls of [For] that have built
    their reader and not yet stored it are in flight. *)
Definition valid_source (src : PrometheusMetricsSource) : bool :=
  valid_utf8 (Endpoint src) && valid_utf8 (qRsrpDbm (PromQueries src))
  && valid_utf8 (qLatencyMs (PromQueries src)) && valid_utf8 (qPacketLossPercent (PromQueries src)).

Inductive provider_step :
  Provider * list (readerKey * nat) -> Provider * list (readerKey * nat) -> Prop :=
| step_build p fl ns src r p' :
    select_source ns = Ok (Some src) -> valid_source src = true ->
    buildReader p src = (r, p') ->
    provider_step (p, fl)
      (p', match r with Ok i => (reader_key ns src, i) :: fl | Err _ => fl end)
| step_commit p fl1 fl2 key i r p' :
    for_commit p key i = (r, p') ->
    provider_step (p, (fl1 ++ (key, i) :: fl2)%list) (p', (fl1 ++ fl2)%list)
| step_evict p fl key : provider_step (p, fl) (Evict p key, fl)
| step_read p fl r ns ctx_err ctx_err' now freshAt res p' :
    Reader_Read p r ns ctx_err ctx_err' now freshAt = (res, p') ->
    provider_step (p, fl) (p', fl).

End Provide.

(** * Properties *)

(** ** What a reading means *)

(** How a configured query shows in the result: the field holds the finite
    value the query gave; an empty query leaves the field missing. *)
Definition field_from (query : QueryClient -> string -> Duration -> Time -> option prom_value)
  (r : PromReader) (now : Time) (q : string) (f : field) (m : Metrics) : Prop :=
  if str_eqb q "" then field_missing f m = true
  else field_missing f m = false /\ is_finite (field_value f m) = true /\
       exists ts, fetch query r now q = Ok (field_value f m, ts).

Section ReadFacts.
Context (query : QueryClient -> string -> Duration -> Time -> option prom_value).

Lemma fetch_finite r now q v ts : fetch query r now q = Ok (v, ts) -> is_finite v = true.
Proof.
  unfold fetch, finite_sample. intros H.
  assert (Hs : forall v' ts', (if IsNaN v' || IsInf v' then Err (ErrNoMetrics q, reasonNonFinite)
                               else Ok (v', ts')) = Ok (v, ts) -> is_finite v = true).
  { intros v' ts'. destruct v'; simpl; intros; by simplify_eq. }
  destruct (query _ _ _ _) as [[v' ts'|[|[v' ts'] [|]]|]|]; try done; eauto.
Qed.

(** The latest source time among the configured queries. *)
Fixpoint latest (r : PromReader) (now : Time) (fields : list (string * field)) (t : Time) : Time :=
  match fields with
  | [] => t
  | (q, _) :: rest =>
      if str_eqb q "" then latest r now rest t
      else match fetch query r now q with
           | Ok (_, ts) => latest r now rest (Z.max t ts)
           | Err _ => t
           end
  end.

Lemma read_fields_time r now fields m t m' t' :
  read_fields query r now fields m t = Ok (m', t') -> t' = latest r now fields t.
Proof.
  revert m t. induction fields as [|[q f] rest IH]; intros m t H; simpl in *; [congruence|].
  destruct (str_eqb q ""); [eauto|].
  destruct (fetch query r now q) as [[v ts]|]; [|done]. apply IH in H as ->.
  f_equal. unfold After. destruct (Z.ltb_spec t ts); lia.
Qed.

Lemma prometheus_read_values r now ctx_err res :
  prometheus_read query r ctx_err now = Ok res ->
  field_from query r now (qRsrpDbm (prQueries r)) FieldRSRP (rMetrics res) /\
  field_from query r now (qLatencyMs (prQueries r)) FieldLatency (rMetrics res) /\
  field_from query r now (qPacketLossPercent (prQueries r)) FieldPacketLoss (rMetrics res).
Proof.
  unfold prometheus_read, field_from. destruct ctx_err; [done|].
  destruct (read_fields _ _ _ _ _ _) as [[m t]|] eqn:H; [|done]. intros [= <-]. simpl.
  revert H. generalize defaultMetrics as m0. intros m0.
  unfold reader_fields. cbn [read_fields].
  destruct (str_eqb (qRsrpDbm _) ""), (str_eqb (qLatencyMs _) ""),
    (str_eqb (qPacketLossPercent _) "");
  repeat match goal with
  | |- match fetch query r now ?q with _ => _ end = _ -> _ =>
      let E := fresh "E" in
      destruct (fetch query r now q) as [[? ?]|] eqn:E;
      [pose proof (fetch_finite _ _ _ _ _ E)|discriminate]
  end; intros [= <- _]; repeat split; eauto.
Qed.

(** A Prometheus reading is all or nothing: when [Read] succeeds, every
    configured query answered with one finite sample and its field holds that
    value, every field without a query is marked missing (so no trigger is
    evaluated against the healthy placeholder), the result is not stale, and
    [ObservedAt] is the latest of the source timestamps, not the read time. *)
Theorem prometheus_read_all_or_nothing r now ctx_err res :
  prometheus_read query r ctx_err now = Ok res ->
  field_from query r now (qRsrpDbm (prQueries r)) FieldRSRP (rMetrics res) /\
  field_from query r now (qLatencyMs (prQueries r)) FieldLatency (rMetrics res) /\
  field_from query r now (qPacketLossPercent (prQueries r)) FieldPacketLoss (rMetrics res) /\
  Stale res = false /\
  ObservedAt res = latest r now (reader_fields r) zero_time.
Proof.
  intros H. destruct (prometheus_read_values _ _ _ _ H) as (H1 & H2 & H3).
  assert (Hs : Stale res = false /\ ObservedAt res = latest r now (reader_fields r) zero_time).
  { unfold prometheus_read in H. destruct ctx_err; [done|].
    destruct (read_fields _ _ _ _ _ _) as [[m t]|] eqn:E; [|done]. injection H as <-.
    split; [done|]. by eapply read_fields_time. }
  tauto.
Qed.

(** ** The stale cache *)

Lemma stale_read_inner c uid e e' now freshAt res c' b w :
  stale_read query c uid e e' now freshAt = (res, c', b, w) -> crInner c' = crInner c.
Proof. unfold stale_read. intros H. repeat split_match_in H; by simplify_eq. Qed.

(** Reads of one slice one after the other, each with its contexts and clocks. *)
Definition read_event : Type := option string * option string * Time * Time.

Fixpoint stale_reads (c : CachedReader) (uid : UID) (evs : list read_event)
  : list (result read_error Result) * CachedReader :=
  match evs with
  | [] => ([], c)
  | (e, e', now, freshAt) :: evs =>
      let '(res, c, _, _) := stale_read query c uid e e' now freshAt in
      let '(rs, c) := stale_reads c uid evs in (res :: rs, c)
  end.

(** The source is down for the whole event. *)
Definition source_down (r : PromReader) (ev : read_event) : Prop :=
  let '(e, _, now, _) := ev in is_ok (prometheus_read query r e now) = false.

Definition replay_of (res : Result) : Result :=
  mkReading (rMetrics res) true (LastFreshAt res) (ObservedAt res).

Lemma stale_reads_down c uid entry evs :
  uid <> "" -> crCache c !! uid = Some entry -> Forall (source_down (crInner c)) evs ->
  let res := mkReading (seMetrics entry) true (seFreshAt entry) (seObservedAt entry) in
  Forall2 (fun ev r => match ev.1.1.2 with
                       | None => r = Ok res
                       | Some e => r = Err (ErrContext e)
                       end) evs (stale_reads c uid evs).1 /\
  (stale_reads c uid evs).2 = c.
Proof.
  intros Huid Hc. induction evs as [|[[[e e'] now] fa] evs IH]; intros Hd; simpl; [auto|].
  apply Forall_cons in Hd as [Hd1 Hd]. specialize (IH Hd). unfold source_down in Hd1.
  unfold stale_read. rewrite (proj2 (str_eqb_neq uid "")) by done.
  destruct (prometheus_read _ _ _ _) as [|[err why]]; [done|]. rewrite Hc.
  destruct e'; destruct (stale_reads c uid evs) as [rs c']; simpl in *;
    (split; [constructor; [done|apply IH]|apply IH]).
Qed.

(** However long the source stays down after a fresh read, every later
    read through the cache replays exactly that observation, marked stale, with
    its original [LastFreshAt] and [ObservedAt]; a cancelled context is
    propagated instead; and the cache itself never changes. A replay therefore
    never looks like a new observation to the anti-flap engine. *)
Theorem stale_replays_last_observation c uid e e' now freshAt res c' b w evs :
  stale_read query c uid e e' now freshAt = (Ok res, c', b, w) -> Stale res = false ->
  Forall (source_down (crInner c')) evs ->
  LastFreshAt res = freshAt /\
  Forall2 (fun ev r => match ev.1.1.2 with
                       | None => r = Ok (replay_of res)
                       | Some ce => r = Err (ErrContext ce)
                       end) evs (stale_reads c' uid evs).1 /\
  (stale_reads c' uid evs).2 = c'.
Proof.
  intros H Hs Hd. unfold stale_read in H.
  destruct (str_eqb uid "") eqn:Hu; [done|]. apply str_eqb_neq in Hu.
  destruct (prometheus_read _ _ _ _) as [r|[er why]] eqn:Hr.
  - injection H as <- <- <- <-. split; [done|].
    apply (stale_reads_down _ uid (mkStale (rMetrics r) freshAt (ObservedAt r))); try done.
    simpl. by rewrite lookup_insert_eq.
  - destruct e'; [done|]. destruct (crCache c !! uid); [|done].
    injection H as <- <- <- <-. done.
Qed.

End ReadFacts.

Definition demo_client : QueryClient := mkClient 0 "https://prom" None.
Definition demo_reader : PromReader :=
  NewPrometheusReader demo_client (mkQueries "r" "" "") 0.
Definition demo_query (up_until : Time) : QueryClient -> string -> Duration -> Time -> option prom_value :=
  fun _ _ _ now => if (now <=? up_until)%Z then Some (Vector [(f_of_Z (-90), 7%Z)]) else None.

Lemma prometheus_read_all_or_nothing_witness :
  exists res, prometheus_read (demo_query 10) demo_reader None 5 = Ok res /\ ObservedAt res = 7%Z.
Proof.
  eexists. split; [reflexivity|].
  apply (prometheus_read_all_or_nothing (demo_query 10) demo_reader 5 None). reflexivity.
Defined.

Lemma stale_replays_last_observation_witness :
  exists res c, stale_read (demo_query 10) (NewStaleCache demo_reader) "u" None None 5 6
                = (Ok res, c, false, None) /\
    (stale_reads (demo_query 10) c "u" [(None, None, 11, 12); (None, None, 20, 21)]%Z).2 = c.
Proof.
  eexists _, _. split; [reflexivity|].
  apply (stale_replays_last_observation (demo_query 10) (NewStaleCache demo_reader) "u"
           None None 5 6 (mkReading
             (set_field FieldRSRP (f_of_Z (-90)) (all_missing defaultMetrics)) false 6 7)
           _ false None); [reflexivity|reflexivity|].
  repeat constructor.
Defined.

(** ** The pool under concurrent calls *)

Section PoolFacts.
Context (address_ok : string -> bool).

(** A stored client was built for the endpoint it is stored under, with the
    pool's transport; whoever is done with an endpoint holds the stored one. *)
Record pool_inv (s : ClientPool * list getter) : Prop := {
  pi_stored : forall e c, clients s.1 !! e = Some c -> clientEndpoint c = e /\ clientHTTP c = httpClient s.1;
  pi_built : forall e c, GetBuilt e c ∈ s.2 -> clientEndpoint c = e /\ clientHTTP c = httpClient s.1;
  pi_done : forall e c, GetDone e (Ok c) ∈ s.2 -> clients s.1 !! e = Some c
}.

(** A step never replaces a stored client. *)
Lemma getter_step_grows p g g' p' e c :
  getter_step address_ok p g = (g', p') -> clients p !! e = Some c ->
  clients p' !! e = Some c /\ httpClient p' = httpClient p.
Proof.
  unfold getter_step, buildPromClient, pool_commit, pool_lookup. intros H Hc.
  destruct g as [e0|e0|e0 c0|e0 r0]; run_cases H; simplify_eq; try done.
  rewrite lookup_insert_ne by congruence. done.
Qed.

Lemma getter_step_http p g g' p' :
  getter_step address_ok p g = (g', p') -> httpClient p' = httpClient p.
Proof.
  unfold getter_step, buildPromClient, pool_commit. intros H.
  destruct g; run_cases H; by simplify_eq.
Qed.

Lemma getter_step_new p g g' p' :
  getter_step address_ok p g = (g', p') ->
  (forall e c, clients p !! e = Some c -> clientEndpoint c = e /\ clientHTTP c = httpClient p) ->
  (forall e c, g = GetBuilt e c -> clientEndpoint c = e /\ clientHTTP c = httpClient p) ->
  (forall e c, g = GetDone e (Ok c) -> clients p !! e = Some c) ->
  (forall e c, clients p' !! e = Some c -> clientEndpoint c = e /\ clientHTTP c = httpClient p) /\
  (forall e c, g' = GetBuilt e c -> clientEndpoint c = e /\ clientHTTP c = httpClient p) /\
  (forall e c, g' = GetDone e (Ok c) -> clients p' !! e = Some c).
Proof.
  unfold getter_step, buildPromClient, pool_commit, pool_lookup. intros H Hs Hb Hd.
  destruct g as [e0|e0|e0 c0|e0 r0]; run_cases H; simplify_eq;
    (split; [|split]); intros e c He; simplify_eq; simpl in *; auto.
  - destruct (decide (e = e0)) as [->|Hne].
    + rewrite lookup_insert_eq in He. simplify_eq. eauto.
    + rewrite lookup_insert_ne in He by done. eauto.
  - by rewrite lookup_insert_eq.
Qed.

Lemma pool_step_inv s s' : pool_step address_ok s s' -> pool_inv s -> pool_inv s'.
Proof.
  intros [p gs i g g' p' Hi Hg] [Hs Hb Hd]; simpl in *.
  apply list_elem_of_lookup_2 in Hi as Hin.
  destruct (getter_step_new _ _ _ _ Hg Hs) as (Hs' & Hb' & Hd').
  { intros e c ->. eauto. }
  { intros e c ->. eauto. }
  pose proof (getter_step_http _ _ _ _ Hg) as Hh.
  constructor; simpl; rewrite ?Hh; [done| |]; intros e c Hin'.
  - apply list_elem_of_lookup in Hin' as [j Hj]. apply list_lookup_insert_Some in Hj as
      [(-> & -> & _)|(_ & Hj)]; [eauto|]. eapply Hb, list_elem_of_lookup_2, Hj.
  - apply list_elem_of_lookup in Hin' as [j Hj]. apply list_lookup_insert_Some in Hj as
      [(-> & -> & _)|(_ & Hj)]; [eauto|].
    eapply getter_step_grows; [done|]. eapply Hd, list_elem_of_lookup_2, Hj.
Qed.

Lemma pool_inv_init p gs :
  clients p = ∅ -> all_start gs -> pool_inv (p, gs).
Proof.
  intros Hp Hg. constructor; simpl; [by rewrite Hp|..];
    intros e c Hin; destruct (Hg _ Hin) as [? ?]; done.
Qed.

Lemma NewClientPool_empty opts : clients (NewClientPool opts) = ∅.
Proof.
  unfold NewClientPool. assert (Hp : clients (mkPool ∅ None 0) = ∅) by done.
  revert Hp. generalize (mkPool ∅ None 0).
  induction opts as [|[allow] opts IH]; intros p Hp; simpl; [done|]. by apply IH.
Qed.

(** Goroutines asking the pool for clients at the same time, interleaved
    in any way, agree: all that end with a client for an endpoint end with the
    same client object, it is the one the pool keeps, it was built for exactly
    that endpoint, and it dials through the HTTP client the pool was given. *)
Theorem concurrent_gets_share_one_client opts gs p' gs' e c1 c2 :
  all_start gs -> rtc (pool_step address_ok) (NewClientPool opts, gs) (p', gs') ->
  GetDone e (Ok c1) ∈ gs' -> GetDone e (Ok c2) ∈ gs' ->
  c1 = c2 /\ clients p' !! e = Some c1 /\ clientEndpoint c1 = e /\ clientHTTP c1 = httpClient (NewClientPool opts).
Proof.
  intros Hg Hr H1 H2.
  assert (Hinv : pool_inv (p', gs') /\ httpClient p' = httpClient (NewClientPool opts)).
  { apply (rtc_invariant (pool_step address_ok)
             (fun s => pool_inv s /\ httpClient s.1 = httpClient (NewClientPool opts)) _ _) in Hr; [done| |].
    - intros s s' Hs [Hi Hh]. split; [by eapply pool_step_inv|].
      destruct Hs as [p gs0 i g g' p0 _ Hg']. simpl in *. by rewrite (getter_step_http _ _ _ _ Hg').
    - split; [|done]. apply pool_inv_init; [apply NewClientPool_empty|done]. }
  destruct Hinv as [[Hs _ Hd] Hh]. simpl in *.
  apply Hd in H1 as H1', H2. destruct (Hs _ _ H1') as [He Hf]. rewrite Hh in Hf.
  simplify_eq. done.
Qed.

(** The clients of a pool with the HTTP client [http]. *)
Definition pool_ok (http : option Client) (p : ClientPool) : Prop :=
  httpClient p = http /\
  forall e c, clients p !! e = Some c -> clientEndpoint c = e /\ clientHTTP c = http.

Lemma NewClientPool_ok opts : pool_ok (httpClient (NewClientPool opts)) (NewClientPool opts).
Proof. split; [done|]. by rewrite NewClientPool_empty. Qed.

(** A call of [Get] run alone gives the stored client or the new one. *)
Lemma pool_get_ok http p e c p' :
  pool_ok http p -> pool_get address_ok p e = (Ok c, p') ->
  (clientEndpoint c = e /\ clientHTTP c = http) /\ pool_ok http p'.
Proof.
  unfold pool_get, buildPromClient, pool_commit, pool_lookup. intros [Hh Hp] H.
  run_cases H; simplify_eq; try (split; [by eauto|by split]). split; [by split|].
  split; [done|]. simpl. intros e0 c0 He. destruct (decide (e0 = e)) as [->|Hne].
  - rewrite lookup_insert_eq in He. by simplify_eq.
  - rewrite lookup_insert_ne in He by done. eauto.
Qed.

Lemma pool_get_err p e err p' : pool_get address_ok p e = (Err err, p') -> p' = p.
Proof.
  unfold pool_get, buildPromClient. intros H. run_cases H; by simplify_eq.
Qed.

End PoolFacts.

Definition demo_http : option Client :=
  Some (NewSafeHTTPClient 0 [WithPrivateHostAllowlist (mkAllow [])]).

Lemma concurrent_gets_share_one_client_witness :
  exists p gs,
    rtc (pool_step (fun _ => true)) (NewClientPool [WithSafeClient (mkAllow [])], [GetStart "a"; GetStart "a"]) (p, gs) /\
    gs !! 0 = gs !! 1 /\ clients p !! "a" = Some (mkClient 1 "a" demo_http).
Proof.
  assert (Hr : rtc (pool_step (fun _ => true)) (NewClientPool [WithSafeClient (mkAllow [])], [GetStart "a"; GetStart "a"])
    (mkPool {["a" := mkClient 1 "a" demo_http]} demo_http 2,
     [GetDone "a" (Ok (mkClient 1 "a" demo_http)); GetDone "a" (Ok (mkClient 1 "a" demo_http))])).
  { eapply rtc_l; [by eapply (pool_step_at _ _ _ 0)|].
    eapply rtc_l; [by eapply (pool_step_at _ _ _ 1)|].
    eapply rtc_l; [by eapply (pool_step_at _ _ _ 0)|].
    eapply rtc_l; [by eapply (pool_step_at _ _ _ 1)|].
    eapply rtc_l; [by eapply (pool_step_at _ _ _ 1)|].
    eapply rtc_l; [by eapply (pool_step_at _ _ _ 0)|].
    apply rtc_refl. }
  exists (mkPool {["a" := mkClient 1 "a" demo_http]} demo_http 2),
    [GetDone "a" (Ok (mkClient 1 "a" demo_http)); GetDone "a" (Ok (mkClient 1 "a" demo_http))].
  split; [exact Hr|].
  split; [reflexivity|].
  refine (proj1 (proj2 (concurrent_gets_share_one_client (fun _ => true) [WithSafeClient (mkAllow [])]
    [GetStart "a"; GetStart "a"] _ _ "a" _ (mkClient 1 "a" demo_http) _ Hr _ _))).
  - intros g Hg. exists "a". rewrite !elem_of_cons in Hg. destruct Hg as [->|[->|Hg]]; try done.
    by apply elem_of_nil in Hg.
  - rewrite elem_of_cons. by left.
  - rewrite elem_of_cons. by left.
Defined.

(** ** Fingerprints *)

(** What a reader's behaviour depends on. *)
Definition same_config (a b : PrometheusMetricsSource) : Prop :=
  Endpoint a = Endpoint b /\ PromQueries a = PromQueries b /\ query_timeout a = query_timeout b.

#[export] Instance same_config_equiv : Equivalence same_config.
Proof. unfold same_config. split; red; intuition congruence. Qed.

#[export] Instance fingerprint_proper : Proper (same_config ==> eq) prometheusFingerprint.
Proof. intros a b (H1 & H2 & H3). unfold prometheusFingerprint. by rewrite H1, H2, H3. Qed.

Lemma fingerprint_inj a b :
  valid_source a = true -> valid_source b = true ->
  prometheusFingerprint a = prometheusFingerprint b -> same_config a b.
Proof.
  destruct a as [e t [r l p]], b as [e' t' [r' l' p']]. unfold valid_source; simpl.
  rewrite !andb_true_iff. intros [[[Ve Vr] Vl] Vp] [[[Ve' Vr'] Vl'] Vp'] H.
  unfold prometheusFingerprint in H. cbn [Endpoint PromQueries qRsrpDbm qLatencyMs qPacketLossPercent] in H.
  repeat apply app_str_inv_head in H.
  apply json_string_prefix_inj in H as [-> H]; [|done..]. repeat apply app_str_inv_head in H.
  apply json_string_prefix_inj in H as [-> H]; [|done..]. repeat apply app_str_inv_head in H.
  apply json_string_prefix_inj in H as [-> H]; [|done..]. repeat apply app_str_inv_head in H.
  apply json_string_prefix_inj in H as [-> H]; [|done..]. repeat apply app_str_inv_head in H.
  apply app_str_inv_tail, fmt_d_inj in H. unfold same_config. simpl. auto.
Qed.

(** The fingerprint identifies the configuration: two Prometheus sources
    have one fingerprint exactly when they have the same endpoint, the same
    three queries and the same timeout (unset counting as zero), whatever
    characters the queries contain; no text can imitate a field boundary. *)
Theorem fingerprint_identifies_config a b :
  valid_source a = true -> valid_source b = true ->
  (prometheusFingerprint a = prometheusFingerprint b <-> same_config a b).
Proof. intros Ha Hb. split; [by apply fingerprint_inj|]. by intros ->. Qed.

Lemma fingerprint_identifies_config_witness :
  prometheusFingerprint (mkPromSource "http://p" None (mkQueries "b|c" "d" "")) <>
  prometheusFingerprint (mkPromSource "http://p" None (mkQueries "b" "c|d" "")).
Proof.
  intros H. apply (fingerprint_identifies_config
    (mkPromSource "http://p" None (mkQueries "b|c" "d" ""))
    (mkPromSource "http://p" None (mkQueries "b" "c|d" ""))) in H; [|reflexivity..].
  by destruct H as (_ & [=] & _).
Defined.

(** ** The provider *)

Section ProviderFacts.
Context (unicode_lower : string -> string) (url_parse : string -> option URL)
        (address_ok : string -> bool)
        (query : QueryClient -> string -> Duration -> Time -> option prom_value)
        (http : option Client).

(** The reader queries what the source says, through the pool's HTTP client. *)
Definition built_from (src : PrometheusMetricsSource) (c : CachedReader) : Prop :=
  exists cl, crInner c = NewPrometheusReader cl (PromQueries src) (query_timeout src) /\
             clientEndpoint cl = Endpoint src /\ clientHTTP cl = http.

Definition points_to (p : Provider) (key : readerKey) (i : nat) : Prop :=
  exists src c, valid_source src = true /\ rkFingerprint key = prometheusFingerprint src /\
                pHeap p !! i = Some c /\ built_from src c.

Record provider_inv (s : Provider * list (readerKey * nat)) : Prop := {
  vi_pool : pool_ok http (pPool s.1);
  vi_readers : forall k i, pReaders s.1 !! k = Some i -> points_to s.1 k i;
  vi_inflight : forall k i, (k, i) ∈ s.2 -> points_to s.1 k i;
  vi_one_config : forall k k' i i', pReaders s.1 !! k = Some i -> pReaders s.1 !! k' = Some i' ->
                  rkUid k = rkUid k' -> rkFingerprint k = rkFingerprint k'
}.

(** The heap only grows and a reader keeps its configuration. *)
Definition heap_extends (p p' : Provider) : Prop :=
  forall i c, pHeap p !! i = Some c -> exists c', pHeap p' !! i = Some c' /\ crInner c' = crInner c.

Lemma points_to_extends p p' k i : heap_extends p p' -> points_to p k i -> points_to p' k i.
Proof.
  intros He (src & c & Hv & Hf & Hc & cl & Hi & Hcl). destruct (He _ _ Hc) as (c' & Hc' & Hi').
  exists src, c'. repeat split; try done. exists cl. by rewrite Hi'.
Qed.

Lemma buildReader_cases p src r p' :
  buildReader unicode_lower url_parse address_ok p src = (r, p') ->
  pool_ok http (pPool p) ->
  pReaders p' = pReaders p /\ heap_extends p p' /\
  pool_ok http (pPool p') /\
  (forall i, r = Ok i -> i = length (pHeap p) /\
     exists c, pHeap p' !! i = Some c /\ built_from src c /\ crCache c = ∅).
Proof.
  unfold buildReader. intros H Hp. destruct (NetGuard.Check _ _ _ _) as [e|]; simplify_eq.
  { split_and!; try done. intros i c ?. eauto. }
  destruct (str_eqb _ "" && _ && _); simplify_eq.
  { split_and!; try done. intros i c ?. eauto. }
  destruct (pool_get _ _ _) as [[c|err] pool] eqn:Hg; simplify_eq/=.
  - destruct (pool_get_ok _ _ _ _ _ _ Hp Hg) as [Hc Hp']. split_and!; try done.
    + intros i c0 Hi. exists c0. split; [|done]. by apply lookup_app_l_Some.
    + intros i [= <-]. split; [done|]. eexists. split; [by apply list_lookup_middle|]. split; [|done]. by exists c.
  - apply pool_get_err in Hg as ->. split_and!; try done. intros i c ?. eauto.
Qed.

Lemma for_commit_cases p key i r p' :
  for_commit p key i = (r, p') ->
  pPool p' = pPool p /\ pHeap p' = pHeap p /\ pReaders p' !! key = Some r /\
  (pReaders p !! key = Some r /\ p' = p \/ pReaders p !! key = None /\ r = i) /\
  (forall k j, pReaders p' !! k = Some j -> k = key /\ j = r \/
     pReaders p !! k = Some j /\
     (pReaders p !! key = None -> rkUid k = rkUid key -> rkFingerprint k = rkFingerprint key)).
Proof.
  unfold for_commit. destruct (pReaders p !! key) as [e|] eqn:He; intros [= <- <-]; simpl.
  - repeat split; auto. intros k j Hk. right. split; [done|congruence].
  - repeat split; auto; [by rewrite lookup_insert_eq|]. intros k j Hk.
    destruct (decide (k = key)) as [->|Hne].
    + rewrite lookup_insert_eq in Hk. left. by simplify_eq.
    + rewrite lookup_insert_ne in Hk by done. apply map_lookup_filter_Some in Hk as [Hk Hn].
      simpl in Hn. right. split; [done|]. intros _ Hu.
      destruct (decide (rkFingerprint k = rkFingerprint key)); [done|tauto].
Qed.

Lemma read_extends p r ns e e' now fa res p' :
  Reader_Read query p r ns e e' now fa = (res, p') ->
  pPool p' = pPool p /\ pReaders p' = pReaders p /\ heap_extends p p'.
Proof.
  unfold Reader_Read. destruct r as [|i]; [intros [= _ <-]; repeat split; intros ??; eauto|].
  destruct (pHeap p !! i) as [c|] eqn:Hc; [|intros [= _ <-]; repeat split; intros ??; eauto].
  destruct (stale_read _ _ _ _ _ _ _) as [[[rs c'] b] w] eqn:Hs. intros [= _ <-].
  repeat split. intros j cj Hj. simpl. destruct (decide (j = i)) as [->|Hne].
  - exists c'. rewrite list_lookup_insert_eq by (by eapply lookup_lt_Some). split; [done|].
    simplify_eq. by eapply stale_read_inner.
  - rewrite list_lookup_insert_ne by done. eauto.
Qed.

Lemma provider_step_inv s s' :
  provider_step unicode_lower url_parse address_ok query s s' -> provider_inv s -> provider_inv s'.
Proof.
  intros H [Hp Hr Hf Ho]. destruct H as [p fl ns src r p' Hsel Hv Hb|p fl1 fl2 key i r p' Hc|p fl key
    |p fl rd ns e e' now fa res p' Hread]; simpl in *.
  - destruct (buildReader_cases _ _ _ _ Hb Hp) as (Er & He & Hp' & Hok).
    constructor; simpl; rewrite ?Er; eauto using points_to_extends.
    intros k i Hin. destruct r as [j|err]; [|eauto using points_to_extends].
    apply elem_of_cons in Hin as [[= -> ->]|Hin]; [|eauto using points_to_extends].
    destruct (Hok _ eq_refl) as (_ & c & Hc & Hbf & _). by exists src, c.
  - destruct (for_commit_cases _ _ _ _ _ Hc) as (Epool & Eh & Hk & Hcase & Hback).
    assert (He : heap_extends p p') by (intros j c ?; rewrite Eh; eauto).
    assert (Hnew : points_to p key r).
    { destruct Hcase as [[Hcase _]|[_ ->]]; [eauto|]. apply Hf, elem_of_app. right.
      rewrite elem_of_cons. by left. }
    constructor; simpl; rewrite ?Epool; [done| | |].
    + intros k j Hj. eapply points_to_extends; [done|].
      destruct (Hback _ _ Hj) as [[-> ->]|[Hj' _]]; eauto.
    + intros k j Hin. eapply points_to_extends; [done|]. apply Hf.
      rewrite elem_of_app, elem_of_cons in *. tauto.
    + intros k k' j j' Hj Hj' Hu.
      destruct Hcase as [[_ ->]|[Hn _]]; [by eauto|].
      destruct (Hback _ _ Hj) as [[-> _]|[Hk1 H1]], (Hback _ _ Hj') as [[-> _]|[Hk2 H2]]; eauto.
      symmetry. eauto.
  - assert (He : heap_extends p (Evict p key)) by (intros j c ?; eauto).
    assert (Hin : forall k i, pReaders (Evict p key) !! k = Some i -> pReaders p !! k = Some i)
      by (simpl; intros k i Hk; by apply map_lookup_filter_Some in Hk as [? _]).
    constructor; simpl; eauto using points_to_extends.
  - destruct (read_extends _ _ _ _ _ _ _ _ _ Hread) as (Epool & Er & He).
    constructor; simpl; rewrite ?Epool, ?Er; eauto using points_to_extends.
Qed.

Lemma provider_inv_init opts allow :
  http = httpClient (NewClientPool opts) -> provider_inv (NewProvider (NewClientPool opts) allow, []).
Proof.
  intros E. constructor; simpl; [rewrite E; apply NewClientPool_ok|done| |done].
  intros k i Hin. by apply elem_of_nil in Hin.
Qed.

(** Whatever happened, the pool holds clients over its HTTP client only. *)
Lemma reachable_pool opts allow p fl :
  http = httpClient (NewClientPool opts) ->
  rtc (provider_step unicode_lower url_parse address_ok query)
      (NewProvider (NewClientPool opts) allow, []) (p, fl) ->
  pool_ok http (pPool p).
Proof.
  intros Hhttp Hrun. apply (rtc_invariant _ provider_inv _ _ provider_step_inv) in Hrun as [Hp _ _ _]; [done|].
  by apply provider_inv_init.
Qed.

(** C24. Whatever reconciles ran before, concurrently or not (readers built,
    stored, evicted and read in any interleaving), a Prometheus reader handed
    out for a slice queries exactly the endpoint, expressions and timeout of
    the slice's current spec, through the HTTP client of the pool. An unchanged spec gives the reader stored for it,
    so its stale cache survives; a changed spec gives a reader with an empty
    cache, and afterwards no reader of another configuration is stored for the
    slice's UID. *)
Theorem For_serves_current_config opts allow p fl ns src i p' :
  http = httpClient (NewClientPool opts) ->
  rtc (provider_step unicode_lower url_parse address_ok query)
      (NewProvider (NewClientPool opts) allow, []) (p, fl) ->
  select_source ns = Ok (Some src) -> valid_source src = true ->
  For unicode_lower url_parse address_ok p ns = (Ok (PromPtr i), p') ->
  exists c, pHeap p' !! i = Some c /\ built_from src c /\
    (pReaders p !! reader_key ns src = Some i /\ p' = p \/
     pReaders p !! reader_key ns src = None /\ crCache c = ∅) /\
    (forall k j, pReaders p' !! k = Some j -> rkUid k = oUID (sliceMeta ns) ->
       rkFingerprint k = prometheusFingerprint src).
Proof.
  intros Hhttp Hrun Hsel Hv Hfor.
  apply (rtc_invariant _ provider_inv _ _ provider_step_inv) in Hrun as [Hp Hr _ Ho];
    [|by apply provider_inv_init]. simpl in *.
  unfold For in Hfor. rewrite Hsel in Hfor.
  destruct (pReaders p !! reader_key ns src) as [r|] eqn:Hk.
  - injection Hfor as -> <-.
    destruct (Hr _ _ Hk) as (src' & c & Hv' & Hfp & Hc & Hb).
    apply fingerprint_inj in Hfp as (He & Hq & Ht); [|done..].
    exists c. repeat split; auto.
    + destruct Hb as (cl & Hcl & Hend). exists cl. by rewrite Hcl, He, Hq, Ht.
    + intros k j Hj Hu. eapply Ho in Hj; [|exact Hk|done]. by rewrite <- Hj.
  - destruct (buildReader _ _ _ p src) as [[j|err] p1] eqn:Hb; [|done].
    destruct (buildReader_cases _ _ _ _ Hb Hp) as (Er & _ & _ & Hok).
    destruct (Hok _ eq_refl) as (-> & c & Hc & Hbf & Hcache).
    destruct (for_commit p1 (reader_key ns src) (length (pHeap p))) as [r p2] eqn:Hcom.
    destruct (for_commit_cases _ _ _ _ _ Hcom) as (_ & Eh & _ & Hcase & Hback).
    injection Hfor as -> <-. rewrite Er, Hk in Hcase.
    destruct Hcase as [[? _]|[_ ->]]; [done|].
    exists c. rewrite Eh. repeat split; auto.
    intros k j Hj Hu. destruct (Hback _ _ Hj) as [[-> _]|[_ H]]; [done|].
    apply H; [by rewrite Er|done].
Qed.

End ProviderFacts.

Definition demo_source : PrometheusMetricsSource :=
  mkPromSource "https://prom" None (mkQueries "r" "" "").
Definition demo_prom_slice : NTNSlice :=
  mkSlice (mkMeta "default" "s" "uid-1" 1 None [] ∅)
    (mkSliceSpec "t" (mkPath "p" "" "primary") (mkSatellitePath (mkPath "q" "" "failover") "eph") (mkFailoverPolicy [] 0 true "" None 0) None None None
       (Some (mkSource MetricsSourcePrometheus (Some demo_source))))
    (mkSliceStatus "" None None 0 "" None "" "" []).

Definition demo_for : result provider_error Reader * Provider :=
  For id (fun _ => Some (mkURL "https" false "prom")) (fun _ => true)
    (NewProvider (NewClientPool [WithSafeClient (mkAllow [])]) (mkAllow [])) demo_prom_slice.

Lemma For_serves_current_config_witness :
  demo_for.1 = Ok (PromPtr 0) /\
  exists c, pHeap demo_for.2 !! 0 = Some c /\ built_from demo_http demo_source c.
Proof.
  assert (H : For id (fun _ => Some (mkURL "https" false "prom")) (fun _ => true)
    (NewProvider (NewClientPool [WithSafeClient (mkAllow [])]) (mkAllow [])) demo_prom_slice = (Ok (PromPtr 0), demo_for.2))
    by (vm_compute; reflexivity).
  split; [vm_compute; reflexivity|].
  destruct (For_serves_current_config id (fun _ => Some (mkURL "https" false "prom")) (fun _ => true)
    (fun _ _ _ _ => None) demo_http [WithSafeClient (mkAllow [])] (mkAllow []) (NewProvider (NewClientPool [WithSafeClient (mkAllow [])]) (mkAllow [])) []
    demo_prom_slice demo_source 0 demo_for.2 eq_refl (rtc_refl _ _) eq_refl eq_refl H) as (c & Hc & Hb & _).
  exact (ex_intro _ c (conj Hc Hb)).
Defined.
