(* ===== verification/SliceContact.v ===== *)
(** * Constellation contact: is a satellite overhead that can serve the slice?

    Models [checkSatelliteAvailability] of
    [src/internal/controller/ntnslice_controller.go] with the tie-break
    [earlierLOSCandidate], the evidence record [buildContactCandidate] and the
    condition the verdict is reported as. *)

From S2P Require Import Prelude GoStrings GoTime K8sMeta SliceApi.
Local Open Scope string_scope.

Definition reasonConstellationMemberAvailable := "ConstellationMemberAvailable".
Definition reasonNoActiveContact := "NoActiveContact".
Definition reasonAllCandidatesStale := "AllCandidatesStale".
Definition reasonEphemerisRefNotFound := "EphemerisRefNotFound".
Definition reasonPredictionUnavailable := "PredictionUnavailable".
Definition reasonSatelliteReadFailed := "SatelliteReadFailed".

Record contactEval := mkContact {
  available : bool;
  known : bool;
  reason : string;
  detail : string;
  candidate : option ContactCandidate
}.

Definition earlierLOSCandidate (a b : PassWindow) : bool :=
  if negb (Equal (LOS a) (LOS b)) then Before (LOS a) (LOS b)
  else if negb (pwNoradID a =? pwNoradID b)%Z then (pwNoradID a <? pwNoradID b)%Z
  else str_lt (pwGroundStation a) (pwGroundStation b).

Definition state_expiry (ps : PropagatedState) : Time :=
  Add (UnixMilli (SourceEpochUnixMs ps)) maxEpochAge.

Definition buildContactCandidate (pw : PassWindow) (ps : option PropagatedState) : ContactCandidate :=
  let validUntil := LOS pw in
  match ps with
  | None =>
      mkCandidate (pwNoradID pw) (pwSatellite pw) (pwGroundStation pw) (Some (AOS pw))
        (Some (LOS pw)) 0 0 (Some validUntil) "EarliestLOS"
  | Some ps =>
      let validUntil := if Before (state_expiry ps) validUntil then state_expiry ps else validUntil in
      mkCandidate (pwNoradID pw) (pwSatellite pw) (pwGroundStation pw) (Some (AOS pw))
        (Some (LOS pw)) (SourceEpochUnixMs ps) (EpochUnixMs ps) (Some validUntil) "EarliestLOS"
  end.

Definition state_stale (now : Time) (ps : PropagatedState) : bool :=
  match sourceEpochFresh now (UnixMilli (SourceEpochUnixMs ps)) with
  | Some _ => true
  | None => false
  end.

(** The two maps built from the propagated states: the last state of each
    satellite, and the satellites any of whose states is too old. *)
Definition index_state (now : Time) (acc : gmap Z PropagatedState * gset Z) (ps : PropagatedState)
  : gmap Z PropagatedState * gset Z :=
  (<[psNoradID ps := ps]> acc.1,
   if state_stale now ps then {[psNoradID ps]} ∪ acc.2 else acc.2).

Definition index_states (now : Time) (l : list PropagatedState) : gmap Z PropagatedState * gset Z :=
  fold_left (index_state now) l (∅, ∅).

Definition window_active (now : Time) (pw : PassWindow) : bool :=
  negb (After (AOS pw) now || negb (After (LOS pw) now)).

Definition window_stale (stale : gset Z) (pw : PassWindow) : bool :=
  negb (pwNoradID pw =? 0)%Z && bool_decide (pwNoradID pw ∈ stale).

(** One iteration over the windows: the best deliverable one so far, and
    whether a stale one was overhead. *)
Definition window_step (now : Time) (stale : gset Z)
  (acc : option PassWindow * bool) (pw : PassWindow) : option PassWindow * bool :=
  if negb (window_active now pw) then acc
  else if window_stale stale pw then (acc.1, true)
  else match acc.1 with
       | None => (Some pw, acc.2)
       | Some best => if earlierLOSCandidate pw best then (Some pw, acc.2) else acc
       end.

Section Contact.
Context `{SC : StatusConditions}.

(** [eph] is what reading the referenced SatelliteEphemeris gave. *)
Definition checkSatelliteAvailability (eph : GetResult SatelliteEphemeris) (now : Time) : contactEval :=
  match eph with
  | NotFound =>
      mkContact false true reasonEphemerisRefNotFound "referenced SatelliteEphemeris not found" None
  | GetError _ => mkContact false false reasonSatelliteReadFailed "" None
  | Found eph =>
      if negb (IsStatusConditionTrue (ephConditions eph) ConditionPassesPredicted)
      then mkContact false false reasonPredictionUnavailable "" None
      else
        let '(states, stale) := index_states now (PropagatedStates eph) in
        let '(best, activeStale) :=
          fold_left (window_step now stale) (NextPassWindows eph) (None, false) in
        match best with
        | Some best =>
            mkContact true true reasonConstellationMemberAvailable ""
              (Some (buildContactCandidate best (states !! pwNoradID best)))
        | None =>
            if activeStale
            then mkContact false true reasonAllCandidatesStale
                   ("satellite overhead but its element set is stale beyond the "
                    +:+ duration_string maxEpochAge
                    +:+ " freshness bound — not deliverable to the gNB") None
            else mkContact false true reasonNoActiveContact "no active satellite pass window" None
        end
  end.

End Contact.

(** [failoverReadyCondition]; the caller fills in the generation. *)
Definition failoverReadyCondition (contact : contactEval) (generation : Z) : Condition :=
  if negb (known contact) then
    mkCond ConditionFailoverReady ConditionUnknown (reason contact)
      (if str_eqb (reason contact) reasonPredictionUnavailable
       then "Satellite availability unknown: the referenced SatelliteEphemeris has no current pass prediction (PassesPredicted is not True); holding current path"
       else "Satellite availability unknown: transient SatelliteEphemeris read error; holding current path")
      generation
  else if available contact then
    mkCond ConditionFailoverReady ConditionTrue (reason contact)
      "A fresh deliverable constellation member has an active pass window (contact opportunity, not slice service)"
      generation
  else
    mkCond ConditionFailoverReady ConditionFalse (reason contact)
      (if str_eqb (detail contact) ""
       then "No satellite pass window active or SatelliteEphemeris not found"
       else detail contact)
      generation.

(** * Properties *)

(** The tie-break is a strict total order on (LOS, NORAD, ground station). *)
Definition window_key (w : PassWindow) : Time * Z * string := (LOS w, pwNoradID w, pwGroundStation w).

Lemma earlier_irrefl a : earlierLOSCandidate a a = false.
Proof.
  unfold earlierLOSCandidate, Equal, Before. rewrite !Z.eqb_refl. simpl. apply str_lt_irrefl.
Qed.

Lemma earlier_trans a b c :
  earlierLOSCandidate a b = true -> earlierLOSCandidate b c = true -> earlierLOSCandidate a c = true.
Proof.
  unfold earlierLOSCandidate, Equal, Before.
  destruct (Z.eqb_spec (LOS a) (LOS b)) as [E1|E1], (Z.eqb_spec (LOS b) (LOS c)) as [E2|E2],
    (Z.eqb_spec (LOS a) (LOS c)) as [E3|E3]; simpl; rewrite ?Z.ltb_lt; intros H1 H2;
    try lia; try (exfalso; lia).
  revert H1 H2.
  destruct (Z.eqb_spec (pwNoradID a) (pwNoradID b)), (Z.eqb_spec (pwNoradID b) (pwNoradID c)),
    (Z.eqb_spec (pwNoradID a) (pwNoradID c)); simpl; rewrite ?Z.ltb_lt; try lia; try (intros; lia).
  apply str_lt_trans.
Qed.

Lemma earlier_total a b :
  earlierLOSCandidate a b = false -> window_key a = window_key b \/ earlierLOSCandidate b a = true.
Proof.
  unfold earlierLOSCandidate, Equal, Before, window_key.
  rewrite (Z.eqb_sym (LOS b)), (Z.eqb_sym (pwNoradID b)).
  destruct (Z.eqb_spec (LOS a) (LOS b)) as [E|E]; simpl; [|rewrite Z.ltb_ge, Z.ltb_lt; lia].
  destruct (Z.eqb_spec (pwNoradID a) (pwNoradID b)) as [E'|E']; simpl;
    [|rewrite Z.ltb_ge, Z.ltb_lt; lia].
  destruct (decide (pwGroundStation a = pwGroundStation b)) as [E''|E''].
  - intros _. left. congruence.
  - intros H. right. by apply str_lt_total.
Qed.

Lemma index_states_acc now l acc :
  let r := fold_left (index_state now) l acc in
  (forall id, id ∈ r.2 <-> id ∈ acc.2 \/ exists ps, ps ∈ l /\ psNoradID ps = id /\ state_stale now ps = true) /\
  (forall id ps, r.1 !! id = Some ps -> acc.1 !! id = Some ps \/ ps ∈ l /\ psNoradID ps = id).
Proof.
  revert acc. induction l as [|p l IH]; intros acc; cbn [fold_left].
  - cbv zeta. split; [|auto]. intros id. split; [auto|]. intros [H|(ps & H & _)]; [done|].
    by apply elem_of_nil in H.
  - destruct (IH (index_state now acc p)) as [H1 H2]. split.
    + intros id. rewrite H1. unfold index_state. simpl.
      setoid_rewrite elem_of_cons.
      destruct (state_stale now p) eqn:E.
      * rewrite elem_of_union, elem_of_singleton. split.
        -- intros [[->|H]|(ps & H & Hid)]; eauto 10.
        -- intros [H|(ps & [->|H] & Hid & Hs)]; eauto 10.
      * split; [intros [H|(ps & H & Hid)]; eauto 10|].
        intros [H|(ps & [->|H] & Hid & Hs)]; [eauto|congruence|eauto 10].
    + intros id ps Hps. destruct (H2 _ _ Hps) as [H|[H Hid]].
      * unfold index_state in H. simpl in H. destruct (decide (psNoradID p = id)) as [<-|Hne].
        -- rewrite lookup_insert_eq in H. simplify_eq. right. rewrite elem_of_cons. auto.
        -- rewrite lookup_insert_ne in H by done. auto.
      * right. rewrite elem_of_cons. auto.
Qed.

Lemma stale_set_iff now l id :
  id ∈ (index_states now l).2 <-> exists ps, ps ∈ l /\ psNoradID ps = id /\ state_stale now ps = true.
Proof.
  unfold index_states. rewrite (proj1 (index_states_acc now l (∅, ∅))). simpl.
  rewrite elem_of_empty. tauto.
Qed.

Lemma states_lookup now l id ps :
  (index_states now l).1 !! id = Some ps -> ps ∈ l /\ psNoradID ps = id.
Proof. intros H. apply (proj2 (index_states_acc now l (∅, ∅))) in H as [H|H]; done. Qed.

(** A window the cell-configuration controller could serve: overhead now, and
    no propagated state of its satellite (when it names one) is too old. *)
Definition deliverable (now : Time) (states : list PropagatedState) (pw : PassWindow) : bool :=
  window_active now pw &&
  ((pwNoradID pw =? 0)%Z ||
   forallb (fun ps => negb (psNoradID ps =? pwNoradID pw)%Z || negb (state_stale now ps)) states).

Lemma window_stale_iff now states pw :
  window_stale (index_states now states).2 pw =
  negb ((pwNoradID pw =? 0)%Z ||
   forallb (fun ps => negb (psNoradID ps =? pwNoradID pw)%Z || negb (state_stale now ps)) states).
Proof.
  unfold window_stale. rewrite negb_orb. f_equal.
  apply eq_true_iff_eq. rewrite bool_decide_eq_true, stale_set_iff, negb_true_iff. split.
  - intros (ps & Hin & Hid & Hs). apply not_true_iff_false. intros Hf.
    rewrite forallb_elem_of in Hf. specialize (Hf _ Hin). rewrite Hid, Z.eqb_refl, Hs in Hf. done.
  - intros (ps & Hin & Hf)%forallb_false_exists. apply orb_false_iff in Hf as [H1 H2].
    bool_props. eauto.
Qed.

(** The loop over the windows is a minimum over the deliverable ones. *)
Definition pick (acc : option PassWindow) (w : PassWindow) : option PassWindow :=
  match acc with
  | None => Some w
  | Some best => if earlierLOSCandidate w best then Some w else acc
  end.

Definition live_windows (now : Time) (stale : gset Z) (l : list PassWindow) : list PassWindow :=
  List.filter (fun w => window_active now w && negb (window_stale stale w)) l.

Lemma window_fold now stale l :
  fold_left (window_step now stale) l (None, false) =
  (fold_left pick (live_windows now stale l) None,
   existsb (fun w => window_active now w && window_stale stale w) l).
Proof.
  induction l as [|w l IH] using rev_ind; [done|].
  unfold live_windows in *. rewrite fold_left_app, IH, existsb_app, List.filter_app. simpl.
  unfold window_step. destruct (window_active now w), (window_stale stale w); simpl;
    rewrite ?app_nil_r, ?orb_false_r, ?orb_true_r, ?fold_left_app; try done.
  simpl. unfold pick at 3. destruct (fold_left pick _ None) as [b|]; [|done]. simpl.
  by destruct (earlierLOSCandidate w b).
Qed.

Definition minimal_in (l : list PassWindow) (w : PassWindow) : Prop :=
  w ∈ l /\ forall w', w' ∈ l -> earlierLOSCandidate w' w = false.

Lemma pick_fold l :
  match fold_left pick l None with
  | Some w => minimal_in l w
  | None => l = []
  end.
Proof.
  induction l as [|x l IH] using rev_ind; [done|]. rewrite fold_left_app. simpl.
  assert (Hx : x ∈ (l ++ [x])%list) by (rewrite elem_of_app, list_elem_of_singleton; auto).
  assert (Hl : forall y, y ∈ (l ++ [x])%list -> y ∈ l \/ y = x)
    by (intros y; by rewrite elem_of_app, list_elem_of_singleton).
  destruct (fold_left pick l None) as [b|]; simpl.
  - destruct IH as [Hb Hm]. destruct (earlierLOSCandidate x b) eqn:E.
    + split; [done|]. intros w' [Hw| ->]%Hl; [|apply earlier_irrefl].
      destruct (earlierLOSCandidate w' x) eqn:E'; [|done].
      rewrite <- (Hm _ Hw). symmetry. by eapply earlier_trans.
    + split; [rewrite elem_of_app; auto|]. intros w' [Hw| ->]%Hl; auto.
  - subst l. split; [done|]. intros w' [Hw| ->]%Hl; [by apply elem_of_nil in Hw|apply earlier_irrefl].
Qed.

Lemma minimal_key_unique l w w' : minimal_in l w -> minimal_in l w' -> window_key w = window_key w'.
Proof.
  intros [Hw Hm] [Hw' Hm']. destruct (earlier_total w w' (Hm' _ Hw)) as [?|H]; [done|].
  by rewrite (Hm _ Hw') in H.
Qed.

Lemma live_windows_deliverable now states l :
  live_windows now (index_states now states).2 l = List.filter (deliverable now states) l.
Proof.
  unfold live_windows. induction l as [|w l IH]; [done|]. simpl. rewrite IH.
  unfold deliverable at 3. by rewrite window_stale_iff, negb_involutive.
Qed.

(** What a window needs to serve: it is overhead now, and no propagated state
    of its satellite, when it names one, is older than seven days. *)
Definition servable (now : Time) (e : SatelliteEphemeris) (w : PassWindow) : Prop :=
  w ∈ NextPassWindows e /\ (AOS w <= now < LOS w)%Z /\
  (pwNoradID w = 0%Z \/
   forall ps, ps ∈ PropagatedStates e -> psNoradID ps = pwNoradID w ->
     (now <= UnixMilli (SourceEpochUnixMs ps) + 7 * 24 * Hour)%Z).

Lemma deliverable_servable now e w :
  w ∈ List.filter (deliverable now (PropagatedStates e)) (NextPassWindows e) <-> servable now e w.
Proof.
  rewrite elem_of_filter_bool. unfold servable, deliverable. rewrite andb_true_iff, orb_true_iff, Z.eqb_eq, forallb_elem_of.
  assert (Hact : window_active now w = true <-> (AOS w <= now < LOS w)%Z).
  { unfold window_active, After. rewrite negb_true_iff, orb_false_iff, negb_false_iff, Z.ltb_ge, Z.ltb_lt. lia. }
  assert (Hst : forall ps, negb (psNoradID ps =? pwNoradID w)%Z || negb (state_stale now ps) = true <->
    (psNoradID ps = pwNoradID w -> (now <= UnixMilli (SourceEpochUnixMs ps) + 7 * 24 * Hour)%Z)).
  { intros ps. unfold state_stale. pose proof (fresh_iff now (UnixMilli (SourceEpochUnixMs ps))) as Hf.
    unfold maxEpochAge in Hf. destruct (Z.eqb_spec (psNoradID ps) (pwNoradID w)) as [Heq|]; [|naive_solver].
    destruct (sourceEpochFresh _ _) as [x|]; cbn; split; try done.
    - intros H. exfalso. enough (Some x = None) by done. apply Hf. specialize (H Heq). lia.
    - intros _ _. pose proof (proj1 Hf eq_refl). lia. }
  rewrite Hact. setoid_rewrite Hst. tauto.
Qed.

Lemma deliverable_none now e :
  (forall w, ~ servable now e w) <-> List.filter (deliverable now (PropagatedStates e)) (NextPassWindows e) = [].
Proof.
  setoid_rewrite <- deliverable_servable. split.
  - intros H. destruct (List.filter _ _) as [|w l]; [done|]. destruct (H w). by left.
  - intros -> w Hw. by apply elem_of_nil in Hw.
Qed.

Lemma earlier_LOS a b : earlierLOSCandidate b a = false -> (LOS a <= LOS b)%Z.
Proof. unfold earlierLOSCandidate, Equal, Before. destruct (Z.eqb_spec (LOS b) (LOS a)); cbn; [lia|]. rewrite Z.ltb_ge. lia. Qed.

Section ContactFacts.
Context `{SC : StatusConditions}.

Lemma contact_unfold eph now :
  IsStatusConditionTrue (ephConditions eph) ConditionPassesPredicted = true ->
  let c := checkSatelliteAvailability (Found eph) now in
  known c = true /\
  match fold_left pick (List.filter (deliverable now (PropagatedStates eph)) (NextPassWindows eph)) None with
  | Some w => available c = true /\
      candidate c = Some (buildContactCandidate w
        ((index_states now (PropagatedStates eph)).1 !! pwNoradID w))
  | None => available c = false /\ candidate c = None
  end.
Proof.
  intros Hp. unfold checkSatelliteAvailability. rewrite Hp. cbn [negb].
  rewrite <- live_windows_deliverable.
  destruct (index_states now (PropagatedStates eph)) as [states stale]. rewrite window_fold.
  cbn [snd fst]. destruct (fold_left pick _ None); [done|]. by destruct (existsb _ _).
Qed.

Lemma candidate_valid now states w :
  deliverable now states w = true -> pwNoradID w <> 0%Z ->
  exists v, ccValidUntil (buildContactCandidate w ((index_states now states).1 !! pwNoradID w)) = Some v /\
            (now <= v <= LOS w)%Z.
Proof.
  unfold deliverable, window_active, After. intros [Ha Hf]%andb_true_iff Hn.
  apply negb_true_iff, orb_false_iff in Ha as [_ Hl]. bool_props.
  apply orb_true_iff in Hf as [Hf|Hf]; [by apply Z.eqb_eq in Hf|]. rewrite forallb_elem_of in Hf.
  destruct (_ !! pwNoradID w) as [ps|] eqn:E; simpl; [|eexists; split; [done|lia]].
  apply states_lookup in E as [Hin Hid]. specialize (Hf _ Hin). rewrite Hid, Z.eqb_refl in Hf. simpl in Hf.
  assert (Hfresh : (now <= state_expiry ps)%Z).
  { unfold state_stale in Hf. destruct (sourceEpochFresh _ _) eqn:Es; [done|].
    apply fresh_iff in Es. unfold state_expiry, Add. lia. }
  eexists; split; [done|]. unfold Before. destruct (Z.ltb_spec (state_expiry ps) (LOS w)); lia.
Qed.

Lemma filter_bool_perm {A} (f : A -> bool) l l' :
  l ≡ₚ l' -> List.filter f l ≡ₚ List.filter f l'.
Proof.
  induction 1 as [|x l l' _ IH|x y l|l1 l2 l3 _ IH1 _ IH2]; simpl; [done| | |by etrans].
  - destruct (f x); by rewrite ?IH.
  - destruct (f x), (f y); try done. apply perm_swap.
Qed.

(** Reordering the windows changes nothing in the key of the minimum. *)
Lemma pick_perm l l' w :
  l ≡ₚ l' -> minimal_in l w ->
  exists w', fold_left pick l' None = Some w' /\ window_key w' = window_key w.
Proof.
  intros Hp Hw. pose proof (pick_fold l') as H'.
  destruct (fold_left pick l' None) as [w'|].
  - exists w'. split; [done|]. apply (minimal_key_unique l); [|done].
    destruct H' as [Hin Hm]. split; [by rewrite Hp|]. intros x Hx. apply Hm. by rewrite <- Hp.
  - subst l'. destruct Hw as [Hw _]. rewrite Hp in Hw. by apply elem_of_nil in Hw.
Qed.

(** C32. The verdict on the satellite path is exact. It is unknown precisely
    when the ephemeris could not be read or its predictions are not current.
    Otherwise the satellite is available precisely when some pass window is
    overhead at [now] (AOS reached, LOS not yet) whose satellite has no
    propagated state with a source epoch more than seven days before [now],
    which is the bound the cell controller enforces before a push; a window that
    names no satellite (a NORAD number of 0) needs no state.  A candidate is
    reported exactly with an available verdict, and it is such a window, with
    the earliest LOS of all of them. *)
Theorem availability_exact eph now :
  let c := checkSatelliteAvailability eph now in
  (known c = true <->
     eph = NotFound \/
     exists e, eph = Found e /\ IsStatusConditionTrue (ephConditions e) ConditionPassesPredicted = true) /\
  (available c = true <->
     exists e w, eph = Found e /\
       IsStatusConditionTrue (ephConditions e) ConditionPassesPredicted = true /\
       servable now e w) /\
  (available c = true <-> exists cc, candidate c = Some cc) /\
  (forall e cc, eph = Found e -> candidate c = Some cc ->
     exists w, servable now e w /\ ccNoradID cc = pwNoradID w /\ ccAOS cc = Some (AOS w) /\ ccLOS cc = Some (LOS w) /\
       forall w', servable now e w' -> (LOS w <= LOS w')%Z).
Proof.
  destruct eph as [e| |err]; cbv zeta.
  2,3: simpl; repeat split; intros; naive_solver.
  destruct (IsStatusConditionTrue (ephConditions e) ConditionPassesPredicted) eqn:Hp.
  2: { unfold checkSatelliteAvailability. rewrite Hp. simpl. repeat split; intros; try done; naive_solver congruence. }
  destruct (contact_unfold e now Hp) as [Hk Hc].
  pose proof (pick_fold (List.filter (deliverable now (PropagatedStates e)) (NextPassWindows e))) as Hm.
  destruct (fold_left pick _ None) as [w|]; destruct Hc as [Ha Hcc]; rewrite Hk, Ha, Hcc.
  - destruct Hm as [Hw Hmin]. pose proof Hw as Hs%deliverable_servable.
    split_and!; [split; eauto|split; eauto 10|split; eauto|].
    intros e' cc [= <-] [= <-]. exists w. split_and!; [done|by destruct (_ !! pwNoradID w)..|].
    intros w' Hw'%deliverable_servable. apply earlier_LOS. by apply Hmin.
  - rewrite <- (deliverable_none now e) in Hm. split_and!; [split; eauto|split; [done|]|split; [done|by intros []]|done].
    intros (e' & w & [= <-] & _ & Hw). by destruct (Hm w).
Qed.

(** The reported candidate is deterministic evidence: it is a deliverable
    window that no other deliverable window precedes in the order (LOS, NORAD,
    ground station), any reordering of the ephemeris' windows selects a
    candidate with the same key, and when it names its satellite the promise
    [validUntil] never outlives LOS and is not already over. *)
Theorem candidate_is_minimal eph now cc :
  candidate (checkSatelliteAvailability (Found eph) now) = Some cc ->
  exists w, w ∈ NextPassWindows eph /\ deliverable now (PropagatedStates eph) w = true /\
    (forall w', w' ∈ NextPassWindows eph -> deliverable now (PropagatedStates eph) w' = true ->
       earlierLOSCandidate w' w = false) /\
    ccNoradID cc = pwNoradID w /\ ccGroundStation cc = pwGroundStation w /\ ccLOS cc = Some (LOS w) /\
    (pwNoradID w <> 0%Z -> exists v, ccValidUntil cc = Some v /\ (now <= v <= LOS w)%Z) /\
    (forall eph', NextPassWindows eph' ≡ₚ NextPassWindows eph ->
       PropagatedStates eph' = PropagatedStates eph -> ephConditions eph' = ephConditions eph ->
       exists cc', candidate (checkSatelliteAvailability (Found eph') now) = Some cc' /\
         ccNoradID cc' = ccNoradID cc /\ ccGroundStation cc' = ccGroundStation cc /\
         ccLOS cc' = ccLOS cc).
Proof.
  intros H.
  destruct (IsStatusConditionTrue (ephConditions eph) ConditionPassesPredicted) eqn:Hp.
  2: { unfold checkSatelliteAvailability in H. by rewrite Hp in H. }
  destruct (contact_unfold eph now Hp) as [_ Hc].
  pose proof (pick_fold (List.filter (deliverable now (PropagatedStates eph)) (NextPassWindows eph))) as Hm.
  destruct (fold_left pick _ None) as [w|]; [|destruct Hc as [_ Hc]; congruence].
  destruct Hc as [_ Hc]. rewrite Hc in H. injection H as <-.
  pose proof Hm as [[Hd Hw]%elem_of_filter_bool Hmin]. exists w.
  repeat match goal with |- _ /\ _ => split end; try done;
    try by destruct (_ !! pwNoradID w).
  - intros w' Hw' Hd'. apply Hmin. by apply elem_of_filter_bool.
  - by apply candidate_valid.
  - intros eph' Hw' Hs' Hc'. rewrite <- Hc' in Hp.
    destruct (contact_unfold eph' now Hp) as [_ Hc2]. rewrite Hs' in Hc2.
    destruct (pick_perm _ _ _ (filter_bool_perm _ _ _ (symmetry Hw')) Hm) as (w2 & E2 & Hk).
    rewrite E2 in Hc2. destruct Hc2 as [_ ->]. eexists. split; [done|].
    injection Hk as H1 H2 H3.
    by destruct (_ !! pwNoradID w), (_ !! pwNoradID w2); simpl; rewrite H1, H2, H3.
Qed.

End ContactFacts.

Definition demo_ephemeris : SatelliteEphemeris :=
  mkEphemeris (mkMeta "default" "eph" "u" 1 None [] ∅)
    [mkWindow "A" 11 "gs1" 10 90; mkWindow "B" 12 "gs1" 5 80; mkWindow "C" 13 "gs2" 60 70]%Z
    [mkState 12 0 0]%Z
    [mkCond ConditionPassesPredicted ConditionTrue "ok" "" 1].

Lemma candidate_is_minimal_witness :
  exists cc, candidate (@checkSatelliteAvailability list_conditions (Found demo_ephemeris) 50) = Some cc /\
    ccNoradID cc = 12%Z.
Proof.
  destruct (@candidate_is_minimal list_conditions demo_ephemeris 50
    (buildContactCandidate (mkWindow "B" 12 "gs1" 5 80) (Some (mkState 12 0 0)))) as (w & Hw & _).
  { vm_compute. reflexivity. }
  eexists. split; vm_compute; reflexivity.
Defined.

Lemma availability_exact_witness :
  available (@checkSatelliteAvailability list_conditions (Found demo_ephemeris) 50) = true.
Proof.
  destruct (@availability_exact list_conditions (Found demo_ephemeris) 50) as (_ & H & _). apply H. clear H.
  exists demo_ephemeris, (mkWindow "B" 12 "gs1" 5 80). split; [reflexivity|]. split; [vm_compute; reflexivity|].
  split; [right; left|]. split; [vm_compute; split; congruence|]. right.
  intros ps [->|H]%elem_of_cons _; [vm_compute; congruence|by apply elem_of_nil in H].
Defined.
