(* ===== verification/SliceController.v ===== *)
(** * The NTNSlice controller

    Models [src/internal/controller/ntnslice_controller.go]: the in-memory
    anti-flap entries keyed by object identity, their merge with the durable
    dwell clock in the status, the reading of path quality with its staleness
    bound, the status sections, the finalizer and [Reconcile] as a whole.

    A reconcile is a function of the controller's memory, of the exported
    metric series, and of what the API server answers during it ([SliceEnv]);
    it returns the new memory and series, what was durably written and the
    events recorded.  The second half runs reconciles one after the other
    against a stored status, with restarts and failed writes in between. *)

From S2P Require Import Prelude GoStrings GoTime GoFloat Failover AntiFlap GoNet K8sMeta NetGuard SliceApi MetricsReaders SliceContact.
Local Open Scope string_scope.

(** ** The metrics provider, as the controller sees it *)

(** Contexts and clocks of one read. *)
Record ReadEnv := mkReadEnv {
  reCtxErr : option string;
  reCtxErrAfter : option string;
  reNow : Time;
  reFreshAt : Time
}.

Class metricsReaderProvider (P : Type) := {
  provider_For : P -> NTNSlice -> result provider_error Reader * P;
  provider_Read : P -> Reader -> NTNSlice -> ReadEnv -> result read_error Result * P;
  provider_Evict : P -> NamespacedName -> P
}.

(** The provider of [pkg/slice/metrics] is one. *)
Definition slicemetrics_provider (unicode_lower : string -> string)
  (url_parse : string -> option URL) (address_ok : string -> bool)
  (query : QueryClient -> string -> Duration -> Time -> option prom_value)
  : metricsReaderProvider Provider := {|
  provider_For := For unicode_lower url_parse address_ok;
  provider_Read := fun p r ns e =>
    Reader_Read query p r ns (reCtxErr e) (reCtxErrAfter e) (reNow e) (reFreshAt e);
  provider_Evict := Evict
|}.

(** ** Anti-flap memory *)

Record flapStateEntry := mkEntry {
  feUid : UID;
  feGeneration : Z;
  feState : AntiFlapState
}.

Abbreviation FlapMap := (gmap NamespacedName flapStateEntry) (only parsing).

Definition loadFlapState (m : FlapMap) (key : NamespacedName) (uid : UID) (generation : Z)
  : AntiFlapState * FlapMap :=
  match m !! key with
  | None => (zero_flap, delete key m)
  | Some entry =>
      if negb (str_eqb (feUid entry) uid) then (zero_flap, delete key m)
      else if negb (feGeneration entry =? generation)%Z then
        let st := mkFlap 0 zero_time (LastSwitchback (feState entry)) zero_time in
        (st, <[key := mkEntry (feUid entry) generation st]> m)
      else (feState entry, m)
  end.

Definition storeFlapState (m : FlapMap) (key : NamespacedName) (uid : UID) (generation : Z)
  (st : AntiFlapState) : FlapMap :=
  <[key := mkEntry uid generation st]> m.

Definition resetRecoveryStreak (m : FlapMap) (key : NamespacedName) : FlapMap :=
  match m !! key with
  | None => m
  | Some entry =>
      let st := feState entry in
      if IsZero (RecoveryObservedAt st) && (ConsecutiveDegraded st =? 0)%Z then m
      else <[key := mkEntry (feUid entry) (feGeneration entry) (break_streaks st)]> m
  end.

Definition dropFlapState (m : FlapMap) (key : NamespacedName) : FlapMap := delete key m.

(** The durable half of the dwell clock. *)
Definition with_last_switchback (st : AntiFlapState) (t : Time) : AntiFlapState :=
  mkFlap (ConsecutiveDegraded st) (RecoveryObservedAt st) t (LastCountedObservedAt st).

Definition seedLastSwitchbackFromStatus (af : AntiFlapState) (status : NTNSliceStatus) (now : Time)
  : AntiFlapState * NTNSliceStatus :=
  match LastSwitchbackTime status with
  | None => (af, status)
  | Some p =>
      if After p now then (af, set_last_switchback status None)
      else if negb (After p (LastSwitchback af)) then (af, status)
      else (with_last_switchback af p, status)
  end.

Definition persistLastSwitchbackToStatus (status : NTNSliceStatus) (latest now : Time) : NTNSliceStatus :=
  if IsZero latest then status
  else if match LastSwitchbackTime status with
          | None => true
          | Some p => After (Truncate latest Second) p || After p now
          end
  then set_last_switchback status (Some latest)
  else status.

(** ** Status sections *)

Section Controller.
Context `{SC : StatusConditions} {P : Type} `{MP : metricsReaderProvider P}.

(** [err.Error()] of a reader that could not be built or read. *)
Variable build_error_text : provider_error -> string.
Variable read_error_text : read_error -> string.

Definition with_status (ns : NTNSlice) (st : NTNSliceStatus) : NTNSlice :=
  mkSlice (sliceMeta ns) (sliceSpec ns) st.

Definition map_status (f : NTNSliceStatus -> NTNSliceStatus) (ns : NTNSlice) : NTNSlice :=
  with_status ns (f (sliceStatus ns)).

(** [meta.SetStatusCondition] with the object's generation as observed. *)
Definition set_condition (ns : NTNSlice) (ty : string) (s : ConditionStatus) (r msg : string) : NTNSlice :=
  map_status (fun st => set_conditions st
    (SetStatusCondition (SliceConditions st) (mkCond ty s r msg (Generation (sliceMeta ns))))) ns.

Definition remove_condition (ns : NTNSlice) (ty : string) : NTNSlice :=
  map_status (fun st => set_conditions st (RemoveStatusCondition (SliceConditions st) ty)) ns.

Definition applyQoSStatus (ns : NTNSlice) (activePath : string) : NTNSlice :=
  match SliceQoS (sliceSpec ns) with
  | None => remove_condition (map_status (fun st => set_qos st "") ns) ConditionQoSApplied
  | Some qos =>
      let applied :=
        if str_eqb activePath PathSatellite
        then "QCI=" +:+ SatelliteQCI qos +:+ ", maxLatency=" +:+ duration_string (MaxLatencyBudget qos)
        else "5QI=" +:+ fmt_d (Terrestrial5QI qos) +:+ ", maxLatency="
             +:+ duration_string (MaxLatencyBudget qos) in
      set_condition (map_status (fun st => set_qos st applied) ns)
        ConditionQoSApplied ConditionTrue "QoSConfigured" applied
  end.

Definition applySecurityStatus (ns : NTNSlice) : NTNSlice :=
  match SliceSecurity (sliceSpec ns) with
  | None => remove_condition (map_status (fun st => set_encryption st "") ns) ConditionSecured
  | Some sec =>
      set_condition (map_status (fun st => set_encryption st (EncryptionLevel sec)) ns)
        ConditionSecured ConditionTrue "SecurityConfigured"
        ("Encryption: " +:+ EncryptionLevel sec +:+ ", handover auth: " +:+ AuthOnHandover sec)
  end.

Definition applyBillingStatus (ns : NTNSlice) (activePath : string) : NTNSlice :=
  match SliceBilling (sliceSpec ns) with
  | None => remove_condition (map_status (fun st => set_billing st "") ns) ConditionBillingActive
  | Some b =>
      let mode := if str_eqb activePath PathSatellite then SatelliteRate b else TerrestrialRate b in
      set_condition (map_status (fun st => set_billing st mode) ns)
        ConditionBillingActive ConditionTrue "BillingConfigured"
        ("Billing mode: " +:+ mode +:+ " (" +:+ activePath +:+ " path)")
  end.

(** ** Path quality *)

Definition metricsMaxStaleness : Duration := (90 * Second)%Z.
Definition sliceRequeueInterval : Duration := (30 * Second)%Z.

Definition reasonMetricsReaderError := "MetricsReaderError".
Definition reasonMetricsUnavailable := "MetricsUnavailable".
Definition reasonEndpointNotAllowed := "EndpointNotAllowed".

(** The zero [slice.Metrics]. *)
Definition no_metrics : Metrics := mkMetrics f_zero f_zero f_zero false false false.

Definition setMetricsDegraded (ns : NTNSlice) (r msg : string) : NTNSlice :=
  set_condition (set_condition ns ConditionFailoverReady ConditionUnknown r msg)
    ConditionMetricsStale ConditionUnknown r ("Metric freshness unknown: " +:+ msg).

Definition build_reason (e : provider_error) : string :=
  match e with EndpointRefused _ => reasonEndpointNotAllowed | _ => reasonMetricsReaderError end.

Definition read_reason (e : read_error) : string :=
  if is_no_metrics e then reasonMetricsUnavailable else reasonMetricsReaderError.

(** What a successful read says about quality, and the slice and events after. *)
Definition judge_reading (ns : NTNSlice) (res : Result) (now : Time)
  : (Metrics * Time * bool) * NTNSlice * list deferredEvent :=
  let wasStale := IsStatusConditionTrue (SliceConditions (sliceStatus ns)) ConditionMetricsStale in
  if negb (Stale res) then
    ((rMetrics res, ObservedAt res, true),
     set_condition ns ConditionMetricsStale ConditionFalse "FreshValue"
       "Metrics source returned a fresh observation", [])
  else
    let age := Sub now (LastFreshAt res) in
    let since := "Using stale metrics last observed at " +:+ format_rfc3339 (LastFreshAt res) in
    let ns := set_condition ns ConditionMetricsStale ConditionTrue "StaleValue"
                (since +:+ " (age " +:+ duration_string (duration_round age Second) +:+ ")") in
    let pending := if wasStale then [] else [mkEvent EventTypeWarning "MetricsStale" since] in
    if (age <=? metricsMaxStaleness)%Z then ((rMetrics res, ObservedAt res, true), ns, pending)
    else
      ((no_metrics, zero_time, false),
       set_condition ns ConditionFailoverReady ConditionUnknown "MetricsStale"
         ("Metrics stale beyond " +:+ duration_string metricsMaxStaleness
          +:+ "; quality-driven failover suspended (fail static)"),
       pending).

Definition readPathQuality (p : P) (ns : NTNSlice) (now : Time) (re : ReadEnv)
  : (Metrics * Time * bool) * NTNSlice * list deferredEvent * P :=
  match provider_For p ns with
  | (Err e, p) =>
      ((no_metrics, zero_time, false),
       setMetricsDegraded ns (build_reason e) (build_error_text e), [], p)
  | (Ok reader, p) =>
      match provider_Read p reader ns re with
      | (Err e, p) =>
          ((no_metrics, zero_time, false),
           setMetricsDegraded ns (read_reason e) (read_error_text e), [], p)
      | (Ok res, p) => let '(q, ns, pending) := judge_reading ns res now in (q, ns, pending, p)
      end
  end.

Definition reportInertTriggers (ns : NTNSlice) (inert : list string) : NTNSlice * list deferredEvent :=
  if (length inert =? 0)%nat then
    (set_condition ns ConditionTriggersReady ConditionTrue "AllTriggersSourced"
       "All failover triggers reference a sourced metric", [])
  else
    let episode := conditionEpisodeChanged
      (FindStatusCondition (SliceConditions (sliceStatus ns)) ConditionTriggersReady)
      ConditionFalse "InertTriggers" (Generation (sliceMeta ns)) in
    let msg := "failover triggers reference metrics with no configured source and will never fire: "
               +:+ Join inert "; " in
    (set_condition ns ConditionTriggersReady ConditionFalse "InertTriggers" msg,
     if episode then [mkEvent EventTypeWarning "InertTriggers" msg] else []).

(** The report of step 3: readiness when the metrics are reliable, unknown
    triggers when they are not. *)
Definition report_readiness (ns : NTNSlice) (contact : contactEval) (metrics : Metrics) (reliable : bool)
  : NTNSlice * list deferredEvent :=
  if reliable then
    let gen := Generation (sliceMeta ns) in
    let ns := map_status (fun st => set_candidate
      (set_conditions st (SetStatusCondition (SliceConditions st) (failoverReadyCondition contact gen)))
      (candidate contact)) ns in
    reportInertTriggers ns (InertTriggers (Triggers (SliceFailoverPolicy (sliceSpec ns))) metrics)
  else
    (set_condition ns ConditionTriggersReady ConditionUnknown "MetricsUnavailable"
       "Trigger sourcing cannot be evaluated while path-quality metrics are unreliable", []).

(** ** The decision *)

Definition current_path (ns : NTNSlice) : PathType :=
  if str_eqb (ActivePathType (sliceStatus ns)) "" then PathTerrestrial
  else ActivePathType (sliceStatus ns).

Definition parse_margin (s : string) : float64 :=
  if str_eqb s "" then f_zero
  else match ParseFloat s with
       | Err _ => f_zero
       | Ok v => if IsNaN v || IsInf v || f_lt v f_zero then f_zero else v
       end.

Definition antiflap_config (fp : FailoverPolicy) : AntiFlapConfig :=
  mkConfig (match FpConfirmationSamples fp with Some n => n | None => 0%Z end)
    (FpMinTerrestrialDwell fp).

Definition slice_key (ns : NTNSlice) : NamespacedName := ObjectKeyFromObject (sliceMeta ns).

(** The engine under reliable metrics and a known verdict: the decision, the
    slice with its durable clock merged, the memory after the load and the
    anti-flap state to commit. *)
Definition run_engine (m : FlapMap) (ns : NTNSlice) (metrics : Metrics) (observedAt : Time)
  (satelliteAvailable : bool) (now : Time)
  : FailoverResult * NTNSlice * FlapMap * AntiFlapState :=
  let fp := SliceFailoverPolicy (sliceSpec ns) in
  let '(af, m) := loadFlapState m (slice_key ns) (oUID (sliceMeta ns)) (Generation (sliceMeta ns)) in
  let '(af, status) := seedLastSwitchbackFromStatus af (sliceStatus ns) now in
  let '(res, newFlap) :=
    EvaluateFailoverWithAntiFlap (current_path ns) (Triggers fp) metrics observedAt
      satelliteAvailable (SwitchbackDelay fp) now (parse_margin (HysteresisMargin fp))
      (antiflap_config fp) af in
  let status := persistLastSwitchbackToStatus status (LastSwitchback newFlap) now in
  (res, with_status ns status, m, newFlap).

(** Step 4: which evaluator runs, and what is left to commit. *)
Definition decide_path (m : FlapMap) (ns : NTNSlice) (contact : contactEval) (metrics : Metrics)
  (observedAt : Time) (reliable : bool) (now : Time)
  : FailoverResult * NTNSlice * FlapMap * option AntiFlapState :=
  if negb (known contact) then
    (mkResult DecisionStay "SatelliteAvailabilityUnknown" (current_path ns), ns,
     resetRecoveryStreak m (slice_key ns), None)
  else if reliable then
    let '(res, ns, m, newFlap) := run_engine m ns metrics observedAt (available contact) now in
    (res, ns, m, Some newFlap)
  else
    (EvaluateSafeHold (current_path ns) (available contact), ns,
     resetRecoveryStreak m (slice_key ns), None).

Definition path_reason (d : Decision) : string :=
  match d with
  | DecisionStay => "Stay"
  | DecisionFailover => "Failover"
  | DecisionSwitchback => "Switchback"
  end.

(** Steps 5 to 7: the status of the decision. *)
Definition apply_decision (ns : NTNSlice) (res : FailoverResult) (now : Time) : NTNSlice :=
  let ns := map_status (fun st => set_active_path st (targetPath res)) ns in
  let ns := if bool_decide (decision res = DecisionFailover)
    then map_status (fun st => set_failover st (wrap64 (FailoverCount st + 1)) (Some now)) ns
    else ns in
  let unavailable := str_eqb (targetPath res) PathUnavailable in
  let ns := set_condition ns ConditionPathActive
    (if unavailable then ConditionFalse else ConditionTrue)
    (if unavailable then "Unavailable" else path_reason (decision res))
    ("Active on " +:+ targetPath res +:+ " path: " +:+ Failover.reason res) in
  applyBillingStatus (applySecurityStatus (applyQoSStatus ns (targetPath res))) (targetPath res).

Definition decision_event (previousPath : PathType) (res : FailoverResult) : list deferredEvent :=
  match decision res with
  | DecisionFailover => [mkEvent EventTypeWarning "FailoverTriggered"
      ("Failover from " +:+ previousPath +:+ " to " +:+ targetPath res +:+ ": " +:+ Failover.reason res)]
  | DecisionSwitchback => [mkEvent EventTypeNormal "Switchback"
      ("Switched back from " +:+ previousPath +:+ " to " +:+ targetPath res +:+ ": " +:+ Failover.reason res)]
  | DecisionStay => []
  end.

(** ** Memory, series and environment *)

Abbreviation failover_labels := (string * string * string * string)%type (only parsing).

Record SliceWorld := mkWorld {
  flapState : FlapMap;
  provider : P;
  FailoverTotal : gmap failover_labels Z;          (* namespace, slice, from, to *)
  SatellitePassAvailable : gmap (string * string) Z; (* namespace, ephemeris *)
  recorded : list (NamespacedName * deferredEvent)
}.

(** What the API server answers during one reconcile, and the clocks. *)
Record SliceEnv := mkSliceEnv {
  envSlice : GetResult NTNSlice;
  envEphemeris : NamespacedName -> GetResult SatelliteEphemeris;
  envList : string -> option (list NTNSlice);
  envUpdateOk : bool;
  envStatusOk : bool;
  envNow : Time;
  envRead : ReadEnv
}.

(** What a reconcile leaves behind: memory and series, the object written by
    [Update], the status written by [Status().Update], and the result. *)
Record Outcome := mkOutcome {
  outWorld : SliceWorld;
  outObject : option NTNSlice;
  outStatus : option NTNSliceStatus;
  outResult : result string (option Duration)
}.

Definition with_flap (w : SliceWorld) (m : FlapMap) : SliceWorld :=
  mkWorld m (provider w) (FailoverTotal w) (SatellitePassAvailable w) (recorded w).
Definition with_provider (w : SliceWorld) (p : P) : SliceWorld :=
  mkWorld (flapState w) p (FailoverTotal w) (SatellitePassAvailable w) (recorded w).
Definition with_failover_total (w : SliceWorld) (s : gmap failover_labels Z) : SliceWorld :=
  mkWorld (flapState w) (provider w) s (SatellitePassAvailable w) (recorded w).
Definition with_pass_available (w : SliceWorld) (s : gmap (string * string) Z) : SliceWorld :=
  mkWorld (flapState w) (provider w) (FailoverTotal w) s (recorded w).
Definition record_events (w : SliceWorld) (key : NamespacedName) (es : list deferredEvent) : SliceWorld :=
  mkWorld (flapState w) (provider w) (FailoverTotal w) (SatellitePassAvailable w)
    (recorded w ++ map (pair key) es)%list.

Definition inc_failover (w : SliceWorld) (labels : failover_labels) : SliceWorld :=
  with_failover_total w
    (<[labels := (default 0%Z (FailoverTotal w !! labels) + 1)%Z]> (FailoverTotal w)).

(** ** The finalizer *)

Definition sliceMetricsFinalizer := "ntn.operators.dev/metrics-cleanup".

Definition has_finalizer (ns : NTNSlice) : bool :=
  bool_decide (sliceMetricsFinalizer ∈ Finalizers (sliceMeta ns)).

Definition with_finalizers (ns : NTNSlice) (l : list string) : NTNSlice :=
  let m := sliceMeta ns in
  mkSlice (mkMeta (Namespace m) (Name m) (oUID m) (Generation m) (DeletionTimestamp m) l (Annotations m))
    (sliceSpec ns) (sliceStatus ns).

Definition ephemerisMetricReferenced (listed : option (list NTNSlice)) (ephemerisRef : string)
  (deleting : UID) : option bool :=
  match listed with
  | None => None
  | Some items =>
      Some (existsb (fun s =>
        negb (str_eqb (oUID (sliceMeta s)) deleting || deletion_set (sliceMeta s)) &&
        str_eqb (EphemerisRef (sliceSpec s)) ephemerisRef) items)
  end.

(** [handleSliceFinalizer]: [Some] outcome when the reconcile must return. *)
Definition handleSliceFinalizer (w : SliceWorld) (ns : NTNSlice) (env : SliceEnv)
  : Outcome + (NTNSlice * option NTNSlice) :=
  if deletion_set (sliceMeta ns) then
    let w := with_flap w (dropFlapState (flapState w) (slice_key ns)) in
    if has_finalizer ns then
      let nsp := Namespace (sliceMeta ns) in
      let w := with_failover_total w (filter (fun kv : failover_labels * Z =>
        ~ (kv.1.1.1.1 = nsp /\ kv.1.1.1.2 = Name (sliceMeta ns))) (FailoverTotal w)) in
      let ref := EphemerisRef (sliceSpec ns) in
      match ephemerisMetricReferenced (envList env nsp) ref (oUID (sliceMeta ns)) with
      | None => inl (mkOutcome w None None (Err "list"))
      | Some shared =>
          let w := if shared then w
                   else with_pass_available w (delete (nsp, ref) (SatellitePassAvailable w)) in
          let ns := with_finalizers ns
            (List.filter (fun f => negb (str_eqb f sliceMetricsFinalizer)) (Finalizers (sliceMeta ns))) in
          if envUpdateOk env then inl (mkOutcome w (Some ns) None (Ok None))
          else inl (mkOutcome w None None (Err "update"))
      end
    else inl (mkOutcome w None None (Ok None))
  else if has_finalizer ns then inr (ns, None)
  else
    let ns := with_finalizers ns (Finalizers (sliceMeta ns) ++ [sliceMetricsFinalizer])%list in
    if envUpdateOk env then inr (ns, Some ns) else inl (mkOutcome w None None (Err "update")).

(** ** Reconcile *)

(** [persistStatusIfChanged]: whether the API server is asked to write. *)
Definition needs_write (oldStatus status : NTNSliceStatus) (pending : list deferredEvent) : bool :=
  negb (bool_decide (oldStatus = status) && (length pending =? 0)%nat).

(** What steps 2 to 4 have worked out. *)
Record Evaluation := mkEvaluation {
  evResult : FailoverResult;
  evPrevious : PathType;
  evContact : contactEval;
  evReliable : bool;
  evSlice : NTNSlice;                   (* with its status evaluated so far *)
  evFlap : FlapMap;                     (* memory after the loads and resets *)
  evCommit : option AntiFlapState;      (* to be stored once the write is durable *)
  evPending : list deferredEvent;
  evProvider : P
}.

Definition evaluate_live (w : SliceWorld) (ns : NTNSlice) (env : SliceEnv) : Evaluation :=
  let now := envNow env in
  let '((metrics, observedAt, reliable), ns, stale_events, p) :=
    readPathQuality (provider w) ns now (envRead env) in
  let contact := checkSatelliteAvailability
    (envEphemeris env (mkKey (Namespace (sliceMeta ns)) (EphemerisRef (sliceSpec ns)))) now in
  let '(ns, inert_events) := report_readiness ns contact metrics reliable in
  let previousPath := current_path ns in
  let '(res, ns, m, pendingFlap) :=
    decide_path (flapState w) ns contact metrics observedAt reliable now in
  mkEvaluation res previousPath contact reliable ns m pendingFlap
    (stale_events ++ inert_events)%list p.

(** Steps 5 to 8 on an evaluated object: the in-memory commit, the counter and
    the events follow the status write, and only when it succeeded. *)
Definition commit_live (w : SliceWorld) (oldStatus : NTNSliceStatus) (ev : Evaluation)
  (written : option NTNSlice) (env : SliceEnv) : Outcome :=
  let ns := evSlice ev in
  let res := evResult ev in
  let nsp := Namespace (sliceMeta ns) in
  let w := with_flap (with_provider w (evProvider ev)) (evFlap ev) in
  let w := if known (evContact ev)
    then with_pass_available w
           (<[(nsp, EphemerisRef (sliceSpec ns)) := if available (evContact ev) then 1%Z else 0%Z]>
              (SatellitePassAvailable w))
    else w in
  let ns := apply_decision ns res (envNow env) in
  let write := needs_write oldStatus (sliceStatus ns) (evPending ev) in
  if write && negb (envStatusOk env) then mkOutcome w written None (Err "status update")
  else
    let w := match evCommit ev with
             | Some st => with_flap w (storeFlapState (flapState w) (slice_key ns)
                            (oUID (sliceMeta ns)) (Generation (sliceMeta ns)) st)
             | None => w
             end in
    let w := if bool_decide (decision res = DecisionFailover)
      then inc_failover w (nsp, Name (sliceMeta ns), evPrevious ev, targetPath res) else w in
    let w := record_events w (slice_key ns) (decision_event (evPrevious ev) res ++ evPending ev)%list in
    mkOutcome w written (if write then Some (sliceStatus ns) else None)
      (Ok (Some sliceRequeueInterval)).

Definition reconcile_live (w : SliceWorld) (ns : NTNSlice) (written : option NTNSlice) (env : SliceEnv)
  : Outcome :=
  commit_live w (sliceStatus ns) (evaluate_live w ns env) written env.

Definition Reconcile (w : SliceWorld) (key : NamespacedName) (env : SliceEnv) : Outcome :=
  match envSlice env with
  | NotFound =>
      mkOutcome (mkWorld (dropFlapState (flapState w) key) (provider_Evict (provider w) key)
                   (FailoverTotal w) (SatellitePassAvailable w) (recorded w))
        None None (Ok None)
  | GetError e => mkOutcome w None None (Err e)
  | Found ns =>
      match handleSliceFinalizer w ns env with
      | inl out => out
      | inr (ns, written) => reconcile_live w ns written env
      end
  end.

(** [ephemerisToSlice]: the slices to reconcile when an ephemeris changes;
    [listed] is the answer for the ephemeris' namespace. *)
Definition ephemerisToSlice (eph : SatelliteEphemeris) (listed : option (list NTNSlice)) : list NamespacedName :=
  match listed with
  | None => []
  | Some items =>
      map slice_key
        (List.filter (fun s => str_eqb (EphemerisRef (sliceSpec s)) (Name (ephMeta eph))) items)
  end.

End Controller.
