(* ===== verification/SliceSafety.v ===== *)
(** * Safety of the NTNSlice controller

    Theorems about [SliceController]: identity of the in-memory state, the
    order of durable and volatile effects, fail-static behaviour, the exactness
    of the counters, and the survival of the minimum dwell across restarts,
    failed writes and spec edits. *)

From S2P Require Import Prelude GoStrings GoNet GoTime GoFloat Failover AntiFlap K8sMeta NetGuard SliceApi MetricsReaders SliceContact SliceController.
Local Open Scope string_scope.

(** ** The dwell clock in one evaluation *)

Lemma update_clocks_dwell triggers m obs now margin st :
  LastSwitchback (update_clocks triggers m obs now margin st) = LastSwitchback st.
Proof. unfold update_clocks. by repeat split_match. Qed.

(** A failover from terrestrial waited for the dwell. *)
Lemma antiflap_waits_dwell triggers m obs avail delay now margin cfg st :
  decision (fst (EvaluateFailoverWithAntiFlap PathTerrestrial triggers m obs avail delay now margin cfg st))
    = DecisionFailover ->
  (0 < MinTerrestrialDwell cfg)%Z -> LastSwitchback st <> zero_time ->
  (MinTerrestrialDwell cfg <= Sub now (LastSwitchback st))%Z.
Proof.
  cbn [fst EvaluateFailoverWithAntiFlap]. unfold gate_failover.
  rewrite update_clocks_dwell. intros Hd Hp Hz. revert Hd.
  case_bool_decide as H; simpl; [|done]. destruct ((1 <? _)%Z && _); [done|].
  rewrite (proj2 (Z.ltb_lt 0 (MinTerrestrialDwell cfg)) Hp).
  unfold IsZero, zero_time in *. rewrite (proj2 (Z.eqb_neq _ _) Hz). simpl.
  destruct (Z.ltb_spec (Sub now (LastSwitchback st)) (MinTerrestrialDwell cfg)); [done|lia].
Qed.

(** The dwell clock after an evaluation: started by a quality hand-back. *)
Lemma antiflap_dwell_clock cur triggers m obs avail delay now margin cfg st res st' :
  EvaluateFailoverWithAntiFlap cur triggers m obs avail delay now margin cfg st = (res, st') ->
  LastSwitchback st' =
    if bool_decide (decision res = DecisionSwitchback) && avail && str_eqb cur PathSatellite
    then now else LastSwitchback st.
Proof.
  unfold EvaluateFailoverWithAntiFlap. intros [= <- <-]. unfold note_switchback.
  destruct (_ && str_eqb cur PathSatellite); [done|]. apply update_clocks_dwell.
Qed.

(** ** Memory *)

(** In-memory anti-flap state belongs to one object and one policy: what
    was stored comes back only for the same UID and generation; after a spec
    edit only the dwell clock survives, and the reset is kept; a recreated
    object of the same name starts from nothing and the predecessor's entry is
    evicted; other slices are never touched. *)
Theorem flap_state_identity m key uid gen st :
  let m' := storeFlapState m key uid gen st in
  loadFlapState m' key uid gen = (st, m') /\
  (forall gen', gen' <> gen ->
     let fresh := mkFlap 0 zero_time (LastSwitchback st) zero_time in
     (loadFlapState m' key uid gen').1 = fresh /\
     (loadFlapState m' key uid gen').2 !! key = Some (mkEntry uid gen' fresh)) /\
  (forall uid' gen', uid' <> uid ->
     loadFlapState m' key uid' gen' = (zero_flap, delete key m)) /\
  (forall key' uid' gen', key' <> key ->
     (loadFlapState m' key uid' gen').2 !! key' = m !! key').
Proof.
  cbv zeta. unfold storeFlapState, loadFlapState. rewrite lookup_insert_eq. simpl. repeat split.
  - by rewrite str_eqb_refl, Z.eqb_refl.
  - rewrite str_eqb_refl, (proj2 (Z.eqb_neq gen gen')) by congruence. done.
  - rewrite str_eqb_refl, (proj2 (Z.eqb_neq gen gen')) by congruence. simpl.
    by rewrite lookup_insert_eq.
  - intros uid' gen' Hu. rewrite (proj2 (str_eqb_neq uid uid')) by congruence. simpl.
    by rewrite delete_insert_eq.
  - intros key' uid' gen' Hk. repeat split_match; simpl;
      by rewrite ?lookup_delete_ne, ?lookup_insert_ne by done.
Qed.

(** Loading and resetting never advance a dwell clock nor invent an entry. *)
Definition dwell_kept (m m' : FlapMap) : Prop :=
  forall k e', m' !! k = Some e' ->
    exists e, m !! k = Some e /\ feUid e' = feUid e /\
              LastSwitchback (feState e') = LastSwitchback (feState e).

Lemma dwell_kept_refl m : dwell_kept m m.
Proof. intros k e H. eauto. Qed.

Lemma dwell_kept_delete m key : dwell_kept m (delete key m).
Proof. intros k e H. apply lookup_delete_Some in H as [_ H]. eauto. Qed.

Lemma dwell_kept_insert m key e e' :
  m !! key = Some e -> feUid e' = feUid e ->
  LastSwitchback (feState e') = LastSwitchback (feState e) -> dwell_kept m (<[key := e']> m).
Proof.
  intros He Hu Hl k e0 H. destruct (decide (k = key)) as [->|Hne].
  - rewrite lookup_insert_eq in H. simplify_eq. eauto.
  - rewrite lookup_insert_ne in H by done. eauto.
Qed.

Lemma load_dwell_kept m key uid gen : dwell_kept m (loadFlapState m key uid gen).2.
Proof.
  unfold loadFlapState. destruct (m !! key) as [e|] eqn:E; [|apply dwell_kept_delete].
  destruct (negb (str_eqb _ _)); [apply dwell_kept_delete|].
  destruct (negb (_ =? _)%Z); [|apply dwell_kept_refl]. by eapply dwell_kept_insert.
Qed.

Lemma reset_dwell_kept m key : dwell_kept m (resetRecoveryStreak m key).
Proof.
  unfold resetRecoveryStreak. destruct (m !! key) as [e|] eqn:E; [|apply dwell_kept_refl].
  destruct (_ && _); [apply dwell_kept_refl|]. by eapply dwell_kept_insert.
Qed.

Lemma load_dwell_clock m key uid gen :
  LastSwitchback (loadFlapState m key uid gen).1 = zero_time \/
  exists e, m !! key = Some e /\
    LastSwitchback (loadFlapState m key uid gen).1 = LastSwitchback (feState e).
Proof.
  unfold loadFlapState. destruct (m !! key) as [e|] eqn:E; [|by left].
  destruct (negb (str_eqb _ _)); [by left|]. right. exists e.
  by destruct (negb (_ =? _)%Z).
Qed.

(** The recorded hand-backs of a slice all lie in the past. *)
Definition memory_past (m : FlapMap) (key : NamespacedName) (t : Time) : Prop :=
  forall e, m !! key = Some e -> (LastSwitchback (feState e) <= t)%Z.

Lemma memory_past_empty key t : memory_past ∅ key t.
Proof. intros e. by rewrite lookup_empty. Qed.

Lemma memory_past_kept m m' key t : dwell_kept m m' -> memory_past m key t -> memory_past m' key t.
Proof. intros H Hm e' He'. destruct (H _ _ He') as (e & He & _ & ->). eauto. Qed.

(** ** The merge of memory and status *)

Lemma seed_spec af st now af' st' :
  seedLastSwitchbackFromStatus af st now = (af', st') ->
  (LastSwitchback af <= LastSwitchback af')%Z /\
  ((LastSwitchback af <= now)%Z -> (LastSwitchback af' <= now)%Z) /\
  (forall p, LastSwitchbackTime st = Some p -> (p <= now)%Z -> st' = st /\ (p <= LastSwitchback af')%Z).
Proof.
  unfold seedLastSwitchbackFromStatus, After. destruct (LastSwitchbackTime st) as [p|].
  - destruct (Z.ltb_spec now p) as [Hf|Hf]; intros H; [injection H as <- <-|].
    + split; [lia|]. split; [lia|]. intros q [= <-]. lia.
    + destruct (Z.ltb_spec (LastSwitchback af) p); simpl in H; injection H as <- <-; simpl;
        (split; [lia|]; split; [lia|]; intros q [= <-] Hq; split; [done|lia]).
  - intros [= <- <-]. split; [lia|]. split; [done|done].
Qed.

Lemma persist_spec st latest now :
  (latest <= now)%Z ->
  let st' := persistLastSwitchbackToStatus st latest now in
  (forall p, LastSwitchbackTime st = Some p -> (p <= now)%Z ->
     exists q, LastSwitchbackTime st' = Some q /\ (q <= now)%Z /\ (metav1_stored p <= metav1_stored q)%Z) /\
  (latest <> zero_time -> (forall p, LastSwitchbackTime st = Some p -> (p <= now)%Z) ->
     exists q, LastSwitchbackTime st' = Some q /\ (q <= now)%Z /\ (metav1_stored latest <= metav1_stored q)%Z).
Proof.
  intros Hl. unfold persistLastSwitchbackToStatus, IsZero, zero_time, After. cbv zeta.
  destruct (Z.eqb_spec latest 0) as [->|Hz].
  { split; [|done]. intros p Hp Hn. exists p. split; [done|lia]. }
  destruct (LastSwitchbackTime st) as [p|] eqn:Hp; simpl.
  - destruct (Z.ltb_spec p (Truncate latest Second)) as [Ht|Ht],
      (Z.ltb_spec now p) as [Hn|Hn]; simpl; (split; [intros q [= <-] Hq|intros _ Hq]);
      try (specialize (Hq _ eq_refl)); try lia.
    + exists latest. repeat split; [done|]. unfold metav1_stored.
      etrans; [apply Truncate_le|]. lia.
    + exists latest. repeat split; [done|lia].
    + rewrite Hp. exists p. repeat split; [done|lia].
    + rewrite Hp. exists p. repeat split; [done|]. unfold metav1_stored.
      rewrite <- (Truncate_idemp latest). by apply Truncate_mono.
  - split; [done|]. intros _ _. exists latest. repeat split; [done|lia].
Qed.

(** The merge touches nothing but the dwell clock. *)
Lemma merge_frame af st now af' st' latest :
  seedLastSwitchbackFromStatus af st now = (af', st') ->
  let st2 := persistLastSwitchbackToStatus st' latest now in
  ActivePathType st2 = ActivePathType st /\ FailoverCount st2 = FailoverCount st.
Proof.
  unfold seedLastSwitchbackFromStatus, persistLastSwitchbackToStatus. intros H. cbv zeta.
  destruct (LastSwitchbackTime st); [destruct (After _ now); [|destruct (negb _)]|];
    injection H as <- <-; repeat (split_match; simpl); done.
Qed.

(** ** What each stage of a reconcile leaves alone *)

Definition core (st : NTNSliceStatus) : string * option Time * option Time * Z :=
  (ActivePathType st, LastFailover st, LastSwitchbackTime st, FailoverCount st).

(** The stage only touched reported fields: conditions, candidate, QoS,
    encryption and billing. *)
Definition reports_only (ns ns' : NTNSlice) : Prop :=
  sliceMeta ns' = sliceMeta ns /\ sliceSpec ns' = sliceSpec ns /\
  core (sliceStatus ns') = core (sliceStatus ns).

#[export] Instance reports_only_equiv : Equivalence reports_only.
Proof.
  split; [by intros ns|by intros a b (?&?&?)|].
  intros a b c (?&?&?) (?&?&?). repeat split; congruence.
Qed.

#[export] Instance reports_only_current_path : Proper (reports_only ==> eq) current_path.
Proof. intros a b (_ & _ & [= H _ _ _]). unfold current_path. by rewrite H. Qed.

Section Safety.
Context `{SC : StatusConditions} {P : Type} `{MP : metricsReaderProvider P}.
Context (build_error_text : provider_error -> string) (read_error_text : read_error -> string).

Abbreviation evaluate := (evaluate_live build_error_text read_error_text).
Abbreviation reconcile := (Reconcile build_error_text read_error_text).
Abbreviation live := (reconcile_live build_error_text read_error_text).

Lemma judge_reading_reports ns res now :
  reports_only ns (judge_reading ns res now).1.2.
Proof. unfold judge_reading. by repeat split_match. Qed.

Lemma read_reports p ns now re q ns' evs p' :
  readPathQuality build_error_text read_error_text p ns now re = (q, ns', evs, p') ->
  reports_only ns ns'.
Proof.
  unfold readPathQuality. destruct (provider_For p ns) as [[r|e] p1]; [|by intros [= _ <- _ _]].
  destruct (provider_Read p1 r ns re) as [[res|e] p2]; [|by intros [= _ <- _ _]].
  pose proof (judge_reading_reports ns res now) as H.
  destruct (judge_reading ns res now) as [[q0 ns0] evs0]. by intros [= _ <- _ _].
Qed.

Lemma readiness_reports ns contact m reliable ns' evs :
  report_readiness ns contact m reliable = (ns', evs) -> reports_only ns ns'.
Proof.
  unfold report_readiness, reportInertTriggers. intros H.
  destruct reliable; [destruct (_ =? 0)%nat|]; by injection H as <- _.
Qed.

Lemma apply_decision_core ns res now :
  let ns' := apply_decision ns res now in
  sliceMeta ns' = sliceMeta ns /\ sliceSpec ns' = sliceSpec ns /\
  ActivePathType (sliceStatus ns') = targetPath res /\
  LastSwitchbackTime (sliceStatus ns') = LastSwitchbackTime (sliceStatus ns) /\
  FailoverCount (sliceStatus ns') =
    (if bool_decide (decision res = DecisionFailover)
     then wrap64 (FailoverCount (sliceStatus ns) + 1) else FailoverCount (sliceStatus ns)).
Proof.
  unfold apply_decision, applyBillingStatus, applySecurityStatus, applyQoSStatus.
  destruct (bool_decide _), (str_eqb (targetPath res) PathUnavailable);
    repeat (split_match; simpl); done.
Qed.

(** The stages before the decision are reports; the decision is [decide_path]'s. *)
Lemma evaluate_stages w ns env :
  let ev := evaluate w ns env in
  exists ns1 m obs,
    reports_only ns ns1 /\ evPrevious ev = current_path ns /\
    decide_path (flapState w) ns1 (evContact ev) m obs (evReliable ev) (envNow env) =
      (evResult ev, evSlice ev, evFlap ev, evCommit ev).
Proof.
  unfold evaluate_live.
  destruct (readPathQuality _ _ _ _ _ _) as [[[[[m obs] rel] ns1] evs] p] eqn:Hr.
  apply read_reports in Hr.
  destruct (report_readiness _ _ _ _) as [ns2 evs2] eqn:Hi. apply readiness_reports in Hi.
  assert (H12 : reports_only ns ns2) by (by etrans).
  destruct (decide_path _ _ _ _ _ _ _) as [[[res ns3] m3] fl] eqn:Hd. simpl.
  exists ns2, m, obs. split; [done|]. split; [|done]. by rewrite <- H12.
Qed.

Lemma evaluate_contact w ns env :
  evContact (evaluate w ns env) = checkSatelliteAvailability
    (envEphemeris env (mkKey (Namespace (sliceMeta ns)) (EphemerisRef (sliceSpec ns)))) (envNow env).
Proof.
  unfold evaluate_live.
  destruct (readPathQuality _ _ _ _ _ _) as [[[[[m obs] rel] ns1] evs] p] eqn:Hr.
  apply read_reports in Hr as (-> & -> & _).
  destruct (report_readiness _ _ _ _) as [ns2 evs2].
  by destruct (decide_path _ _ _ _ _ _ _) as [[[res ns3] m3] fl].
Qed.

(** ** One evaluation *)

Lemma engine_facts m ns metrics obs avail now res ns' m' nf :
  run_engine m ns metrics obs avail now = (res, ns', m', nf) ->
  memory_past m (slice_key ns) now -> (0 <= now)%Z ->
  sliceMeta ns' = sliceMeta ns /\ sliceSpec ns' = sliceSpec ns /\
  ActivePathType (sliceStatus ns') = ActivePathType (sliceStatus ns) /\
  FailoverCount (sliceStatus ns') = FailoverCount (sliceStatus ns) /\
  legal_transition (current_path ns) avail res /\
  dwell_kept m m' /\ (LastSwitchback nf <= now)%Z /\
  (forall p, LastSwitchbackTime (sliceStatus ns) = Some p -> (p <= now)%Z ->
     (exists q, LastSwitchbackTime (sliceStatus ns') = Some q /\ (q <= now)%Z /\
        (metav1_stored p <= metav1_stored q)%Z) /\
     (let dwell := FpMinTerrestrialDwell (SliceFailoverPolicy (sliceSpec ns)) in
      decision res = DecisionFailover -> current_path ns = PathTerrestrial ->
      (0 < dwell)%Z -> (0 < p)%Z -> (dwell <= Sub now p)%Z)) /\
  (decision res = DecisionSwitchback -> avail = true -> current_path ns = PathSatellite -> (0 < now)%Z ->
     exists q, LastSwitchbackTime (sliceStatus ns') = Some q /\ (q <= now)%Z /\
       (metav1_stored now <= metav1_stored q)%Z).
Proof.
  unfold run_engine. intros H Hm H0.
  destruct (loadFlapState _ _ _ _) as [af m1] eqn:Hload.
  pose proof (load_dwell_kept m (slice_key ns) (oUID (sliceMeta ns)) (Generation (sliceMeta ns))) as Hk.
  pose proof (load_dwell_clock m (slice_key ns) (oUID (sliceMeta ns)) (Generation (sliceMeta ns))) as Hc.
  rewrite Hload in Hk, Hc. simpl in Hk, Hc.
  assert (Haf : (LastSwitchback af <= now)%Z).
  { destruct Hc as [->|(e & He & ->)]; [done|]. by apply Hm. }
  destruct (seedLastSwitchbackFromStatus af (sliceStatus ns) now) as [af1 st1] eqn:Hseed.
  destruct (seed_spec _ _ _ _ _ Hseed) as (_ & Haf1 & Hp1). specialize (Haf1 Haf).
  destruct (EvaluateFailoverWithAntiFlap _ _ _ _ _ _ _ _ _ _) as [r nf'] eqn:Heval.
  injection H as -> <- <- ->.
  pose proof (antiflap_dwell_clock _ _ _ _ _ _ _ _ _ _ _ _ Heval) as Hclock.
  assert (Hnf : (LastSwitchback nf <= now)%Z) by (rewrite Hclock; destruct (_ && _); lia).
  pose proof (antiflap_legal (current_path ns) (Triggers (SliceFailoverPolicy (sliceSpec ns))) metrics obs
    avail (SwitchbackDelay (SliceFailoverPolicy (sliceSpec ns))) now
    (parse_margin (HysteresisMargin (SliceFailoverPolicy (sliceSpec ns))))
    (antiflap_config (SliceFailoverPolicy (sliceSpec ns))) af1) as Hlegal.
  rewrite Heval in Hlegal. simpl in Hlegal.
  destruct (persist_spec st1 (LastSwitchback nf) now Hnf) as [Hq1 Hq2].
  destruct (merge_frame _ _ _ _ _ (LastSwitchback nf) Hseed) as [Hact Hcnt].
  repeat match goal with |- _ /\ _ => split end; try done.
  - intros p Hp Hpn. destruct (Hp1 _ Hp Hpn) as [-> Hle]. split; [by apply Hq1|].
    cbv zeta. intros Hd Hcur Hdw Hpos. rewrite Hcur in Heval.
    assert (Hwait : (FpMinTerrestrialDwell (SliceFailoverPolicy (sliceSpec ns))
                     <= Sub now (LastSwitchback af1))%Z).
    { eapply (antiflap_waits_dwell _ _ _ _ _ _ _ (antiflap_config _)); [|done|unfold zero_time; lia].
      by rewrite Heval. }
    etrans; [exact Hwait|]. by apply Sub_antitone.
  - intros Hd -> Hcur Hpos. rewrite Hd, Hcur in Hclock. simpl in Hclock.
    assert (Hnow : LastSwitchback nf = now) by exact Hclock.
    rewrite Hnow in *. apply Hq2; [unfold zero_time; lia|].
    intros p Hp. unfold seedLastSwitchbackFromStatus, After in Hseed.
    destruct (LastSwitchbackTime (sliceStatus ns)) as [q|] eqn:Eq.
    + destruct (Z.ltb_spec now q); [|destruct (negb _)]; injection Hseed as <- <-;
        simpl in Hp; congruence.
    + injection Hseed as <- <-. congruence.
Qed.


Lemma decide_facts m ns contact metrics obs reliable now res ns' m' fl :
  decide_path m ns contact metrics obs reliable now = (res, ns', m', fl) ->
  memory_past m (slice_key ns) now -> (0 <= now)%Z ->
  sliceMeta ns' = sliceMeta ns /\ sliceSpec ns' = sliceSpec ns /\
  ActivePathType (sliceStatus ns') = ActivePathType (sliceStatus ns) /\
  FailoverCount (sliceStatus ns') = FailoverCount (sliceStatus ns) /\
  dwell_kept m m' /\
  (forall st, fl = Some st -> (LastSwitchback st <= now)%Z) /\
  (known contact && reliable = false ->
     ns' = ns /\ fl = None /\
     res = (if known contact then EvaluateSafeHold (current_path ns) (available contact)
            else mkResult DecisionStay "SatelliteAvailabilityUnknown" (current_path ns))) /\
  (known contact && reliable = true ->
     run_engine m ns metrics obs (available contact) now =
       (res, ns', m', default zero_flap fl) /\ is_Some fl).
Proof.
  unfold decide_path. intros H Hm H0.
  destruct (known contact); simpl in *; [destruct reliable; simpl in *|].
  - destruct (run_engine _ _ _ _ _ _) as [[[r n] mm] nf] eqn:E. injection H as <- <- <- <-.
    destruct (engine_facts _ _ _ _ _ _ _ _ _ _ E Hm H0) as (?&?&?&?&_&?&?&_).
    repeat match goal with |- _ /\ _ => split end; try done; try congruence.
  - injection H as <- <- <- <-.
    repeat match goal with |- _ /\ _ => split end; try done; try apply reset_dwell_kept.
  - injection H as <- <- <- <-.
    repeat match goal with |- _ /\ _ => split end; try done; try apply reset_dwell_kept.
Qed.

(** The status a reconcile leaves in the API server. *)
Definition durable (ns : NTNSlice) (out : Outcome (P := P)) : NTNSliceStatus :=
  default (sliceStatus ns) (outStatus out).

(** An outcome is either the refused write, with no effect announced, or the
    evaluated status made durable with its effects. *)
Lemma commit_cases w ns ev written env :
  let out := commit_live w (sliceStatus ns) ev written env in
  let st := sliceStatus (apply_decision (evSlice ev) (evResult ev) (envNow env)) in
  (is_ok (outResult out) = false /\ outStatus out = None /\
   flapState (outWorld out) = evFlap ev /\ FailoverTotal (outWorld out) = FailoverTotal w /\
   recorded (outWorld out) = recorded w /\ envStatusOk env = false) \/
  (is_ok (outResult out) = true /\ durable ns out = st /\
   (flapState (outWorld out) =
      match evCommit ev with
      | Some f => storeFlapState (evFlap ev) (slice_key (evSlice ev)) (oUID (sliceMeta (evSlice ev)))
                    (Generation (sliceMeta (evSlice ev))) f
      | None => evFlap ev
      end) /\
   (FailoverTotal (outWorld out) =
      if bool_decide (decision (evResult ev) = DecisionFailover)
      then let l := (Namespace (sliceMeta (evSlice ev)), Name (sliceMeta (evSlice ev)),
                     evPrevious ev, targetPath (evResult ev)) in
           <[l := (default 0 (FailoverTotal w !! l) + 1)%Z]> (FailoverTotal w)
      else FailoverTotal w) /\
   (recorded (outWorld out) = recorded w ++ map (pair (slice_key (evSlice ev)))
      (decision_event (evPrevious ev) (evResult ev) ++ evPending ev))%list).
Proof.
  unfold commit_live, needs_write, durable. cbv zeta.
  destruct (apply_decision_core (evSlice ev) (evResult ev) (envNow env)) as (Hmeta & Hspec & _).
  unfold slice_key in *. rewrite Hmeta.
  case_bool_decide as Heq; simpl; [destruct (length (evPending ev) =? 0)%nat|]; simpl.
  1: right; rewrite <- Heq.
  2,3: destruct (envStatusOk env); simpl; [right|left].
  all: destruct (known (evContact ev)), (evCommit ev),
    (bool_decide (decision (evResult ev) = DecisionFailover)); simpl; done.
Qed.

(** C7. Nothing is announced that was not recorded. When the status write of a
    reconcile fails, no failover is counted, no event is emitted and no dwell
    clock in memory moves. When it succeeds (or nothing changed), the durable
    status carries the decided path, its failover count went up by one exactly
    when the decision was a failover, and then the exported counter of exactly
    that transition went up by one and the warning was recorded with it. *)
Theorem effects_follow_durable_write w ns written env :
  memory_past (flapState w) (slice_key ns) (envNow env) -> (0 <= envNow env)%Z ->
  let out := live w ns written env in
  let ev := evaluate w ns env in
  let labels := (Namespace (sliceMeta ns), Name (sliceMeta ns), current_path ns, targetPath (evResult ev)) in
  let failed_over := bool_decide (decision (evResult ev) = DecisionFailover) in
  if is_ok (outResult out) then
    ActivePathType (durable ns out) = targetPath (evResult ev) /\
    FailoverCount (durable ns out) =
      (if failed_over then wrap64 (FailoverCount (sliceStatus ns) + 1)
       else FailoverCount (sliceStatus ns)) /\
    FailoverTotal (outWorld out) =
      (if failed_over then <[labels := (default 0 (FailoverTotal w !! labels) + 1)%Z]> (FailoverTotal w)
       else FailoverTotal w) /\
    recorded (outWorld out) = (recorded w ++ map (pair (slice_key ns))
      (decision_event (current_path ns) (evResult ev) ++ evPending ev))%list
  else
    durable ns out = sliceStatus ns /\ FailoverTotal (outWorld out) = FailoverTotal w /\
    recorded (outWorld out) = recorded w /\ dwell_kept (flapState w) (flapState (outWorld out)).
Proof.
  intros Hm H0. cbv zeta. unfold reconcile_live.
  destruct (evaluate_stages w ns env) as (ns1 & m & obs & Hr & Hprev & Hdec).
  destruct Hr as (Hmeta & Hspec & [= Hact _ _ Hcnt]).
  unfold slice_key in *. rewrite <- Hmeta in Hm.
  destruct (decide_facts _ _ _ _ _ _ _ _ _ _ _ Hdec Hm H0) as (Hmeta' & _ & Hact' & Hcnt' & Hk & _).
  destruct (commit_cases w ns (evaluate w ns env) written env)
    as [(-> & Hs & Hf & Ht & Hrec & _)|(-> & Hd & _ & Ht & Hrec)].
  - unfold durable. rewrite Hs, Ht, Hrec, Hf. done.
  - destruct (apply_decision_core (evSlice (evaluate w ns env)) (evResult (evaluate w ns env)) (envNow env))
      as (_ & _ & Ha & _ & Hc).
    unfold slice_key in Hrec. rewrite Hprev, Hmeta', Hmeta in Ht, Hrec.
    by rewrite Hd, Ha, Hc, Hcnt', Hcnt, Ht, Hrec.
Qed.

(** C19. Fail static. While the metrics are unreliable or the satellite verdict
    is unknown, a reconcile never fails over and never starts or moves a dwell
    clock: the durable path is the current one, with a single exception, a
    satellite known not to be overhead any more, which is left for
    terrestrial. *)
Theorem unreliable_holds_path w ns written env :
  memory_past (flapState w) (slice_key ns) (envNow env) -> (0 <= envNow env)%Z ->
  let out := live w ns written env in
  let ev := evaluate w ns env in
  known (evContact ev) && evReliable ev = false ->
  let st := durable ns out in
  FailoverCount st = FailoverCount (sliceStatus ns) /\
  LastSwitchbackTime st = LastSwitchbackTime (sliceStatus ns) /\
  dwell_kept (flapState w) (flapState (outWorld out)) /\
  FailoverTotal (outWorld out) = FailoverTotal w /\
  (outStatus out = None \/
   normalize_path (ActivePathType st) = normalize_path (current_path ns) \/
   current_path ns = PathSatellite /\ ActivePathType st = PathTerrestrial /\
   known (evContact ev) = true /\ available (evContact ev) = false).
Proof.
  intros Hm H0. cbv zeta. unfold reconcile_live. intros Hu.
  destruct (evaluate_stages w ns env) as (ns1 & m & obs & Hr & Hprev & Hdec).
  pose proof Hr as (Hmeta & Hspec & [= Hact _ Hls Hcnt]).
  unfold slice_key in Hm. rewrite <- Hmeta in Hm.
  destruct (decide_facts _ _ _ _ _ _ _ _ _ _ _ Hdec Hm H0) as (_ & _ & _ & _ & Hk & _ & Hst & _).
  destruct (Hst Hu) as (Ens & Ecommit & Eres).
  assert (Hcp : current_path ns1 = current_path ns) by (by rewrite Hr). rewrite Hcp in Eres.
  set (ev := evaluate w ns env) in *.
  assert (Hdecn : decision (evResult ev) <> DecisionFailover).
  { rewrite Eres. destruct (known (evContact ev)); [|done].
    unfold EvaluateSafeHold. by repeat split_match. }
  destruct (commit_cases w ns ev written env)
    as [(_ & Hs & Hf & Ht & Hrec & _)|(_ & Hd & Hf & Ht & Hrec)].
  - unfold durable. rewrite Hs, Hf, Ht. simpl. repeat split; auto.
  - destruct (apply_decision_core (evSlice ev) (evResult ev) (envNow env)) as (_ & _ & Ha & Hl & Hc).
    rewrite bool_decide_eq_false_2 in Hc, Ht by done. rewrite Ecommit in Hf.
    rewrite Hd, Hc, Hl, Ha, Hf, Ht, Ens. repeat split; auto. right. rewrite Eres.
    destruct (known (evContact ev)) eqn:Ek; [|by left].
    unfold EvaluateSafeHold.
    destruct (normalize_path_cases (current_path ns)) as [E|[E|E]]; rewrite E; simpl; [by left| |by left].
    destruct (available (evContact ev)); simpl; [by left|]. right. repeat split.
    unfold normalize_path in E. by repeat (split_match_in E; simplify_eq).
Qed.

(** Metrics drive a switch only while they are fresh enough: the quality of
    a read is used exactly when the reader could be built and answered, and the
    answer is either fresh or a replay whose last fresh read is at most 90
    seconds old; the engine then sees that reading and its source time, and in
    every other case it sees nothing. *)
Theorem quality_is_bounded p ns now re :
  let '((m, obs, reliable), _, _, _) :=
    readPathQuality build_error_text read_error_text p ns now re in
  (reliable = true <->
   exists r p1 res p2, provider_For p ns = (Ok r, p1) /\ provider_Read p1 r ns re = (Ok res, p2) /\
     (Stale res = false \/ (now - LastFreshAt res <= 90 * Second)%Z) /\
     m = rMetrics res /\ obs = ObservedAt res) /\
  (reliable = false -> m = no_metrics /\ obs = zero_time).
Proof.
  unfold readPathQuality.
  destruct (provider_For p ns) as [[r|e] p1] eqn:Hf.
  2: { split; [|done]. split; [done|]. intros (?&?&?&?&H&_). congruence. }
  destruct (provider_Read p1 r ns re) as [[res|e] p2] eqn:Hr.
  2: { split; [|done]. split; [done|]. intros (?&?&?&?&H&H'&_). congruence. }
  pose proof (Sub_le_iff now (LastFreshAt res) metricsMaxStaleness) as Hle.
  unfold judge_reading. destruct (Stale res) eqn:Hs; simpl.
  - destruct (Z.leb_spec (Sub now (LastFreshAt res)) metricsMaxStaleness) as [Ha|Ha].
    + split; [|done]. split; [|done]. intros _. exists r, p1, res, p2.
      split; [done|]. split; [done|]. split; [|done]. right. apply Hle; [vm_compute; split; congruence|done].
    + split; [|done]. split; [done|]. intros (r' & p1' & res' & p2' & H1 & H2 & H3 & _).
      injection H1 as <- <-. rewrite Hr in H2. injection H2 as <- <-.
      destruct H3 as [H3|H3]; [congruence|].
      apply Hle in H3; [lia|vm_compute; split; congruence].
  - split; [|done]. split; [|done]. intros _. exists r, p1, res, p2. auto 10.
Qed.

(** ** The dwell clock of one reconcile *)

Definition dwell_of (ns : NTNSlice) : Duration :=
  FpMinTerrestrialDwell (SliceFailoverPolicy (sliceSpec ns)).

Lemma memory_past_store m m' key uid gen st t :
  memory_past m key t -> (LastSwitchback st <= t)%Z -> m' = storeFlapState m key uid gen st ->
  memory_past m' key t.
Proof.
  intros _ Hl -> e. unfold storeFlapState. rewrite lookup_insert_eq. intros [= <-]. done.
Qed.

Lemma live_memory w ns written env :
  memory_past (flapState w) (slice_key ns) (envNow env) -> (0 <= envNow env)%Z ->
  memory_past (flapState (outWorld (live w ns written env))) (slice_key ns) (envNow env).
Proof.
  intros Hm H0. unfold reconcile_live.
  destruct (evaluate_stages w ns env) as (ns1 & m & obs & Hr & Hprev & Hdec).
  destruct Hr as (Hmeta & Hspec & _).
  assert (Hk1 : slice_key ns1 = slice_key ns) by (unfold slice_key; by rewrite Hmeta).
  rewrite <- Hk1 in Hm.
  destruct (decide_facts _ _ _ _ _ _ _ _ _ _ _ Hdec Hm H0) as (Hmeta' & _ & _ & _ & Hk & Hfl & _).
  assert (Hk2 : slice_key (evSlice (evaluate w ns env)) = slice_key ns)
    by (unfold slice_key; by rewrite Hmeta', Hmeta).
  rewrite Hk1 in Hm. pose proof (memory_past_kept _ _ _ _ Hk Hm) as Hm'.
  destruct (commit_cases w ns (evaluate w ns env) written env)
    as [(_ & _ & -> & _)|(_ & _ & -> & _)]; [done|].
  destruct (evCommit _) as [f|] eqn:Ec; [|done]. rewrite Hk2.
  eapply memory_past_store; [done| |done]. by apply Hfl.
Qed.

(** The path a live reconcile makes durable is the decided one, or the write
    failed and the old status stands. *)
Lemma live_dwell w ns written env :
  memory_past (flapState w) (slice_key ns) (envNow env) -> (0 <= envNow env)%Z ->
  let out := live w ns written env in
  let now := envNow env in
  (forall p, LastSwitchbackTime (sliceStatus ns) = Some p -> (p <= now)%Z ->
     (exists q, LastSwitchbackTime (durable ns out) = Some q /\ (q <= now)%Z /\
        (metav1_stored p <= metav1_stored q)%Z) /\
     (current_path ns = PathTerrestrial -> ActivePathType (durable ns out) = PathSatellite ->
      (0 < dwell_of ns)%Z -> (0 < p)%Z -> (dwell_of ns <= Sub now p)%Z)) /\
  (current_path ns = PathSatellite -> ActivePathType (durable ns out) = PathTerrestrial ->
   available (evContact (evaluate w ns env)) = true -> (0 < now)%Z ->
     exists q, LastSwitchbackTime (durable ns out) = Some q /\ (q <= now)%Z /\
       (metav1_stored now <= metav1_stored q)%Z).
Proof.
  intros Hm H0. cbv zeta. unfold reconcile_live.
  destruct (evaluate_stages w ns env) as (ns1 & m & obs & Hr & Hprev & Hdec).
  assert (Hcp : current_path ns1 = current_path ns) by (by rewrite Hr).
  destruct Hr as (Hmeta & Hspec & [= Hact _ Hls _]).
  assert (Hm1 : memory_past (flapState w) (slice_key ns1) (envNow env))
    by (unfold slice_key in *; by rewrite Hmeta).
  destruct (decide_facts _ _ _ _ _ _ _ _ _ _ _ Hdec Hm1 H0) as (_ & _ & _ & _ & _ & _ & Hoff & Hon).
  set (ev := evaluate w ns env) in *.
  destruct (commit_cases w ns ev written env)
    as [(_ & Hs & _)|(_ & Hd & _)].
  { unfold durable. rewrite Hs. simpl. unfold current_path. split.
    - intros p Hp Hn. split; [exists p; repeat split; [done|done|lia]|].
      intros Hc Ha. rewrite Ha in Hc. done.
    - intros Hc Ha. rewrite Ha in Hc. done. }
  destruct (apply_decision_core (evSlice ev) (evResult ev) (envNow env)) as (_ & _ & Ha & Hl & _).
  rewrite Hd, Ha, Hl. destruct (known (evContact ev) && evReliable ev) eqn:Eon.
  - destruct (Hon eq_refl) as [Hrun _].
    destruct (engine_facts _ _ _ _ _ _ _ _ _ _ Hrun Hm1 H0)
      as (_ & _ & _ & _ & Hlegal & _ & _ & Hp & Hsw).
    rewrite Hcp in *. rewrite Hls, Hspec in *. unfold legal_transition in Hlegal. split.
    + intros p Hp1 Hp2. destruct (Hp p Hp1 Hp2) as [Hq Hdw]. split; [done|].
      intros Hc Ht Hdpos Hppos. apply Hdw; try done. rewrite Hc in Hlegal.
      destruct (decision (evResult ev)); try done; destruct Hlegal as [Hl1 _];
        rewrite Ht in Hl1; done.
    + intros Hc Ht Hav Hpos. apply Hsw; try done. rewrite Hc in Hlegal.
      destruct (decision (evResult ev)); try done; destruct Hlegal as [Hl1 _];
        rewrite Ht in Hl1; done.
  - destruct (Hoff eq_refl) as (Ens & _ & Eres). rewrite Ens, Hls, Eres, Hcp. split.
    + intros p Hp1 Hp2. split; [exists p; repeat split; [done|done|lia]|].
      intros Hc. rewrite Hc. destruct (known (evContact ev)); [|done].
      unfold EvaluateSafeHold. rewrite normalize_terrestrial. done.
    + intros Hc Ht Hav. revert Ht. rewrite Hc, Hav. by destruct (known (evContact ev)).
Qed.

(** ** Runs *)

(** A live object either could not be given its finalizer, or is evaluated
    with nothing changed but the finalizer. *)
Lemma reconcile_found w key env ns :
  envSlice env = Found ns -> deletion_set (sliceMeta ns) = false ->
  (outStatus (reconcile w key env) = None /\ outWorld (reconcile w key env) = w) \/
  exists ns' written, sliceStatus ns' = sliceStatus ns /\ sliceSpec ns' = sliceSpec ns /\
    Namespace (sliceMeta ns') = Namespace (sliceMeta ns) /\
    slice_key ns' = slice_key ns /\ reconcile w key env = live w ns' written env.
Proof.
  intros Hs Hd. unfold Reconcile. rewrite Hs. unfold handleSliceFinalizer. rewrite Hd.
  destruct (has_finalizer ns); [right; by exists ns, None|].
  destruct (envUpdateOk env); [right|by left].
  set (ns' := with_finalizers ns (Finalizers (sliceMeta ns) ++ [sliceMetricsFinalizer])%list).
  by exists ns', (Some ns').
Qed.

(** What the API server keeps of a written status: whole seconds. *)
Definition stored_status (st : NTNSliceStatus) : NTNSliceStatus :=
  mkSliceStatus (ActivePathType st) (metav1_stored <$> LastFailover st)
    (metav1_stored <$> LastSwitchbackTime st) (FailoverCount st) (AppliedQoS st)
    (StContactCandidate st) (AppliedEncryption st) (BillingMode st) (SliceConditions st).

Definition server_after (st : NTNSliceStatus) (out : Outcome (P := P)) : NTNSliceStatus :=
  match outStatus out with Some s => stored_status s | None => st end.

(** A reconcile of the slice stored with status [st], whatever its spec is by
    now, at a clock that has not gone back. *)
Definition reconciles (key : NamespacedName) (st : NTNSliceStatus) (t : Time) (env : SliceEnv)
  (ns : NTNSlice) : Prop :=
  envSlice env = Found ns /\ sliceStatus ns = st /\ slice_key ns = key /\
  deletion_set (sliceMeta ns) = false /\ (t <= envNow env)%Z.

(** Controller memory, stored status and clock; a step is a reconcile of the
    slice (its writes may fail), a reconcile of another slice, or a restart
    that loses all memory. *)
Inductive slice_step (key : NamespacedName) :
  SliceWorld (P := P) * NTNSliceStatus * Time -> SliceWorld (P := P) * NTNSliceStatus * Time -> Prop :=
| step_self w st t env ns :
    reconciles key st t env ns ->
    slice_step key (w, st, t)
      (outWorld (reconcile w key env), server_after st (reconcile w key env), envNow env)
| step_other w st t key' env :
    key' <> key -> (forall ns, envSlice env = Found ns -> slice_key ns = key') ->
    slice_step key (w, st, t) (outWorld (reconcile w key' env), st, t)
| step_restart w st t w' :
    flapState w' = ∅ -> slice_step key (w, st, t) (w', st, t).

(** Reconciling one slice leaves the memory of the others alone. *)
Lemma decide_other m ns contact metrics obs reliable now res ns' m' fl key :
  decide_path m ns contact metrics obs reliable now = (res, ns', m', fl) ->
  slice_key ns <> key -> m' !! key = m !! key /\ sliceMeta ns' = sliceMeta ns.
Proof.
  assert (Hreset : slice_key ns <> key -> resetRecoveryStreak m (slice_key ns) !! key = m !! key).
  { intros Hne. unfold resetRecoveryStreak. destruct (m !! slice_key ns); [|done].
    destruct (_ && _); [done|]. by rewrite lookup_insert_ne. }
  unfold decide_path, run_engine. intros H Hne.
  destruct (negb (known contact)); [|destruct reliable]; try (injection H as <- <- <- <-; auto).
  assert (Hload : forall u g, (loadFlapState m (slice_key ns) u g).2 !! key = m !! key).
  { intros u g. unfold loadFlapState. repeat split_match; simpl;
      by rewrite ?lookup_delete_ne, ?lookup_insert_ne by done. }
  specialize (Hload (oUID (sliceMeta ns)) (Generation (sliceMeta ns))).
  destruct (loadFlapState _ _ _ _) as [af m1], (seedLastSwitchbackFromStatus _ _ _) as [af1 st1],
    (EvaluateFailoverWithAntiFlap _ _ _ _ _ _ _ _ _ _) as [r nf].
  by injection H as <- <- <- <-.
Qed.

Lemma live_other w ns written env key :
  slice_key ns <> key -> flapState (outWorld (live w ns written env)) !! key = flapState w !! key.
Proof.
  intros Hne. unfold reconcile_live.
  destruct (evaluate_stages w ns env) as (ns1 & m & obs & (Hmeta & _) & _ & Hdec).
  apply (decide_other _ _ _ _ _ _ _ _ _ _ _ key) in Hdec as [Hm Hmeta'];
    [|unfold slice_key in *; by rewrite Hmeta].
  destruct (commit_cases w ns (evaluate w ns env) written env)
    as [(_ & _ & -> & _)|(_ & _ & -> & _)]; [done|].
  destruct (evCommit _); [|done]. unfold storeFlapState, slice_key in *.
  by rewrite Hmeta', Hmeta, lookup_insert_ne.
Qed.

Lemma reconcile_other w key' key env :
  key' <> key -> (forall ns, envSlice env = Found ns -> slice_key ns = key') ->
  flapState (outWorld (reconcile w key' env)) !! key = flapState w !! key.
Proof.
  intros Hne Hk. unfold Reconcile. destruct (envSlice env) as [ns| |e] eqn:Hs; [| |done].
  - specialize (Hk ns eq_refl). unfold handleSliceFinalizer.
    destruct (deletion_set (sliceMeta ns)).
    + unfold dropFlapState. rewrite Hk.
      destruct (has_finalizer ns); [|by simpl; rewrite lookup_delete_ne].
      destruct (ephemerisMetricReferenced _ _ _) as [[]|]; [..|by simpl; rewrite lookup_delete_ne];
        destruct (envUpdateOk env); simpl; by rewrite lookup_delete_ne.
    + destruct (has_finalizer ns); [apply live_other; congruence|].
      destruct (envUpdateOk env); [|done]. apply live_other.
      change (slice_key (with_finalizers ns _)) with (slice_key ns). congruence.
  - simpl. unfold dropFlapState. by rewrite lookup_delete_ne.
Qed.

(** The hand-back of time [since] is still on record, and nothing on record
    lies in the future. *)
Definition dwell_on_record (key : NamespacedName) (since : Time)
  (s : SliceWorld (P := P) * NTNSliceStatus * Time) : Prop :=
  let '(w, st, t) := s in
  memory_past (flapState w) key t /\ (0 < t)%Z /\
  exists p, LastSwitchbackTime st = Some p /\ (metav1_stored since <= p <= t)%Z.

Lemma memory_past_mono m key t t' : (t <= t')%Z -> memory_past m key t -> memory_past m key t'.
Proof. intros Ht H e He. specialize (H _ He). lia. Qed.

Lemma dwell_on_record_step key since s s' :
  slice_step key s s' -> dwell_on_record key since s -> dwell_on_record key since s'.
Proof.
  intros [w st t env ns Hr|w st t key' env Hne Hk|w st t w' Hw] (Hm & Ht & p & Hp & Hps);
    [|by repeat split; eauto; intros e; rewrite (reconcile_other w key' key env Hne Hk); apply Hm
     |by repeat split; eauto; intros e; rewrite Hw, lookup_empty].
  destruct Hr as (Hget & <- & <- & Hdel & Hnow).
  assert (Hm' : memory_past (flapState w) (slice_key ns) (envNow env)) by (by eapply memory_past_mono).
  unfold server_after, dwell_on_record.
  destruct (reconcile_found w (slice_key ns) env ns Hget Hdel)
    as [[-> ->]|(ns' & written & Est & _ & _ & Ekey & ->)].
  { repeat split; [done|lia|]. exists p. split; [done|lia]. }
  rewrite <- Ekey in Hm'. pose proof (live_memory w ns' written env Hm' ltac:(lia)) as Hmem.
  destruct (live_dwell w ns' written env Hm' ltac:(lia)) as [Hd _].
  rewrite Est in Hd. destruct (Hd p Hp ltac:(lia)) as [(q & Hq & Hqn & Hpq) _].
  rewrite Ekey in *. repeat split; [done|lia|].
  unfold durable in Hq. rewrite Est in Hq.
  destruct (outStatus (live w ns' written env)) as [wr|]; simpl in *.
  - exists (metav1_stored q). rewrite Hq. split; [done|]. split.
    + etrans; [|exact Hpq]. unfold metav1_stored at 1. rewrite <- (Truncate_idemp since).
      apply Truncate_mono. exact (proj1 Hps).
    + etrans; [apply metav1_stored_le|done].
  - exists p. split; [done|lia].
Qed.

Lemma stored_pos t : (Second <= t)%Z -> (0 < metav1_stored t)%Z.
Proof.
  intros H. unfold metav1_stored. apply (Z.lt_le_trans _ (Truncate Second Second)); [done|].
  by apply Truncate_mono.
Qed.

(** The hand-back itself puts its time on record. *)
Lemma handback_on_record w t env ns :
  memory_past (flapState w) (slice_key ns) t -> (0 < t)%Z -> (t <= envNow env)%Z ->
  envSlice env = Found ns -> deletion_set (sliceMeta ns) = false ->
  current_path ns = PathSatellite ->
  available (checkSatelliteAvailability
    (envEphemeris env (mkKey (Namespace (sliceMeta ns)) (EphemerisRef (sliceSpec ns)))) (envNow env)) = true ->
  ActivePathType (durable ns (reconcile w (slice_key ns) env)) = PathTerrestrial ->
  dwell_on_record (slice_key ns) (envNow env)
    (outWorld (reconcile w (slice_key ns) env),
     server_after (sliceStatus ns) (reconcile w (slice_key ns) env), envNow env).
Proof.
  intros Hm Ht Hnow Hget Hdel Hcur Hav Hback.
  assert (Hold : ActivePathType (sliceStatus ns) <> PathTerrestrial).
  { intros E. unfold current_path in Hcur. rewrite E in Hcur. done. }
  unfold server_after, durable in *.
  destruct (reconcile_found w (slice_key ns) env ns Hget Hdel)
    as [[Hn _]|(ns' & written & Est & Espec & Ensp & Ekey & Elive)].
  { rewrite Hn in Hback. done. }
  rewrite Elive in *.
  assert (Hm' : memory_past (flapState w) (slice_key ns') (envNow env))
    by (rewrite Ekey; by eapply memory_past_mono).
  pose proof (live_memory w ns' written env Hm' ltac:(lia)) as Hmem.
  destruct (live_dwell w ns' written env Hm' ltac:(lia)) as [_ Hd].
  unfold durable, current_path in *. rewrite Est in Hd. rewrite evaluate_contact, Espec, Ensp in Hd.
  destruct (Hd Hcur Hback Hav ltac:(lia)) as (q & Hq & Hqn & Hsq). rewrite Ekey in Hmem.
  destruct (outStatus (live w ns' written env)) as [wr|]; [|done]. simpl in *.
  repeat split; [done|lia|]. exists (metav1_stored q). rewrite Hq. repeat split; [done|].
  etrans; [apply metav1_stored_le|done].
Qed.

(** C3. The minimum dwell survives everything but the object. After a
    quality-driven hand-back recorded at [t1], and any number of further
    reconciles, failed writes, reconciles of other slices, spec edits and
    restarts that lose the controller's memory, a failover away from terrestrial
    that becomes durable at [t2] under a policy with minimum dwell [d] has
    waited for it: [t2] is at least [d] after [t1], up to the second the API
    server truncates timestamps to.  The clock readings of successive reconciles
    do not go back. *)
Theorem dwell_survives_restarts key w st t env1 ns1 w2 st2 t2 env2 ns2 :
  memory_past (flapState w) key t -> (0 < t)%Z ->
  (* a hand-back while the satellite was still overhead *)
  reconciles key st t env1 ns1 -> current_path ns1 = PathSatellite ->
  available (checkSatelliteAvailability
    (envEphemeris env1 (mkKey (Namespace (sliceMeta ns1)) (EphemerisRef (sliceSpec ns1)))) (envNow env1)) = true ->
  ActivePathType (durable ns1 (reconcile w key env1)) = PathTerrestrial ->
  (* whatever happens next *)
  rtc (slice_step key)
    (outWorld (reconcile w key env1), server_after st (reconcile w key env1), envNow env1) (w2, st2, t2) ->
  (* a failover *)
  reconciles key st2 t2 env2 ns2 -> current_path ns2 = PathTerrestrial ->
  ActivePathType (durable ns2 (reconcile w2 key env2)) = PathSatellite ->
  (0 < dwell_of ns2)%Z -> (Second <= envNow env1)%Z ->
  (metav1_stored (envNow env1) + dwell_of ns2 <= envNow env2)%Z.
Proof.
  intros Hm Ht (Hget & <- & <- & Hdel & Hnow) Hcur Hav Hback Hrun
    (Hget2 & Hst2 & Hkey2 & Hdel2 & Hnow2) Hcur2 Hfail Hdw Hsec.
  assert (Hrec : dwell_on_record (slice_key ns1) (envNow env1)
    (outWorld (reconcile w (slice_key ns1) env1),
     server_after (sliceStatus ns1) (reconcile w (slice_key ns1) env1), envNow env1)).
  { by apply (handback_on_record w t). }
  apply (rtc_invariant _ (dwell_on_record (slice_key ns1) (envNow env1)) _ _
           (dwell_on_record_step (slice_key ns1) (envNow env1)) Hrun) in Hrec as (Hm2 & Ht2 & p & Hp & Hps).
  assert (Hm2' : memory_past (flapState w2) (slice_key ns2) (envNow env2))
    by (rewrite Hkey2; by eapply memory_past_mono).
  assert (Hpos : (0 < metav1_stored (envNow env1))%Z) by (by apply stored_pos).
  rewrite <- Hkey2 in Hfail.
  destruct (reconcile_found w2 (slice_key ns2) env2 ns2 Hget2 Hdel2)
    as [[Hn _]|(ns' & written & Est & Espec & _ & Ekey & Elive)].
  { exfalso. unfold durable in Hfail. rewrite Hn in Hfail. simpl in Hfail.
    unfold current_path in Hcur2. rewrite Hfail in Hcur2. done. }
  rewrite Elive in Hfail. rewrite <- Ekey in Hm2'.
  destruct (live_dwell w2 ns' written env2 Hm2' ltac:(lia)) as [Hd _].
  rewrite <- Hst2 in Hp. rewrite <- Est in Hp.
  destruct (Hd p Hp ltac:(lia)) as [_ Hwait].
  unfold durable, current_path, dwell_of in *. rewrite Est, Espec in Hwait.
  specialize (Hwait Hcur2 Hfail Hdw ltac:(lia)).
  assert (Hsub : (Sub (envNow env2) p <= envNow env2 - p)%Z)
    by (unfold Sub, sat64, int64_min, int64_max; lia).
  lia.
Qed.

(** ** What the status reports *)

Lemma apply_decision_report ns res now :
  let ns' := apply_decision ns res now in
  FindStatusCondition (SliceConditions (sliceStatus ns')) ConditionFailoverReady =
    FindStatusCondition (SliceConditions (sliceStatus ns)) ConditionFailoverReady /\
  StContactCandidate (sliceStatus ns') = StContactCandidate (sliceStatus ns).
Proof.
  unfold apply_decision, applyBillingStatus, applySecurityStatus, applyQoSStatus.
  destruct (bool_decide _); repeat (split_match; simpl); repeat first [rewrite find_set | rewrite find_remove]; by repeat case_decide.
Qed.

Lemma engine_report m ns contact metrics obs reliable now res ns' m' fl :
  decide_path m ns contact metrics obs reliable now = (res, ns', m', fl) ->
  SliceConditions (sliceStatus ns') = SliceConditions (sliceStatus ns) /\
  StContactCandidate (sliceStatus ns') = StContactCandidate (sliceStatus ns).
Proof.
  unfold decide_path, run_engine. intros H.
  destruct (negb (known contact)); [|destruct reliable]; try (injection H as <- <- <- <-; auto).
  destruct (loadFlapState _ _ _ _) as [af m1].
  destruct (seedLastSwitchbackFromStatus af (sliceStatus ns) now) as [af1 st1] eqn:Hs.
  destruct (EvaluateFailoverWithAntiFlap _ _ _ _ _ _ _ _ _ _) as [r nf]. injection H as <- <- <- <-.
  unfold seedLastSwitchbackFromStatus, persistLastSwitchbackToStatus in *.
  destruct (LastSwitchbackTime (sliceStatus ns)); [destruct (After _ now); [|destruct (negb _)]|];
    injection Hs as <- <-; repeat (split_match; simpl); done.
Qed.

Lemma readiness_report ns contact m reliable ns' evs :
  report_readiness ns contact m reliable = (ns', evs) ->
  let gen := Generation (sliceMeta ns) in
  if reliable then
    FindStatusCondition (SliceConditions (sliceStatus ns')) ConditionFailoverReady =
      Some (failoverReadyCondition contact gen) /\
    StContactCandidate (sliceStatus ns') = candidate contact
  else
    FindStatusCondition (SliceConditions (sliceStatus ns')) ConditionFailoverReady =
      FindStatusCondition (SliceConditions (sliceStatus ns)) ConditionFailoverReady /\
    StContactCandidate (sliceStatus ns') = StContactCandidate (sliceStatus ns).
Proof.
  unfold report_readiness, reportInertTriggers. destruct reliable; intros H.
  - assert (Hty : cType (failoverReadyCondition contact (Generation (sliceMeta ns))) = ConditionFailoverReady)
      by (unfold failoverReadyCondition; by repeat split_match).
    destruct (length _ =? 0)%nat; injection H as <- _; simpl;
      rewrite find_set_ne by done; rewrite find_set, Hty; by case_decide.
  - injection H as <- _. simpl. by rewrite find_set_ne.
Qed.

Lemma read_report p ns now re m obs ns' evs p' :
  readPathQuality build_error_text read_error_text p ns now re = ((m, obs, false), ns', evs, p') ->
  (exists r msg, FindStatusCondition (SliceConditions (sliceStatus ns')) ConditionFailoverReady =
     Some (mkCond ConditionFailoverReady ConditionUnknown r msg (Generation (sliceMeta ns)))) /\
  StContactCandidate (sliceStatus ns') = StContactCandidate (sliceStatus ns).
Proof.
  unfold readPathQuality, setMetricsDegraded, judge_reading. intros H.
  destruct (provider_For p ns) as [[r|e] p1].
  - destruct (provider_Read p1 r ns re) as [[res|e] p2].
    + destruct (negb (Stale res)); [done|]. destruct (_ <=? metricsMaxStaleness)%Z; [done|].
      injection H as _ _ <- _ _. simpl. rewrite find_set_eq. eauto.
    + injection H as _ _ <- _ _. simpl. rewrite find_set_ne, find_set_eq by done. eauto.
  - injection H as _ _ <- _ _. simpl. rewrite find_set_ne, find_set_eq by done. eauto.
Qed.

(** What [FailoverReady] says is what was evaluated: after a successful
    reconcile with reliable metrics the condition is the verdict on the
    satellite and the reported candidate is the verdict's; with unreliable
    metrics it is Unknown for this generation, and the candidate of the last
    reliable reconcile is left in place. *)
Theorem readiness_is_reported w ns written env :
  let out := live w ns written env in
  let ev := evaluate w ns env in
  is_ok (outResult out) = true ->
  let st := durable ns out in
  let ready := FindStatusCondition (SliceConditions st) ConditionFailoverReady in
  if evReliable ev then
    ready = Some (failoverReadyCondition (evContact ev) (Generation (sliceMeta ns))) /\
    StContactCandidate st = candidate (evContact ev)
  else
    (exists r msg, ready =
       Some (mkCond ConditionFailoverReady ConditionUnknown r msg (Generation (sliceMeta ns)))) /\
    StContactCandidate st = StContactCandidate (sliceStatus ns).
Proof.
  cbv zeta. unfold reconcile_live. intros Hok.
  destruct (commit_cases w ns (evaluate w ns env) written env) as [(Hno & _)|(_ & -> & _)]; [congruence|].
  destruct (apply_decision_report (evSlice (evaluate w ns env)) (evResult (evaluate w ns env)) (envNow env))
    as [-> ->]. clear Hok. unfold evaluate_live.
  destruct (readPathQuality _ _ _ _ _ _) as [[[[[m obs] rel] ns1] evs] p] eqn:Hr.
  pose proof (read_reports _ _ _ _ _ _ _ _ Hr) as (Hmeta & _).
  destruct (report_readiness _ _ _ _) as [ns2 evs2] eqn:Hi.
  pose proof (readiness_report _ _ _ _ _ _ Hi) as Hrep. cbv zeta in Hrep.
  destruct (decide_path _ _ _ _ _ _ _) as [[[res ns3] m3] fl] eqn:Hd.
  destruct (engine_report _ _ _ _ _ _ _ _ _ _ _ Hd) as [Hc1 Hc2]. simpl. rewrite Hc1, Hc2.
  rewrite ?Hmeta in Hrep |- *. destruct rel; [done|].
  destruct (read_report _ _ _ _ _ _ _ _ _ Hr) as [Hu Hcand]. destruct Hrep as [-> ->].
  by rewrite Hcand.
Qed.

(** ** Deletion *)

(** Deleting a slice leaves nothing behind and takes nothing from others:
    once its finalizer is released, no failover series and no anti-flap entry of
    the slice remain, every other slice's series is untouched, the shared
    availability gauge of its ephemeris is dropped exactly when no other live
    slice of the namespace references that ephemeris, and the status is never
    written. *)
Theorem slice_deletion_cleans_up w key env ns :
  envSlice env = Found ns -> deletion_set (sliceMeta ns) = true -> has_finalizer ns = true ->
  let out := reconcile w key env in
  let nsp := Namespace (sliceMeta ns) in
  let ref := EphemerisRef (sliceSpec ns) in
  is_ok (outResult out) = true ->
  exists items, envList env nsp = Some items /\
    (forall from to, FailoverTotal (outWorld out) !! (nsp, Name (sliceMeta ns), from, to) = None) /\
    (forall n s from to, (n, s) <> (nsp, Name (sliceMeta ns)) ->
       FailoverTotal (outWorld out) !! (n, s, from, to) = FailoverTotal w !! (n, s, from, to)) /\
    flapState (outWorld out) !! slice_key ns = None /\
    (forall k, k <> (nsp, ref) ->
       SatellitePassAvailable (outWorld out) !! k = SatellitePassAvailable w !! k) /\
    (SatellitePassAvailable (outWorld out) !! (nsp, ref) =
       if existsb (fun s => negb (str_eqb (oUID (sliceMeta s)) (oUID (sliceMeta ns)))
                            && negb (deletion_set (sliceMeta s))
                            && str_eqb (EphemerisRef (sliceSpec s)) ref) items
       then SatellitePassAvailable w !! (nsp, ref) else None) /\
    outStatus out = None /\
    exists ns', outObject out = Some ns' /\ has_finalizer ns' = false.
Proof.
  intros Hs Hd Hf. cbv zeta. unfold Reconcile. rewrite Hs. unfold handleSliceFinalizer. rewrite Hd, Hf.
  unfold ephemerisMetricReferenced. destruct (envList env _) as [items|]; [|done].
  intros Hok. exists items. split; [done|].
  set (shared := existsb _ items) in *.
  replace (existsb _ items) with shared by
    (unfold shared; clear; induction items as [|x l IH]; simpl; [done|]; by rewrite IH, negb_orb).
  destruct (envUpdateOk env); [|done].
  repeat match goal with |- _ /\ _ => split end.
  - intros from to. destruct shared; apply map_lookup_filter_None; right; intros x Hx; simpl; tauto.
  - intros n s from to Hne. assert (Hn : ~ (n = Namespace (sliceMeta ns) /\ s = Name (sliceMeta ns)))
      by (intros [-> ->]; done).
    destruct shared; simpl; apply option_eq; intros x; rewrite map_lookup_filter_Some; simpl; tauto.
  - destruct shared; simpl; unfold dropFlapState; by rewrite lookup_delete_eq.
  - intros k Hk. destruct shared; simpl; [done|]. by rewrite lookup_delete_ne.
  - destruct shared; simpl; [done|]. by rewrite lookup_delete_eq.
  - done.
  - eexists. split; [done|]. apply bool_decide_eq_false. simpl.
    rewrite elem_of_filter_bool, str_eqb_refl. by intros [? _].
Qed.

End Safety.

(** ** A concrete slice *)

Definition demo_provider : metricsReaderProvider Provider :=
  slicemetrics_provider id (fun _ => None) (fun _ => false) (fun _ _ _ _ => None).

Definition demo_slice (rsrp path : string) (handback : option Time) (finalizer : bool)
  (deleting : option Time) : NTNSlice :=
  mkSlice
    (mkMeta "default" "s" "uid-1" 1 deleting
       (if finalizer then [sliceMetricsFinalizer] else []) {[annotationRSRP := rsrp]})
    (mkSliceSpec "t" (mkPath "p" "" "primary") (mkSatellitePath (mkPath "q" "" "failover") "eph") (mkFailoverPolicy ["rsrp < -110"] 0 true "" None (60 * Second)) None None None None)
    (mkSliceStatus path None handback 0 "" None "" "" []).

Definition demo_contact (up : bool) : NamespacedName -> GetResult SatelliteEphemeris := fun _ =>
  Found (mkEphemeris (mkMeta "default" "eph" "u" 1 None [] ∅)
    (if up then [mkWindow "A" 0 "gs" (at_s 0) (at_s 900)] else []) []
    [mkCond ConditionPassesPredicted ConditionTrue "ok" "" 1]).

Definition demo_env (ns : NTNSlice) (up : bool) (now : Time) : SliceEnv :=
  mkSliceEnv (Found ns) (demo_contact up) (fun _ => Some [ns]) true true now
    (mkReadEnv None None now now).

Definition demo_world (m : gmap NamespacedName flapStateEntry) : SliceWorld (P := Provider) :=
  mkWorld m (NewProvider (NewClientPool []) (mkAllow []))
    {[("default", "s", PathTerrestrial, PathSatellite) := 3%Z]} ∅ [].

Definition demo_key : NamespacedName := mkKey "default" "s".

Abbreviation demo_reconcile :=
  (@Reconcile list_conditions Provider demo_provider (fun _ => "") (fun _ => "")).

Lemma effects_follow_durable_write_witness :
  FailoverTotal (outWorld (@reconcile_live list_conditions Provider demo_provider
    (fun _ => "") (fun _ => "") (demo_world ∅) (demo_slice "-120" "" None true None) None
    (demo_env (demo_slice "-120" "" None true None) true (at_s 10))))
  !! ("default", "s", PathTerrestrial, PathSatellite) = Some 4%Z.
Proof.
  pose proof (@effects_follow_durable_write list_conditions Provider demo_provider
    (fun _ => "") (fun _ => "") (demo_world ∅) (demo_slice "-120" "" None true None) None
    (demo_env (demo_slice "-120" "" None true None) true (at_s 10))
    (memory_past_empty _ _) ltac:(vm_compute; congruence)) as H.
  cbv zeta in H. match type of H with if ?b then _ else _ =>
    assert (Hb : b = true) by (vm_compute; reflexivity); rewrite Hb in H end.
  destruct H as (_ & _ & H & _).
  etrans; [exact (f_equal (lookup _) H)|]. vm_compute. reflexivity.
Defined.

(** The provider cannot build a reader for an unknown source type: the path is
    held although a satellite is overhead and the pass has not ended. *)
Definition demo_unreliable : NTNSlice :=
  mkSlice (sliceMeta (demo_slice "-120" "" None true None))
    (mkSliceSpec "t" (mkPath "p" "" "primary") (mkSatellitePath (mkPath "q" "" "failover") "eph") (mkFailoverPolicy ["rsrp < -110"] 0 true "" None (60 * Second)) None None None
       (Some (mkSource "carrier-pigeon" None)))
    (sliceStatus (demo_slice "-120" "" None true None)).

Lemma unreliable_holds_path_witness :
  FailoverCount (@durable Provider demo_unreliable
    (@reconcile_live list_conditions Provider demo_provider (fun _ => "") (fun _ => "")
       (demo_world ∅) demo_unreliable None (demo_env demo_unreliable true (at_s 10)))) = 0%Z.
Proof.
  apply (@unreliable_holds_path list_conditions Provider demo_provider (fun _ => "") (fun _ => "")
    (demo_world ∅) demo_unreliable None (demo_env demo_unreliable true (at_s 10))).
  - apply memory_past_empty.
  - vm_compute. congruence.
  - vm_compute. reflexivity.
Defined.

(** The candidate of an earlier reconcile stays although readiness is Unknown. *)
Lemma readiness_is_reported_witness :
  let cc := buildContactCandidate (mkWindow "A" 0 "gs" (at_s 0) (at_s 5)) None in
  let ns := with_status demo_unreliable (set_candidate (sliceStatus demo_unreliable) (Some cc)) in
  StContactCandidate (@durable Provider ns
    (@reconcile_live list_conditions Provider demo_provider (fun _ => "") (fun _ => "")
       (demo_world ∅) ns None (demo_env ns false (at_s 10)))) = Some cc.
Proof.
  cbv zeta.
  set (cc := buildContactCandidate (mkWindow "A" 0 "gs" (at_s 0) (at_s 5)) None).
  set (ns := with_status demo_unreliable (set_candidate (sliceStatus demo_unreliable) (Some cc))).
  pose proof (@readiness_is_reported list_conditions Provider demo_provider (fun _ => "") (fun _ => "")
    (demo_world ∅) ns None (demo_env ns false (at_s 10))
    ltac:(vm_compute; reflexivity)) as H.
  exact (proj2 H).
Defined.

Lemma slice_deletion_cleans_up_witness :
  let ns := demo_slice "-80" "" None true (Some 1%Z) in
  FailoverTotal (outWorld (demo_reconcile (demo_world ∅) demo_key (demo_env ns true (at_s 10))))
    !! ("default", "s", PathTerrestrial, PathSatellite) = None.
Proof.
  cbv zeta.
  destruct (@slice_deletion_cleans_up list_conditions Provider demo_provider (fun _ => "") (fun _ => "")
    (demo_world ∅) demo_key (demo_env (demo_slice "-80" "" None true (Some 1%Z)) true (at_s 10))
    (demo_slice "-80" "" None true (Some 1%Z)))
    as (items & _ & H & _); [reflexivity..|vm_compute; reflexivity|]. apply H.
Defined.

(** Hand-back at second 100, restart, failover at second 160. *)
Lemma dwell_survives_restarts_witness :
  (metav1_stored (at_s 100) + 60 * Second <= at_s 160)%Z.
Proof.
  set (ns1 := demo_slice "-80" PathSatellite None true None).
  set (env1 := demo_env ns1 true (at_s 100)).
  set (out1 := demo_reconcile (demo_world ∅) demo_key env1).
  set (ns2 := with_status (demo_slice "-120" "" None true None)
    (@server_after Provider (sliceStatus ns1) out1)).
  apply (@dwell_survives_restarts list_conditions Provider demo_provider (fun _ => "") (fun _ => "")
    demo_key (demo_world ∅) (sliceStatus ns1) (at_s 50) env1 ns1
    (demo_world ∅) (sliceStatus ns2) (at_s 100) (demo_env ns2 true (at_s 160)) ns2).
  - apply memory_past_empty.
  - vm_compute. reflexivity.
  - repeat split. vm_compute. congruence.
  - reflexivity.
  - vm_compute. reflexivity.
  - vm_compute. reflexivity.
  - apply rtc_once.
    exact (@step_restart list_conditions Provider demo_provider (fun _ => "") (fun _ => "")
      demo_key (outWorld out1) (@server_after Provider (sliceStatus ns1) out1) (at_s 100)
      (demo_world ∅) eq_refl).
  - repeat split. vm_compute. congruence.
  - vm_compute. reflexivity.
  - vm_compute. reflexivity.
  - vm_compute. reflexivity.
  - vm_compute. congruence.
Defined.
