(* ===== verification/SliceAdmission.v ===== *)
(** * Admission of NTNSlice resources

    The validation markers of [src/api/v1alpha1/ntnslice_types.go] as executable
    rules, and what they buy the failover engine: a policy that is admitted is one
    the engine can act on, with no trigger skipped and no margin ignored. *)

From S2P Require Import Prelude GoStrings GoRegexp GoTime GoFloat GoDecimal Schema Failover AntiFlap K8sMeta SliceApi MetricsReaders SliceController.
From Stdlib Require Import Ascii.
Local Open Scope string_scope.
Local Arguments String.append !_ _ /.

(** ** The rules *)

(** The expression of the trigger rule:
    [^ *(rsrp|...) *(<=|>=|<|>) *[-+]?([0-9]{1,10}([.][0-9]{1,10})?|[.][0-9]{1,10})([eE][-+]?[0-9]{1,2})? *$]. *)
Definition RBlanks : regex := RStar (RClass is_blank).
Definition RSign : regex := ROpt (RAlt (RChar "-") (RChar "+")).
Definition RFraction : regex := RCat (RChar ".") (RBetween 1 10 RDigit).

Definition trigger_number_re : regex :=
  RAlt (RCat (RBetween 1 10 RDigit) (ROpt RFraction)) RFraction.

Definition trigger_exponent_re : regex :=
  ROpt (RCat (RAlt (RChar "e") (RChar "E")) (RCat RSign (RBetween 1 2 RDigit))).

Definition trigger_metrics : list string :=
  ["rsrp"; "latency"; "packetLoss"; "terrestrialRSRP"; "terrestrialLatency"; "terrestrialPacketLoss"].

Definition trigger_re : regex :=
  RCat RBlanks (RCat (ROneOf trigger_metrics) (RCat RBlanks (RCat (ROneOf ["<="; ">="; "<"; ">"])
    (RCat RBlanks (RCat RSign (RCat trigger_number_re (RCat trigger_exponent_re RBlanks))))))).

(** [duration(self) >= duration('0s') && duration(self) <= duration('24h')]. *)
Definition admit_delay (d : Duration) : bool := InRange 0 (24 * Hour) d.

Definition admit_FailoverPolicy (fp : FailoverPolicy) : bool :=
  forallb (matchString trigger_re) (Triggers fp) &&
  MinItems 1 (Triggers fp) && MaxItems 10 (Triggers fp) &&
  forallb (MaxLength 64) (Triggers fp) && bool_decide (NoDup (Triggers fp)) &&
  admit_delay (SwitchbackDelay fp) &&
  present_str (fun s => matchString decimal_re s && MaxLength 32 s) (HysteresisMargin fp) &&
  present (InRange 1 10) (FpConfirmationSamples fp) &&
  admit_delay (FpMinTerrestrialDwell fp).

Definition admit_PathSpec (p : PathSpec) : bool :=
  MinLength 1 (PathProvider p) && MaxLength 253 (PathProvider p) &&
  MaxLength 253 (APN p) && Enum ["primary"; "failover"] (Priority p).

Definition admit_SatellitePathSpec (p : SatellitePathSpec) : bool :=
  admit_PathSpec (satPath p) && MinLength 1 (spEphemerisRef p) && MaxLength 253 (spEphemerisRef p).

(** [size] of CEL counts characters; a text of size zero is the empty one. *)
Definition admit_PrometheusQueries (q : PrometheusQueries) : bool :=
  MaxLength 1024 (qRsrpDbm q) && MaxLength 1024 (qLatencyMs q) && MaxLength 1024 (qPacketLossPercent q).

Definition admit_PrometheusMetricsSource (p : PrometheusMetricsSource) : bool :=
  (MinLength 1 (qRsrpDbm (PromQueries p)) || MinLength 1 (qLatencyMs (PromQueries p)) ||
   MinLength 1 (qPacketLossPercent (PromQueries p))) &&
  matchString http_re (Endpoint p) && MinLength 1 (Endpoint p) && MaxLength 2048 (Endpoint p) &&
  admit_PrometheusQueries (PromQueries p).

(** The type is defaulted to [annotations], so it is never empty. *)
Definition admit_MetricsSource (m : MetricsSource) : bool :=
  Enum [MetricsSourceAnnotations; MetricsSourcePrometheus] (SourceType m) &&
  (negb (str_eqb (SourceType m) MetricsSourcePrometheus) || is_some (Prometheus m)) &&
  present admit_PrometheusMetricsSource (Prometheus m).

Definition admit_QoSMapping (q : QoSMapping) : bool :=
  present_int (InRange 1 255) (Terrestrial5QI q) &&
  Enum ["conversational"; "streaming"; "interactive"; "background"; "best-effort"] (SatelliteQCI q).

Definition admit_SecurityPolicy (s : SecurityPolicy) : bool :=
  Enum ["AES-128"; "AES-256"; "SNOW3G"; "ZUC"] (EncryptionLevel s) &&
  Enum ["re-authenticate"; "continue"] (AuthOnHandover s).

Definition admit_BillingSpec (b : BillingSpec) : bool :=
  present_str (Enum ["per-volume"; "per-time"; "flat"]) (TerrestrialRate b) &&
  present_str (Enum ["per-volume"; "per-time"; "per-minute"; "flat"]) (SatelliteRate b).

Definition admit_NTNSliceSpec (s : NTNSliceSpec) : bool :=
  str_eqb (Priority (TerrestrialPath s)) "primary" &&
  str_eqb (Priority (satPath (SatellitePath s))) "failover" &&
  MinLength 1 (Tenant s) && MaxLength 253 (Tenant s) &&
  admit_PathSpec (TerrestrialPath s) && admit_SatellitePathSpec (SatellitePath s) &&
  admit_FailoverPolicy (SliceFailoverPolicy s) &&
  present admit_QoSMapping (SliceQoS s) && present admit_SecurityPolicy (SliceSecurity s) &&
  present admit_BillingSpec (SliceBilling s) && present admit_MetricsSource (SliceMetricsSource s).

(** ** The parts of an admitted trigger *)

Lemma blanks_no_angle b : str_all is_blank b = true -> str_all no_angle b = true.
Proof. apply str_all_impl. by intros c E%Ascii.eqb_eq; subst c. Qed.

Lemma num_no_angle s : str_all num_char s = true -> str_all no_angle s = true.
Proof. apply str_all_impl. by intros [[] [] [] [] [] [] [] []]. Qed.

Lemma sign_matches s : matches RSign s -> s ∈ signs.
Proof.
  intros [->|[H%matches_char|H%matches_char]%matches_alt]%matches_opt; subst; unfold signs; set_solver.
Qed.

Lemma fraction_matches s :
  matches RFraction s ->
  exists fp, s = "." +:+ fp /\ str_all is_digit fp = true /\ 1 <= String.length fp <= 10.
Proof.
  intros (d & fp & -> & E%matches_char & H)%matches_cat. subst d.
  apply matches_between_class in H as [Hd Hl]; [|lia]. by exists fp.
Qed.

Lemma exponent_matches s :
  matches trigger_exponent_re s ->
  exists x, s = exp_text x /\
    forall c sg ds, x = Some (c, sg, ds) ->
      (c = "e"%char \/ c = "E"%char) /\ sg ∈ signs /\ str_all is_digit ds = true /\
      1 <= String.length ds <= 2.
Proof.
  intros [->|(c & r & -> & Hc & (sg & ds & -> & Hs%sign_matches & Hd)%matches_cat)%matches_cat]%matches_opt;
    [by exists None|].
  apply matches_between_class in Hd as [Hd Hl]; [|lia].
  apply matches_alt in Hc as [Hc%matches_char|Hc%matches_char]; subst c;
    [exists (Some ("e"%char, sg, ds))|exists (Some ("E"%char, sg, ds))];
    (split; [done|]); intros ? ? ? [= <- <- <-]; auto.
Qed.

(** The number of a trigger is a literal of at most twenty digits and a short exponent. *)
Lemma trigger_value_literal sg n x :
  matches RSign sg -> matches trigger_number_re n -> matches trigger_exponent_re x ->
  exists l, sg +:+ n +:+ x = literal_text l /\ literal_ok l /\
    String.length (lInt l) + String.length (lFrac l) <= 20 /\ (exp_len l <= 2)%Z.
Proof.
  intros Hs%sign_matches Hn (e & -> & He)%exponent_matches.
  assert (exists (ip : string) (dot : bool) (fp : string), n = ip +:+ (if dot then "." else "") +:+ fp /\
    str_all is_digit ip = true /\ str_all is_digit fp = true /\ (dot = false -> fp = "") /\
    (ip <> "" \/ fp <> "") /\ String.length ip <= 10 /\ String.length fp <= 10)
    as (ip & dot & fp & -> & Hi & Hf & Hd & Hne & L1 & L2).
  { apply matches_alt in Hn as [(ip & r & -> & Hi & Hr)%matches_cat|(fp & -> & Hf & Hl)%fraction_matches].
    - apply matches_between_class in Hi as [Hi Hl]; [|lia].
      assert (ip <> "") by (destruct ip; [cbn in Hl; lia|done]).
      apply matches_opt in Hr as [->|(fp & -> & Hf & Hl')%fraction_matches].
      + exists ip, false, "". rewrite !app_str_nil_r. split_and!; try done; [auto|lia|cbn; lia].
      + exists ip, true, fp. split_and!; try done; [auto|lia|lia].
    - exists "", true, fp. split_and!; try done; [|cbn; lia|lia].
      right. destruct fp; [cbn in Hl; lia|done]. }
  exists (mkLiteral sg ip dot fp e). unfold literal_text. cbn. rewrite <- !app_str_assoc.
  split_and!; [done| |lia|].
  - constructor; cbn; try done. intros c sg' ds E. destruct (He c sg' ds E) as (? & ? & ? & ?).
    split_and!; try done. destruct ds; [cbn in *; lia|done].
  - unfold exp_len. cbn. destruct e as [[[c sg'] ds]|]; [|done].
    destruct (He c sg' ds eq_refl) as (? & ? & ? & ?). lia.
Qed.

(** ** Where the engine splits an admitted trigger *)

Definition not_equals (s : string) : bool :=
  match s with String c _ => negb (Ascii.eqb c "=") | "" => true end.

(** The character [c] of an operator is found right behind a text without brackets. *)
Lemma cut_behind c sep pre tail :
  c = "<"%char \/ c = ">"%char -> str_all no_angle pre = true ->
  cut (String c sep) (pre +:+ tail) =
  match cut (String c sep) tail with
  | Some (before, rest) => Some (pre +:+ before, rest)
  | None => None
  end.
Proof. intros Hc Hp. apply cut_skip. by apply no_angle_skip. Qed.

Lemma cut_cons sep c s :
  cut sep (String c s) =
  match strip_prefix sep (String c s) with
  | Some rest => Some ("", rest)
  | None => match cut sep s with Some (before, rest) => Some (String c before, rest) | None => None end
  end.
Proof. by destruct sep. Qed.

Lemma strip_cons a p b s :
  strip_prefix (String a p) (String b s) = if Ascii.eqb a b then strip_prefix p s else None.
Proof. done. Qed.

Lemma split_at_trigger_operator pre op post :
  op ∈ trigger_operators -> str_all no_angle pre = true -> str_all no_angle post = true ->
  not_equals post = true ->
  let s := pre +:+ op +:+ post in
  parse_operators trigger_operators s = parse_parts s op pre post.
Proof.
  intros Hop Hpre Hpost Hne s. unfold trigger_operators in *. cbn [parse_operators].
  unfold SplitN2, s.
  rewrite (cut_behind "<"%char "="), (cut_behind ">"%char "="),
    (cut_behind "<"%char ""), (cut_behind ">"%char "") by auto.
  assert (strip_prefix "=" post = None) as Hs.
  { destruct post as [|c post]; [done|]. cbn in Hne. apply negb_true_iff in Hne.
    rewrite strip_cons, Ascii.eqb_sym, Hne. done. }
  assert (forall t, strip_prefix "" t = Some t) as Ht by done.
  rewrite !elem_of_cons in Hop; destruct Hop as [->|[->|[->|[->|Hop]]]];
    [..|by apply elem_of_nil in Hop]; cbn [String.append];
    rewrite !cut_cons, !strip_cons, ?Hs, ?Ht;
    rewrite ?(cut_no_angle "<"%char), ?(cut_no_angle ">"%char) by auto;
    cbn [Ascii.eqb Bool.eqb]; rewrite ?Ht, ?Hs; by rewrite ?app_str_nil_r.
Qed.

Lemma num_graphic s : str_all num_char s = true -> hd_graphic s = true /\ last_graphic s = true.
Proof.
  intros Hs. assert (Hg : forall c, num_char c = true -> is_graphic c = true) by by intros [[] [] [] [] [] [] [] []].
  assert (forall t, str_all num_char t = true -> hd_graphic t = true) as Hh.
  { intros [|c t]; [done|]. cbn. intros [Hc _]%andb_true_iff. auto. }
  split; [auto|]. apply Hh. clear Hh. induction s as [|c s IH]; [done|]. cbn in Hs.
  apply andb_true_iff in Hs as [Hc Hs]. rewrite rev_string_cons, str_all_app, IH by done. cbn. by rewrite Hc.
Qed.

Lemma literal_nonempty l : literal_ok l -> literal_text l <> "".
Proof.
  intros Hl. unfold literal_text. fold (body_text l). destruct (body_head l Hl) as (c & s & -> & _).
  by destruct (lSign l).
Qed.

(** Behind an operator there is a blank, a sign, a digit or a point. *)
Lemma blanks_then_number b v :
  str_all is_blank b = true -> str_all num_char v = true -> not_equals (b +:+ v) = true.
Proof.
  assert (forall c, is_blank c || num_char c = true -> Ascii.eqb c "=" = false) as Hc
    by by intros [[] [] [] [] [] [] [] []].
  destruct b as [|c b]; cbn.
  - intros _. destruct v as [|c v]; [done|]. cbn. intros [E _]%andb_true_iff.
    by rewrite Hc; [|rewrite E, orb_true_r].
  - intros [E _]%andb_true_iff _. by rewrite Hc; [|rewrite E].
Qed.

Lemma metric_valid m : m ∈ trigger_metrics -> m ∈ validMetrics.
Proof. unfold trigger_metrics, validMetrics. set_solver. Qed.

(** An admitted trigger is parsed, whatever the blanks in it. *)
Lemma admitted_trigger_parses s :
  matchString trigger_re s = true -> exists t, ParseTrigger s = Ok t.
Proof.
  intros H%matchString_spec. unfold trigger_re in H.
  apply matches_cat in H as (b1 & r1 & -> & H1%matches_star_class & H).
  apply matches_cat in H as (m & r2 & -> & Hm%matches_one_of%metric_valid & H).
  apply matches_cat in H as (b2 & r3 & -> & H2%matches_star_class & H).
  apply matches_cat in H as (op & r4 & -> & Hop%matches_one_of & H).
  apply matches_cat in H as (b3 & r5 & -> & H3%matches_star_class & H).
  apply matches_cat in H as (sg & r6 & -> & Hsg & H).
  apply matches_cat in H as (n & r7 & -> & Hn & H).
  apply matches_cat in H as (x & b4 & -> & Hx & H4%matches_star_class).
  destruct (trigger_value_literal sg n x Hsg Hn Hx) as (l & El & Hl & Hlen & Hexp).
  destruct (ParseFloat_literal l Hl) as (f & Hp & Hf & _); [lia|done|].
  pose proof (literal_chars l Hl) as Hv. destruct (num_graphic _ Hv) as [Hh Ht].
  pose proof (literal_nonempty l Hl) as Hne. destruct (valid_metric_text m Hm) as (Ma & Mh & Ml & Mn).
  set (v := literal_text l) in *.
  assert (b1 +:+ m +:+ b2 +:+ op +:+ b3 +:+ sg +:+ n +:+ x +:+ b4 =
    b1 +:+ (m +:+ b2 +:+ op +:+ b3 +:+ v) +:+ b4) as ->.
  { rewrite <- El. by rewrite <- !app_str_assoc. }
  unfold ParseTrigger. rewrite TrimSpace_blanks; [|done|done|by apply hd_graphic_app| |by destruct m].
  2: { rewrite (app_str_assoc b2), (app_str_assoc _ b3), (app_str_assoc m). by apply last_graphic_app. }
  rewrite (app_str_assoc m b2). rewrite split_at_trigger_operator; [|done| | |].
  - unfold parse_parts. assert (TrimSpace (m +:+ b2) = m) as -> by by apply (TrimSpace_blanks "" m b2).
    assert (TrimSpace (b3 +:+ v) = v) as ->.
    { pose proof (TrimSpace_blanks b3 v "") as E. rewrite app_str_nil_r in E. by apply E. }
    rewrite Hp.
    unfold is_finite in Hf. apply andb_true_iff in Hf as [->%negb_true_iff ->%negb_true_iff]. cbn.
    rewrite (proj2 (str_eqb_neq m "") Mn), bool_decide_eq_true_2 by done. eauto.
  - by rewrite str_all_app, Ma, blanks_no_angle.
  - by rewrite str_all_app, blanks_no_angle, num_no_angle.
  - by apply blanks_then_number.
Qed.

(** ** What admission guarantees the engine *)

Lemma counted_errors_none l m :
  (forall s, s ∈ l -> exists t, ParseTrigger s = Ok t) -> counted_errors l m = 0%Z.
Proof.
  induction l as [|s l IH]; intros H; [done|]. cbn [counted_errors].
  destruct (H s) as [t Ht]; [set_solver|]. rewrite Ht.
  rewrite IH by (intros; apply H; set_solver). by repeat split_match.
Qed.

(** A set whose triggers all parse is neither invalid nor annotated with errors. *)
Lemma clean_trigger_set l m :
  (forall s, s ∈ l -> exists t, ParseTrigger s = Ok t) ->
  allInvalid (parseTriggerSet l m) = false /\ parseSuffix (parseTriggerSet l m) = "".
Proof.
  intros H. unfold parseTriggerSet. rewrite trigger_set_fold, counted_errors_none by done.
  cbn. by rewrite andb_false_r.
Qed.

(** An admitted margin is read as it is written. *)
Lemma admitted_margin s :
  present_str (fun s => matchString decimal_re s && MaxLength 32 s) s = true ->
  s = "" \/ exists f, ParseFloat s = Ok f /\ parse_margin s = f /\ is_finite f = true /\ f_lt f f_zero = false.
Proof.
  unfold present_str. intros [E%str_eqb_eq|[H1 H2]%andb_true_iff]%orb_true_iff; [by left|].
  destruct (decimal_parses s 32 H1 H2) as (f & Hp & Hf & Hn); [lia|]. right. exists f.
  split_and!; try done. unfold parse_margin. rewrite Hp. destruct (str_eqb s "") eqn:E.
  - apply str_eqb_eq in E. by subst s.
  - unfold is_finite in Hf. apply andb_true_iff in Hf as [->%negb_true_iff ->%negb_true_iff]. by rewrite Hn.
Qed.

(** The triggers a list that parses stands for. *)
Lemma parsed_all l :
  (forall s, s ∈ l -> exists t, ParseTrigger s = Ok t) ->
  Forall2 (fun s t => ParseTrigger s = Ok t) l (valid_triggers l).
Proof.
  induction l as [|s l IH]; intros H; [constructor|]. rewrite valid_triggers_cons.
  destruct (H s) as [t Ht]; [by left|]. rewrite Ht. constructor; [done|]. apply IH. intros x Hx. apply H. by right.
Qed.

(** What the engine makes of triggers that all parse: the ones whose metric has
    a source are evaluated, in order; the others make the set partly unknown. *)
Record acts_on (ts : list Trigger) (m : Metrics) (r : triggerSetResult) : Prop := {
  ao_parsed : parsed r = List.filter (fun t => negb (metricMissing t m)) ts;
  ao_fires : anyTriggered r = true <-> exists t, t ∈ ts /\ metricMissing t m = false /\ Evaluate t m = true;
  ao_unknown : hasUnknownTrigger r = true <-> exists t, t ∈ ts /\ metricMissing t m = true;
  ao_valid : allInvalid r = false;
  ao_suffix : parseSuffix r = ""
}.

Lemma parsed_acts_on l m :
  (forall s, s ∈ l -> exists t, ParseTrigger s = Ok t) -> acts_on (valid_triggers l) m (parseTriggerSet l m).
Proof.
  intros H. destruct (clean_trigger_set l m H) as [Hv Hs].
  destruct (parseTriggerSet_fields l m) as (H1 & H2 & H3 & _). split; [done| | |done|done].
  - rewrite H2. unfold some_fires, live_triggers. rewrite existsb_exists. setoid_rewrite <- list_elem_of_In.
    setoid_rewrite elem_of_filter_bool. setoid_rewrite negb_true_iff. naive_solver.
  - rewrite H3. unfold some_unknown. rewrite existsb_exists. by setoid_rewrite <- list_elem_of_In.
Qed.

(** C21. A failover policy that passes the schema is one the engine acts on as it
    is written: every trigger parses; for any metrics the engine evaluates, in
    order, exactly the triggers whose metric has a source, reports a failing
    link precisely when one of these fires, reports an unknown one precisely when
    some trigger's metric has no source (that trigger is left out), and never
    calls the set invalid or partly unparsable; a hysteresis margin that is set is
    used with the value written, which is finite and not negative; the
    confirmation count and both delays are within their documented bounds. *)
Theorem admitted_policy_is_effective fp :
  admit_FailoverPolicy fp = true ->
  (exists ts, Forall2 (fun s t => ParseTrigger s = Ok t) (Triggers fp) ts /\
     forall m, acts_on ts m (parseTriggerSet (Triggers fp) m)) /\
  (HysteresisMargin fp <> "" ->
     ParseFloat (HysteresisMargin fp) = Ok (parse_margin (HysteresisMargin fp))) /\
  is_finite (parse_margin (HysteresisMargin fp)) = true /\
  f_lt (parse_margin (HysteresisMargin fp)) f_zero = false /\
  (0 <= ConfirmationSamples (antiflap_config fp) <= 10)%Z /\
  (0 <= SwitchbackDelay fp <= 24 * Hour)%Z /\
  (0 <= MinTerrestrialDwell (antiflap_config fp) <= 24 * Hour)%Z.
Proof.
  intros H. unfold admit_FailoverPolicy in H. rewrite !andb_true_iff in H.
  destruct H as ((((((((Ht & _) & _) & _) & _) & Hd) & Hm) & Hc) & Hw).
  assert (Hall : forall s, s ∈ Triggers fp -> exists t, ParseTrigger s = Ok t).
  { intros s Hs. apply admitted_trigger_parses. rewrite forallb_forall in Ht.
    by apply Ht, list_elem_of_In. }
  apply InRange_spec in Hd. apply InRange_spec in Hw.
  assert (0 <= ConfirmationSamples (antiflap_config fp) <= 10)%Z.
  { cbn. destruct (FpConfirmationSamples fp) as [n|]; [|lia]. cbn in Hc. apply InRange_spec in Hc. lia. }
  split; [exists (valid_triggers (Triggers fp)); split; [by apply parsed_all|intros m; by apply parsed_acts_on]|].
  split; [intros Hne; destruct (admitted_margin _ Hm) as [Hz|(f & -> & -> & _)]; done|].
  destruct (admitted_margin _ Hm) as [->|(f & _ & -> & Hf & Hn)]; 
    split_and!; first [done | lia | apply Hw].
Qed.

Definition demo_policy : FailoverPolicy :=
  mkFailoverPolicy ["rsrp < -120"; "  packetLoss>=2.5e1 "] (60 * Second) true "12.5" (Some 3%Z) 0.

Lemma admitted_policy_is_effective_witness :
  admit_FailoverPolicy demo_policy = true /\
  ParseFloat "12.5" = Ok (parse_margin "12.5") /\
  allInvalid (parseTriggerSet (Triggers demo_policy) (mkMetrics f_zero f_zero f_zero true true true)) = false.
Proof.
  assert (H : admit_FailoverPolicy demo_policy = true) by (vm_compute; reflexivity).
  destruct (admitted_policy_is_effective demo_policy H) as ((ts & _ & Hs) & Hm & _).
  split; [exact H|]. split; [by apply Hm|]. apply (Hs (mkMetrics f_zero f_zero f_zero true true true)).
Defined.

(** The rule is the stricter of the two grammars: the engine also reads these. *)
Example stricter_than_the_engine :
  map (fun s => (matchString trigger_re s, is_ok (ParseTrigger s)))
    ["rsrp < 0x1p4"; "rsrp < 120."; "rsrp < 1_000"; "rsrp < 12345678901"; "rsrp < nan"; "rsrp = 3"] =
  [(false, true); (false, true); (false, true); (false, true); (false, false); (false, false)].
Proof. vm_compute. reflexivity. Qed.

Lemma minlength_nonempty s : MinLength 1 s = true -> s <> "".
Proof. by destruct s. Qed.

(** The source of an admitted slice that is stored (it has a UID) is one the
    readers know: annotations, or a Prometheus block with an HTTP endpoint and
    at least one query, so that a reading has at least one measured metric. *)
Theorem admitted_source_selects ns :
  admit_NTNSliceSpec (sliceSpec ns) = true -> oUID (sliceMeta ns) <> "" ->
  exists o, select_source ns = Ok o /\
    forall prom, o = Some prom ->
      (qRsrpDbm (PromQueries prom) <> "" \/ qLatencyMs (PromQueries prom) <> "" \/
       qPacketLossPercent (PromQueries prom) <> "") /\ matches http_re (Endpoint prom).
Proof.
  intros H Hu. unfold admit_NTNSliceSpec in H. apply andb_true_iff in H as [_ H].
  unfold select_source. destruct (SliceMetricsSource (sliceSpec ns)) as [src|]; [|by exists None].
  cbn in H. unfold admit_MetricsSource in H. apply andb_true_iff in H as [[He Hp]%andb_true_iff Hb].
  apply Enum_spec in He. rewrite !elem_of_cons, elem_of_nil in He.
  destruct He as [E|[E|[]]]; rewrite E in *; [by exists None|].
  change (str_eqb MetricsSourcePrometheus MetricsSourcePrometheus) with true in Hp. cbn in Hp |- *.
  destruct (Prometheus src) as [prom|]; [|done]. apply str_eqb_neq in Hu. rewrite Hu.
  eexists. split; [done|]. intros ? [= <-]. cbn in Hb. unfold admit_PrometheusMetricsSource in Hb.
  rewrite !andb_true_iff, !orb_true_iff in Hb.
  destruct Hb as ((((Hq & Hend) & _) & _) & _). split; [|by apply matchString_spec].
  destruct Hq as [[?|?]|?]; auto using minlength_nonempty.
Qed.
