(* ===== verification/Maintenance.v ===== *)
(** * Package lifecycle: maintenance windows

    Models [src/pkg/lifecycle/maintenance_window.go]: the window text
    ["HH:MM-HH:MM UTC"], its regular expression, the parsed bounds and the test
    whether a moment lies inside, midnight wraparound included. *)

From S2P Require Import Prelude GoStrings GoTime.
From Stdlib Require Import Ascii.
Local Open Scope string_scope.
Local Arguments String.append !_ _ /.

Inductive window_error :=
| InvalidFormat (window : string)
| InvalidStart (text : string)
| InvalidEnd (text : string)
| EmptyWindow (text : string).

(** ["\d{2}:\d{2}"] at the head: the five characters and the rest. *)
Definition take_hhmm (s : string) : option (string * string) :=
  match s with
  | String a (String b (String c (String d (String e rest)))) =>
      if is_digit a && is_digit b && Ascii.eqb c ":" && is_digit d && is_digit e
      then Some (String a (String b (String c (String d (String e "")))), rest)
      else None
  | _ => None
  end.

(** [\s] of the regular expression. *)
Definition is_re_space (c : ascii) : bool :=
  bool_decide (byte_val c ∈ [9; 10; 12; 13; 32]%N).

(** ["\s+UTC$"]. *)
Fixpoint spaces_then_utc (seen : bool) (s : string) : bool :=
  match s with
  | "" => false
  | String c r => if is_re_space c then spaces_then_utc true r else seen && str_eqb s "UTC"
  end.

(** [maintenanceWindowRE.FindStringSubmatch]: the two captured times. *)
Definition match_window (s : string) : option (string * string) :=
  match take_hhmm s with
  | Some (from, String c r) =>
      if Ascii.eqb c "-" then
        match take_hhmm r with
        | Some (until, r) => if spaces_then_utc false r then Some (from, until) else None
        | None => None
        end
      else None
  | _ => None
  end.

(** [time.Parse("15:04", s)] on a text the regular expression let through: two
    digits, a colon, two digits; out-of-range fields are an error. *)
Definition parseHHMM (s : string) : option Z :=
  match s with
  | String a (String b (String _ (String d (String e "")))) =>
      let hour := (digit_val a * 10 + digit_val b)%Z in
      let minute := (digit_val d * 10 + digit_val e)%Z in
      if (hour <? 24)%Z && (minute <? 60)%Z then Some (hour * 60 + minute)%Z else None
  | _ => None
  end.

Definition IsWithinMaintenanceWindow (window : string) (now : Time) : result window_error bool :=
  if str_eqb window "" then Ok false
  else match match_window window with
       | None => Err (InvalidFormat window)
       | Some (from, until) =>
           match parseHHMM from with
           | None => Err (InvalidStart from)
           | Some startHM =>
               match parseHHMM until with
               | None => Err (InvalidEnd until)
               | Some endHM =>
                   if (startHM =? endHM)%Z then Err (EmptyWindow from)
                   else
                     let nowMinutes := (clock_hour now * 60 + clock_minute now)%Z in
                     if (startHM <? endHM)%Z
                     then Ok ((startHM <=? nowMinutes) && (nowMinutes <? endHM))%Z
                     else Ok ((startHM <=? nowMinutes) || (nowMinutes <? endHM))%Z
               end
           end
       end.

(** * Properties *)

(** The text of a time of day and of a window. *)
Definition hhmm (m : Z) : string := fmt_0d 2 (m / 60) +:+ ":" +:+ fmt_0d 2 (m mod 60).
Definition window_text (from until : Z) : string := hhmm from +:+ "-" +:+ hhmm until +:+ " UTC".

Definition minute_of_day (m : Z) : Prop := (0 <= m < 1440)%Z.

Lemma minutes_forall (P : Z -> bool) m :
  forallb P (map Z.of_nat (seq 0 1440)) = true -> minute_of_day m -> P m = true.
Proof.
  intros H [Hlo Hhi]. rewrite forallb_forall in H. apply H, in_map_iff.
  exists (Z.to_nat m). split; [lia|]. apply in_seq. lia.
Qed.

Definition hhmm_ok (m : Z) : bool :=
  match hhmm m with
  | String a (String b (String c (String d (String e "")))) =>
      Ascii.eqb c ":" && (is_digit a && is_digit b && is_digit d && is_digit e) &&
      bool_decide (parseHHMM (hhmm m) = Some m)
  | _ => false
  end.

(** Times of day print to five matching characters that parse back: checked on
    every minute of the day. *)
Lemma hhmm_shape m : minute_of_day m ->
  exists a b d e, hhmm m = String a (String b (String ":" (String d (String e "")))) /\
    is_digit a && is_digit b && is_digit d && is_digit e = true /\ parseHHMM (hhmm m) = Some m.
Proof.
  intros Hm. assert (H : hhmm_ok m = true).
  { apply minutes_forall; [vm_compute; reflexivity|done]. }
  unfold hhmm_ok in H. destruct (hhmm m) as [|a [|b [|c [|d [|e [|]]]]]]; try done.
  apply andb_true_iff in H as [[Hc%Ascii.eqb_eq Hd]%andb_true_iff Hp%bool_decide_eq_true].
  subst c. by exists a, b, d, e.
Qed.

Lemma take_hhmm_text m rest : minute_of_day m -> take_hhmm (hhmm m +:+ rest) = Some (hhmm m, rest).
Proof.
  intros Hm. destruct (hhmm_shape m Hm) as (a & b & d & e & -> & H & _).
  rewrite !andb_true_iff in H. destruct H as [[[Ha Hb] Hd] He].
  cbn [String.append take_hhmm]. by rewrite Ha, Hb, Hd, He.
Qed.

Lemma match_window_text from until :
  minute_of_day from -> minute_of_day until ->
  match_window (window_text from until) = Some (hhmm from, hhmm until).
Proof.
  intros Hf Hu. unfold match_window, window_text.
  rewrite take_hhmm_text by done. cbn [String.append]. change (Ascii.eqb "-" "-") with true.
  cbv iota. rewrite take_hhmm_text by done. done.
Qed.

(** A maintenance window is a half-open arc of the day: for every start and
    end minute, the text ["HH:MM-HH:MM UTC"] is accepted exactly when they
    differ, and a moment is inside exactly when the minutes elapsed since the
    start, counted around the clock, are fewer than the minutes from start to
    end, whether or not the window crosses midnight. *)
Theorem window_is_an_arc from until now :
  minute_of_day from -> minute_of_day until ->
  IsWithinMaintenanceWindow (window_text from until) now =
  if (from =? until)%Z then Err (EmptyWindow (hhmm from))
  else Ok (((now / Minute) - from) mod 1440 <? (until - from) mod 1440)%Z.
Proof.
  intros Hf Hu. unfold IsWithinMaintenanceWindow.
  rewrite (proj2 (str_eqb_neq _ _)).
  2: { unfold window_text. destruct (hhmm_shape from Hf) as (? & ? & ? & ? & -> & _). done. }
  rewrite match_window_text by done.
  destruct (hhmm_shape from Hf) as (_ & _ & _ & _ & _ & _ & ->).
  destruct (hhmm_shape until Hu) as (_ & _ & _ & _ & _ & _ & ->).
  destruct (Z.eqb_spec from until) as [|Hne]; [done|].
  assert (Hclock : (clock_hour now * 60 + clock_minute now = (now / Minute) mod 1440)%Z).
  { unfold clock_hour, clock_minute. replace (now / Hour)%Z with (now / Minute / 60)%Z
      by (unfold Hour; rewrite Z.mul_comm, Z.div_div; done || reflexivity).
    change 1440%Z with (60 * 24)%Z. rewrite Z.rem_mul_r by done. lia. }
  rewrite Hclock. unfold minute_of_day in *.
  rewrite <- (Zminus_mod_idemp_l (now / Minute) from).
  pose proof (Z.mod_pos_bound (now / Minute) 1440 ltac:(lia)) as Hb.
  revert Hb. generalize ((now / Minute) mod 1440)%Z. intros n Hb.
  assert (Hmod : forall z, (-1440 < z < 1440 -> z mod 1440 = if z <? 0 then z + 1440 else z)%Z).
  { intros z Hz. destruct (Z.ltb_spec z 0).
    - rewrite <- (Z.mod_small (z + 1440) 1440) by lia. rewrite Zplus_mod, Z_mod_same_full, Z.add_0_r.
      by rewrite Zmod_mod.
    - apply Z.mod_small. lia. }
  rewrite !Hmod by lia.
  destruct (Z.ltb_spec from until); f_equal; apply eq_true_iff_eq;
    rewrite ?andb_true_iff, ?orb_true_iff, !Z.ltb_lt, Z.leb_le;
    destruct (Z.ltb_spec (n - from) 0), (Z.ltb_spec (until - from) 0); lia.
Qed.

Lemma window_is_an_arc_witness :
  IsWithinMaintenanceWindow "23:00-02:00 UTC" (unix_epoch + 30 * Minute)%Z = Ok true.
Proof.
  change "23:00-02:00 UTC" with (window_text 1380 120).
  rewrite (window_is_an_arc 1380 120); [vm_compute; reflexivity|unfold minute_of_day; lia..].
Defined.
