(* ===== verification/StationApi.v ===== *)
(** * The GroundStationLifecycle resource

    The API types of [src/api/v1alpha1/groundstationlifecycle_types.go], which the
    station controller and the pass sweep of the ephemeris controller read. *)

From S2P Require Import Prelude GoTime K8sMeta.
Local Open Scope string_scope.

(** ** Spec *)

Record HardwareSpec := mkHardware {
  Vendor : string;
  Model : string;
  AntennaType : string;
  Bands : list string
}.

(** Coordinates are strings, read as numbers where they are used. *)
Record GeoLocation := mkGeo { Lat : string; Lon : string; Alt : string }.

Record DeploymentSpec := mkDeployment {
  Location : GeoLocation;
  K8sDistro : string;
  GitopsRepo : string
}.

Record MonitoringSpec := mkMonitoring {
  HealthCheckInterval : Duration;
  MonitoringEndpoint : string
}.

Record FirmwareSpec := mkFirmware {
  AutoUpdate : bool;
  Channel : string;
  MaintenanceWindow : string
}.

Record GSSpec := mkGSSpec {
  Hardware : HardwareSpec;
  Deployment : DeploymentSpec;
  Monitoring : option MonitoringSpec;
  Firmware : option FirmwareSpec
}.

(** ** Status *)

Definition PhaseProvisioning := "Provisioning".
Definition PhaseRunning := "Running".
Definition PhaseDegraded := "Degraded".
Definition PhaseOffline := "Offline".
Definition PhaseUpdating := "Updating".

Definition ConditionAntennaReady := "AntennaReady".
Definition ConditionRFLinkHealthy := "RFLinkHealthy".
Definition ConditionK8sNodeReady := "K8sNodeReady".
Definition ConditionFirmwareUpToDate := "FirmwareUpToDate".

Record GSStatus := mkGSStatus {
  Phase : string;
  K8sVersion : string;
  FirmwareVersion : string;
  LastHealthCheck : option Time;
  FirmwareUpdateStarted : option Time;
  gsConditions : list Condition
}.

#[export] Instance GSStatus_eq_dec : EqDecision GSStatus.
Proof. solve_decision. Defined.

Record GroundStationLifecycle := mkGS {
  gsMeta : ObjectMeta;
  gsSpec : GSSpec;
  gsStatus : GSStatus
}.

Definition station_location (gs : GroundStationLifecycle) : GeoLocation :=
  Location (Deployment (gsSpec gs)).
