(* ===== verification/GroundStation.v ===== *)
(** * The GroundStationLifecycle controller

    Models [src/internal/controller/groundstationlifecycle_controller.go]: the
    node label of a station, the node lookup, the health evaluation, the
    firmware update life cycle, the endpoint check, [Reconcile] and the mapping
    of node events back to stations.

    Parameters: the hash of a label ([sha256] to eight hex digits), the HTTP
    client, and the texts of errors and times that only go into messages. *)

From S2P Require Import Prelude GoStrings GoTime K8sMeta Maintenance StationApi.
From Stdlib Require Import Ascii.
Local Open Scope string_scope.

(** ** Nodes *)

Record Node := mkNode {
  nodeLabels : gmap string string;
  nodeAnnotations : gmap string string;
  nodeConditions : list (string * ConditionStatus);
  KubeletVersion : string
}.

Definition map_gs (f : GSStatus -> GSStatus) (gs : GroundStationLifecycle) : GroundStationLifecycle :=
  mkGS (gsMeta gs) (gsSpec gs) (f (gsStatus gs)).

Definition set_phase (p : string) : GroundStationLifecycle -> GroundStationLifecycle :=
  map_gs (fun s => mkGSStatus p (K8sVersion s) (FirmwareVersion s) (LastHealthCheck s)
                     (FirmwareUpdateStarted s) (gsConditions s)).
Definition set_k8s_version (v : string) : GroundStationLifecycle -> GroundStationLifecycle :=
  map_gs (fun s => mkGSStatus (Phase s) v (FirmwareVersion s) (LastHealthCheck s)
                     (FirmwareUpdateStarted s) (gsConditions s)).
Definition set_firmware_version (v : string) : GroundStationLifecycle -> GroundStationLifecycle :=
  map_gs (fun s => mkGSStatus (Phase s) (K8sVersion s) v (LastHealthCheck s)
                     (FirmwareUpdateStarted s) (gsConditions s)).
Definition set_health_check (t : Time) : GroundStationLifecycle -> GroundStationLifecycle :=
  map_gs (fun s => mkGSStatus (Phase s) (K8sVersion s) (FirmwareVersion s) (Some t)
                     (FirmwareUpdateStarted s) (gsConditions s)).
Definition set_update_started (t : option Time) : GroundStationLifecycle -> GroundStationLifecycle :=
  map_gs (fun s => mkGSStatus (Phase s) (K8sVersion s) (FirmwareVersion s) (LastHealthCheck s)
                     t (gsConditions s)).
Definition set_gs_conditions (l : list Condition) : GroundStationLifecycle -> GroundStationLifecycle :=
  map_gs (fun s => mkGSStatus (Phase s) (K8sVersion s) (FirmwareVersion s) (LastHealthCheck s)
                     (FirmwareUpdateStarted s) l).

Definition phase_of (gs : GroundStationLifecycle) : string := Phase (gsStatus gs).
Definition in_phase (gs : GroundStationLifecycle) (p : string) : bool := str_eqb (phase_of gs) p.

Definition groundStationLabel := "ntn.operators.dev/groundstation".
Definition firmwareVersionAnnotation := "ntn.operators.dev/firmware-version".
Definition availableFirmwareAnnotation := "ntn.operators.dev/available-firmware-version".
Definition firmwareUpdateTimeout : Duration := (30 * Minute)%Z.
Definition reasonNodeNotFound := "NodeNotFound".
Definition maxLabelValueLen : Z := 63.

(** ** Labels *)

Definition str_len (s : string) : Z := Z.of_nat (String.length s).

(** [s[:n]]; the theorems show that it is only used within bounds. *)
Definition str_take (n : Z) (s : string) : string := String.substring 0 (Z.to_nat n) s.

Section Labels.

(** [hex.EncodeToString(sha256(label)[:4])]. *)
Variable hash8 : string -> string.

Definition groundStationLabelValue (namespace gsName : string) : string :=
  let labelValue := namespace +:+ "." +:+ gsName in
  if (str_len labelValue <=? maxLabelValueLen)%Z then labelValue
  else
    let suffix := hash8 labelValue in
    let prefix := namespace +:+ "." in
    let remaining := (maxLabelValueLen - str_len prefix - 9)%Z in
    if (remaining <? 1)%Z then
      let nsMax := Z.min (maxLabelValueLen - 1 - 8) (str_len namespace) in
      TrimRight (str_take nsMax namespace) "-." +:+ "." +:+ suffix
    else
      let truncName := TrimRight (str_take remaining gsName) "-." in
      if str_eqb truncName "" then prefix +:+ suffix
      else prefix +:+ truncName +:+ "-" +:+ suffix.

Inductive node_error :=
| ListNodes (e : string)
| AmbiguousNode (count : Z) (gsName : string).

(** [findMatchingNode]; [nodes] is the answer to listing the nodes that carry
    the label value. *)
Definition findMatchingNode (nodes : string -> result string (list Node)) (namespace gsName : string)
  : result node_error (option Node) :=
  match nodes (groundStationLabelValue namespace gsName) with
  | Err e => Err (ListNodes e)
  | Ok [] => Ok None
  | Ok [n] => Ok (Some n)
  | Ok l => Err (AmbiguousNode (Z.of_nat (length l)) (namespace +:+ "." +:+ gsName))
  end.

(** [nodeToGroundStation]: the answers of [Get] by key and of [List] in a
    namespace ([Some]) or in the cluster ([None]). *)
Definition nodeToGroundStation (get : NamespacedName -> GetResult GroundStationLifecycle)
  (lst : option string -> option (list GroundStationLifecycle)) (node : Node) : list NamespacedName :=
  match nodeLabels node !! groundStationLabel with
  | None => []
  | Some labelValue =>
      match SplitN2 labelValue "." with
      | [gsNamespace; gsName] =>
          let key := mkKey gsNamespace gsName in
          let matching l := map (fun gs => ObjectKeyFromObject (gsMeta gs))
            (List.filter (fun gs => str_eqb
               (groundStationLabelValue (Namespace (gsMeta gs)) (Name (gsMeta gs))) labelValue) l) in
          let slow :=
            match lst (Some gsNamespace) with
            | None => [key]
            | Some l =>
                let requests := matching l in
                if (length requests =? 0)%nat && (maxLabelValueLen - 2 <=? str_len labelValue)%Z then
                  match lst None with
                  | None => [key]
                  | Some all => (requests ++ matching all)%list
                  end
                else requests
            end in
          match get key with
          | Found gs =>
              if str_eqb (groundStationLabelValue (Namespace (gsMeta gs)) (Name (gsMeta gs))) labelValue
              then [key] else slow
          | GetError _ => [key]
          | NotFound => slow
          end
      | _ => []
      end
  end.

End Labels.

(** ** Health *)

Fixpoint isNodeConditionTrue (conds : list (string * ConditionStatus)) (ty : string) : bool :=
  match conds with
  | [] => false
  | (t, s) :: rest => if str_eqb t ty then bool_decide (s = ConditionTrue) else isNodeConditionTrue rest ty
  end.

Section Station.
Context `{SC : StatusConditions}.

Variable hash8 : string -> string.
(** [http.NewRequest]: the scheme of the URL, or nothing when it is invalid; a
    GET through the guarded client: the status code, or nothing. *)
Variable request_scheme : string -> option string.
Variable http_get : option (string -> option Z).     (* None: no client *)
Variable node_error_text : node_error -> string.
Variable window_error_text : string -> window_error -> string.
Variable time_text : Time -> string.

Definition set_gs_condition (gs : GroundStationLifecycle) (ty : string) (s : ConditionStatus)
  (r msg : string) : GroundStationLifecycle :=
  set_gs_conditions (SetStatusCondition (gsConditions (gsStatus gs))
    (mkCond ty s r msg (Generation (gsMeta gs)))) gs.

Definition remove_gs_condition (gs : GroundStationLifecycle) (ty : string) : GroundStationLifecycle :=
  set_gs_conditions (RemoveStatusCondition (gsConditions (gsStatus gs)) ty) gs.

Definition checkHTTPEndpoint (endpoint : string) : bool :=
  match http_get with
  | None => true
  | Some get =>
      match request_scheme endpoint with
      | None => false
      | Some scheme =>
          if negb (str_eqb scheme "http") && negb (str_eqb scheme "https") then false
          else match get endpoint with
               | None => false
               | Some code => (200 <=? code)%Z && (code <? 300)%Z
               end
      end
  end.

Definition node_error_reason (e : node_error) : string :=
  match e with AmbiguousNode _ _ => "AmbiguousNodeMapping" | ListNodes _ => "APIError" end.

(** No node: still provisioning, or gone. *)
Definition health_no_node (gs : GroundStationLifecycle) : GroundStationLifecycle :=
  let gs := set_gs_condition gs ConditionK8sNodeReady ConditionFalse reasonNodeNotFound
    ("No node with label " +:+ groundStationLabel +:+ "="
     +:+ groundStationLabelValue hash8 (Namespace (gsMeta gs)) (Name (gsMeta gs)) +:+ " found") in
  let gs := set_gs_condition gs ConditionAntennaReady ConditionUnknown reasonNodeNotFound
    "Node not found, antenna status unknown" in
  let gs := set_gs_condition gs ConditionRFLinkHealthy ConditionUnknown reasonNodeNotFound
    "Node not found, RF link status unknown" in
  set_phase (if in_phase gs "" || in_phase gs PhaseProvisioning then PhaseProvisioning else PhaseOffline) gs.

Definition health_node_error (gs : GroundStationLifecycle) (e : node_error) : GroundStationLifecycle :=
  let gs := set_gs_condition gs ConditionK8sNodeReady ConditionFalse (node_error_reason e) (node_error_text e) in
  let gs := set_gs_condition gs ConditionAntennaReady ConditionUnknown "NodeAPIError"
    ("Cannot determine antenna status: " +:+ node_error_text e) in
  let gs := set_gs_condition gs ConditionRFLinkHealthy ConditionUnknown "NodeAPIError"
    ("Cannot determine RF link status: " +:+ node_error_text e) in
  set_phase PhaseOffline gs.

(** The phase a reachable node gives. *)
Definition node_phase (gs : GroundStationLifecycle) (node : Node) : string :=
  let holds ty := isNodeConditionTrue (nodeConditions node) ty in
  let firmwareUncertain :=
    match FindStatusCondition (gsConditions (gsStatus gs)) ConditionFirmwareUpToDate with
    | Some c => str_eqb (cReason c) "UpdateInterrupted" || str_eqb (cReason c) "UpdateTimedOut"
    | None => false
    end in
  if negb (holds "Ready") then PhaseOffline
  else if in_phase gs PhaseUpdating then PhaseUpdating
  else if in_phase gs PhaseDegraded && firmwareUncertain then PhaseDegraded
  else if holds "MemoryPressure" || holds "DiskPressure" || holds "PIDPressure" then PhaseDegraded
  else PhaseRunning.

Definition health_node (gs : GroundStationLifecycle) (node : Node) (now : Time) : GroundStationLifecycle :=
  let gs := set_k8s_version (KubeletVersion node) gs in
  let nodeReady := isNodeConditionTrue (nodeConditions node) "Ready" in
  let gs := if nodeReady
    then set_gs_condition gs ConditionK8sNodeReady ConditionTrue "NodeReady" "K8s node is ready"
    else set_gs_condition gs ConditionK8sNodeReady ConditionFalse "NodeNotReady" "K8s node is not ready" in
  let gs := set_gs_condition gs ConditionAntennaReady ConditionUnknown "NoAntennaProbe"
    "antenna readiness cannot be determined: no hardware probe is implemented (tracked in issue #68); the Node being present says nothing about the antenna" in
  let gs := set_phase (node_phase gs node) gs in
  let gs := if in_phase gs PhaseRunning || in_phase gs PhaseUpdating then set_health_check now gs else gs in
  match Monitoring (gsSpec gs) with
  | Some m =>
      if str_eqb (MonitoringEndpoint m) "" then remove_gs_condition gs ConditionRFLinkHealthy
      else if checkHTTPEndpoint (MonitoringEndpoint m)
      then set_gs_condition gs ConditionRFLinkHealthy ConditionTrue "EndpointHealthy"
             "Monitoring endpoint returned 2xx"
      else
        let gs := if in_phase gs PhaseRunning then set_phase PhaseDegraded gs else gs in
        set_gs_condition gs ConditionRFLinkHealthy ConditionFalse "EndpointUnhealthy"
          "Monitoring endpoint check failed"
  | None => remove_gs_condition gs ConditionRFLinkHealthy
  end.

Definition reconcileHealth (gs : GroundStationLifecycle) (node : result node_error (option Node))
  (now : Time) : GroundStationLifecycle :=
  match node with
  | Err e => health_node_error gs e
  | Ok None => health_no_node gs
  | Ok (Some node) => health_node gs node now
  end.

(** ** Firmware *)

(** The moments the clock is read at during one reconcile, in order. *)
Record Clocks := mkClocks {
  atHealth : Time;
  atTimeout : Time;
  atWindow : Time;
  atStart : Time
}.

Definition annotation_of (node : Node) (k : string) : string := default "" (nodeAnnotations node !! k).

Definition sync_version (gs : GroundStationLifecycle) (node : Node) : GroundStationLifecycle :=
  match nodeAnnotations node !! firmwareVersionAnnotation with
  | Some v => set_firmware_version v gs
  | None => gs
  end.

Definition firmware_condition (gs : GroundStationLifecycle) (current avail : string) : GroundStationLifecycle :=
  if str_eqb current "" then
    set_gs_condition gs ConditionFirmwareUpToDate ConditionUnknown "VersionUnknown"
      "Current firmware version not reported by node"
  else if negb (str_eqb avail "" || str_eqb current avail) then
    set_gs_condition gs ConditionFirmwareUpToDate ConditionFalse "UpdateAvailable"
      ("Update available: " +:+ current +:+ " → " +:+ avail)
  else
    set_gs_condition gs ConditionFirmwareUpToDate ConditionTrue "UpToDate"
      ("Firmware " +:+ current +:+ " is current").

(** The update that started at [started] has run out of time. *)
Definition update_timed_out (gs : GroundStationLifecycle) (c : Clocks) : option Time :=
  match FirmwareUpdateStarted (gsStatus gs) with
  | Some started =>
      if in_phase gs PhaseUpdating && (firmwareUpdateTimeout <? Sub (atTimeout c) started)%Z
      then Some started else None
  | None => None
  end.

Definition finish_update (gs : GroundStationLifecycle) (node : Node) (avail : string)
  : GroundStationLifecycle * list deferredEvent :=
  if str_eqb avail "" then
    let gs := set_gs_condition gs ConditionFirmwareUpToDate ConditionUnknown "UpdateInterrupted"
      "Available firmware version annotation removed during update" in
    (set_update_started None (set_phase PhaseDegraded gs), [])
  else if str_eqb (annotation_of node firmwareVersionAnnotation) avail then
    let gs := set_update_started None (set_firmware_version avail gs) in
    let gs := set_gs_condition gs ConditionFirmwareUpToDate ConditionTrue "UpdateCompleted"
      ("Firmware updated to " +:+ avail) in
    (set_phase PhaseRunning gs,
     [mkEvent EventTypeNormal "FirmwareUpdated" ("Firmware updated to " +:+ avail)])
  else (gs, []).

Definition start_update (gs : GroundStationLifecycle) (fw : FirmwareSpec) (current avail : string)
  (c : Clocks) : GroundStationLifecycle * list deferredEvent :=
  let start :=
    (set_update_started (Some (atStart c)) (set_phase PhaseUpdating gs),
     [mkEvent EventTypeNormal "FirmwareUpdateStarted"
        ("Starting firmware update from " +:+ current +:+ " to " +:+ avail)]) in
  if str_eqb (MaintenanceWindow fw) "" then start
  else match IsWithinMaintenanceWindow (MaintenanceWindow fw) (atWindow c) with
       | Err e =>
           (set_gs_condition gs ConditionFirmwareUpToDate ConditionFalse "InvalidMaintenanceWindow"
              (window_error_text (MaintenanceWindow fw) e), [])
       | Ok inWindow => if inWindow then start else (gs, [])
       end.

Definition reconcileFirmware (gs : GroundStationLifecycle) (node : option Node) (c : Clocks)
  : GroundStationLifecycle * list deferredEvent :=
  match Firmware (gsSpec gs) with
  | None => (remove_gs_condition gs ConditionFirmwareUpToDate, [])
  | Some fw =>
      match node with
      | None => (set_firmware_version "" (remove_gs_condition gs ConditionFirmwareUpToDate), [])
      | Some node =>
          let gs := sync_version gs node in
          let avail := annotation_of node availableFirmwareAnnotation in
          let current := FirmwareVersion (gsStatus gs) in
          let upToDate := str_eqb avail "" || str_eqb current avail in
          let gs := firmware_condition gs current avail in
          match update_timed_out gs c with
          | Some started =>
              let gs := set_gs_condition gs ConditionFirmwareUpToDate ConditionFalse "UpdateTimedOut"
                "Firmware update exceeded 30-minute timeout" in
              (set_update_started None (set_phase PhaseDegraded gs),
               [mkEvent EventTypeWarning "FirmwareUpdateTimedOut"
                  ("Firmware update started at " +:+ time_text started +:+ " timed out after 30m")])
          | None =>
              if in_phase gs PhaseUpdating then finish_update gs node avail
              else if negb upToDate && AutoUpdate fw && (in_phase gs PhaseRunning || in_phase gs PhaseDegraded)
              then start_update gs fw current avail c
              else (gs, [])
          end
      end
  end.

(** ** Reconcile *)

Record GSWorld := mkGSWorld {
  GroundStationHealth : gmap (string * string * string) Z;    (* namespace, station, condition *)
  gsRecorded : list (NamespacedName * deferredEvent)
}.

Record GSEnv := mkGSEnv {
  geStation : GetResult GroundStationLifecycle;
  geNodes : string -> result string (list Node);
  geStatusOk : bool;
  geClocks : Clocks
}.

Record GSOutcome := mkGSOutcome {
  goWorld : GSWorld;
  goStatus : option GSStatus;
  goResult : result string (option Duration)
}.

Definition healthCheckInterval (gs : GroundStationLifecycle) : Duration :=
  match Monitoring (gsSpec gs) with
  | Some m => if (0 <? HealthCheckInterval m)%Z then HealthCheckInterval m else (30 * Second)%Z
  | None => (30 * Second)%Z
  end.

Definition phase_event (before : string) (gs : GroundStationLifecycle) : list deferredEvent :=
  if str_eqb before (phase_of gs) then []
  else [mkEvent (if in_phase gs PhaseOffline || in_phase gs PhaseDegraded then EventTypeWarning
                 else EventTypeNormal)
          "PhaseChanged" ("Phase transitioned from " +:+ before +:+ " to " +:+ phase_of gs)].

Definition gauge_value (c : option Condition) : Z :=
  match c with
  | Some c => match cStatus c with ConditionTrue => 1 | ConditionFalse => 0 | ConditionUnknown => -1 end
  | None => -1
  end.

Definition monitored_conditions : list string :=
  [ConditionK8sNodeReady; ConditionAntennaReady; ConditionRFLinkHealthy].

Definition set_gauges (gs : GroundStationLifecycle) (g : gmap (string * string * string) Z)
  : gmap (string * string * string) Z :=
  fold_left (fun g ty =>
    <[(Namespace (gsMeta gs), Name (gsMeta gs), ty) :=
        gauge_value (FindStatusCondition (gsConditions (gsStatus gs)) ty)]> g) monitored_conditions g.

(** Steps 2 to 5: the station evaluated, and the events to come. *)
Definition evaluate_station (gs : GroundStationLifecycle) (env : GSEnv)
  : GroundStationLifecycle * list deferredEvent :=
  let node := findMatchingNode hash8 (geNodes env) (Namespace (gsMeta gs)) (Name (gsMeta gs)) in
  let before := phase_of gs in
  let gs := reconcileHealth gs node (atHealth (geClocks env)) in
  let '(gs, pending) :=
    match node with
    | Ok n => reconcileFirmware gs n (geClocks env)
    | Err _ => (gs, [])
    end in
  (gs, (pending ++ phase_event before gs)%list).

Definition gs_reconcile (w : GSWorld) (key : NamespacedName) (env : GSEnv) : GSOutcome :=
  match geStation env with
  | NotFound =>
      mkGSOutcome (mkGSWorld (filter (fun kv : string * string * string * Z =>
        ~ (kv.1.1.1 = kNamespace key /\ kv.1.1.2 = kName key)) (GroundStationHealth w)) (gsRecorded w))
        None (Ok None)
  | GetError e => mkGSOutcome w None (Err e)
  | Found gs =>
      let requeueAfter := healthCheckInterval gs in
      let '(gs', pending) := evaluate_station gs env in
      let w := mkGSWorld (set_gauges gs' (GroundStationHealth w)) (gsRecorded w) in
      let write := negb (bool_decide (gsStatus gs = gsStatus gs')) || (0 <? length pending)%nat in
      if write && negb (geStatusOk env) then mkGSOutcome w None (Err "status update")
      else
        mkGSOutcome
          (mkGSWorld (GroundStationHealth w)
             (gsRecorded w ++ map (pair (ObjectKeyFromObject (gsMeta gs))) pending)%list)
          (if write then Some (gsStatus gs') else None) (Ok (Some requeueAfter))
  end.

End Station.

(** * Properties *)

(** ** Phases *)

Section StationFacts.
Context `{SC : StatusConditions} (hash8 : string -> string)
  (request_scheme : string -> option string) (http_get : option (string -> option Z))
  (node_error_text : node_error -> string) (window_error_text : string -> window_error -> string)
  (time_text : Time -> string).

Abbreviation health := (reconcileHealth hash8 request_scheme http_get node_error_text).
Abbreviation firmware := (reconcileFirmware window_error_text time_text).
Abbreviation evaluated := (evaluate_station hash8 request_scheme http_get node_error_text
  window_error_text time_text).

(** What health evaluation leaves alone, and the phase it sets. *)
Lemma health_frame gs node now :
  let gs' := health gs node now in
  gsMeta gs' = gsMeta gs /\ gsSpec gs' = gsSpec gs /\
  FirmwareUpdateStarted (gsStatus gs') = FirmwareUpdateStarted (gsStatus gs) /\
  FirmwareVersion (gsStatus gs') = FirmwareVersion (gsStatus gs).
Proof.
  unfold reconcileHealth, health_node, health_no_node, health_node_error.
  destruct node as [[n|]|e]; [|done..].
  repeat (split_match; simpl); done.
Qed.

Lemma node_phase_cases gs node :
  node_phase gs node =
    (if negb (isNodeConditionTrue (nodeConditions node) "Ready") then PhaseOffline
     else if in_phase gs PhaseUpdating then PhaseUpdating else node_phase gs node) /\
  (node_phase gs node = PhaseUpdating ->
     in_phase gs PhaseUpdating = true /\ isNodeConditionTrue (nodeConditions node) "Ready" = true).
Proof.
  unfold node_phase. destruct (isNodeConditionTrue _ "Ready"); simpl; [|done].
  destruct (in_phase gs PhaseUpdating); [done|]. split; [done|].
  destruct (in_phase gs PhaseDegraded && _); [done|]. by destruct (_ || _ || _).
Qed.

(** A reachable node gives the phase of its conditions, lowered to Degraded
    when the monitoring endpoint fails. *)
Lemma health_node_phase gs node now :
  exists gs1, phase_of gs1 = phase_of gs /\
    (phase_of (health_node request_scheme http_get gs node now) = node_phase gs1 node \/
     node_phase gs1 node = PhaseRunning /\
     phase_of (health_node request_scheme http_get gs node now) = PhaseDegraded).
Proof.
  unfold health_node. set (ready := isNodeConditionTrue _ _).
  match goal with |- context [node_phase ?g node] => set (gs1 := g) end.
  exists gs1. split; [by unfold gs1; destruct ready|].
  set (gs2 := if _ || _ then _ else _).
  assert (H2 : phase_of gs2 = node_phase gs1 node) by (unfold gs2; by destruct (_ || _)).
  destruct (Monitoring (gsSpec gs2)) as [m|]; [|by left].
  destruct (str_eqb (MonitoringEndpoint m) ""); [by left|].
  destruct (checkHTTPEndpoint _ _ _); [by left|].
  destruct (in_phase gs2 PhaseRunning) eqn:E; [|by left].
  right. apply str_eqb_eq in E. rewrite <- H2. done.
Qed.

Lemma health_updating gs node now :
  phase_of (health gs node now) = PhaseUpdating <->
  phase_of gs = PhaseUpdating /\
  exists n, node = Ok (Some n) /\ isNodeConditionTrue (nodeConditions n) "Ready" = true.
Proof.
  unfold reconcileHealth. destruct node as [[n|]|e].
  - destruct (health_node_phase gs n now) as (gs1 & Hp & Hcase).
    destruct (node_phase_cases gs1 n) as [H1 H2].
    unfold in_phase in *. rewrite Hp in *. split.
    + intros Hu. destruct Hcase as [Hc|[_ Hc]]; [|by rewrite Hc in Hu].
      destruct H2 as [H2 H3]; [congruence|]. apply str_eqb_eq in H2. eauto.
    + intros (Hu & n' & [= <-] & Hr). rewrite Hr, Hu, str_eqb_refl in H1. simpl in H1.
      destruct Hcase as [->|[Hc _]]; [done|]. by rewrite H1 in Hc.
  - unfold health_no_node. split; [|by intros (_ & ? & ? & _)].
    unfold phase_of. simpl. by destruct (_ || _).
  - split; [done|by intros (_ & ? & ? & _)].
Qed.

(** A node that is not ready, or not found where it was expected, is offline. *)
Lemma health_offline gs n now :
  isNodeConditionTrue (nodeConditions n) "Ready" = false ->
  phase_of (health gs (Ok (Some n)) now) = PhaseOffline.
Proof.
  intros Hr. simpl. destruct (health_node_phase gs n now) as (gs1 & _ & Hcase).
  destruct (node_phase_cases gs1 n) as [H1 _]. rewrite Hr in H1. simpl in H1.
  destruct Hcase as [->|[Hc _]]; [done|]. by rewrite H1 in Hc.
Qed.

(** Health takes an updating station nowhere but offline. *)
Lemma health_from_updating gs node now :
  phase_of gs = PhaseUpdating ->
  phase_of (health gs node now) = PhaseUpdating \/ phase_of (health gs node now) = PhaseOffline.
Proof.
  intros Hu. pose proof (health_updating gs node now) as Hh. destruct node as [[n|]|e].
  - destruct (isNodeConditionTrue (nodeConditions n) "Ready") eqn:Hr.
    + left. apply Hh. eauto.
    + right. by apply health_offline.
  - right. simpl. unfold health_no_node, in_phase, phase_of in *. simpl. by rewrite Hu.
  - by right.
Qed.

(** The station the firmware part starts its decision from. *)
Definition prepared (gs : GroundStationLifecycle) (n : Node) : GroundStationLifecycle :=
  firmware_condition (sync_version gs n) (FirmwareVersion (gsStatus (sync_version gs n)))
    (annotation_of n availableFirmwareAnnotation).

Lemma prepared_frame gs n :
  gsMeta (prepared gs n) = gsMeta gs /\ gsSpec (prepared gs n) = gsSpec gs /\
  phase_of (prepared gs n) = phase_of gs /\
  FirmwareUpdateStarted (gsStatus (prepared gs n)) = FirmwareUpdateStarted (gsStatus gs) /\
  FirmwareVersion (gsStatus (prepared gs n)) = FirmwareVersion (gsStatus (sync_version gs n)).
Proof.
  unfold prepared, firmware_condition, sync_version.
  destruct (nodeAnnotations n !! _); repeat (split_match; simpl); done.
Qed.

(** May an update start now? *)
Definition window_open (fw : FirmwareSpec) (t : Time) : Prop :=
  MaintenanceWindow fw = "" \/ IsWithinMaintenanceWindow (MaintenanceWindow fw) t = Ok true.

Lemma start_update_cases gs fw current avail c gs' evs :
  start_update window_error_text gs fw current avail c = (gs', evs) ->
  (phase_of gs' = phase_of gs /\ FirmwareUpdateStarted (gsStatus gs') = FirmwareUpdateStarted (gsStatus gs)) \/
  (window_open fw (atWindow c) /\ phase_of gs' = PhaseUpdating /\
   FirmwareUpdateStarted (gsStatus gs') = Some (atStart c) /\
   mkEvent EventTypeNormal "FirmwareUpdateStarted"
     ("Starting firmware update from " +:+ current +:+ " to " +:+ avail) ∈ evs).
Proof.
  unfold start_update, window_open. destruct (str_eqb _ "") eqn:E.
  - intros [= <- <-]. right. apply str_eqb_eq in E. repeat split; auto. by apply list_elem_of_singleton.
  - destruct (IsWithinMaintenanceWindow _ _) as [[]|err]; intros [= <- <-]; [|by left..].
    right. repeat split; auto. by apply list_elem_of_singleton.
Qed.

(** Every way the firmware part can end. *)
Lemma firmware_cases gs node c gs' evs :
  firmware gs node c = (gs', evs) ->
  (* nothing about the update itself *)
  (phase_of gs' = phase_of gs /\ FirmwareUpdateStarted (gsStatus gs') = FirmwareUpdateStarted (gsStatus gs) /\
   (phase_of gs = PhaseUpdating -> Firmware (gsSpec gs) <> None -> forall n, node = Some n ->
      annotation_of n availableFirmwareAnnotation <> "" /\
      annotation_of n firmwareVersionAnnotation <> annotation_of n availableFirmwareAnnotation /\
      forall t, FirmwareUpdateStarted (gsStatus gs) = Some t -> (Sub (atTimeout c) t <= firmwareUpdateTimeout)%Z)) \/
  (* an update ends *)
  (phase_of gs = PhaseUpdating /\ FirmwareUpdateStarted (gsStatus gs') = None /\
   (phase_of gs' = PhaseDegraded \/ phase_of gs' = PhaseRunning)) \/
  (* an update starts *)
  exists fw n, Firmware (gsSpec gs) = Some fw /\ AutoUpdate fw = true /\ node = Some n /\
    (phase_of gs = PhaseRunning \/ phase_of gs = PhaseDegraded) /\
    phase_of gs' = PhaseUpdating /\ FirmwareUpdateStarted (gsStatus gs') = Some (atStart c) /\
    window_open fw (atWindow c) /\
    let current := FirmwareVersion (gsStatus (sync_version gs n)) in
    let avail := annotation_of n availableFirmwareAnnotation in
    avail <> "" /\ current <> avail /\
    mkEvent EventTypeNormal "FirmwareUpdateStarted"
      ("Starting firmware update from " +:+ current +:+ " to " +:+ avail) ∈ evs.
Proof.
  unfold reconcileFirmware. destruct (Firmware (gsSpec gs)) as [fw|] eqn:Hfw.
  2: { intros [= <- <-]. left. repeat split; auto. done. }
  destruct node as [n|]; [|intros [= <- <-]; left; repeat split; auto; done].
  cbv zeta. fold (prepared gs n). destruct (prepared_frame gs n) as (_ & _ & Hp & Hs & Hv).
  unfold update_timed_out, in_phase. rewrite Hp, Hs.
  destruct (str_eqb (phase_of gs) PhaseUpdating) eqn:Hu; simpl.
  - apply str_eqb_eq in Hu.
    destruct (FirmwareUpdateStarted (gsStatus gs)) as [t|] eqn:Ht.
    1: destruct (Z.ltb_spec firmwareUpdateTimeout (Sub (atTimeout c) t)) as [Hlt|Hle];
      [intros [= <- <-]; right; left; repeat split; auto|].
    all: unfold finish_update;
      destruct (str_eqb (annotation_of n availableFirmwareAnnotation) "") eqn:Ea;
      [intros [= <- <-]; right; left; repeat split; auto|];
      destruct (str_eqb (annotation_of n firmwareVersionAnnotation) _) eqn:Ev;
      [intros [= <- <-]; right; left; repeat split; auto|];
      apply str_eqb_neq in Ea, Ev; intros [= <- <-]; left; rewrite Hp, Hs;
      split; [done|]; split; [done|]; intros _ _ n' [= <-]; split; [done|]; split; [done|];
      intros t' Ht'; simplify_eq; done.
  - assert (Hn : phase_of gs <> PhaseUpdating) by (by apply str_eqb_neq).
    destruct (FirmwareUpdateStarted (gsStatus gs)) eqn:Ht; simpl.
    all: match goal with |- (if ?b then _ else _) = _ -> _ => destruct b eqn:E end;
      [|intros [= <- <-]; left; rewrite Hp, Hs; split; [done|]; split; [done|];
        intros Hx; by destruct (Hn Hx)].
    all: rewrite !andb_true_iff, orb_true_iff, negb_true_iff, orb_false_iff in E;
      destruct E as [[[E1 E2] E3] E4]; apply str_eqb_neq in E1, E2; rewrite !str_eqb_eq in E4.
    all: intros H; apply start_update_cases in H as [[H1 H2]|(Hw & H1 & H2 & H3)];
      [left; rewrite H1, H2, Hp, Hs; split; [done|]; split; [done|]; intros Hx; by destruct (Hn Hx)|
       right; right; exists fw, n; rewrite ?Hv in *; auto 15].
Qed.

Abbreviation node_of gs env := (findMatchingNode hash8 (geNodes env) (Namespace (gsMeta gs)) (Name (gsMeta gs))).

(** The evaluation is health, then firmware unless the node lookup failed. *)
Lemma evaluated_parts gs env gs' evs :
  evaluated gs env = (gs', evs) ->
  let h := health gs (node_of gs env) (atHealth (geClocks env)) in
  (exists e, node_of gs env = Err e /\ gs' = h) \/
  exists n evs0, node_of gs env = Ok n /\ firmware h n (geClocks env) = (gs', evs0) /\
    (forall e, e ∈ evs0 -> e ∈ evs).
Proof.
  unfold evaluate_station. cbv zeta.
  destruct (node_of gs env) as [n|e]; [|intros [= <- <-]; left; eauto].
  destruct (firmware _ n (geClocks env)) as [g evs0] eqn:E. intros [= <- <-]. right.
  exists n, evs0. repeat split; [done|]. intros e He. apply elem_of_app. by left.
Qed.

(** An update begins only when it may: a station enters Updating only with
    a reachable node that is Ready, automatic updates on, an offered version
    that differs from the installed one, and inside the maintenance window (or
    without one); the start time and the announcement are recorded with it. *)
Theorem update_starts_only_when_allowed gs env gs' evs :
  evaluated gs env = (gs', evs) -> phase_of gs <> PhaseUpdating -> phase_of gs' = PhaseUpdating ->
  exists fw n, Firmware (gsSpec gs) = Some fw /\ AutoUpdate fw = true /\
    node_of gs env = Ok (Some n) /\ isNodeConditionTrue (nodeConditions n) "Ready" = true /\
    window_open fw (atWindow (geClocks env)) /\
    FirmwareUpdateStarted (gsStatus gs') = Some (atStart (geClocks env)) /\
    annotation_of n availableFirmwareAnnotation <> "" /\
    FirmwareVersion (gsStatus (sync_version gs n)) <> annotation_of n availableFirmwareAnnotation /\
    mkEvent EventTypeNormal "FirmwareUpdateStarted"
      ("Starting firmware update from " +:+ FirmwareVersion (gsStatus (sync_version gs n)) +:+ " to "
       +:+ annotation_of n availableFirmwareAnnotation) ∈ evs.
Proof.
  intros H Hold Hnew. apply evaluated_parts in H as [(e & _ & ->)|(n & evs0 & Hn & Hf & Hev)].
  { apply health_updating in Hnew as [? _]. done. }
  destruct (health_frame gs (node_of gs env) (atHealth (geClocks env))) as (Hm & Hsp & Hs & Hv).
  assert (Hh : phase_of (health gs (node_of gs env) (atHealth (geClocks env))) <> PhaseUpdating)
    by (intros [? _]%health_updating; done).
  apply firmware_cases in Hf as [(Hp & _)|[(Hp & _)|(fw & n' & Hfw & Ha & -> & Hph & _ & Hst & Hw & Hrest)]].
  - congruence.
  - done.
  - cbv zeta in Hrest. rewrite Hsp in Hfw. exists fw, n'.
    assert (Hsync : FirmwareVersion (gsStatus (sync_version
        (health gs (node_of gs env) (atHealth (geClocks env))) n')) =
      FirmwareVersion (gsStatus (sync_version gs n')))
      by (unfold sync_version; by destruct (nodeAnnotations n' !! _)).
    rewrite Hsync in Hrest. destruct Hrest as (H1 & H2 & H3).
    repeat match goal with |- _ /\ _ => split end; auto.
    destruct (isNodeConditionTrue (nodeConditions n') "Ready") eqn:Hr; [done|].
    rewrite Hn, (health_offline gs n' _ Hr) in Hph. by destruct Hph.
Qed.

(** A station is never stuck without a clock: Updating always carries the
    start time the timeout is measured from, and every reconcile keeps it so. *)
Theorem updating_has_start_time gs env gs' evs :
  (phase_of gs = PhaseUpdating -> FirmwareUpdateStarted (gsStatus gs) <> None) ->
  evaluated gs env = (gs', evs) ->
  phase_of gs' = PhaseUpdating -> FirmwareUpdateStarted (gsStatus gs') <> None.
Proof.
  intros Hinv H Hnew.
  destruct (health_frame gs (node_of gs env) (atHealth (geClocks env))) as (_ & _ & Hs & _).
  apply evaluated_parts in H as [(e & _ & ->)|(n & evs0 & Hn & Hf & _)].
  { rewrite Hs. apply Hinv. by apply health_updating in Hnew as [? _]. }
  apply firmware_cases in Hf as [(Hp & Hst & _)|[(_ & _ & [Hp|Hp])|(fw & n' & _ & _ & _ & _ & _ & Hst & _)]].
  - rewrite Hst, Hs. apply Hinv. rewrite Hp in Hnew. by apply health_updating in Hnew as [? _].
  - by rewrite Hp in Hnew.
  - by rewrite Hp in Hnew.
  - by rewrite Hst.
Qed.

(** C40. Every managed update ends: while firmware is managed, a reconcile more
    than 30 minutes after the start leaves Updating, as does one that finds the
    node gone or not ready, the offered version withdrawn, or the node reporting
    the offered version. *)
Theorem update_ends gs env gs' evs t :
  evaluated gs env = (gs', evs) -> phase_of gs = PhaseUpdating ->
  FirmwareUpdateStarted (gsStatus gs) = Some t -> Firmware (gsSpec gs) <> None ->
  phase_of gs' = PhaseUpdating ->
  (Sub (atTimeout (geClocks env)) t <= firmwareUpdateTimeout)%Z /\
  exists n, node_of gs env = Ok (Some n) /\ isNodeConditionTrue (nodeConditions n) "Ready" = true /\
    annotation_of n availableFirmwareAnnotation <> "" /\
    annotation_of n firmwareVersionAnnotation <> annotation_of n availableFirmwareAnnotation.
Proof.
  intros H Hold Ht Hfw Hnew.
  destruct (health_frame gs (node_of gs env) (atHealth (geClocks env))) as (_ & Hsp & Hs & _).
  pose proof (health_updating gs (node_of gs env) (atHealth (geClocks env))) as Hh.
  apply evaluated_parts in H as [(e & He & ->)|(n & evs0 & Hn & Hf & _)].
  { apply Hh in Hnew as (_ & n & Hn & _). congruence. }
  apply firmware_cases in Hf as [(Hp & _ & Hrest)|[(_ & _ & [Hp|Hp])|(fw & n' & _ & _ & _ & [Hp|Hp] & _)]].
  - rewrite Hp in Hnew. destruct (proj1 Hh Hnew) as (_ & n' & Hn' & Hr). rewrite Hsp, Hs in Hrest.
    assert (n = Some n') as -> by congruence.
    destruct (Hrest Hnew Hfw n' eq_refl) as (H1 & H2 & H3).
    split; [by apply H3|]. eauto 10.
  - by rewrite Hp in Hnew.
  - by rewrite Hp in Hnew.
  - exfalso. by destruct (health_from_updating gs (node_of gs env) (atHealth (geClocks env)) Hold) as [E|E];
      rewrite E in Hp.
  - exfalso. by destruct (health_from_updating gs (node_of gs env) (atHealth (geClocks env)) Hold) as [E|E];
      rewrite E in Hp.
Qed.

(** Without firmware management nothing ends an update: a station whose
    firmware section is removed while it is Updating stays in Updating at every
    later reconcile with a Ready node, however much time has passed. *)
Theorem unmanaged_update_never_ends gs env n gs' evs :
  evaluated gs env = (gs', evs) -> phase_of gs = PhaseUpdating -> Firmware (gsSpec gs) = None ->
  node_of gs env = Ok (Some n) -> isNodeConditionTrue (nodeConditions n) "Ready" = true ->
  phase_of gs' = PhaseUpdating /\ Firmware (gsSpec gs') = None.
Proof.
  intros H Hold Hfw Hn Hr.
  destruct (health_frame gs (node_of gs env) (atHealth (geClocks env))) as (_ & Hsp & _).
  apply evaluated_parts in H as [(e & He & _)|(n' & evs0 & Hn' & Hf & _)]; [congruence|].
  unfold reconcileFirmware in Hf. rewrite Hsp, Hfw in Hf. injection Hf as <- _. split.
  - change (phase_of (health gs (node_of gs env) (atHealth (geClocks env))) = PhaseUpdating).
    apply health_updating. eauto.
  - simpl. by rewrite Hsp.
Qed.

End StationFacts.

(** ** Labels *)

Section LabelFacts.
Context (hash8 : string -> string) (hash8_length : forall s, String.length (hash8 s) = 8).

(** A station's label value always fits Kubernetes' limit of 63
    characters, and both truncations slice within the bounds of their string. *)
Theorem label_fits namespace gsName :
  (str_len (groundStationLabelValue hash8 namespace gsName) <= maxLabelValueLen)%Z /\
  let label := namespace +:+ "." +:+ gsName in
  let remaining := (maxLabelValueLen - str_len (namespace +:+ ".") - 9)%Z in
  ((maxLabelValueLen < str_len label)%Z -> (1 <= remaining)%Z -> (remaining <= str_len gsName)%Z) /\
  (0 <= Z.min (maxLabelValueLen - 1 - 8) (str_len namespace) <= str_len namespace)%Z.
Proof.
  cbv zeta. unfold groundStationLabelValue, str_len, maxLabelValueLen.
  split; [|rewrite !length_app_str; simpl; lia].
  destruct (Z.leb_spec (Z.of_nat (String.length (namespace +:+ "." +:+ gsName))) 63) as [|Hl]; [done|].
  rewrite !length_app_str in *. simpl in *.
  destruct (Z.ltb_spec (63 - Z.of_nat (String.length namespace + 1) - 9) 1) as [Hr|Hr].
  - rewrite !length_app_str, hash8_length. simpl.
    match goal with |- context [TrimRight ?s ?c] => pose proof (length_TrimRight s c) as Ht end.
    unfold str_take in *. rewrite length_substring in Ht. lia.
  - match goal with |- context [TrimRight ?s ?c] => pose proof (length_TrimRight s c) as Ht end.
    unfold str_take in *. rewrite length_substring in Ht.
    destruct (str_eqb _ ""); rewrite !length_app_str, hash8_length; simpl; lia.
Qed.

(** The API server's answers, as a view of the stations that exist. *)
Definition view_get (all : list GroundStationLifecycle) (key : NamespacedName)
  : GetResult GroundStationLifecycle :=
  match List.find (fun gs => bool_decide (ObjectKeyFromObject (gsMeta gs) = key)) all with
  | Some gs => Found gs
  | None => NotFound
  end.

Definition view_list (all : list GroundStationLifecycle) (ns : option string)
  : option (list GroundStationLifecycle) :=
  match ns with
  | Some ns => Some (List.filter (fun gs => str_eqb (Namespace (gsMeta gs)) ns) all)
  | None => Some all
  end.

Definition label_of (gs : GroundStationLifecycle) : string :=
  groundStationLabelValue hash8 (Namespace (gsMeta gs)) (Name (gsMeta gs)).

Definition no_dot (s : string) : bool := str_all (fun a => negb (Ascii.eqb a ".")) s.

(** The label of a namespace that is kept whole splits back into it. *)
Lemma label_splits namespace gsName :
  no_dot namespace = true -> (str_len namespace <= 52)%Z ->
  exists rest, SplitN2 (groundStationLabelValue hash8 namespace gsName) "." = [namespace; rest].
Proof.
  intros Hd Hl.
  assert (Hsplit : forall t, SplitN2 (namespace +:+ "." +:+ t) "." = [namespace; t]).
  { intros t. unfold SplitN2. rewrite cut_skip by done. simpl. by rewrite app_str_nil_r. }
  unfold groundStationLabelValue, str_len, maxLabelValueLen in *.
  destruct (_ <=? 63)%Z; [eauto|].
  rewrite length_app_str. simpl.
  destruct (Z.ltb_spec (63 - Z.of_nat (String.length namespace + 1) - 9) 1); [lia|].
  destruct (str_eqb _ ""); rewrite <- ?app_str_assoc, Hsplit; eauto.
Qed.

(** Node events reach their station: with a namespace of at most 52
    characters, a station whose label value no other station shares is among
    the requests of every event on a node carrying that label, however long and
    whatever its own name is. *)
Theorem node_events_reach_station all gs node :
  gs ∈ all -> no_dot (Namespace (gsMeta gs)) = true -> (str_len (Namespace (gsMeta gs)) <= 52)%Z ->
  (forall gs', gs' ∈ all -> label_of gs' = label_of gs ->
     ObjectKeyFromObject (gsMeta gs') = ObjectKeyFromObject (gsMeta gs)) ->
  nodeLabels node !! groundStationLabel = Some (label_of gs) ->
  ObjectKeyFromObject (gsMeta gs) ∈ nodeToGroundStation hash8 (view_get all) (view_list all) node.
Proof.
  intros Hin Hd Hl Huniq Hnode. unfold nodeToGroundStation. rewrite Hnode.
  destruct (label_splits (Namespace (gsMeta gs)) (Name (gsMeta gs)) Hd Hl) as [rest Hrest].
  unfold label_of at 1. rewrite Hrest. cbv zeta.
  set (slow := match view_list all _ with Some _ => _ | None => _ end).
  assert (Hslow : ObjectKeyFromObject (gsMeta gs) ∈ slow).
  { unfold slow. simpl. set (requests := map _ _).
    assert (Hr : ObjectKeyFromObject (gsMeta gs) ∈ requests).
    { unfold requests. apply list_elem_of_fmap. exists gs. split; [done|].
      rewrite !elem_of_filter_bool. by rewrite !str_eqb_refl. }
    destruct ((length requests =? 0)%nat && _); [|done]. apply elem_of_app. by left. }
  destruct (view_get all (mkKey (Namespace (gsMeta gs)) rest)) as [gs'| |e] eqn:Hg; [| done |].
  - destruct (str_eqb _ _) eqn:E; [|done]. apply str_eqb_eq in E.
    unfold view_get in Hg. destruct (List.find _ all) as [x|] eqn:Hf; [|done]. injection Hg as ->.
    apply find_some in Hf as [Hf Hk%bool_decide_eq_true]. apply list_elem_of_In in Hf.
    rewrite <- Hk. rewrite (Huniq _ Hf E). by apply list_elem_of_singleton.
  - unfold view_get in Hg. by destruct (List.find _ all).
Qed.

End LabelFacts.

Definition demo_hash : string -> string := fun _ => "0badcafe".

Definition demo_gs (ns name : string) (phase : string) (started : option Time) (fw : option FirmwareSpec)
  : GroundStationLifecycle :=
  mkGS (mkMeta ns name "u" 1 None [] ∅) (mkGSSpec (mkHardware "v" "m" "" []) (mkDeployment (mkGeo "25" "121" "") "k3s" "") None fw) (mkGSStatus phase "" "" None started []).

Definition long_ns : string :=
  replicate_str 51 "a" +:+ "---" +:+ "b".

Definition labelled (l : string) : Node := mkNode {[groundStationLabel := l]} ∅ [] "".

Lemma node_events_reach_station_witness :
  mkKey "ntn" (replicate_str 70 "x") ∈
    nodeToGroundStation demo_hash
      (view_get [demo_gs "ntn" (replicate_str 70 "x") "" None None])
      (view_list [demo_gs "ntn" (replicate_str 70 "x") "" None None])
      (labelled (groundStationLabelValue demo_hash "ntn" (replicate_str 70 "x"))).
Proof.
  apply (node_events_reach_station demo_hash [demo_gs "ntn" (replicate_str 70 "x") "" None None]
           (demo_gs "ntn" (replicate_str 70 "x") "" None None)).
  - by apply list_elem_of_singleton.
  - reflexivity.
  - vm_compute. congruence.
  - intros gs' Hg _. apply list_elem_of_singleton in Hg as ->. done.
  - reflexivity.
Defined.

(** The bound on the namespace is needed: a truncated namespace that ends
    in three dashes gives a label of 60 characters, below the length from which
    the mapper searches the whole cluster, and the node's events reach nobody
    although the station exists and carries that label. *)
Theorem long_namespace_events_lost :
  let gs := demo_gs long_ns "station-1" "" None None in
  let label := groundStationLabelValue demo_hash long_ns "station-1" in
  str_len long_ns = 55%Z /\ str_len label = 60%Z /\
  nodeToGroundStation demo_hash (view_get [gs]) (view_list [gs]) (labelled label) = [].
Proof. cbv zeta. split; [|split]; vm_compute; reflexivity. Qed.

(** ** Witnesses *)

Definition ready_node (current avail : string) : Node :=
  mkNode ∅ {[firmwareVersionAnnotation := current; availableFirmwareAnnotation := avail]}
    [("Ready", ConditionTrue)] "v1".

Definition demo_gs_env (n : Node) (c : Clocks) (gs : GroundStationLifecycle) : GSEnv :=
  mkGSEnv (Found gs) (fun _ => Ok [n]) true c.

Definition demo_clocks (t : Time) : Clocks := mkClocks t t t t.

Abbreviation demo_evaluate := (@evaluate_station list_conditions demo_hash (fun _ => None) None
  (fun _ => "") (fun _ _ => "") (fun _ => "")).

Lemma update_starts_only_when_allowed_witness :
  let gs := demo_gs "n" "s" PhaseRunning None (Some (mkFirmware true "stable" "")) in
  let env := demo_gs_env (ready_node "1" "2") (demo_clocks 5) gs in
  exists fw, Firmware (gsSpec gs) = Some fw /\ window_open fw 5.
Proof.
  cbv zeta.
  set (gs := demo_gs "n" "s" PhaseRunning None (Some (mkFirmware true "stable" ""))).
  set (env := demo_gs_env (ready_node "1" "2") (demo_clocks 5) gs).
  destruct (@update_starts_only_when_allowed list_conditions demo_hash (fun _ => None) None
    (fun _ => "") (fun _ _ => "") (fun _ => "") gs env (demo_evaluate gs env).1 (demo_evaluate gs env).2)
    as (fw & n & Hfw & _ & _ & _ & Hw & _); [exact (surjective_pairing (demo_evaluate gs env))|vm_compute; congruence|vm_compute; reflexivity|].
  exact (ex_intro _ fw (conj Hfw Hw)).
Defined.

Lemma updating_has_start_time_witness :
  let gs := demo_gs "n" "s" PhaseRunning None (Some (mkFirmware true "stable" "")) in
  let env := demo_gs_env (ready_node "1" "2") (demo_clocks 5) gs in
  FirmwareUpdateStarted (gsStatus (demo_evaluate gs env).1) <> None.
Proof.
  cbv zeta.
  set (gs := demo_gs "n" "s" PhaseRunning None (Some (mkFirmware true "stable" ""))).
  set (env := demo_gs_env (ready_node "1" "2") (demo_clocks 5) gs).
  apply (@updating_has_start_time list_conditions demo_hash (fun _ => None) None
    (fun _ => "") (fun _ _ => "") (fun _ => "") gs env (demo_evaluate gs env).1 (demo_evaluate gs env).2);
    [vm_compute; congruence|exact (surjective_pairing (demo_evaluate gs env))|vm_compute; reflexivity].
Defined.

Lemma update_ends_witness :
  let gs := demo_gs "n" "s" PhaseUpdating (Some 3%Z) (Some (mkFirmware true "stable" "")) in
  let env := demo_gs_env (ready_node "1" "2") (demo_clocks 5) gs in
  (Sub 5 3 <= firmwareUpdateTimeout)%Z.
Proof.
  cbv zeta.
  set (gs := demo_gs "n" "s" PhaseUpdating (Some 3%Z) (Some (mkFirmware true "stable" ""))).
  set (env := demo_gs_env (ready_node "1" "2") (demo_clocks 5) gs).
  apply (@update_ends list_conditions demo_hash (fun _ => None) None
    (fun _ => "") (fun _ _ => "") (fun _ => "") gs env (demo_evaluate gs env).1 (demo_evaluate gs env).2 3);
    [exact (surjective_pairing (demo_evaluate gs env))|reflexivity|reflexivity|done|vm_compute; reflexivity].
Defined.

Lemma unmanaged_update_never_ends_witness :
  let gs := demo_gs "n" "s" PhaseUpdating (Some 3%Z) None in
  let env := demo_gs_env (ready_node "1" "2") (demo_clocks (100 * Hour)) gs in
  phase_of (demo_evaluate gs env).1 = PhaseUpdating.
Proof.
  cbv zeta.
  set (gs := demo_gs "n" "s" PhaseUpdating (Some 3%Z) None).
  set (env := demo_gs_env (ready_node "1" "2") (demo_clocks (100 * Hour)) gs).
  apply (@unmanaged_update_never_ends list_conditions demo_hash (fun _ => None) None
    (fun _ => "") (fun _ _ => "") (fun _ => "") gs env (ready_node "1" "2")
    (demo_evaluate gs env).1 (demo_evaluate gs env).2);
    [exact (surjective_pairing (demo_evaluate gs env))|vm_compute; reflexivity..].
Defined.

Lemma label_fits_witness :
  (str_len (groundStationLabelValue demo_hash long_ns "station-1") <= maxLabelValueLen)%Z.
Proof. apply (label_fits demo_hash). intros s. reflexivity. Defined.
