(* ===== verification/PassPredictor.v ===== *)
(** * Package ephemeris: pass windows

    Models [src/pkg/ephemeris/pass_predictor.go] and
    [src/pkg/ephemeris/orbit_regime.go]: the filter and the orbit-regime split
    of element sets, the per-satellite prediction with its trimming to the
    elevation mask, the conservative rounding, the fair cap of the result and
    [PredictPasses] over its pool of workers.

    The SGP4 library (conversion of an element set, the 0-degree passes of a
    satellite over a station, position and look angle) is a parameter, and
    [sort.Slice] is any function that returns a sorted permutation. *)

From stdpp Require Import sorting.
From S2P Require Import Prelude GoStrings GoJson GoUnicode GoTime GoFloat.
From Stdlib Require Import SpecFloat Ascii.
Local Open Scope string_scope.

Definition MaxPassWindows : nat := 500.
Definition MaxSatelliteNameLen : nat := 64.
Definition DefaultStepSeconds : Z := 60.

(** ** Names *)

(** [[]rune(s)], each rune as the text it is written back to. *)
Definition rune_texts (s : string) : list string := map snd (runes 0 s).

Definition BoundedSatelliteLabel (name : string) : string :=
  if (String.length name <=? MaxSatelliteNameLen)%nat then name
  else let r := rune_texts name in
       if (MaxSatelliteNameLen <? length r)%nat
       then String.concat "" (firstn MaxSatelliteNameLen r) else name.

(** ** Element sets *)

(** [sgp4.OMM]. *)
Record OMM := mkOMM {
  ObjectName : string;
  NoradCatID : Z;
  EpochStr : string;
  MeanMotion : float64;
  Eccentricity : float64;
  Inclination : float64;
  RAOfAscNode : float64;
  ArgOfPericenter : float64;
  MeanAnomaly : float64;
  BStar : float64;
  MeanMotionDot : float64;
  MeanMotionDDot : float64;
  otherElements : string     (* the fields the operator does not look at *)
}.

#[export] Instance OMM_eq_dec : EqDecision OMM.
Proof. solve_decision. Defined.

Definition FilterOMMs (omms : list OMM) (noradFilter : list Z) : list OMM :=
  if (length noradFilter =? 0)%nat then omms
  else List.filter (fun o => bool_decide (NoradCatID o ∈ noradFilter)) omms.

Definition minutesPerDay : float64 := f_of_Z 1440.
Definition DeepSpacePeriodMinutes : float64 := f_of_Z 225.

Definition OrbitalPeriodMinutes (omm : OMM) : float64 :=
  if f_le (MeanMotion omm) f_zero || IsNaN (MeanMotion omm) || IsInf (MeanMotion omm) then f_zero
  else f_div minutesPerDay (MeanMotion omm).

Definition IsDeepSpace (omm : OMM) : bool := f_ge (OrbitalPeriodMinutes omm) DeepSpacePeriodMinutes.

Fixpoint SplitByOrbitRegime (omms : list OMM) : list OMM * list OMM :=
  match omms with
  | [] => ([], [])
  | o :: rest =>
      let '(near, deep) := SplitByOrbitRegime rest in
      if IsDeepSpace o then (near, o :: deep) else (o :: near, deep)
  end.

Definition deepSpaceSummaryMaxExamples : nat := 3.

Definition deep_space_example (o : OMM) : string :=
  let name := BoundedSatelliteLabel (ObjectName o) in
  (if str_eqb name "" then "NORAD " ++ fmt_d (NoradCatID o) else name) ++
  " (" ++ fmt_fixed 0 (OrbitalPeriodMinutes o) ++ " min)".

Definition DeepSpaceSummary (deepSpace : list OMM) : string :=
  if (length deepSpace =? 0)%nat then ""
  else
    let examples := map deep_space_example (firstn deepSpaceSummaryMaxExamples deepSpace) in
    let suffix := if (length examples <? length deepSpace)%nat then ", ..." else "" in
    fmt_d (Z.of_nat (length deepSpace)) ++ " element set(s) rejected: orbital period >= " ++
    fmt_fixed 0 DeepSpacePeriodMinutes ++
    " min requires the deep-space (SDP4) model, which this operator's near-earth SGP4 propagator does not implement. Examples: "
    ++ Join examples ", " ++ suffix.

(** ** Numbers from the spec *)

Definition ParseGeoCoord (s : string) : result NumError float64 := ParseFloat s.

Inductive elevation_error := InvalidElevation (e : NumError) | ElevationOutOfRange.

Definition ParseElevation (s : string) : result elevation_error float64 :=
  if str_eqb s "" then Ok (f_of_Z 10)
  else match ParseFloat s with
       | Err e => Err (InvalidElevation e)
       | Ok v => if IsNaN v || IsInf v || f_lt v f_zero || f_gt v (f_of_Z 90)
                 then Err ElevationOutOfRange else Ok v
       end.

(** ** Passes *)

Record GroundStation := mkStation {
  gsName : string;
  Latitude : float64;
  Longitude : float64;
  Altitude : float64
}.

Record PassResult := mkPass {
  pSatellite : string;
  pNoradID : Z;
  pGroundStation : string;
  pAOS : Time;
  pLOS : Time;
  pMaxElevation : float64
}.

#[export] Instance PassResult_eq_dec : EqDecision PassResult.
Proof. solve_decision. Defined.

(** [sgp4.PassDetails]. *)
Record PassDetails := mkDetails {
  dAOS : Time;
  dLOS : Time;
  dMaxElevation : float64;
  dMaxElevationTime : Time
}.

Definition lessPass (a b : PassResult) : bool :=
  if negb (Equal (pAOS a) (pAOS b)) then Before (pAOS a) (pAOS b)
  else if negb (str_eqb (pSatellite a) (pSatellite b)) then str_lt (pSatellite a) (pSatellite b)
  else if negb (str_eqb (pGroundStation a) (pGroundStation b))
  then str_lt (pGroundStation a) (pGroundStation b)
  else Before (pLOS a) (pLOS b).

Definition ceilToSecond (t : Time) : Time :=
  let trunc := Truncate t Second in
  if Before trunc t then Add trunc Second else trunc.

Definition floorToSecond (t : Time) : Time := Truncate t Second.

Definition conservativePassWindow (aos los : Time) : Time * Time * bool :=
  let roundedAOS := ceilToSecond aos in
  let roundedLOS := floorToSecond los in
  (roundedAOS, roundedLOS, After roundedLOS roundedAOS).

(** ** The elevation mask *)

Definition maskCrossingIterations : nat := 40.
Definition maskCrossingTol : Duration := (200 * Millisecond)%Z.

(** The loop of [refineMaskCrossing]; [n] counts the iterations left.  The
    elevation function may fail; [None] is its error. *)
Fixpoint bisect (elevFn : Time -> option float64) (mask : float64) (rising : bool)
  (n : nat) (lo hi : Time) : option (Time * Time) :=
  match n with
  | O => Some (lo, hi)
  | S n =>
      if (maskCrossingTol <? Sub hi lo)%Z then
        let mid := Add lo (Z.quot (Sub hi lo) 2) in
        match elevFn mid with
        | None => None
        | Some el =>
            if Bool.eqb (f_ge el mask) rising
            then bisect elevFn mask rising n lo mid
            else bisect elevFn mask rising n mid hi
        end
      else Some (lo, hi)
  end.

Definition refineMaskCrossing (elevFn : Time -> option float64) (lo hi : Time) (mask : float64)
  (rising : bool) : option Time :=
  match bisect elevFn mask rising maskCrossingIterations lo hi with
  | None => None
  | Some (lo, hi) => Some (if rising then hi else lo)
  end.

Definition below_mask (elevFn : Time -> option float64) (t : Time) (mask : float64) : bool :=
  match elevFn t with Some el => f_lt el mask | None => false end.

Definition trimPassToMask (elevFn : Time -> option float64) (p : PassDetails) (mask : float64)
  : Time * Time :=
  let aos := dAOS p in
  let los := dLOS p in
  if f_le mask f_zero then (aos, los)
  else
    let peak := dMaxElevationTime p in
    let aos' :=
      if After peak aos && below_mask elevFn aos mask
      then match refineMaskCrossing elevFn aos peak mask true with Some t => t | None => aos end
      else aos in
    let los' :=
      if After los peak && below_mask elevFn los mask
      then match refineMaskCrossing elevFn peak los mask false with Some t => t | None => los end
      else los in
    (aos', los').

(** ** The cap *)

Definition seen_count (count : gmap string nat) (s : string) : nat := default 0 (count !! s).

(** The number of distinct satellite names. *)
Definition count_satellites (passes : list PassResult) : nat :=
  size (list_to_set (map pSatellite passes) : gset string).

(** The loop that splits the passes into the kept and the left over. *)
Fixpoint cap_loop (limit quota : nat) (passes kept leftover : list PassResult)
  (count : gmap string nat) : list PassResult * list PassResult :=
  match passes with
  | [] => (kept, leftover)
  | p :: rest =>
      if (length kept <? limit)%nat && (seen_count count (pSatellite p) <? quota)%nat
      then cap_loop limit quota rest (kept ++ [p])%list leftover
             (<[pSatellite p := S (seen_count count (pSatellite p))]> count)
      else cap_loop limit quota rest kept (leftover ++ [p])%list count
  end.

Section Predict.

(** [sort.Slice]. *)
Variable sort_slice : (PassResult -> PassResult -> bool) -> list PassResult -> list PassResult.

Definition capPerSatellite (passes : list PassResult) (limit : nat) : list PassResult :=
  if (length passes <=? limit)%nat then passes
  else
    let quota := Nat.max (limit / count_satellites passes) 1 in
    let '(kept, leftover) := cap_loop limit quota passes [] [] ∅ in
    sort_slice lessPass (kept ++ firstn (limit - length kept) leftover)%list.

(** ** Prediction *)

Variable TLE : Type.
Variable ToTLE : OMM -> result string TLE.
Variable GeneratePasses : TLE -> GroundStation -> Time -> Time -> Z -> result string (list PassDetails).
(** [FindPositionAtTime], and the elevation [GetLookAngle] gives. *)
Variable ECI : Type.
Variable FindPositionAtTime : TLE -> Time -> option ECI.
Variable look_elevation : ECI -> GroundStation -> Time -> option float64.

Definition elevationAt (tle : TLE) (observer : GroundStation) (t : Time) : option float64 :=
  match FindPositionAtTime tle t with
  | None => None
  | Some eci => look_elevation eci observer t
  end.

Definition pass_of (tle : TLE) (omm : OMM) (gs : GroundStation) (minElevation : float64)
  (p : PassDetails) : option PassResult :=
  if f_lt (dMaxElevation p) minElevation then None
  else
    let '(aos, los) := trimPassToMask (elevationAt tle gs) p minElevation in
    let '(aos, los, valid) := conservativePassWindow aos los in
    if valid
    then Some (mkPass (BoundedSatelliteLabel (ObjectName omm)) (NoradCatID omm) (gsName gs) aos los
                 (dMaxElevation p))
    else None.

Definition predictSingle (omm : OMM) (gs : GroundStation) (start stop : Time) (minElevation : float64)
  : result string (list PassResult) :=
  match ToTLE omm with
  | Err e => Err ("converting OMM to TLE for " ++ BoundedSatelliteLabel (ObjectName omm) ++
                  " (NORAD " ++ fmt_d (NoradCatID omm) ++ "): " ++ e)
  | Ok tle =>
      match GeneratePasses tle gs start stop DefaultStepSeconds with
      | Err _ => Ok []
      | Ok passes => Ok (omap (pass_of tle omm gs minElevation) passes)
      end
  end.

Definition bad_mask (m : float64) : bool :=
  IsNaN m || IsInf m || f_lt m f_zero || f_gt m (f_of_Z 90).

Inductive predict_error := BadMask | Cancelled (e : string) | ItemFailed (e : string).

Definition work_items (omms : list OMM) (stations : list GroundStation) : list (OMM * GroundStation) :=
  flat_map (fun o => map (pair o) stations) omms.

Definition item_passes (r : result string (list PassResult)) : list PassResult :=
  match r with Ok l => l | Err _ => [] end.

Definition item_error (r : result string (list PassResult)) : option string :=
  match r with Ok _ => None | Err e => Some e end.

(** What the workers computed, in the order in which they finished. *)
Definition run_items (filtered : list OMM) (stations : list GroundStation) (minElevation : float64)
  (start stop : Time) (order : list nat) : list (result string (list PassResult)) :=
  map (fun w => predictSingle w.1 w.2 start stop minElevation)
    (omap (fun i => work_items filtered stations !! i) order).

(** [PredictPasses].  [order] is the order in which the workers finished their
    items (the items never started are missing, which happens only when the
    context is done), [ctx_err] is [ctx.Err()] at the end, [wall] is
    [time.Now()]. *)
Definition PredictPasses (omms : list OMM) (stations : list GroundStation) (minElevation : float64)
  (horizon : Duration) (noradFilter : list Z) (startTime wall : Time)
  (order : list nat) (ctx_err : option string) : result predict_error (list PassResult) :=
  if bad_mask minElevation then Err BadMask
  else if (length omms =? 0)%nat || (length stations =? 0)%nat then Ok []
  else
    let filtered := FilterOMMs omms noradFilter in
    if (length filtered =? 0)%nat then Ok []
    else
      let start := if IsZero startTime then wall else startTime in
      let results := run_items filtered stations minElevation start (Add start horizon) order in
      let allPasses := flat_map item_passes results in
      match ctx_err with
      | Some e => Err (Cancelled e)
      | None =>
          match head (omap item_error results), allPasses with
          | Some e, [] => Err (ItemFailed e)
          | _, _ => Ok (capPerSatellite (sort_slice lessPass allPasses) MaxPassWindows)
          end
      end.

End Predict.

(** * Properties *)

(** ** Element sets *)

(** The orbit-regime split loses nothing and mixes nothing: it is the pair
    of order-preserving sublists of the near-earth and the deep-space element
    sets, so no deep-space set ever reaches the near-earth propagator. *)
Theorem split_is_partition omms :
  SplitByOrbitRegime omms =
    (List.filter (fun o => negb (IsDeepSpace o)) omms, List.filter IsDeepSpace omms) /\
  (SplitByOrbitRegime omms).1 ++ (SplitByOrbitRegime omms).2 ≡ₚ omms.
Proof.
  assert (H : SplitByOrbitRegime omms =
    (List.filter (fun o => negb (IsDeepSpace o)) omms, List.filter IsDeepSpace omms)).
  { induction omms as [|o l IH]; simpl; [done|]. rewrite IH. by destruct (IsDeepSpace o). }
  split; [done|]. rewrite H. clear H. cbn [fst snd].
  induction omms as [|o l IH]; simpl; [done|].
  destruct (IsDeepSpace o); simpl; [|by rewrite IH].
  by rewrite <- Permutation_middle, IH.
Qed.

(** An accepted elevation mask is a number the pass pipeline can trust:
    finite and within 0 to 90 degrees, whatever the text was, so the mask check
    of [PredictPasses] never refuses a parsed value. *)
Theorem ParseElevation_in_range s v :
  ParseElevation s = Ok v ->
  is_finite v = true /\ f_lt v f_zero = false /\ f_gt v (f_of_Z 90) = false /\ bad_mask v = false.
Proof.
  unfold ParseElevation. destruct (str_eqb s "").
  - intros [= <-]. repeat split; vm_compute; reflexivity.
  - destruct (ParseFloat s) as [w|]; [|done].
    destruct (IsNaN w || IsInf w || f_lt w f_zero || f_gt w (f_of_Z 90)) eqn:E; [done|].
    intros [= <-]. unfold bad_mask, is_finite. rewrite E.
    apply orb_false_iff in E as [[[-> ->]%orb_false_iff ->]%orb_false_iff ->]. done.
Qed.

Lemma ParseElevation_in_range_witness :
  exists v, ParseElevation "12.5" = Ok v /\ is_finite v = true.
Proof.
  eexists. split; [vm_compute; reflexivity|].
  apply (ParseElevation_in_range "12.5"). vm_compute. reflexivity.
Defined.

(** ** Rounding *)

Lemma Truncate_whole k : Truncate (k * Second) Second = (k * Second)%Z.
Proof. unfold Truncate. simpl. rewrite Z_mod_mult. lia. Qed.

Lemma ceil_spec t : (t <= ceilToSecond t < t + Second)%Z /\ metav1_stored (ceilToSecond t) = ceilToSecond t.
Proof.
  unfold ceilToSecond, Before, Add, metav1_stored.
  pose proof (Truncate_le t Second). pose proof (Truncate_gt t Second ltac:(done)) as Hgt.
  assert (Hw : exists k, Truncate t Second = (k * Second)%Z).
  { unfold Truncate. simpl. exists (t / Second)%Z. pose proof (Z.div_mod t Second ltac:(done)). lia. }
  destruct Hw as [k Hk]. destruct (Z.ltb_spec (Truncate t Second) t).
  - split; [lia|]. rewrite Hk. replace (k * Second + Second)%Z with ((k + 1) * Second)%Z by lia.
    apply Truncate_whole.
  - split; [unfold Second in *; lia|]. by rewrite Truncate_idemp.
Qed.

(** The stored window never claims more than the computed one: rounding
    moves AOS up and LOS down by less than a second, the result is unchanged by
    the whole-second serialisation of the API server, and the window is kept
    exactly when a full second of it remains. *)
Theorem rounded_window_is_conservative aos los :
  let '(a, l, valid) := conservativePassWindow aos los in
  (aos <= a < aos + Second)%Z /\ (los - Second < l <= los)%Z /\
  metav1_stored a = a /\ metav1_stored l = l /\
  (valid = true <-> exists s, metav1_stored s = s /\ (aos <= s)%Z /\ (s + Second <= los)%Z).
Proof.
  unfold conservativePassWindow. destruct (ceil_spec aos) as [Ha Hsa].
  pose proof (Truncate_le los Second) as Hl1. pose proof (Truncate_gt los Second ltac:(done)) as Hl2.
  unfold floorToSecond, After. split; [done|]. split; [lia|]. split; [done|].
  split; [unfold metav1_stored; by rewrite Truncate_idemp|].
  assert (Hstep : forall x y, metav1_stored x = x -> metav1_stored y = y -> (x < y)%Z -> (x + Second <= y)%Z).
  { intros x y Hx Hy Hlt. unfold metav1_stored, Truncate in Hx, Hy. simpl in Hx, Hy.
    pose proof (Z.div_mod x Second ltac:(done)). pose proof (Z.div_mod y Second ltac:(done)).
    unfold Second in *. nia. }
  rewrite Z.ltb_lt. split.
  - intros Hlt. exists (ceilToSecond aos). split; [done|]. split; [lia|].
    assert (Hls : metav1_stored (Truncate los Second) = Truncate los Second)
      by (unfold metav1_stored; by rewrite Truncate_idemp).
    pose proof (Hstep _ _ Hsa Hls Hlt). lia.
  - intros (s & Hs & H1 & H2).
    assert (ceilToSecond aos <= s)%Z.
    { apply Z.le_ngt. intros Hc. specialize (Hstep _ _ Hs Hsa Hc). lia. }
    assert (s + Second <= Truncate los Second)%Z.
    { rewrite <- (Truncate_idemp los). pose proof (Truncate_mono (s + Second) los Second H2) as Hm.
      etrans; [|rewrite Truncate_idemp; exact Hm].
      unfold metav1_stored, Truncate in *. simpl in *.
      replace ((s + Second) mod Second)%Z with (s mod Second)%Z; [lia|].
      rewrite <- (Z_mod_plus_full s 1 Second). done. }
    unfold Second in *. lia.
Qed.

(** ** The mask *)

Definition above (elevFn : Time -> option float64) (mask : float64) (t : Time) : bool :=
  match elevFn t with Some el => f_ge el mask | None => false end.

(** The elevation is defined and comparable with the mask on an interval. *)
Definition defined_on (elevFn : Time -> option float64) (mask : float64) (lo hi : Time) : Prop :=
  forall t, (lo <= t <= hi)%Z ->
    (exists el, elevFn t = Some el) /\ below_mask elevFn t mask = negb (above elevFn mask t).

(** The bisection keeps its bracket, stays inside it and halves it. *)
Lemma bisect_spec elevFn mask rising n lo hi :
  defined_on elevFn mask lo hi -> (lo < hi)%Z -> (hi - lo <= int64_max)%Z ->
  Bool.eqb (above elevFn mask lo) rising = false -> Bool.eqb (above elevFn mask hi) rising = true ->
  exists lo' hi', bisect elevFn mask rising n lo hi = Some (lo', hi') /\
    (lo <= lo' < hi')%Z /\ (hi' <= hi)%Z /\
    Bool.eqb (above elevFn mask lo') rising = false /\ Bool.eqb (above elevFn mask hi') rising = true /\
    ((hi' - lo' <= maskCrossingTol)%Z \/
     ((hi' - lo') * 2 ^ Z.of_nat n <= hi - lo + 2 ^ Z.of_nat n - 1)%Z).
Proof.
  revert lo hi. induction n as [|n IH]; intros lo hi Hdef Hlt Hw Hlo Hhi; cbn [bisect].
  { exists lo, hi. repeat split; auto; try lia. }
  assert (Hsub : Sub hi lo = (hi - lo)%Z) by (unfold Sub; apply sat64_id; unfold int64_min, int64_max in *; lia).
  rewrite Hsub.
  destruct (Z.ltb_spec maskCrossingTol (hi - lo)) as [Hbig|Hsmall].
  2: { exists lo, hi. repeat split; auto; lia. }
  rewrite Z.quot_div_nonneg by lia. unfold Add.
  assert (Htol : (200000000 < hi - lo)%Z) by exact Hbig.
  set (mid := (lo + (hi - lo) / 2)%Z).
  assert (Hmid : (lo < mid < hi)%Z /\ (2 * (mid - lo) <= hi - lo + 1)%Z /\ (2 * (hi - mid) <= hi - lo + 1)%Z).
  { unfold mid. pose proof (Z.div_mod (hi - lo) 2 ltac:(lia)). pose proof (Z.mod_pos_bound (hi - lo) 2 ltac:(lia)). lia. }
  destruct (Hdef mid ltac:(lia)) as [[el Hel] _].
  assert (Habove : above elevFn mask mid = f_ge el mask) by (unfold above; by rewrite Hel).
  rewrite Hel. rewrite <- Habove.
  rewrite Nat2Z.inj_succ, Z.pow_succ_r by lia.
  destruct (Bool.eqb (above elevFn mask mid) rising) eqn:E.
  - destruct (IH lo mid) as (lo' & hi' & Hb & H1 & H2 & H3 & H4 & H5); auto; try lia.
    { intros t Ht. apply Hdef. lia. }
    exists lo', hi'. repeat match goal with |- _ /\ _ => split end; auto; try lia.
  - destruct (IH mid hi) as (lo' & hi' & Hb & H1 & H2 & H3 & H4 & H5); auto; try lia.
    { intros t Ht. apply Hdef. lia. }
    exists lo', hi'. repeat match goal with |- _ /\ _ => split end; auto; try lia.
Qed.

(** From a width of at most [(tol - 1) * 2 ^ k + 1] the loop ends by itself
    within [k] rounds. *)
Lemma bisect_enough elevFn mask rising k n lo hi :
  (hi - lo <= int64_max)%Z -> (hi - lo <= (maskCrossingTol - 1) * 2 ^ Z.of_nat k + 1)%Z -> (k <= n)%nat ->
  bisect elevFn mask rising n lo hi = bisect elevFn mask rising k lo hi.
Proof.
  assert (Htol : maskCrossingTol = 200000000%Z) by reflexivity.
  assert (Hstop : forall n lo hi, (hi - lo <= maskCrossingTol)%Z -> bisect elevFn mask rising n lo hi = Some (lo, hi)).
  { intros m l h Hs. destruct m; [done|]. cbn [bisect]. rewrite (proj2 (Z.ltb_ge maskCrossingTol (Sub h l))); [done|].
    unfold Sub, sat64. unfold int64_min, int64_max. lia. }
  revert n lo hi. induction k as [|k IH]; intros n lo hi Hw Hk Hn.
  { rewrite !Hstop; [done|cbn in Hk; lia..]. }
  destruct (Z_le_gt_dec (hi - lo) maskCrossingTol) as [Hs|Hs]; [by rewrite !Hstop|].
  destruct n as [|n]; [lia|]. cbn [bisect].
  assert (Hsub : Sub hi lo = (hi - lo)%Z) by (unfold Sub; apply sat64_id; unfold int64_min, int64_max in *; lia).
  rewrite Hsub. destruct (Z.ltb_spec maskCrossingTol (hi - lo)); [|done].
  rewrite Z.quot_div_nonneg by lia. unfold Add. set (mid := (lo + (hi - lo) / 2)%Z).
  rewrite Nat2Z.inj_succ, Z.pow_succ_r in Hk by lia.
  pose proof (Z.div_mod (hi - lo) 2 ltac:(lia)). pose proof (Z.mod_pos_bound (hi - lo) 2 ltac:(lia)).
  destruct (elevFn mid); [|done]. destruct (Bool.eqb _ rising); apply IH; unfold mid; lia.
Qed.

(** And the bracket it leaves is inside the first one and within the tolerance. *)
Lemma bisect_within elevFn mask rising k lo hi lo' hi' :
  (lo <= hi <= lo + int64_max)%Z -> (hi - lo <= (maskCrossingTol - 1) * 2 ^ Z.of_nat k + 1)%Z ->
  bisect elevFn mask rising k lo hi = Some (lo', hi') ->
  (lo <= lo' <= hi')%Z /\ (hi' <= hi)%Z /\ (hi' - lo' <= maskCrossingTol)%Z.
Proof.
  assert (Htol : maskCrossingTol = 200000000%Z) by reflexivity.
  revert lo hi. induction k as [|k IH]; intros lo hi Hw Hk; cbn [bisect].
  { intros [= <- <-]. cbn in Hk. lia. }
  assert (Hsub : Sub hi lo = (hi - lo)%Z) by (unfold Sub; apply sat64_id; unfold int64_min, int64_max in *; lia).
  rewrite Hsub. destruct (Z.ltb_spec maskCrossingTol (hi - lo)); [|intros [= <- <-]; lia].
  rewrite Z.quot_div_nonneg by lia. unfold Add. set (mid := (lo + (hi - lo) / 2)%Z).
  rewrite Nat2Z.inj_succ, Z.pow_succ_r in Hk by lia.
  pose proof (Z.div_mod (hi - lo) 2 ltac:(lia)). pose proof (Z.mod_pos_bound (hi - lo) 2 ltac:(lia)).
  destruct (elevFn mid); [|done].
  destruct (Bool.eqb _ rising); intros Hb; apply IH in Hb; unfold mid in *; lia.
Qed.

(** C30. The loop that refines a mask crossing ends by its tolerance and never by
    its bound of forty rounds, for any two times at most the greatest duration
    (2^63 - 1 ns, some 292 years) apart and whatever the elevation function does
    (it may fail or not be monotone): unless a computation of the elevation
    fails, the bracket it leaves lies within the two times and is at most 200 ms
    wide, and with more rounds it would give the same. *)
Theorem refinement_terminates elevFn mask rising lo hi :
  (lo <= hi <= lo + int64_max)%Z ->
  (forall n, (maskCrossingIterations <= n)%nat ->
     bisect elevFn mask rising n lo hi = bisect elevFn mask rising maskCrossingIterations lo hi) /\
  forall lo' hi', bisect elevFn mask rising maskCrossingIterations lo hi = Some (lo', hi') ->
    (lo <= lo' <= hi')%Z /\ (hi' <= hi)%Z /\ (hi' - lo' <= 200 * Millisecond)%Z.
Proof.
  intros Hw. assert (Hk : (hi - lo <= (maskCrossingTol - 1) * 2 ^ Z.of_nat maskCrossingIterations + 1)%Z).
  { unfold maskCrossingTol, maskCrossingIterations, Millisecond, int64_max in *.
    change (2 ^ Z.of_nat 40)%Z with 1099511627776%Z. lia. }
  split; [intros n Hn; apply bisect_enough; [lia|done|done]|].
  intros lo' hi' H. by apply bisect_within in H; [|lia|done].
Qed.

Lemma refinement_terminates_witness :
  bisect (fun t => Some (f_of_Z (t / Second))) (f_of_Z 5) true 1000 0 (10 * Second) =
  bisect (fun t => Some (f_of_Z (t / Second))) (f_of_Z 5) true maskCrossingIterations 0 (10 * Second).
Proof. apply refinement_terminates; [vm_compute; split; discriminate|unfold maskCrossingIterations; lia]. Defined.

(** Forty halvings reach the tolerance from any representable width. *)
Lemma refine_spec elevFn mask rising lo hi :
  defined_on elevFn mask lo hi -> (lo < hi)%Z -> (hi - lo <= int64_max)%Z ->
  Bool.eqb (above elevFn mask lo) rising = false -> Bool.eqb (above elevFn mask hi) rising = true ->
  exists t u, refineMaskCrossing elevFn lo hi mask rising = Some t /\
    (lo <= t <= hi)%Z /\ (lo <= u <= hi)%Z /\
    above elevFn mask t = true /\ above elevFn mask u = false /\
    (if rising then t - maskCrossingTol <= u < t else t < u <= t + maskCrossingTol)%Z.
Proof.
  intros Hdef Hlt Hw Hlo Hhi.
  destruct (bisect_spec elevFn mask rising maskCrossingIterations lo hi Hdef Hlt Hw Hlo Hhi)
    as (lo' & hi' & Hb & H1 & H2 & H3 & H4 & H5).
  assert (Htol : (hi' - lo' <= maskCrossingTol)%Z).
  { destruct H5 as [H5|H5]; [done|]. unfold maskCrossingIterations, maskCrossingTol, int64_max in *.
    change (2 ^ Z.of_nat 40)%Z with 1099511627776%Z in H5. unfold Millisecond. lia. }
  unfold refineMaskCrossing. rewrite Hb. destruct rising; cbv iota.
  - exists hi', lo'. apply eqb_prop in H4. apply eqb_false_iff, not_true_is_false in H3.
    repeat match goal with |- _ /\ _ => split end; auto; try lia.
  - exists lo', hi'. apply eqb_prop in H4. apply eqb_false_iff, not_false_is_true in H3.
    repeat match goal with |- _ /\ _ => split end; auto; try lia.
Qed.

(** A pass rises to one peak and falls: once above the mask it stays above until
    the peak, and after the peak, once below, it stays below. *)
Record single_arc (elevFn : Time -> option float64) (mask : float64) (p : PassDetails) : Prop := {
  arc_order : (dAOS p <= dMaxElevationTime p <= dLOS p)%Z;
  arc_width : (dLOS p - dAOS p <= int64_max)%Z;
  arc_defined : defined_on elevFn mask (dAOS p) (dLOS p);
  arc_peak : above elevFn mask (dMaxElevationTime p) = true;
  arc_rise : forall t u, (dAOS p <= t <= u)%Z -> (u <= dMaxElevationTime p)%Z ->
             above elevFn mask t = true -> above elevFn mask u = true;
  arc_fall : forall t u, (dMaxElevationTime p <= t <= u)%Z -> (u <= dLOS p)%Z ->
             above elevFn mask u = true -> above elevFn mask t = true
}.

Lemma below_is_not_above elevFn mask lo hi t :
  defined_on elevFn mask lo hi -> (lo <= t <= hi)%Z ->
  below_mask elevFn t mask = true -> above elevFn mask t = false.
Proof. intros Hd Ht Hb. destruct (Hd t Ht) as [_ He]. rewrite Hb in He. by destruct (above _ _ _). Qed.

(** The rising side: the trimmed AOS is usable from there to the peak, and
    nothing usable before it is farther away than the tolerance. *)
Lemma trim_rising elevFn mask p :
  single_arc elevFn mask p ->
  let aos := dAOS p in let peak := dMaxElevationTime p in
  let aos' := if After peak aos && below_mask elevFn aos mask
    then match refineMaskCrossing elevFn aos peak mask true with Some t => t | None => aos end
    else aos in
  (aos <= aos' <= peak)%Z /\
  (forall t, (aos' <= t <= peak)%Z -> above elevFn mask t = true) /\
  (forall t, (aos <= t <= peak)%Z -> above elevFn mask t = true -> (aos' - maskCrossingTol <= t)%Z).
Proof.
  intros [Ho Hw Hd Hp Hr _]. cbv zeta. unfold After.
  destruct (Z.ltb_spec (dAOS p) (dMaxElevationTime p)) as [Hlt|Hge]; simpl.
  2: { assert (dAOS p = dMaxElevationTime p) as E by lia. rewrite E. repeat split; try lia.
       - intros t Ht. replace t with (dMaxElevationTime p) by lia. done.
       - intros t Ht _. unfold maskCrossingTol, Millisecond. lia. }
  destruct (below_mask elevFn (dAOS p) mask) eqn:Hb.
  - apply (below_is_not_above _ _ (dAOS p) (dLOS p)) in Hb; [|done|lia].
    destruct (refine_spec elevFn mask true (dAOS p) (dMaxElevationTime p))
      as (t & u & -> & Ht & Hu & Hat & Hau & Hut); try lia.
    { intros x Hx. apply Hd. lia. }
    { by rewrite Hb. }
    { by rewrite Hp. }
    repeat split; try lia.
    + intros x Hx. apply (Hr t x); [lia|lia|done].
    + intros x Hx Hax. apply Z.le_ngt. intros Hlt'.
      assert (above elevFn mask u = true) by (apply (Hr x u); [lia|lia|done]). congruence.
  - repeat split; try lia.
    + destruct (Hd (dAOS p) ltac:(lia)) as [_ He]. rewrite Hb in He. symmetry in He.
      apply negb_false_iff in He. intros t Ht. apply (Hr (dAOS p) t); [lia|lia|done].
    + intros t Ht _. unfold maskCrossingTol, Millisecond. lia.
Qed.

Lemma trim_falling elevFn mask p :
  single_arc elevFn mask p ->
  let los := dLOS p in let peak := dMaxElevationTime p in
  let los' := if After los peak && below_mask elevFn los mask
    then match refineMaskCrossing elevFn peak los mask false with Some t => t | None => los end
    else los in
  (peak <= los' <= los)%Z /\
  (forall t, (peak <= t <= los')%Z -> above elevFn mask t = true) /\
  (forall t, (peak <= t <= los)%Z -> above elevFn mask t = true -> (t <= los' + maskCrossingTol)%Z).
Proof.
  intros [Ho Hw Hd Hp _ Hr]. cbv zeta. unfold After.
  destruct (Z.ltb_spec (dMaxElevationTime p) (dLOS p)) as [Hlt|Hge]; simpl.
  2: { assert (dLOS p = dMaxElevationTime p) as E by lia. rewrite E. repeat split; try lia.
       - intros t Ht. replace t with (dMaxElevationTime p) by lia. done.
       - intros t Ht _. unfold maskCrossingTol, Millisecond. lia. }
  destruct (below_mask elevFn (dLOS p) mask) eqn:Hb.
  - apply (below_is_not_above _ _ (dAOS p) (dLOS p)) in Hb; [|done|lia].
    destruct (refine_spec elevFn mask false (dMaxElevationTime p) (dLOS p))
      as (t & u & -> & Ht & Hu & Hat & Hau & Hut); try lia.
    { intros x Hx. apply Hd. lia. }
    { by rewrite Hp. }
    { by rewrite Hb. }
    repeat split; try lia.
    + intros x Hx. apply (Hr x t); [lia|lia|done].
    + intros x Hx Hax. apply Z.le_ngt. intros Hlt'.
      assert (above elevFn mask u = true) by (apply (Hr u x); [lia|lia|done]). congruence.
  - repeat split; try lia.
    + destruct (Hd (dLOS p) ltac:(lia)) as [_ He]. rewrite Hb in He. symmetry in He.
      apply negb_false_iff in He. intros t Ht. apply (Hr t (dLOS p)); [lia|lia|done].
    + intros t Ht _. unfold maskCrossingTol, Millisecond. lia.
Qed.

(** C27. Trimming to the mask is sound and tight: for a pass that rises to one
    peak and falls, with the elevation known throughout, every instant of the
    trimmed window is at or above the mask, and every usable instant of the pass
    lies within 200 ms of it; forty halvings always suffice, from any width the
    clock can represent. *)
Theorem trim_sound_and_tight elevFn mask p :
  single_arc elevFn mask p -> f_le mask f_zero = false ->
  let '(aos, los) := trimPassToMask elevFn p mask in
  (dAOS p <= aos <= dMaxElevationTime p)%Z /\ (dMaxElevationTime p <= los <= dLOS p)%Z /\
  (forall t, (aos <= t <= los)%Z -> above elevFn mask t = true) /\
  (forall t, (dAOS p <= t <= dLOS p)%Z -> above elevFn mask t = true ->
     (aos - 200 * Millisecond <= t <= los + 200 * Millisecond)%Z).
Proof.
  intros Harc Hm. unfold trimPassToMask. rewrite Hm.
  destruct (trim_rising elevFn mask p Harc) as (Ha1 & Ha2 & Ha3).
  destruct (trim_falling elevFn mask p Harc) as (Hl1 & Hl2 & Hl3).
  cbv zeta in *.
  match goal with |- (?a1 <= ?a <= _)%Z /\ (_ <= ?l <= _)%Z /\ _ => set (aos := a) in *; set (los := l) in * end.
  split; [done|]. split; [done|]. split.
  - intros t Ht. destruct (Z.le_ge_cases t (dMaxElevationTime p)); [apply Ha2|apply Hl2]; lia.
  - intros t Ht Hat. unfold maskCrossingTol in *.
    destruct (Z.le_ge_cases t (dMaxElevationTime p)) as [Hle|Hge].
    + specialize (Ha3 t ltac:(lia) Hat). unfold Millisecond in *. lia.
    + specialize (Hl3 t ltac:(lia) Hat). unfold Millisecond in *. lia.
Qed.

(** A satellite that is 20 degrees up from second 3 to second 7. *)
Definition demo_elevation (t : Time) : option float64 :=
  Some (if (3 * Second <=? t)%Z && (t <=? 7 * Second)%Z then f_of_Z 20 else f_zero).

Definition demo_pass : PassDetails := mkDetails (1 * Second) (9 * Second) (f_of_Z 20) (5 * Second).

Lemma demo_above t :
  above demo_elevation (f_of_Z 10) t = ((3 * Second <=? t)%Z && (t <=? 7 * Second)%Z) /\
  below_mask demo_elevation t (f_of_Z 10) = negb (above demo_elevation (f_of_Z 10) t).
Proof.
  unfold above, below_mask, demo_elevation. destruct ((3 * Second <=? t)%Z && (t <=? 7 * Second)%Z);
    split; vm_compute; reflexivity.
Qed.

Lemma demo_arc : single_arc demo_elevation (f_of_Z 10) demo_pass.
Proof.
  constructor; cbn [dAOS dLOS dMaxElevationTime demo_pass]; unfold Second, int64_max.
  - lia.
  - lia.
  - intros t _. split; [eexists; reflexivity|apply demo_above].
  - rewrite (proj1 (demo_above _)). reflexivity.
  - intros t u Ht Hu. rewrite !(proj1 (demo_above _)), !andb_true_iff, !Z.leb_le. unfold Second. lia.
  - intros t u Ht Hu. rewrite !(proj1 (demo_above _)), !andb_true_iff, !Z.leb_le. unfold Second. lia.
Qed.

Lemma trim_sound_and_tight_witness :
  let '(aos, los) := trimPassToMask demo_elevation demo_pass (f_of_Z 10) in
  above demo_elevation (f_of_Z 10) aos = true /\ (aos - 200 * Millisecond <= 3 * Second)%Z.
Proof.
  pose proof (trim_sound_and_tight demo_elevation (f_of_Z 10) demo_pass demo_arc
    ltac:(vm_compute; reflexivity)) as H.
  destruct (trimPassToMask demo_elevation demo_pass (f_of_Z 10)) as [aos los].
  destruct H as (H1 & H2 & H3 & H4). split.
  - apply H3. cbn in H1, H2. lia.
  - apply H4; [cbn; unfold Second; lia|]. rewrite (proj1 (demo_above _)). reflexivity.
Defined.

(** ** The cap *)

(** How many passes of a list belong to a satellite. *)
Definition occ (s : string) (l : list PassResult) : nat :=
  length (List.filter (fun p => str_eqb (pSatellite p) s) l).

Lemma occ_app s l1 l2 : occ s (l1 ++ l2) = occ s l1 + occ s l2.
Proof. unfold occ. by rewrite List.filter_app, length_app. Qed.

Lemma occ_cons s p l : occ s (p :: l) = (if str_eqb (pSatellite p) s then 1 else 0) + occ s l.
Proof. unfold occ. simpl. by destruct (str_eqb _ _). Qed.

Lemma occ_nil s : occ s [] = 0.
Proof. done. Qed.

#[export] Instance occ_proper s : Proper ((≡ₚ) ==> (=)) (occ s).
Proof. induction 1; rewrite ?occ_cons; lia. Qed.

(** With at most [q] passes per satellite of [S], there are at most [q * |S|]. *)
Lemma occ_bound (q : nat) (S : list string) l :
  NoDup S -> (forall p, p ∈ l -> pSatellite p ∈ S) -> (forall s, s ∈ S -> occ s l <= q) ->
  length l <= length S * q.
Proof.
  revert l. induction S as [|s S IH]; intros l Hnd Hin Hq.
  - destruct l as [|p l]; [done|]. exfalso. specialize (Hin p). rewrite elem_of_cons in Hin.
    by destruct (not_elem_of_nil (pSatellite p) (Hin (or_introl eq_refl))).
  - apply NoDup_cons in Hnd as [Hs Hnd]. simpl.
    set (rest := List.filter (fun p => negb (str_eqb (pSatellite p) s)) l).
    assert (Hlen : length l = occ s l + length rest).
    { unfold rest, occ. clear. induction l as [|p l IH]; simpl; [done|].
      destruct (str_eqb _ _); simpl; lia. }
    assert (Hocc : forall s', s' <> s -> occ s' rest = occ s' l).
    { intros s' Hne. unfold rest. clear -Hne. induction l as [|p l IH]; simpl; [done|].
      destruct (str_eqb (pSatellite p) s) eqn:E; simpl; rewrite ?occ_cons, IH; [|done].
      apply str_eqb_eq in E. rewrite (proj2 (str_eqb_neq (pSatellite p) s')) by congruence. done. }
    specialize (IH rest Hnd). assert (length rest <= length S * q).
    { apply IH.
      - intros p Hp. apply elem_of_filter_bool in Hp as [Hne Hp].
        apply negb_true_iff, str_eqb_neq in Hne. specialize (Hin _ Hp). apply elem_of_cons in Hin.
        by destruct Hin.
      - intros s' Hs'. rewrite Hocc by congruence. apply Hq. rewrite elem_of_cons. auto. }
    specialize (Hq s ltac:(rewrite elem_of_cons; auto)). lia.
Qed.

(** If one satellite of [S] has room left, so has the whole. *)
Lemma occ_room q (S : list string) l p :
  NoDup S -> (forall x, x ∈ l -> pSatellite x ∈ S) -> (forall s, s ∈ S -> occ s l <= q) ->
  pSatellite p ∈ S -> occ (pSatellite p) l < q -> length l < length S * q.
Proof.
  intros Hnd Hin Hq Hp Hroom.
  pose proof (occ_bound q S (l ++ [p]) Hnd) as H. rewrite length_app in H. simpl in H.
  enough (length l + 1 <= length S * q) by lia. apply H.
  - intros x. rewrite elem_of_app, list_elem_of_singleton. intros [Hx| ->]; auto.
  - intros s Hs. rewrite occ_app, occ_cons, occ_nil.
    destruct (str_eqb (pSatellite p) s) eqn:E; [apply str_eqb_eq in E; subst s; simpl; lia|simpl].
    specialize (Hq s Hs). lia.
Qed.

(** What the loop has kept and left over after the passes [done]. *)
Record cap_state (limit quota : nat) (done kept leftover : list PassResult)
  (count : gmap string nat) : Prop := {
  cs_perm : kept ++ leftover ≡ₚ done;
  cs_count : forall s, seen_count count s = occ s kept;
  cs_limit : length kept <= limit
}.

Lemma cap_state_keep limit quota dn kept leftover count p :
  cap_state limit quota dn kept leftover count -> length kept < limit ->
  cap_state limit quota (dn ++ [p]) (kept ++ [p]) leftover
    (<[pSatellite p := S (occ (pSatellite p) kept)]> count).
Proof.
  intros [Hp Hc Hl] Hr. constructor.
  - rewrite <- Hp, <- !app_assoc. apply Permutation_app_head, Permutation_app_comm.
  - intros s. rewrite occ_app, occ_cons, occ_nil, <- (Hc s). unfold seen_count.
    destruct (str_eqb (pSatellite p) s) eqn:Es.
    + apply str_eqb_eq in Es as <-. rewrite lookup_insert_eq. simpl. rewrite <- Hc.
      unfold seen_count. lia.
    + apply str_eqb_neq in Es. rewrite lookup_insert_ne by done. simpl. lia.
  - rewrite length_app. simpl. lia.
Qed.

Lemma cap_state_leave limit quota dn kept leftover count p :
  cap_state limit quota dn kept leftover count ->
  cap_state limit quota (dn ++ [p]) kept (leftover ++ [p]) count.
Proof. intros [Hp Hc Hl]. constructor; [by rewrite <- Hp, app_assoc|done|done]. Qed.

Lemma cap_loop_state limit quota passes done kept leftover count kept' leftover' :
  cap_state limit quota done kept leftover count ->
  cap_loop limit quota passes kept leftover count = (kept', leftover') ->
  exists count', cap_state limit quota (done ++ passes) kept' leftover' count'.
Proof.
  revert done kept leftover count. induction passes as [|p rest IH]; intros dn kept leftover count [Hp Hc Hl] H.
  - injection H as <- <-. exists count. rewrite app_nil_r. by constructor.
  - cbn [cap_loop] in H. replace (dn ++ p :: rest)%list with ((dn ++ [p]) ++ rest)%list
      by (by rewrite <- app_assoc).
    destruct ((length kept <? limit)%nat && _) eqn:E.
    + apply andb_true_iff in E as [El%Nat.ltb_lt _]. eapply IH; [|exact H]. rewrite Hc.
      apply cap_state_keep; [by constructor|done].
    + eapply IH; [|exact H]. apply cap_state_leave. by constructor.
Qed.

(** When there is room for a quota each, every satellite gets its earliest
    passes up to the quota. *)
Lemma cap_loop_fair limit quota S passes done kept leftover count kept' leftover' :
  NoDup S -> (forall p, p ∈ (done ++ passes)%list -> pSatellite p ∈ S) -> length S * quota <= limit ->
  cap_state limit quota done kept leftover count ->
  (forall s, occ s kept = min quota (occ s done)) ->
  cap_loop limit quota passes kept leftover count = (kept', leftover') ->
  (forall p, p ∈ kept -> p ∈ kept') /\
  forall p1 p p2, passes = (p1 ++ p :: p2)%list -> occ (pSatellite p) (done ++ p1) < quota -> p ∈ kept'.
Proof.
  intros Hnd. revert done kept leftover count.
  induction passes as [|x rest IH]; intros dn kept leftover count Hin Hroom Hst Hmin H.
  - injection H as <- <-. split; [done|]. intros [|] ? ? ?; done.
  - destruct Hst as [Hp Hc Hl]. cbn [cap_loop] in H. rewrite Hc, Hmin in H.
    assert (Hsub : forall y, y ∈ kept -> pSatellite y ∈ S).
    { intros y Hy. apply Hin. rewrite elem_of_app, <- Hp, elem_of_app. auto. }
    assert (Hx : pSatellite x ∈ S) by (apply Hin; rewrite elem_of_app, elem_of_cons; auto).
    assert (Hin' : forall p, p ∈ ((dn ++ [x]) ++ rest)%list -> pSatellite p ∈ S)
      by (rewrite <- app_assoc; done).
    assert (Hst' : forall (b : bool), b = (occ (pSatellite x) dn <? quota)%nat ->
      (length kept <? limit)%nat && (min quota (occ (pSatellite x) dn) <? quota)%nat = b).
    { intros b ->. destruct (Nat.ltb_spec (occ (pSatellite x) dn) quota) as [Hlt|Hge].
      - apply andb_true_iff. rewrite !Nat.ltb_lt. split; [|lia].
        apply (Nat.lt_le_trans _ (length S * quota)); [|done].
        apply (occ_room _ _ _ x); auto; [|rewrite Hmin; lia]. intros s _. rewrite Hmin. lia.
      - apply andb_false_iff. right. apply Nat.ltb_ge. lia. }
    rewrite (Hst' _ eq_refl) in H. destruct (Nat.ltb_spec (occ (pSatellite x) dn) quota) as [Hlt|Hge].
    + edestruct (IH (dn ++ [x])%list) as [Hkeep Hfair]; [exact Hin'|done| | |exact H|].
      * rewrite <- Hmin. apply cap_state_keep; [by constructor|].
        apply (Nat.lt_le_trans _ (length S * quota)); [|done].
        apply (occ_room _ _ _ x); auto; [|rewrite Hmin; lia]. intros s _. rewrite Hmin. lia.
      * intros s. rewrite !occ_app, !occ_cons, occ_nil, Hmin.
        destruct (str_eqb (pSatellite x) s) eqn:Es; [apply str_eqb_eq in Es as <-|]; simpl; lia.
      * split; [intros y Hy; apply Hkeep; rewrite elem_of_app; auto|].
        intros [|p1' p1] p p2 [= -> Hrest] Hocc.
        -- apply Hkeep. rewrite elem_of_app, list_elem_of_singleton. auto.
        -- apply (Hfair p1 p p2 Hrest). by rewrite <- app_assoc.
    + edestruct (IH (dn ++ [x])%list) as [Hkeep Hfair]; [exact Hin'|done| | |exact H|].
      * apply cap_state_leave. by constructor.
      * intros s. rewrite occ_app, occ_cons, occ_nil, Hmin.
        destruct (str_eqb (pSatellite x) s) eqn:Es; [apply str_eqb_eq in Es as <-|]; simpl; lia.
      * split; [done|]. intros [|p1' p1] p p2 [= -> Hrest] Hocc.
        -- rewrite app_nil_r in Hocc. lia.
        -- apply (Hfair p1 p p2 Hrest). by rewrite <- app_assoc.
Qed.

(** While there is room, each satellite has its share; and never more. *)
Lemma cap_loop_share limit quota passes done kept leftover count kept' leftover' :
  cap_state limit quota done kept leftover count ->
  (forall s, occ s kept <= quota) ->
  (length kept < limit -> forall s, occ s kept = min quota (occ s done)) ->
  cap_loop limit quota passes kept leftover count = (kept', leftover') ->
  (forall s, occ s kept' <= quota) /\
  (length kept' < limit -> forall s, occ s kept' = min quota (occ s (done ++ passes))).
Proof.
  revert done kept leftover count.
  induction passes as [|x rest IH]; intros dn kept leftover count Hst Hle Hmin H.
  - injection H as <- <-. rewrite app_nil_r. done.
  - replace (dn ++ x :: rest)%list with ((dn ++ [x]) ++ rest)%list by (by rewrite <- app_assoc).
    destruct Hst as [Hp Hc Hl]. cbn [cap_loop] in H. rewrite !Hc in H.
    destruct (Nat.ltb_spec (length kept) limit) as [Hr|Hr]; cbn [andb] in H;
      [destruct (Nat.ltb_spec (occ (pSatellite x) kept) quota) as [Hq|Hq]|].
    + eapply (IH (dn ++ [x])%list); [| | |exact H].
      * apply cap_state_keep; [by constructor|done].
      * intros s. rewrite occ_app, occ_cons, occ_nil. specialize (Hle s).
        destruct (str_eqb _ _) eqn:Es; [apply str_eqb_eq in Es as <-|]; simpl; lia.
      * intros _ s. rewrite !occ_app, !occ_cons, occ_nil, (Hmin Hr).
        rewrite (Hmin Hr) in Hq. destruct (str_eqb _ _) eqn:Es; [apply str_eqb_eq in Es as <-|]; simpl; lia.
    + eapply (IH (dn ++ [x])%list); [apply cap_state_leave; by constructor|done| |exact H].
      intros _ s. rewrite !occ_app, !occ_cons, occ_nil, (Hmin Hr).
      rewrite (Hmin Hr) in Hq. destruct (str_eqb _ _) eqn:Es; [apply str_eqb_eq in Es as <-|]; simpl; lia.
    + eapply (IH (dn ++ [x])%list); [apply cap_state_leave; by constructor|done|lia|exact H].
Qed.

Lemma count_satellites_elements passes :
  exists S, NoDup S /\ length S = count_satellites passes /\
    forall s, s ∈ S <-> exists p, p ∈ passes /\ pSatellite p = s.
Proof.
  exists (elements (list_to_set (map pSatellite passes) : gset string)).
  split; [apply NoDup_elements|]. split; [done|]. intros s.
  rewrite elem_of_elements, elem_of_list_to_set, list_elem_of_fmap. naive_solver.
Qed.

Lemma occ_pos s l : 0 < occ s l <-> exists p, p ∈ l /\ pSatellite p = s.
Proof.
  induction l as [|x l IH]; [rewrite occ_nil; split; [lia|set_solver]|].
  rewrite occ_cons. destruct (str_eqb (pSatellite x) s) eqn:E.
  - apply str_eqb_eq in E. split; [|lia]. intros _. exists x. rewrite elem_of_cons. auto.
  - apply str_eqb_neq in E. simpl. rewrite IH. split.
    + intros (p & Hp & <-). exists p. rewrite elem_of_cons. auto.
    + intros (p & Hp & <-). apply elem_of_cons in Hp as [->|Hp]; [done|eauto].
Qed.

(** One pass per satellite of [S] at least. *)
Lemma occ_all_bound S l :
  NoDup S -> (forall s, s ∈ S -> 0 < occ s l) -> length S <= length l.
Proof.
  intros Hnd H. rewrite <- (length_map pSatellite l). apply (submseteq_length _ _).
  apply NoDup_submseteq; [done|]. intros s Hs. apply H, occ_pos in Hs as (p & Hp & <-).
  apply list_elem_of_fmap. eauto.
Qed.

Lemma occ_NoDup l : (forall s, occ s l <= 1) -> NoDup (map pSatellite l).
Proof.
  induction l as [|x l IH]; intros H; [constructor|]. cbn [map]. constructor.
  - intros Hin. apply list_elem_of_fmap in Hin as (p & He & Hp).
    specialize (H (pSatellite x)). rewrite occ_cons, (proj2 (str_eqb_eq _ _) eq_refl) in H.
    assert (0 < occ (pSatellite x) l) by (apply occ_pos; eauto). simpl in H. lia.
  - apply IH. intros s. specialize (H s). rewrite occ_cons in H. lia.
Qed.

Lemma cap_init limit quota : cap_state limit quota [] [] [] ∅.
Proof. constructor; [done|done|simpl; lia]. Qed.

(** The loop, started from nothing. *)
Lemma cap_loop_start limit quota passes kept leftover :
  cap_loop limit quota passes [] [] ∅ = (kept, leftover) ->
  kept ++ leftover ≡ₚ passes /\ length kept <= limit /\ (forall s, occ s kept <= quota) /\
  (length kept < limit -> forall s, occ s kept = min quota (occ s passes)).
Proof.
  intros H. destruct (cap_loop_state _ _ _ _ _ _ _ _ _ (cap_init limit quota) H) as [c [Hp _ Hl]].
  assert (H0 : forall s, occ s [] <= quota) by (intros; rewrite occ_nil; lia).
  assert (H1 : 0 < limit -> forall s, occ s [] = min quota (occ s [])) by (intros; rewrite occ_nil; lia).
  by destruct (cap_loop_share _ _ _ _ _ _ _ _ _ (cap_init limit quota) H0 H1 H).
Qed.

(** ** The order *)

Definition pass_sorted : list PassResult -> Prop :=
  StronglySorted (fun a b => lessPass b a = false).

(** What [sort.Slice] promises for [lessPass]. *)
Class SortsPasses (sort_slice : (PassResult -> PassResult -> bool) -> list PassResult -> list PassResult)
  : Prop := {
  sorts_perm : forall l, sort_slice lessPass l ≡ₚ l;
  sorts_sorted : forall l, pass_sorted (sort_slice lessPass l)
}.

Lemma lessPass_iff a b :
  lessPass a b = true <->
  (pAOS a < pAOS b)%Z \/ (pAOS a = pAOS b /\
    (str_lt (pSatellite a) (pSatellite b) = true \/ (pSatellite a = pSatellite b /\
      (str_lt (pGroundStation a) (pGroundStation b) = true \/
        (pGroundStation a = pGroundStation b /\ (pLOS a < pLOS b)%Z))))).
Proof.
  unfold lessPass, Equal, Before.
  destruct (Z.eqb_spec (pAOS a) (pAOS b)) as [Ha|Ha]; cbn [negb]; rewrite ?Z.ltb_lt; [|intuition lia].
  destruct (str_eqb (pSatellite a) (pSatellite b)) eqn:Es; cbn [negb].
  - apply str_eqb_eq in Es. rewrite <- Es, str_lt_irrefl.
    destruct (str_eqb (pGroundStation a) (pGroundStation b)) eqn:Eg; cbn [negb]; rewrite ?Z.ltb_lt.
    + apply str_eqb_eq in Eg. rewrite <- Eg, str_lt_irrefl. intuition (try lia; try done).
    + apply str_eqb_neq in Eg. intuition (try lia; try done).
  - apply str_eqb_neq in Es. intuition (try lia; try done).
Qed.

Lemma str_lt_asym a b : str_lt a b = true -> str_lt b a = false.
Proof.
  intros H. destruct (str_lt b a) eqn:E; [|done].
  pose proof (str_lt_trans _ _ _ H E) as Hc. by rewrite str_lt_irrefl in Hc.
Qed.

(** Two passes are tied exactly when they agree on the four compared fields. *)
Lemma lessPass_tie a b :
  lessPass a b = false /\ lessPass b a = false <->
  pAOS a = pAOS b /\ pSatellite a = pSatellite b /\ pGroundStation a = pGroundStation b /\
  pLOS a = pLOS b.
Proof.
  rewrite <- !not_true_iff_false, !lessPass_iff. split.
  - intros [H1 H2].
    assert (Ha : pAOS a = pAOS b) by (destruct (Z.lt_total (pAOS a) (pAOS b)) as [?|[?|?]]; intuition).
    assert (Htot : forall x y, str_lt x y <> true -> str_lt y x <> true -> x = y).
    { intros x y Hx Hy. destruct (decide (x = y)); [done|]. exfalso. apply Hy, str_lt_total; [done|].
      by apply not_true_iff_false. }
    assert (Hs : pSatellite a = pSatellite b) by (apply Htot; intuition).
    assert (Hg : pGroundStation a = pGroundStation b) by (apply Htot; intuition).
    rewrite Ha, Hs, Hg in H1. rewrite Ha, Hs, Hg in H2. split; [done|]. split; [done|]. split; [done|].
    destruct (Z.lt_total (pLOS a) (pLOS b)) as [?|[?|?]]; [exfalso|done|exfalso].
    + apply H1. auto 7.
    + apply H2. auto 7.
  - intros (-> & -> & -> & ->). rewrite !str_lt_irrefl. intuition (try lia; try done).
Qed.

Lemma lessPass_trans a b c : lessPass a b = true -> lessPass b c = true -> lessPass a c = true.
Proof.
  rewrite !lessPass_iff. intros H1 H2.
  destruct H1 as [H1|(Ea & [H1|(Es & [H1|(Eg & H1)])])], H2 as [H2|(Fa & [H2|(Fs & [H2|(Fg & H2)])])];
    try (left; lia); right; (split; [lia|]);
    repeat (first [left; congruence | left; eapply str_lt_trans; eassumption | right; split; [congruence|]]);
    lia.
Qed.

(** Not being less is transitive: [lessPass] is a strict weak order. *)
Lemma lessPass_not_trans a b c : lessPass b a = false -> lessPass c b = false -> lessPass c a = false.
Proof.
  intros H1 H2. destruct (lessPass c a) eqn:H; [|done].
  destruct (lessPass a b) eqn:Hab; [by rewrite (lessPass_trans _ _ _ H Hab) in H2|].
  assert (Ht := proj1 (lessPass_tie a b) (conj Hab H1)). destruct Ht as (Ea & Es & Eg & El).
  apply lessPass_iff in H. rewrite Ea, Es, Eg, El in H. apply lessPass_iff in H. congruence.
Qed.

(** Insertion sort keeps the promise. *)
Fixpoint insert_pass (less : PassResult -> PassResult -> bool) (x : PassResult) (l : list PassResult)
  : list PassResult :=
  match l with
  | [] => [x]
  | y :: r => if less y x then y :: insert_pass less x r else x :: l
  end.

Definition insertion_sort (less : PassResult -> PassResult -> bool) (l : list PassResult)
  : list PassResult := foldr (insert_pass less) [] l.

Lemma insert_pass_perm less x l : insert_pass less x l ≡ₚ x :: l.
Proof. induction l as [|y l IH]; simpl; [done|]. destruct (less y x); [|done]. rewrite IH. constructor. Qed.

Lemma insert_pass_sorted x l : pass_sorted l -> pass_sorted (insert_pass lessPass x l).
Proof.
  induction 1 as [|y l Hs IH Hy]; simpl; [repeat constructor|].
  destruct (lessPass y x) eqn:E.
  - constructor; [done|]. rewrite insert_pass_perm. constructor; [|done].
    destruct (lessPass x y) eqn:E'; [|done].
    pose proof (lessPass_trans _ _ _ E E') as Hc. apply lessPass_iff in Hc.
    rewrite !str_lt_irrefl in Hc. intuition (try lia; try done).
  - constructor; [by constructor|]. constructor; [done|].
    eapply Forall_impl; [exact Hy|]. intros z Hz. by eapply lessPass_not_trans.
Qed.

#[export] Instance insertion_sort_sorts : SortsPasses insertion_sort.
Proof.
  split.
  - intros l. induction l as [|x l IH]; simpl; [done|]. by rewrite insert_pass_perm, IH.
  - intros l. induction l as [|x l IH]; simpl; [constructor|]. by apply insert_pass_sorted.
Qed.

Section Laws.
Context (sort_slice : (PassResult -> PassResult -> bool) -> list PassResult -> list PassResult)
        `{!SortsPasses sort_slice}.

Lemma firstn_submseteq (n : nat) (l : list PassResult) : firstn n l ⊆+ l.
Proof. apply sublist_submseteq, sublist_take. Qed.

(** The cap is a fair cut: the result has exactly the allowed number of
    passes, all taken from the input and in order; while the satellites fit the
    limit every satellite keeps its earliest passes up to the equal share, so
    its current and next pass survive; and with more satellites than the limit
    every kept pass belongs to a different satellite. *)
Theorem cap_is_fair passes limit :
  let out := capPerSatellite sort_slice passes limit in
  let n := count_satellites passes in
  length out = min limit (length passes) /\ out ⊆+ passes /\
  (pass_sorted passes -> pass_sorted out) /\
  (n <= limit -> forall p1 p p2, passes = (p1 ++ p :: p2)%list ->
     occ (pSatellite p) p1 < Nat.max (limit / n) 1 -> p ∈ out) /\
  (limit < n -> limit < length passes -> NoDup (map pSatellite out)).
Proof.
  cbv zeta. unfold capPerSatellite. destruct (Nat.leb_spec (length passes) limit) as [Hle|Hlt].
  { split; [lia|]. split; [done|]. split; [done|]. split; [|lia].
    intros _ p1 p p2 -> _. rewrite elem_of_app, elem_of_cons. auto. }
  destruct (count_satellites_elements passes) as (S & Hnd & HlenS & HS). rewrite <- HlenS.
  set (quota := Nat.max (limit / length S) 1).
  destruct (cap_loop limit quota passes [] [] ∅) as [kept leftover] eqn:Hloop.
  destruct (cap_loop_start _ _ _ _ _ Hloop) as (Hp & Hl & Hq & Hmin).
  assert (Hlen := Permutation_length Hp). rewrite length_app in Hlen.
  split; [rewrite sorts_perm, length_app, length_take; lia|].
  split.
  { rewrite sorts_perm, <- Hp. apply submseteq_skips_l, firstn_submseteq. }
  split; [intros _; apply sorts_sorted|]. split.
  - intros Hfit p1 p p2 Hpass Hocc.
    assert (Hroom : length S * quota <= limit).
    { unfold quota. destruct (Nat.max_spec (limit / length S) 1) as [[Hm ->]|[Hm ->]]; [lia|].
      destruct (length S) as [|m] eqn:E; [lia|]. rewrite <- E. apply Nat.Div0.mul_div_le. }
    rewrite sorts_perm, elem_of_app. left.
    assert (Hfair := cap_loop_fair limit quota S passes [] [] [] ∅ kept leftover Hnd).
    apply Hfair with (p1 := p1) (p2 := p2); try done; [|apply cap_init|].
    + intros x Hx. apply HS. eauto.
    + intros s. rewrite occ_nil. lia.
  - intros Hmany _.
    assert (Hq1 : quota = 1) by (unfold quota; rewrite Nat.div_small; lia).
    destruct (Nat.lt_ge_cases (length kept) limit) as [Hless|Hfull].
    { exfalso. specialize (Hmin Hless). enough (length S <= length kept) by lia.
      apply occ_all_bound; [done|]. intros s Hs. rewrite Hmin.
      apply HS, occ_pos in Hs. lia. }
    replace (limit - length kept) with 0 by lia. rewrite app_nil_r.
    apply occ_NoDup. intros s. rewrite sorts_perm, <- Hq1. apply Hq.
Qed.

(** The items give the same results, in any order of completion. *)
Lemma run_items_perm TLE ToTLE GeneratePasses ECI FindPos look filtered stations mask start stop o1 o2 :
  o1 ≡ₚ o2 ->
  run_items TLE ToTLE GeneratePasses ECI FindPos look filtered stations mask start stop o1 ≡ₚ
  run_items TLE ToTLE GeneratePasses ECI FindPos look filtered stations mask start stop o2.
Proof. intros Ho. unfold run_items. apply Permutation_map. by rewrite Ho. Qed.

Definition tie_free (l : list PassResult) : Prop :=
  forall a b, a ∈ l -> b ∈ l -> lessPass a b = false -> lessPass b a = false -> a = b.

Lemma sorted_once l1 l2 :
  tie_free l1 -> l1 ≡ₚ l2 -> sort_slice lessPass l1 = sort_slice lessPass l2.
Proof.
  intros Ht Hp. eapply StronglySorted_unique_strong; [|apply sorts_sorted..|].
  - intros a b Ha Hb H1 H2. apply Ht; [..|done|done].
    + by rewrite sorts_perm in Ha.
    + by rewrite sorts_perm, <- Hp in Hb.
  - by rewrite !sorts_perm.
Qed.

(** The prediction does not depend on the scheduling of the workers: two
    runs whose workers finish the same items in different orders return the
    same list, as long as no two different passes agree on AOS, satellite,
    station and LOS. *)
Theorem prediction_is_deterministic TLE ToTLE GeneratePasses ECI FindPos look
  omms stations mask horizon norad start wall o1 o2 out :
  let run := PredictPasses sort_slice TLE ToTLE GeneratePasses ECI FindPos look
               omms stations mask horizon norad start wall in
  let t0 := if IsZero start then wall else start in
  o1 ≡ₚ o2 ->
  tie_free (flat_map item_passes (run_items TLE ToTLE GeneratePasses ECI FindPos look
    (FilterOMMs omms norad) stations mask t0 (Add t0 horizon) o1)) ->
  run o1 None = Ok out -> run o2 None = Ok out.
Proof.
  cbv zeta. intros Ho Ht. unfold PredictPasses.
  destruct (bad_mask mask); [done|]. destruct (_ || _); [done|]. destruct (length _ =? 0)%nat; [done|].
  cbv zeta. set (t0 := if IsZero start then wall else start) in *.
  set (r := run_items _ _ _ _ _ _ _ _ _ _ _) in *.
  assert (Hr : r o1 ≡ₚ r o2) by by apply run_items_perm.
  assert (Hc : flat_map item_passes (r o1) ≡ₚ flat_map item_passes (r o2))
    by by apply Permutation_flat_map.
  rewrite (sorted_once _ _ Ht Hc). intros H.
  destruct (flat_map item_passes (r o1)) as [|p l1] eqn:E1.
  - apply Permutation_nil_l in Hc. rewrite <- Hc in *.
    destruct (head (omap item_error (r o1))) eqn:Eh1; [done|].
    apply head_None in Eh1. assert (He : omap item_error (r o2) = []); [|by rewrite He].
    apply Permutation_nil_r. by rewrite <- Hr, Eh1.
  - destruct (flat_map item_passes (r o2)) as [|q l2] eqn:E2; [by apply Permutation_nil_r in Hc|].
    destruct (head (omap item_error (r o1))), (head (omap item_error (r o2))); done.
Qed.

(** Every predicted pass is one the library found for a selected element set
    over a station, cut to the mask. *)
Lemma predicted_pass_from TLE ToTLE GeneratePasses ECI FindPos look
  omms stations mask horizon norad start wall order ctx passes p :
  PredictPasses sort_slice TLE ToTLE GeneratePasses ECI FindPos look
    omms stations mask horizon norad start wall order ctx = Ok passes -> p ∈ passes ->
  exists o gs tle t0 l d, o ∈ FilterOMMs omms norad /\ gs ∈ stations /\ ToTLE o = Ok tle /\
    GeneratePasses tle gs t0 (Add t0 horizon) DefaultStepSeconds = Ok l /\ d ∈ l /\
    pass_of TLE ECI FindPos look tle o gs mask d = Some p.
Proof.
  intros H Hp. unfold PredictPasses in H. destruct (bad_mask mask); [done|].
  destruct (_ || _); [injection H as <-; by apply elem_of_nil in Hp|].
  destruct (_ =? 0)%nat; [injection H as <-; by apply elem_of_nil in Hp|]. cbv zeta in H.
  set (t0 := if IsZero start then wall else start) in H. set (results := run_items _ _ _ _ _ _ _ _ _ _ _ _) in H.
  destruct ctx; [done|].
  assert (passes = capPerSatellite sort_slice (sort_slice lessPass (flat_map item_passes results)) MaxPassWindows) as ->.
  { destruct (head _), (flat_map item_passes results); by simplify_eq. }
  destruct (cap_is_fair (sort_slice lessPass (flat_map item_passes results)) MaxPassWindows) as (_ & Hsub & _).
  apply (elem_of_submseteq _ _ _ Hp) in Hsub. rewrite sorts_perm in Hsub.
  apply list_elem_of_In, in_flat_map in Hsub as (r & Hr & Hin).
  apply in_map_iff in Hr as ([o gs] & <- & Hw%list_elem_of_In). unfold predictSingle in Hin. cbn [fst snd] in Hin.
  apply list_elem_of_omap in Hw as (i & _ & Hi). apply list_elem_of_lookup_2 in Hi.
  apply list_elem_of_In, in_flat_map in Hi as (o' & Ho & Hgs). apply in_map_iff in Hgs as (gs' & [= -> ->] & Hgs).
  destruct (ToTLE o) as [tle|] eqn:Et; [|done]. destruct (GeneratePasses _ _ _ _ _) as [l|] eqn:Eg; [|done].
  apply list_elem_of_In, list_elem_of_omap in Hin as (d & Hd & Hpo).
  exists o, gs, tle, t0, l, d. split_and!; try done; by apply list_elem_of_In.
Qed.

End Laws.

(** Six passes of three satellites, at most four of which fit. *)
Definition demo_pass_of (s : string) (k : Z) : PassResult :=
  mkPass s k "gs-1" (k * 60 * Second) ((k * 60 + 30) * Second) (f_of_Z 20).

Definition demo_passes : list PassResult :=
  [demo_pass_of "A" 1; demo_pass_of "A" 2; demo_pass_of "A" 3; demo_pass_of "A" 4;
   demo_pass_of "B" 5; demo_pass_of "C" 6].

Lemma cap_is_fair_witness :
  length (capPerSatellite insertion_sort demo_passes 4) = 4 /\
  demo_pass_of "C" 6 ∈ capPerSatellite insertion_sort demo_passes 4.
Proof.
  destruct (cap_is_fair insertion_sort demo_passes 4) as (H1 & H2 & H3 & H4 & H5). split; [exact H1|].
  apply (H4 ltac:(vm_compute; lia)
           [demo_pass_of "A" 1; demo_pass_of "A" 2; demo_pass_of "A" 3; demo_pass_of "A" 4;
            demo_pass_of "B" 5] (demo_pass_of "C" 6) []); [reflexivity|vm_compute; lia].
Defined.

(** A library whose element sets each have one pass, at a time and of a length
    that is the same for all of them. *)
Definition one_pass (mask : float64) (omms : list OMM) (order : list nat) :=
  PredictPasses insertion_sort OMM (fun o => Ok o)
    (fun o _ start _ _ => Ok [mkDetails (start + 60 * Second) (start + 90 * Second) (f_of_Z 20)
                                (start + 75 * Second)])
    unit (fun _ _ => None) (fun _ _ _ => None)
    omms [mkStation "gs-1" f_zero f_zero f_zero] mask (600 * Second) [] (1000 * Second) 0 order None.

Definition demo_sat (name : string) (id : Z) : OMM := 
  mkOMM name id "2024-02-29T12:34:56" (f_of_Z 15) f_zero (f_of_Z 51) f_zero f_zero f_zero f_zero f_zero f_zero "".

Lemma prediction_is_deterministic_witness :
  exists out, length out = 2 /\
    one_pass f_zero [demo_sat "A" 1; demo_sat "B" 2] [0; 1] = Ok out /\
    one_pass f_zero [demo_sat "A" 1; demo_sat "B" 2] [1; 0] = Ok out.
Proof.
  eexists [_; _]. split; [reflexivity|].
  assert (H : one_pass f_zero [demo_sat "A" 1; demo_sat "B" 2] [0; 1] = Ok [_; _])
    by (vm_compute; reflexivity).
  split; [exact H|].
  apply (prediction_is_deterministic insertion_sort) with (o1 := [0; 1]);
    [apply Permutation_swap| |exact H].
  intros a b Ha Hb H1 H2. vm_compute in Ha, Hb.
  apply elem_of_cons in Ha as [->|[->|[]%elem_of_nil]%elem_of_cons];
    apply elem_of_cons in Hb as [->|[->|[]%elem_of_nil]%elem_of_cons];
    try reflexivity; vm_compute in H1, H2; first [discriminate H1 | discriminate H2].
Defined.

(** [lessPass] is not a total order on passes: it ties passes that differ
    in the NORAD number only.  Two element sets with one name and one pass at
    the same second therefore come back in the order in which the workers
    happened to finish. *)
Theorem same_name_order_depends_on_workers :
  (forall a b, lessPass a b = false /\ lessPass b a = false <->
     pAOS a = pAOS b /\ pSatellite a = pSatellite b /\ pGroundStation a = pGroundStation b /\
     pLOS a = pLOS b) /\
  exists out1 out2,
    one_pass f_zero [demo_sat "A" 1; demo_sat "A" 2] [0; 1] = Ok out1 /\
    one_pass f_zero [demo_sat "A" 1; demo_sat "A" 2] [1; 0] = Ok out2 /\
    map pNoradID out1 = [1; 2]%Z /\ map pNoradID out2 = [2; 1]%Z.
Proof.
  split; [apply lessPass_tie|]. eexists _, _.
  split; [vm_compute; reflexivity|]. split; [vm_compute; reflexivity|]. split; vm_compute; reflexivity.
Qed.
