(* ===== verification/CellApi.v ===== *)
(** * The NTNCellConfig resource

    The API types of [src/api/v1alpha1/ntncellconfig_types.go].  Go's [int],
    [int64] and [uint64] are [Z]; an optional pointer is an [option].  The
    validation markers of the source are in [Admission]. *)

From S2P Require Import Prelude GoFloat K8sMeta.
Local Open Scope string_scope.

(** ** Ephemeris *)

Record EphemerisECEF := mkECEF {
  PosX : Z; PosY : Z; PosZ : Z;
  VelX : Z; VelY : Z; VelZ : Z
}.

Record EphemerisOrbital := mkOrbital {
  SemiMajorAxis : Z;
  Eccentricity : Z;
  Inclination : Z;
  RightAscension : Z;
  ArgOfPeriapsis : Z;
  MeanAnomaly : Z
}.

(** [ECEFPositionStep] and [ECEFVelocityStep]. *)
Definition ECEFPositionStep : float64 := of_decimal false 13 (-1).
Definition ECEFVelocityStep : float64 := of_decimal false 6 (-2).

(** ** Radio parameters *)

Record TAInfo := mkTAInfo {
  taTACommon : Z;
  TACommonDrift : Z;
  TACommonDriftVariant : Z;
  TACommonOffset : Z
}.

Record EpochTime := mkEpochTime { SFN : Z; SubframeNumber : Z }.

Record FeederLinkInfo := mkFeederLink {
  EnableDopplerCompensation : bool;
  DLFreqHz : Z;
  ULFreqHz : Z
}.

(** [NTNGatewayLocation]; the moving and the fixed reference location have the
    first two fields only. *)
Record NTNGatewayLocation := mkGateway { gwLatitude : Z; gwLongitude : Z; gwAltitude : Z }.
Record MovingRefLocation := mkMovingRef { mrLatitude : Z; mrLongitude : Z }.
Record ReferenceLocation := mkReference { rlLatitude : Z; rlLongitude : Z }.

Record NTNPolarization := mkPolarization { DL : string; UL : string }.

Record NTNNeighborCell := mkNeighbor { PhysicalCellID : Z; Frequency : Z }.

Record SatSwitchNTNConfig := mkSwitchConfig {
  swECEF : option EphemerisECEF;
  swOrbital : option EphemerisOrbital;
  KMac : option Z;
  swKoffset : Z;
  swUlSyncValidityDur : option Z;
  swTAInfo : option TAInfo;
  swTAReport : option bool
}.

Record SatSwitchWithResync := mkSwitch {
  NTNConfig : SatSwitchNTNConfig;
  swEpochUnixMs : Z;
  TServiceStartUnixMs : Z;
  SSBTimeOffsetSubframes : Z;
  swGatewayLocation : option NTNGatewayLocation
}.

Record NTNParams := mkNTN {
  CellSpecificKoffset : Z;
  TACommon : Z;
  ntnECEF : option EphemerisECEF;
  ntnOrbital : option EphemerisOrbital;
  ntnTAInfo : option TAInfo;
  ntnEpochTime : option EpochTime;
  ntnFeederLink : option FeederLinkInfo;
  ntnGateway : option NTNGatewayLocation;
  ntnMovingRef : option MovingRefLocation;
  ntnSatSwitch : option SatSwitchWithResync;
  ntnPolarization : option NTNPolarization;
  TAReport : option bool;
  NTNUlSyncValidityDur : option Z;
  PayloadType : string;
  NeighborCells : list NTNNeighborCell;
  ntnReference : option ReferenceLocation;
  DistanceThreshold : option Z;
  TService : option Z
}.

(** ** Cell overrides *)

Record SIBSchedule := mkSIB {
  SIWindowLength : Z;
  SIPeriod : Z;
  SIWindowPosition : option Z
}.

Record CellOverrides := mkOverrides {
  PdschMaxHarqRetxs : Z;
  PrachMaxMsg3HarqRetx : Z;
  RrcGuardTimeMs : Z;
  coSIBSchedule : option SIBSchedule
}.

(** ** The resource *)

Record CellID := mkCellID { PLMN : string; NCI : Z }.

Record RemoteControlTLS := mkTLS { tlsMode : string; SecretName : string; ServerName : string }.

Record RemoteControlRef := mkRemote { rcEndpoint : string; rcTLS : option RemoteControlTLS }.

Record ProviderRef := mkProviderRef {
  prType : string;
  prNamespace : string;
  prRemoteControl : option RemoteControlRef;
  prEndpoint : string;
  SIB19EpochMode : option string
}.

Record NTNCellConfigSpec := mkCellSpec {
  csProvider : ProviderRef;
  csNTN : NTNParams;
  csCellOverrides : option CellOverrides;
  csEphemerisRef : string;
  csCellID : option CellID;
  csEphemerisNoradID : option Z
}.

Record NTNCellConfigStatus := mkCellStatus {
  AppliedKoffset : Z;
  ConfigMapRef : string;
  LastPushedSatSwitchDigest : string;
  cellConditions : list Condition
}.

Record NTNCellConfig := mkCell {
  cellMeta : ObjectMeta;
  cellSpec : NTNCellConfigSpec;
  cellStatus : NTNCellConfigStatus
}.

(** The spec with another ephemeris; one of the two is set. *)
Definition with_ephemeris (spec : NTNCellConfigSpec) (ecef : option EphemerisECEF)
  (orbital : option EphemerisOrbital) : NTNCellConfigSpec :=
  let n := csNTN spec in
  mkCellSpec (csProvider spec)
    (mkNTN (CellSpecificKoffset n) (TACommon n) ecef orbital (ntnTAInfo n) (ntnEpochTime n)
       (ntnFeederLink n) (ntnGateway n) (ntnMovingRef n) (ntnSatSwitch n) (ntnPolarization n)
       (TAReport n) (NTNUlSyncValidityDur n) (PayloadType n) (NeighborCells n) (ntnReference n)
       (DistanceThreshold n) (TService n))
    (csCellOverrides spec) (csEphemerisRef spec) (csCellID spec) (csEphemerisNoradID spec).
