(* ===== verification/OcuduConfig.v ===== *)
(** * Package ocudu: the gNB configuration text

    Models [src/pkg/provider/ocudu/config.go] and the text functions of
    [provider.go]: the conversion of a cell specification to physical units, the
    configuration template, and [replaceEphemeris], which rewrites the ephemeris
    block of a stored document in place.

    [text/template] is not interpreted: [config_lines] is the expansion of the
    template [configTemplate], line by line.  [unicode.IsPrint] on runes outside
    ASCII is a parameter of [yamlQuote]. *)

From S2P Require Import Prelude GoStrings GoJson GoUnicode GoFloat K8sMeta CellApi.
From Stdlib Require Import SpecFloat Ascii.
Local Open Scope string_scope.
Local Arguments String.append !_ _ /.

(** ** Conversion factors *)

Definition taCommonStepUs : float64 := of_decimal false 4072 (-6).
Definition taCommonDriftStep : float64 := of_decimal false 2 (-4).
Definition taCommonDriftVarStep : float64 := of_decimal false 2 (-5).
Definition eccentricityScale : float64 := of_decimal false 1 (-6).
Definition oneEMinus4DegToDeg : float64 := of_decimal false 1 (-4).

(** [math.Pi / 1_800_000.0], a constant expression rounded once. *)
Definition milliDegToRad : float64 :=
  of_decimal false 17453292519943295769236907684886127134428718885417 (-55).

(** [float64(i) * f]. *)
Definition scaled (i : Z) (f : float64) : float64 := f_mul (f_of_Z i) f.

Definition flt (v : float64) : string := fmt_f v.

(** ** Text safety *)

Definition newline : ascii := byte_of 10.

(** The runes [sanitizeComment] blanks (U+000A, U+000D, U+0085, U+2028, U+2029)
    or drops (U+0000), with their encodings. *)
Definition comment_breaks : list (string * string) :=
  map (fun p => (string_of_bytes p.1, p.2))
    [([10]%N, " "); ([13]%N, " "); ([194; 133]%N, " "); ([226; 128; 168]%N, " ");
     ([226; 128; 169]%N, " "); ([0]%N, "")].

(** The first pair whose text the string starts with. *)
Fixpoint replacement (olds : list (string * string)) (s : string) : option (string * string) :=
  match olds with
  | [] => None
  | (old, new) :: rest =>
      match strip_prefix old s with Some _ => Some (old, new) | None => replacement rest s end
  end.

(** [strings.Replacer]: from left to right, [skip] bytes of a match remain. *)
Fixpoint replace_all (olds : list (string * string)) (skip : nat) (s : string) : string :=
  match s with
  | "" => ""
  | String c r =>
      match skip with
      | S k => replace_all olds k r
      | O =>
          match replacement olds s with
          | Some (old, new) => new +:+ replace_all olds (String.length old - 1) r
          | None => String c (replace_all olds 0 r)
          end
      end
  end.

Definition sanitizeComment (s : string) : string := replace_all comment_breaks 0 s.

(** [strconv.Quote]. *)
Definition lowerhex (n : N) : ascii := hex_digit n.

Fixpoint hex_fixed (w : nat) (n : N) : string :=
  match w with
  | O => ""
  | S w => hex_fixed w (n / 16) +:+ str1 (lowerhex (n mod 16))
  end.

Definition short_quote (c : ascii) : option string :=
  match byte_val c with
  | 7 => Some "\a" | 8 => Some "\b" | 9 => Some "\t" | 10 => Some "\n"
  | 11 => Some "\v" | 12 => Some "\f" | 13 => Some "\r" | _ => None
  end%N.

Definition quote_ascii (c : ascii) : string :=
  let b := byte_val c in
  if (b =? 34)%N || (b =? 92)%N then String bslash (str1 c)
  else if (32 <=? b)%N && (b <? 127)%N then str1 c
  else match short_quote c with
       | Some e => e
       | None => "\x" +:+ hex_fixed 2 b
       end.

Section Quote.

(** [unicode.IsPrint] for a code point from 128 on. *)
Variable IsPrint : N -> bool.

Fixpoint quote_body (skip : nat) (s : string) : string :=
  match s with
  | "" => ""
  | String c r =>
      match skip with
      | S k => quote_body k r
      | O =>
          if (byte_val c <? 128)%N then quote_ascii c +:+ quote_body 0 r
          else match cont_bytes c r with
               | None => ("\x" +:+ hex_fixed 2 (byte_val c)) +:+ quote_body 0 r
               | Some n =>
                   let v := rune_value c n r in
                   (if IsPrint v then String c (String.substring 0 n r)
                    else if (v <? 65536)%N then "\u" +:+ hex_fixed 4 v
                    else "\U" +:+ hex_fixed 8 v) +:+ quote_body n r
               end
      end
  end.

Definition yamlQuote (s : string) : string := str1 dq +:+ quote_body 0 s +:+ str1 dq.

(** ** The data of the template *)

(** Either ephemeris variant, in physical units ([UseOrbital]). *)
Inductive ephemeris_data :=
| OrbitalData (semiMajorAxis : Z) (eccentricity inclination longitude periapsis meanAnomaly : float64)
| EcefData (posX posY posZ velX velY velZ : float64).

(** [configData]; a flag with the fields it guards is one [option]. *)
Record configData := mkData {
  dPayloadType : string;
  dKoffset : Z;
  dTACommon : float64;
  dTAExtended : option (float64 * float64 * float64);   (* drift, variant, offset *)
  dEphemeris : ephemeris_data;
  dEpochTime : option (Z * Z);
  dFeederLink : option (bool * Z * Z);
  dGateway : option (float64 * float64 * Z);
  dNCells : list (Z * Z);
  dReference : option (float64 * float64);
  dDistanceThreshold : option Z;
  dMovingRef : option (float64 * float64);
  dPolarization : option (string * string);
  dTAReport : option bool;
  dUlSyncValidityDur : option Z;
  dPdschMaxHarqRetxs : Z;
  dPrachMaxMsg3HarqRetx : Z;
  dRrcGuardTimeMs : Z;
  dSIWindowLength : Z;
  dSIPeriod : Z;
  dSIWindowPosition : Z
}.

Definition defaultSIWindowLength : Z := 5.
Definition defaultSIPeriod : Z := 16.
Definition defaultSIWindowPosition : Z := 2.

Definition zero_ecef : ephemeris_data := EcefData f_zero f_zero f_zero f_zero f_zero f_zero.

Definition baseConfigData (spec : NTNCellConfigSpec) : configData :=
  let n := csNTN spec in
  mkData
    (sanitizeComment (if str_eqb (PayloadType n) "" then "transparent" else PayloadType n))
    (CellSpecificKoffset n) (scaled (TACommon n) taCommonStepUs)
    None zero_ecef None None None [] None None None None None None
    0 0 12800 defaultSIWindowLength defaultSIPeriod defaultSIWindowPosition.

Definition applyTAInfo (d : configData) (spec : NTNCellConfigSpec) : configData :=
  match ntnTAInfo (csNTN spec) with
  | None => d
  | Some ta =>
      mkData (dPayloadType d) (dKoffset d) (scaled (taTACommon ta) taCommonStepUs)
        (if negb (TACommonDrift ta =? 0)%Z || negb (TACommonDriftVariant ta =? 0)%Z
            || negb (TACommonOffset ta =? 0)%Z
         then Some (scaled (TACommonDrift ta) taCommonDriftStep,
                    scaled (TACommonDriftVariant ta) taCommonDriftVarStep,
                    scaled (TACommonOffset ta) taCommonStepUs)
         else dTAExtended d)
        (dEphemeris d) (dEpochTime d) (dFeederLink d) (dGateway d) (dNCells d) (dReference d)
        (dDistanceThreshold d) (dMovingRef d) (dPolarization d) (dTAReport d) (dUlSyncValidityDur d)
        (dPdschMaxHarqRetxs d) (dPrachMaxMsg3HarqRetx d) (dRrcGuardTimeMs d)
        (dSIWindowLength d) (dSIPeriod d) (dSIWindowPosition d)
  end.

(** The first argument if it is set, else what was there. *)
Definition or_keep {A} (new old : option A) : option A := match new with Some _ => new | None => old end.

Definition degrees (lat lon : Z) : float64 * float64 :=
  (scaled lat oneEMinus4DegToDeg, scaled lon oneEMinus4DegToDeg).

Definition applyOptionalNTNFields (d : configData) (spec : NTNCellConfigSpec) : configData :=
  let n := csNTN spec in
  mkData (dPayloadType d) (dKoffset d) (dTACommon d) (dTAExtended d) (dEphemeris d)
    (or_keep (option_map (fun e => (SFN e, SubframeNumber e)) (ntnEpochTime n)) (dEpochTime d))
    (or_keep (option_map (fun f => (EnableDopplerCompensation f, DLFreqHz f, ULFreqHz f))
                (ntnFeederLink n)) (dFeederLink d))
    (or_keep (option_map (fun g => (degrees (gwLatitude g) (gwLongitude g), gwAltitude g))
                (ntnGateway n)) (dGateway d))
    (dNCells d) (dReference d) (dDistanceThreshold d)
    (or_keep (option_map (fun m => degrees (mrLatitude m) (mrLongitude m)) (ntnMovingRef n))
       (dMovingRef d))
    (match ntnPolarization n with
     | Some p => if negb (str_eqb (DL p) "") || negb (str_eqb (UL p) "") then Some (DL p, UL p)
                 else dPolarization d
     | None => dPolarization d
     end)
    (or_keep (TAReport n) (dTAReport d))
    (or_keep (NTNUlSyncValidityDur n) (dUlSyncValidityDur d))
    (dPdschMaxHarqRetxs d) (dPrachMaxMsg3HarqRetx d) (dRrcGuardTimeMs d)
    (dSIWindowLength d) (dSIPeriod d) (dSIWindowPosition d).

Definition applyStage3Fields (d : configData) (spec : NTNCellConfigSpec) : configData :=
  let n := csNTN spec in
  mkData (dPayloadType d) (dKoffset d) (dTACommon d) (dTAExtended d) (dEphemeris d) (dEpochTime d)
    (dFeederLink d) (dGateway d)
    (dNCells d ++ map (fun c => (PhysicalCellID c, Frequency c)) (NeighborCells n))%list
    (or_keep (option_map (fun r => degrees (rlLatitude r) (rlLongitude r)) (ntnReference n))
       (dReference d))
    (or_keep (DistanceThreshold n) (dDistanceThreshold d))
    (dMovingRef d) (dPolarization d) (dTAReport d) (dUlSyncValidityDur d)
    (dPdschMaxHarqRetxs d) (dPrachMaxMsg3HarqRetx d) (dRrcGuardTimeMs d)
    (dSIWindowLength d) (dSIPeriod d) (dSIWindowPosition d).

Definition if_positive (new old : Z) : Z := if (0 <? new)%Z then new else old.

Definition applyCellOverrides (d : configData) (spec : NTNCellConfigSpec) : configData :=
  match csCellOverrides spec with
  | None => d
  | Some o =>
      let sib f old := match coSIBSchedule o with Some s => f s | None => old end in
      mkData (dPayloadType d) (dKoffset d) (dTACommon d) (dTAExtended d) (dEphemeris d) (dEpochTime d)
        (dFeederLink d) (dGateway d) (dNCells d) (dReference d) (dDistanceThreshold d)
        (dMovingRef d) (dPolarization d) (dTAReport d) (dUlSyncValidityDur d)
        (if_positive (PdschMaxHarqRetxs o) (dPdschMaxHarqRetxs d))
        (if_positive (PrachMaxMsg3HarqRetx o) (dPrachMaxMsg3HarqRetx d))
        (if_positive (RrcGuardTimeMs o) (dRrcGuardTimeMs d))
        (sib (fun s => if_positive (SIWindowLength s) (dSIWindowLength d)) (dSIWindowLength d))
        (sib (fun s => if_positive (SIPeriod s) (dSIPeriod d)) (dSIPeriod d))
        (sib (fun s => match SIWindowPosition s with Some v => v | None => dSIWindowPosition d end)
             (dSIWindowPosition d))
  end.

Definition set_ephemeris (d : configData) (e : ephemeris_data) : configData :=
  mkData (dPayloadType d) (dKoffset d) (dTACommon d) (dTAExtended d) e (dEpochTime d)
    (dFeederLink d) (dGateway d) (dNCells d) (dReference d) (dDistanceThreshold d)
    (dMovingRef d) (dPolarization d) (dTAReport d) (dUlSyncValidityDur d)
    (dPdschMaxHarqRetxs d) (dPrachMaxMsg3HarqRetx d) (dRrcGuardTimeMs d)
    (dSIWindowLength d) (dSIPeriod d) (dSIWindowPosition d).

Definition orbital_data (o : EphemerisOrbital) : ephemeris_data :=
  OrbitalData (SemiMajorAxis o) (scaled (Eccentricity o) eccentricityScale)
    (scaled (Inclination o) milliDegToRad) (scaled (RightAscension o) milliDegToRad)
    (scaled (ArgOfPeriapsis o) milliDegToRad) (scaled (MeanAnomaly o) milliDegToRad).

Definition ecef_data (e : EphemerisECEF) : ephemeris_data :=
  EcefData (scaled (PosX e) ECEFPositionStep) (scaled (PosY e) ECEFPositionStep)
    (scaled (PosZ e) ECEFPositionStep) (scaled (VelX e) ECEFVelocityStep)
    (scaled (VelY e) ECEFVelocityStep) (scaled (VelZ e) ECEFVelocityStep).

Inductive config_error := BothEphemerides | NoEphemeris.

Definition applyEphemeris (d : configData) (spec : NTNCellConfigSpec) : result config_error configData :=
  match ntnECEF (csNTN spec), ntnOrbital (csNTN spec) with
  | Some _, Some _ => Err BothEphemerides
  | _, Some o => Ok (set_ephemeris d (orbital_data o))
  | Some e, None => Ok (set_ephemeris d (ecef_data e))
  | None, None => Err NoEphemeris
  end.

(** ** The template *)

Definition go_bool (b : bool) : string := if b then "true" else "false".

(** [    key: value] at an indentation. *)
Definition entry (indent : nat) (key value : string) : string :=
  replicate_str indent " " +:+ key +:+ ": " +:+ value.

Definition section (indent : nat) (key : string) : string := replicate_str indent " " +:+ key +:+ ":".

Definition head_lines (d : configData) : list string :=
  ["# Generated by NTN K8s Operators — do not edit manually";
   "# Payload type: " +:+ dPayloadType d +:+ " (3GPP Rel-19: transparent or regenerative)";
   "";
   section 0 "cell_cfg";
   section 2 "ntn";
   entry 4 "cell_specific_koffset" (fmt_d (dKoffset d));
   section 4 "ta_info";
   entry 6 "ta_common" (flt (dTACommon d))] ++
  match dTAExtended d with
  | Some (drift, variant, offset) =>
      [entry 6 "ta_common_drift" (flt drift); entry 6 "ta_common_drift_variant" (flt variant);
       entry 6 "ta_common_offset" (flt offset)]
  | None => []
  end.

Definition ephemeris_lines (e : ephemeris_data) : list string :=
  match e with
  | OrbitalData a ecc inc lon per mean =>
      [section 4 "ephemeris_orbital"; entry 6 "semi_major_axis" (fmt_d a);
       entry 6 "eccentricity" (flt ecc); entry 6 "inclination" (flt inc);
       entry 6 "longitude" (flt lon); entry 6 "periapsis" (flt per); entry 6 "mean_anomaly" (flt mean)]
  | EcefData px py pz vx vy vz =>
      [section 4 "ephemeris_info_ecef"; entry 6 "pos_x" (flt px); entry 6 "pos_y" (flt py);
       entry 6 "pos_z" (flt pz); entry 6 "vel_x" (flt vx); entry 6 "vel_y" (flt vy);
       entry 6 "vel_z" (flt vz)]
  end.

Definition position_lines (key : string) (p : option (float64 * float64)) : list string :=
  match p with
  | Some (lat, lon) =>
      [section 4 key; entry 6 "latitude" (flt lat); entry 6 "longitude" (flt lon)]
  | None => []
  end.

Definition ncell_lines (c : Z * Z) : list string :=
  ("      - pci: " +:+ fmt_d c.1) ::
  (if (c.2 =? 0)%Z then [] else [entry 8 "carrier_freq" (fmt_d c.2)]).

Definition polarization_lines (p : option (string * string)) : list string :=
  match p with
  | Some (dl, ul) =>
      section 4 "polarization" ::
      ((if str_eqb dl "" then [] else [entry 6 "dl" (yamlQuote dl)]) ++
       (if str_eqb ul "" then [] else [entry 6 "ul" (yamlQuote ul)]))
  | None => []
  end.

(** The optional entries between the ephemeris and the [sib] section. *)
Definition option_lines (d : configData) : list string :=
  match dEpochTime d with
  | Some (sfn, sub) =>
      [section 4 "epoch_time"; entry 6 "sfn" (fmt_d sfn); entry 6 "subframe_number" (fmt_d sub)]
  | None => []
  end ++
  match dFeederLink d with
  | Some (doppler, dl, ul) =>
      [section 4 "feeder_link"; entry 6 "enable_doppler_compensation" (go_bool doppler);
       entry 6 "dl_freq" (fmt_d dl); entry 6 "ul_freq" (fmt_d ul)]
  | None => []
  end ++
  match dGateway d with
  | Some (lat, lon, alt) =>
      [section 4 "gateway_location"; entry 6 "latitude" (flt lat); entry 6 "longitude" (flt lon);
       entry 6 "altitude" (fmt_d alt)]
  | None => []
  end ++
  (if (length (dNCells d) =? 0)%nat then [] else section 4 "ncells" :: flat_map ncell_lines (dNCells d)) ++
  position_lines "reference_location" (dReference d) ++
  match dDistanceThreshold d with Some v => [entry 4 "distance_threshold" (fmt_d v)] | None => [] end ++
  position_lines "moving_ref_location" (dMovingRef d) ++
  polarization_lines (dPolarization d) ++
  match dTAReport d with Some b => [entry 4 "ta_report" (go_bool b)] | None => [] end ++
  match dUlSyncValidityDur d with
  | Some v => [entry 4 "ntn_ul_sync_validity_dur" (fmt_d v)]
  | None => []
  end.

Definition tail_lines (d : configData) : list string :=
  [section 2 "sib";
   entry 4 "si_window_length" (fmt_d (dSIWindowLength d));
   section 4 "si_sched_info";
   "      # SIB2 (ID < 15) uses schedulingInfoList and must precede SIB19: OCUDU";
   "      # rejects a SIB19-only schedule (" +:+ str1 dq +:+ "SIB19 requires at least one SIB with";
   "      # ID < 15" +:+ str1 dq +:+ "). SIB2 broadcasts with OCUDU defaults (no sib2 block needed).";
   "      - si_period: " +:+ fmt_d (dSIPeriod d);
   "        sib_mapping: [2]";
   "      # SIB19 (ID >= 15) uses schedulingInfoList2 and needs an si_window_position";
   "      # strictly greater than the number of preceding schedulingInfoList entries";
   "      # (1 here), so si_window_position >= 2.";
   "      - si_period: " +:+ fmt_d (dSIPeriod d);
   "        sib_mapping: [19]";
   entry 8 "si_window_position" (fmt_d (dSIWindowPosition d));
   section 2 "pdsch";
   entry 4 "max_nof_harq_retxs" (fmt_d (dPdschMaxHarqRetxs d));
   section 2 "prach";
   entry 4 "max_msg3_harq_retx" (fmt_d (dPrachMaxMsg3HarqRetx d));
   "";
   section 0 "cu_cp";
   section 2 "rrc";
   entry 4 "rrc_procedure_guard_time_ms" (fmt_d (dRrcGuardTimeMs d));
   ""].

Definition config_lines (d : configData) : list string :=
  head_lines d ++ ephemeris_lines (dEphemeris d) ++ option_lines d ++ tail_lines d.

(** What [GenerateConfig] collects before the ephemeris. *)
Definition collect (spec : NTNCellConfigSpec) : configData :=
  applyCellOverrides
    (applyStage3Fields
       (applyOptionalNTNFields (applyTAInfo (baseConfigData spec) spec) spec) spec) spec.

Definition GenerateConfig (spec : NTNCellConfigSpec) : result config_error string :=
  match applyEphemeris (collect spec) spec with
  | Err e => Err e
  | Ok d => Ok (Join (config_lines d) (str1 newline))
  end.

End Quote.

(** ** Rewriting the ephemeris block *)

Record EphemerisUpdate := mkUpdate {
  uECEF : option EphemerisECEF;
  uOrbital : option EphemerisOrbital
}.

Definition leadingSpaces (s : string) : nat :=
  String.length s - String.length (trim_left [" "] s).

(** The block at an indentation; the caller has checked that one is set. *)
Definition renderEphemerisBlock (update : EphemerisUpdate) (indent : nat) : list string :=
  match uOrbital update, uECEF update with
  | Some o, _ =>
      [section indent "ephemeris_orbital";
       entry (indent + 2) "semi_major_axis" (fmt_d (SemiMajorAxis o));
       entry (indent + 2) "eccentricity" (flt (scaled (Eccentricity o) eccentricityScale));
       entry (indent + 2) "inclination" (flt (scaled (Inclination o) milliDegToRad));
       entry (indent + 2) "longitude" (flt (scaled (RightAscension o) milliDegToRad));
       entry (indent + 2) "periapsis" (flt (scaled (ArgOfPeriapsis o) milliDegToRad));
       entry (indent + 2) "mean_anomaly" (flt (scaled (MeanAnomaly o) milliDegToRad))]
  | None, Some e =>
      [section indent "ephemeris_info_ecef";
       entry (indent + 2) "pos_x" (flt (scaled (PosX e) ECEFPositionStep));
       entry (indent + 2) "pos_y" (flt (scaled (PosY e) ECEFPositionStep));
       entry (indent + 2) "pos_z" (flt (scaled (PosZ e) ECEFPositionStep));
       entry (indent + 2) "vel_x" (flt (scaled (VelX e) ECEFVelocityStep));
       entry (indent + 2) "vel_y" (flt (scaled (VelY e) ECEFVelocityStep));
       entry (indent + 2) "vel_z" (flt (scaled (VelZ e) ECEFVelocityStep))]
  | None, None => []
  end.

Definition HasPrefix (s p : string) : bool :=
  match strip_prefix p s with Some _ => true | None => false end.

Definition is_ephemeris_key (line : string) : bool :=
  let trimmed := TrimSpace line in
  HasPrefix trimmed "ephemeris_info_ecef:" || HasPrefix trimmed "ephemeris_orbital:".

(** The old body: blank lines and lines deeper than the key. *)
Fixpoint drop_body (indent : nat) (lines : list string) : list string :=
  match lines with
  | next :: rest =>
      if str_eqb (TrimSpace next) "" || (indent <? leadingSpaces next)%nat
      then drop_body indent rest else lines
  | [] => []
  end.

Fixpoint replace_lines (update : EphemerisUpdate) (lines : list string) : list string * bool :=
  match lines with
  | [] => ([], false)
  | line :: rest =>
      if is_ephemeris_key line then
        let indent := leadingSpaces line in
        (renderEphemerisBlock update indent ++ drop_body indent rest, true)%list
      else let '(r, found) := replace_lines update rest in (line :: r, found)
  end.

Definition replaceEphemeris (content : string) (update : EphemerisUpdate) : string * bool :=
  let '(lines, found) := replace_lines update (split_byte newline content) in
  (Join lines (str1 newline), found).

(** * Properties *)

(** ** No value breaks a line *)

Abbreviation one_line s := (without newline s = true) (only parsing).

Lemma digits_one_line s : str_all is_digit s = true -> one_line s.
Proof.
  apply str_all_impl. intros c H. destruct (Ascii.eqb_spec c newline) as [->|]; [done|done].
Qed.

Lemma fmt_d_one_line z : one_line (fmt_d z).
Proof.
  destruct z as [|p|p]; [done|apply digits_one_line, fmt_N_digits|].
  cbn [fmt_d]. rewrite without_app. simpl. apply digits_one_line, fmt_N_digits.
Qed.

Lemma fixed_one_line d e : one_line (fixed_notation d e).
Proof.
  unfold fixed_notation, take_str, drop_str. pose proof (fmt_d_one_line d) as H.
  destruct (0 <=? e)%Z; [rewrite without_app, H; by apply without_replicate|].
  destruct (_ <? _)%nat.
  - rewrite !without_app. unfold without at 1 3. rewrite !str_all_substring by done. done.
  - rewrite !without_app, H, without_replicate by done. done.
Qed.

Lemma flt_one_line v : one_line (flt v).
Proof.
  unfold flt, fmt_f. destruct v as [s|s| |s m e]; try (by destruct s); [done|].
  destruct (shortest m e) as [d x]. destruct s; [|apply fixed_one_line].
  rewrite without_app. apply fixed_one_line.
Qed.

Lemma bool_one_line b : one_line (go_bool b).
Proof. by destruct b. Qed.

Lemma replace_one_line skip s : one_line (replace_all comment_breaks skip s).
Proof.
  revert skip. induction s as [|c s IH]; intros [|k]; cbn [replace_all]; auto.
  destruct (Ascii.eqb_spec c newline) as [->|Hc].
  - cbn. apply (IH 0).
  - destruct (replacement comment_breaks (String c s)) as [[old new]|] eqn:E.
    + rewrite without_app, IH, andb_true_r. clear -E. unfold comment_breaks in E. cbn [map] in E.
      repeat (cbn [replacement] in E; destruct (strip_prefix _ _); [by injection E as _ <-|]). done.
    + unfold without. cbn [str_all]. rewrite (proj2 (Ascii.eqb_neq c newline) Hc). apply (IH 0).
Qed.

Lemma hex_digit_val n : (n < 16)%N -> hex_digit n <> newline.
Proof.
  intros H Hn. apply (f_equal byte_val) in Hn. unfold hex_digit, newline, byte_val, byte_of in Hn.
  rewrite !N_ascii_embedding in Hn; destruct (N.ltb_spec n 10); lia.
Qed.

Lemma hex_one_line w n : one_line (hex_fixed w n).
Proof.
  revert n. induction w as [|w IH]; intros n; [done|]. cbn [hex_fixed].
  rewrite without_app, IH. unfold without, lowerhex. simpl.
  rewrite (proj2 (Ascii.eqb_neq _ _) (hex_digit_val (n mod 16) ltac:(apply N.mod_lt; done))). done.
Qed.

Lemma quote_ascii_one_line c : one_line (quote_ascii c).
Proof.
  unfold quote_ascii. destruct (Ascii.eqb_spec c newline) as [->|Hc]; [done|].
  assert (Hstr : one_line (str1 c)).
  { unfold without. simpl. by rewrite (proj2 (Ascii.eqb_neq c newline) Hc). }
  destruct (_ || _); [exact Hstr|]. destruct (_ && _); [done|].
  destruct (short_quote c) as [e|] eqn:E.
  - unfold short_quote in E. revert E. clear.
    destruct (byte_val c) as [|p]; [done|]. 
    repeat (destruct p as [p|p|]; try (intros [= <-]; reflexivity); try done).
  - rewrite without_app. apply hex_one_line.
Qed.

(** Bytes from 128 on are not the newline. *)
Lemma high_not_newline c : (byte_val c <? 128)%N = false -> c <> newline.
Proof. intros H ->. done. Qed.

Lemma substring_app p r : String.substring 0 (String.length p) (p +:+ r) = p.
Proof. induction p as [|c p IH]; simpl; [by destruct r|by rewrite IH]. Qed.

Lemma high_one_line p : str_all (fun c => 128 <=? byte_val c)%N p = true -> one_line p.
Proof.
  apply str_all_impl. intros c H. destruct (Ascii.eqb_spec c newline) as [->|]; [done|done].
Qed.

Lemma rune_one_line c r n :
  (byte_val c <? 128)%N = false -> cont_bytes c r = Some n ->
  one_line (String c (String.substring 0 n r)).
Proof.
  intros Hc H. destruct (cont_bytes_high _ _ _ H) as (p & r' & -> & <- & _ & Hp).
  rewrite substring_app. unfold without. cbn [str_all].
  rewrite (proj2 (Ascii.eqb_neq c newline) (high_not_newline c Hc)). by apply high_one_line.
Qed.

Lemma quote_one_line IsPrint s : one_line (yamlQuote IsPrint s).
Proof.
  unfold yamlQuote. rewrite !without_app. change (without newline (str1 dq)) with true.
  rewrite andb_true_r. cbn [andb]. generalize 0 as skip.
  induction s as [|c s IH]; intros [|k]; cbn [quote_body]; auto.
  destruct (byte_val c <? 128)%N eqn:Hc; [by rewrite without_app, quote_ascii_one_line, IH|].
  destruct (cont_bytes c s) as [n|] eqn:Hn.
  - rewrite without_app, IH, andb_true_r. destruct (IsPrint _); [by apply rune_one_line|].
    destruct (rune_value c n s <? 65536)%N; rewrite without_app; apply hex_one_line.
  - rewrite !without_app, hex_one_line, IH. done.
Qed.

Lemma entry_one_line n k v : one_line k -> one_line v -> one_line (entry n k v).
Proof.
  intros Hk Hv. unfold entry. rewrite !without_app, Hk, Hv, without_replicate by done. done.
Qed.

Create HintDb lines.
#[export] Hint Resolve fmt_d_one_line flt_one_line bool_one_line quote_one_line entry_one_line
  replace_one_line : lines.

(** Every line the template writes is one line, whatever the values are. *)
Ltac lines_ok :=
  repeat (apply Forall_cons; split); try apply Forall_nil; try done;
  first [reflexivity | apply entry_one_line; [reflexivity|auto with lines]
        | rewrite !without_app; rewrite ?fmt_d_one_line; reflexivity | idtac].

Lemma head_one_line d :
  one_line (dPayloadType d) -> Forall (fun s => one_line s) (head_lines d).
Proof.
  intros H. unfold head_lines. apply Forall_app. split.
  - lines_ok. rewrite !without_app, H. reflexivity.
  - destruct (dTAExtended d) as [[[? ?] ?]|]; lines_ok.
Qed.

Lemma ephemeris_one_line e : Forall (fun s => one_line s) (ephemeris_lines e).
Proof. destruct e; cbn [ephemeris_lines]; lines_ok. Qed.

Lemma option_one_line IsPrint d : Forall (fun s => one_line s) (option_lines IsPrint d).
Proof.
  unfold option_lines. repeat (apply Forall_app; split).
  - destruct (dEpochTime d) as [[? ?]|]; lines_ok.
  - destruct (dFeederLink d) as [[[? ?] ?]|]; lines_ok.
  - destruct (dGateway d) as [[[? ?] ?]|]; lines_ok.
  - destruct (length (dNCells d) =? 0)%nat; [lines_ok|]. apply Forall_cons. split; [reflexivity|].
    induction (dNCells d) as [|[pci f] l IH]; [constructor|]. cbn [flat_map]. apply Forall_app.
    split; [|exact IH]. unfold ncell_lines. cbn [fst snd]. destruct (f =? 0)%Z; lines_ok.
  - destruct (dReference d) as [[? ?]|]; cbn [position_lines]; lines_ok.
  - destruct (dDistanceThreshold d); lines_ok.
  - destruct (dMovingRef d) as [[? ?]|]; cbn [position_lines]; lines_ok.
  - destruct (dPolarization d) as [[dl ul]|]; cbn [polarization_lines]; [|lines_ok].
    apply Forall_cons. split; [reflexivity|]. apply Forall_app.
    destruct (str_eqb dl ""), (str_eqb ul ""); split; lines_ok.
  - destruct (dTAReport d); lines_ok.
  - destruct (dUlSyncValidityDur d); lines_ok.
Qed.

Lemma tail_one_line d : Forall (fun s => one_line s) (tail_lines d).
Proof. unfold tail_lines. lines_ok. Qed.

(** ** The generated document *)

(** The strings of the data, and how the steps move them. *)
Definition set_strings (d : configData) (payload : string) (pol : option (string * string)) : configData :=
  mkData payload (dKoffset d) (dTACommon d) (dTAExtended d) (dEphemeris d) (dEpochTime d)
    (dFeederLink d) (dGateway d) (dNCells d) (dReference d) (dDistanceThreshold d)
    (dMovingRef d) pol (dTAReport d) (dUlSyncValidityDur d)
    (dPdschMaxHarqRetxs d) (dPrachMaxMsg3HarqRetx d) (dRrcGuardTimeMs d)
    (dSIWindowLength d) (dSIPeriod d) (dSIWindowPosition d).

Definition printed_payload (p : string) : string :=
  sanitizeComment (if str_eqb p "" then "transparent" else p).

Definition printed_polarization (p : option NTNPolarization) : option (string * string) :=
  match p with
  | Some p => if negb (str_eqb (DL p) "") || negb (str_eqb (UL p) "") then Some (DL p, UL p) else None
  | None => None
  end.

(** The spec with other strings in it. *)
Definition with_strings (spec : NTNCellConfigSpec) (payload : string) (pol : option NTNPolarization)
  : NTNCellConfigSpec :=
  let n := csNTN spec in
  mkCellSpec (csProvider spec)
    (mkNTN (CellSpecificKoffset n) (TACommon n) (ntnECEF n) (ntnOrbital n) (ntnTAInfo n) (ntnEpochTime n)
       (ntnFeederLink n) (ntnGateway n) (ntnMovingRef n) (ntnSatSwitch n) pol
       (TAReport n) (NTNUlSyncValidityDur n) payload (NeighborCells n) (ntnReference n)
       (DistanceThreshold n) (TService n))
    (csCellOverrides spec) (csEphemerisRef spec) (csCellID spec) (csEphemerisNoradID spec).

Lemma applyTAInfo_strings d spec a b p q :
  applyTAInfo (set_strings d a b) (with_strings spec p q) = set_strings (applyTAInfo d spec) a b.
Proof. unfold applyTAInfo. cbn [with_strings csNTN ntnTAInfo]. by destruct (ntnTAInfo (csNTN spec)). Qed.

Lemma applyOptional_strings d spec a p q :
  applyOptionalNTNFields (set_strings d a None) (with_strings spec p q) =
  set_strings (applyOptionalNTNFields d spec) a (printed_polarization q).
Proof. by destruct q. Qed.

Lemma applyStage3_strings d spec a b p q :
  applyStage3Fields (set_strings d a b) (with_strings spec p q) = set_strings (applyStage3Fields d spec) a b.
Proof. done. Qed.

Lemma applyOverrides_strings d spec a b p q :
  applyCellOverrides (set_strings d a b) (with_strings spec p q) = set_strings (applyCellOverrides d spec) a b.
Proof. unfold applyCellOverrides. cbn [with_strings csCellOverrides]. by destruct (csCellOverrides spec). Qed.

Lemma collect_with_strings spec payload pol :
  collect (with_strings spec payload pol) =
  set_strings (collect spec) (printed_payload payload) (printed_polarization pol).
Proof.
  unfold collect.
  change (baseConfigData (with_strings spec payload pol))
    with (set_strings (baseConfigData spec) (printed_payload payload) None).
  by rewrite applyTAInfo_strings, applyOptional_strings, applyStage3_strings, applyOverrides_strings.
Qed.

(** Its own strings, in particular. *)
Lemma collect_strings spec :
  collect spec = set_strings (collect spec) (printed_payload (PayloadType (csNTN spec)))
                   (printed_polarization (ntnPolarization (csNTN spec))).
Proof.
  rewrite <- collect_with_strings. by destruct spec as [? [] ? ? ? ?].
Qed.

Lemma config_one_line IsPrint spec e :
  Forall (fun s => one_line s) (config_lines IsPrint (set_ephemeris (collect spec) e)).
Proof.
  unfold config_lines. apply Forall_app; split; [|apply Forall_app; split; [|apply Forall_app; split]].
  - apply head_one_line. rewrite collect_strings. apply replace_one_line.
  - apply ephemeris_one_line.
  - apply option_one_line.
  - apply tail_one_line.
Qed.

Lemma split_config IsPrint spec e :
  split_byte newline (Join (config_lines IsPrint (set_ephemeris (collect spec) e)) (str1 newline)) =
  config_lines IsPrint (set_ephemeris (collect spec) e).
Proof. apply split_byte_Join; [by destruct (dTAExtended (collect spec))|apply config_one_line]. Qed.

Lemma generated IsPrint spec text :
  GenerateConfig IsPrint spec = Ok text ->
  exists e, text = Join (config_lines IsPrint (set_ephemeris (collect spec) e)) (str1 newline) /\
    applyEphemeris (collect spec) spec = Ok (set_ephemeris (collect spec) e).
Proof.
  unfold GenerateConfig. destruct (applyEphemeris (collect spec) spec) as [d|] eqn:E; [|done].
  assert (Hd : exists e, d = set_ephemeris (collect spec) e).
  { unfold applyEphemeris in E. destruct (ntnECEF (csNTN spec)), (ntnOrbital (csNTN spec)); try done;
      injection E as <-; eauto. }
  destruct Hd as [e ->]. intros H. exists e. split; [congruence|done].
Qed.

Lemma generated_nonempty IsPrint spec text : GenerateConfig IsPrint spec = Ok text -> text <> "".
Proof.
  intros (e & -> & _)%generated. unfold config_lines, head_lines. cbn [app Join]. discriminate.
Qed.

Lemma HasPrefix_app p s : HasPrefix (p +:+ s) p = true.
Proof. unfold HasPrefix. by rewrite (proj2 (strip_prefix_spec p (p +:+ s) s) eq_refl). Qed.

(** ** The ephemeris block *)

Lemma not_ephemeris_key n c r :
  is_graphic c = true -> c <> "e"%char -> is_ephemeris_key (replicate_str n " " +:+ String c r) = false.
Proof.
  intros Hg Hc. unfold is_ephemeris_key. destruct (TrimSpace_indented n c r Hg) as [p ->].
  unfold HasPrefix. cbn [strip_prefix]. by rewrite (proj2 (Ascii.eqb_neq "e"%char c)) by congruence.
Qed.

Lemma leading_spaces n c r : c <> " "%char -> leadingSpaces (replicate_str n " " +:+ String c r) = n.
Proof.
  intros Hc. unfold leadingSpaces. rewrite trim_left_spaces; [|cbn [strip_one strip_prefix]|done].
  - rewrite length_app_str. enough (String.length (replicate_str n " ") = n) by lia.
    induction n; simpl in *; lia.
  - by rewrite (proj2 (Ascii.eqb_neq " "%char c)) by congruence.
Qed.

(** A line at which the old body ends. *)
Definition stops (line : string) : Prop :=
  str_eqb (TrimSpace line) "" = false /\ leadingSpaces line <= 4.

Lemma stops_indented n c r : n <= 4 -> is_graphic c = true -> stops (replicate_str n " " +:+ String c r).
Proof.
  intros Hn Hg. split.
  - destruct (TrimSpace_indented n c r Hg) as [p ->]. done.
  - rewrite leading_spaces; [done|]. by intros ->.
Qed.

Lemma drop_body_stop line rest : stops line -> drop_body 4 (line :: rest) = line :: rest.
Proof. intros [H1 H2]. cbn [drop_body]. rewrite H1, (proj2 (Nat.ltb_ge _ _) H2). done. Qed.

Lemma drop_body_deeper n c r rest :
  4 < n -> c <> " "%char ->
  drop_body 4 ((replicate_str n " " +:+ String c r) :: rest) = drop_body 4 rest.
Proof.
  intros Hn Hc. cbn [drop_body]. rewrite leading_spaces by done.
  rewrite (proj2 (Nat.ltb_lt 4 n) Hn), orb_true_r. done.
Qed.

Lemma drop_entry n c k v rest :
  4 < n -> c <> " "%char -> drop_body 4 (entry n (String c k) v :: rest) = drop_body 4 rest.
Proof. intros. unfold entry. cbn [String.append]. by apply drop_body_deeper. Qed.

Lemma drop_ephemeris e rest : drop_body 4 (tail (ephemeris_lines e) ++ rest) = drop_body 4 rest.
Proof.
  destruct e; cbn [ephemeris_lines tail app]; rewrite !drop_entry by (lia || done); reflexivity.
Qed.

(** What follows the ephemeris block starts a sibling or a parent section. *)
Lemma options_stop IsPrint d :
  exists line rest, (option_lines IsPrint d ++ tail_lines d)%list = line :: rest /\ stops line.
Proof.
  assert (H4 : forall c r, is_graphic c = true -> stops ("    " +:+ String c r)).
  { intros c r H. by apply (stops_indented 4). }
  unfold option_lines.
  destruct (dEpochTime d) as [[? ?]|]; [eexists _, _; split; [reflexivity|apply H4; reflexivity]|].
  destruct (dFeederLink d) as [[[? ?] ?]|]; [eexists _, _; split; [reflexivity|apply H4; reflexivity]|].
  destruct (dGateway d) as [[[? ?] ?]|]; [eexists _, _; split; [reflexivity|apply H4; reflexivity]|].
  destruct (length (dNCells d) =? 0)%nat; [|eexists _, _; split; [reflexivity|apply H4; reflexivity]].
  destruct (dReference d) as [[? ?]|]; [eexists _, _; split; [reflexivity|apply H4; reflexivity]|].
  destruct (dDistanceThreshold d); [eexists _, _; split; [reflexivity|apply H4; reflexivity]|].
  destruct (dMovingRef d) as [[? ?]|]; [eexists _, _; split; [reflexivity|apply H4; reflexivity]|].
  destruct (dPolarization d) as [[? ?]|]; [eexists _, _; split; [reflexivity|apply H4; reflexivity]|].
  destruct (dTAReport d); [eexists _, _; split; [reflexivity|apply H4; reflexivity]|].
  destruct (dUlSyncValidityDur d); [eexists _, _; split; [reflexivity|apply H4; reflexivity]|].
  eexists _, _. split; [reflexivity|]. apply (stops_indented 2); [lia|reflexivity].
Qed.

Lemma replace_skip update l rest :
  Forall (fun s => is_ephemeris_key s = false) l ->
  replace_lines update (l ++ rest) =
  ((l ++ (replace_lines update rest).1)%list, (replace_lines update rest).2).
Proof.
  induction 1 as [|s l Hs Hl IH]; cbn [app replace_lines]; [by destruct (replace_lines update rest)|].
  rewrite Hs, IH. done.
Qed.

Lemma head_no_key d : Forall (fun s => is_ephemeris_key s = false) (head_lines d).
Proof.
  assert (H : forall n c r, is_graphic c = true -> c <> "e"%char ->
    is_ephemeris_key (replicate_str n " " +:+ String c r) = false) by (intros; by apply not_ephemeris_key).
  unfold head_lines. apply Forall_app. split.
  - repeat (apply Forall_cons; split); try (by apply Forall_nil); try reflexivity.
    + apply (H 0 "#"%char); done.
    + apply (H 4 "c"%char); done.
    + apply (H 6 "t"%char); done.
  - destruct (dTAExtended d) as [[[? ?] ?]|]; [|constructor].
    repeat (apply Forall_cons; split); try (by apply Forall_nil); apply (H 6 "t"%char); done.
Qed.

(** Exactly one of the two ephemerides is given, and what it is printed as. *)
Definition update_data (u : EphemerisUpdate) : option ephemeris_data :=
  match uECEF u, uOrbital u with
  | Some e, None => Some (ecef_data e)
  | None, Some o => Some (orbital_data o)
  | _, _ => None
  end.

Lemma render_at_four u e : update_data u = Some e -> renderEphemerisBlock u 4 = ephemeris_lines e.
Proof.
  unfold update_data, renderEphemerisBlock.
  destruct (uECEF u), (uOrbital u); try done; intros [= <-]; reflexivity.
Qed.

Lemma replace_config IsPrint spec e u e' :
  update_data u = Some e' ->
  replace_lines u (config_lines IsPrint (set_ephemeris (collect spec) e)) =
  (config_lines IsPrint (set_ephemeris (collect spec) e'), true).
Proof.
  intros Hu. unfold config_lines. rewrite replace_skip by apply head_no_key.
  cbn [dEphemeris set_ephemeris].
  change (option_lines IsPrint (set_ephemeris (collect spec) e)) with (option_lines IsPrint (collect spec)).
  change (option_lines IsPrint (set_ephemeris (collect spec) e')) with (option_lines IsPrint (collect spec)).
  change (tail_lines (set_ephemeris (collect spec) e)) with (tail_lines (collect spec)).
  change (tail_lines (set_ephemeris (collect spec) e')) with (tail_lines (collect spec)).
  destruct (options_stop IsPrint (collect spec)) as (line & rest & Hrest & Hstop).
  assert (Hkey : exists k, ephemeris_lines e = k :: tail (ephemeris_lines e) /\
    is_ephemeris_key k = true /\ leadingSpaces k = 4) by (destruct e; eexists; repeat split; reflexivity).
  destruct Hkey as (k & Hk & Hkey & Hlead). rewrite Hk. cbn [app replace_lines].
  rewrite Hkey, Hlead, drop_ephemeris, Hrest, drop_body_stop by done.
  rewrite (render_at_four _ _ Hu). reflexivity.
Qed.

Lemma replace_regenerates IsPrint spec text u e :
  GenerateConfig IsPrint spec = Ok text -> update_data u = Some e ->
  exists text', GenerateConfig IsPrint (with_ephemeris spec (uECEF u) (uOrbital u)) = Ok text' /\
    replaceEphemeris text u = (text', true).
Proof.
  intros H Hu. apply generated in H as (e0 & -> & _).
  exists (Join (config_lines IsPrint (set_ephemeris (collect spec) e)) (str1 newline)). split.
  - unfold GenerateConfig, applyEphemeris. cbn [with_ephemeris csNTN ntnECEF ntnOrbital].
    change (collect (with_ephemeris spec (uECEF u) (uOrbital u))) with (collect spec).
    unfold update_data in Hu. destruct (uECEF u), (uOrbital u); try done; by injection Hu as <-.
  - unfold replaceEphemeris. rewrite split_config. by rewrite (replace_config _ _ _ _ _ Hu).
Qed.

(** C18. Rewriting in place is regenerating: pushing a new ephemeris into the
    text generated for a specification gives, byte for byte, the text generated
    for the specification with that ephemeris, switching between the two
    representations included; pushing twice is pushing the last, and no
    neighbouring key is lost or kept twice. *)
Theorem replace_is_regenerate IsPrint spec text u v e f :
  GenerateConfig IsPrint spec = Ok text -> update_data u = Some e -> update_data v = Some f ->
  exists text', GenerateConfig IsPrint (with_ephemeris spec (uECEF u) (uOrbital u)) = Ok text' /\
    replaceEphemeris text u = (text', true) /\
    replaceEphemeris text' v = replaceEphemeris text v.
Proof.
  intros H Hu Hv. destruct (replace_regenerates _ _ _ _ _ H Hu) as (t & Ht & Hr). exists t.
  split; [done|]. split; [done|].
  destruct (replace_regenerates _ _ _ _ _ Ht Hv) as (t1 & Ht1 & Hr1).
  destruct (replace_regenerates _ _ _ _ _ H Hv) as (t2 & Ht2 & Hr2).
  change (with_ephemeris (with_ephemeris spec (uECEF u) (uOrbital u)) (uECEF v) (uOrbital v))
    with (with_ephemeris spec (uECEF v) (uOrbital v)) in Ht1.
  rewrite Hr1, Hr2. congruence.
Qed.

(** A geostationary cell, with a payload type that tries to end its comment. *)
Definition demo_ntn (payload : string) (pol : option NTNPolarization) : NTNCellConfigSpec :=
  mkCellSpec (mkProviderRef "ocudu" "ran" None "" None)
    (mkNTN 260 100 (Some (mkECEF 32432423 0 0 0 0 0)) None None None None None None None pol None None
       payload [] None None None)
    None "" None None.

Definition demo_update : EphemerisUpdate :=
  mkUpdate None (Some (mkOrbital 6878000 1000 530000 10 20 30)).

Definition ok_text (r : result config_error string) : string :=
  match r with Ok t => t | Err _ => "" end.

Lemma replace_is_regenerate_witness :
  snd (replaceEphemeris (ok_text (GenerateConfig (fun _ => true) (demo_ntn "transparent" None)))
         demo_update) = true.
Proof.
  destruct (replace_is_regenerate (fun _ => true) (demo_ntn "transparent" None)
    (ok_text (GenerateConfig (fun _ => true) (demo_ntn "transparent" None)))
    demo_update demo_update (orbital_data (mkOrbital 6878000 1000 530000 10 20 30))
    (orbital_data (mkOrbital 6878000 1000 530000 10 20 30))
    ltac:(vm_compute; reflexivity) ltac:(vm_compute; reflexivity) ltac:(vm_compute; reflexivity))
    as (t & _ & -> & _). reflexivity.
Defined.

(** The generated text of the demonstration cell. *)
Example demo_text :
  firstn 14 (split_byte newline (ok_text (GenerateConfig (fun _ => true) (demo_ntn "transparent" None)))) =
  ["# Generated by NTN K8s Operators — do not edit manually";
   "# Payload type: transparent (3GPP Rel-19: transparent or regenerative)"; ""; "cell_cfg:"; "  ntn:";
   "    cell_specific_koffset: 260"; "    ta_info:"; "      ta_common: 0.4072";
   "    ephemeris_info_ecef:"; "      pos_x: 42162149.9"; "      pos_y: 0"; "      pos_z: 0";
   "      vel_x: 0"; "      vel_y: 0"].
Proof. vm_compute. reflexivity. Qed.

(** Angles are converted as the test-suite of the package expects. *)
Example demo_angle : flt (scaled 879000 milliDegToRad) = "1.5341444125030157".
Proof. vm_compute. reflexivity. Qed.
