(* ===== verification/OcuduText.v ===== *)
(** * Free text in the gNB configuration

    A cell specification puts text of its own into the document in three places:
    the payload type into a comment, the polarizations into quoted values.  This
    file shows that the text stays there, with the line breaks of YAML (LF, CR,
    NEL, LS and PS) and its quoting taken as a YAML reader takes them. *)

From S2P Require Import Prelude GoStrings GoJson GoUnicode GoFloat K8sMeta CellApi OcuduConfig.
From Stdlib Require Import SpecFloat Ascii.
Local Open Scope string_scope.
Local Arguments String.append !_ _ /.

(** ** What a YAML reader sees *)

(** U+000A, U+000D, U+0085, U+2028 and U+2029, encoded. *)
Definition line_breaks : list string :=
  map string_of_bytes [[10]; [13]; [194; 133]; [226; 128; 168]; [226; 128; 169]]%N.

(** The text is UTF-8 and has no line break. *)
Definition one_yaml_line (s : string) : bool :=
  valid_utf8 s && forallb (fun r : rune => bool_decide (r.2 ∉ line_breaks)) (runes 0 s).

(** A double-quoted scalar whose closing quote is the end of the text; a
    backslash escapes the character behind it. *)
Fixpoint closes_at_end (s : string) : bool :=
  match s with
  | "" => false
  | String c r =>
      if Ascii.eqb c dq then str_eqb r ""
      else if Ascii.eqb c bslash then match r with String _ r => closes_at_end r | "" => false end
      else closes_at_end r
  end.
Definition double_quoted (s : string) : bool :=
  match s with String c r => Ascii.eqb c dq && closes_at_end r | "" => false end.

(** ** Text made of runes that do not break a line *)

Definition plain_rune (r : rune) : Prop :=
  good r /\ (forall t, valid_utf8 (r.2 +:+ t) = valid_utf8 t) /\ r.2 ∉ line_breaks.
Definition unbroken (s : string) : Prop := exists l, Forall plain_rune l /\ s = encode l.

Lemma unbroken_line s : unbroken s -> one_yaml_line s = true.
Proof.
  intros (l & Hl & ->). unfold one_yaml_line. apply andb_true_iff. split.
  - induction Hl as [|r l (_ & Hv & _) _ IH]; [done|]. cbn [encode foldr]. fold (encode l). by rewrite Hv.
  - rewrite runes_encode by (eapply Forall_impl; [exact Hl|]; by intros r (? & _)).
    apply forallb_forall. intros r Hr. rewrite Forall_forall in Hl. apply bool_decide_eq_true.
    by destruct (Hl r) as (_ & _ & ?); [apply list_elem_of_In|].
Qed.

Lemma unbroken_nil : unbroken "".
Proof. by exists []. Qed.

Lemma unbroken_app a b : unbroken a -> unbroken b -> unbroken (a +:+ b).
Proof.
  intros (l & Hl & ->) (l' & Hl' & ->). exists (l ++ l')%list. split; [by apply Forall_app|]. symmetry. apply encode_app.
Qed.

Lemma unbroken_rune r : plain_rune r -> unbroken r.2.
Proof. intros H. exists [r]. split; [by constructor|]. cbn. by rewrite app_str_nil_r. Qed.

(** Encodings that start with different bytes differ. *)
Lemma ascii_plain c :
  (byte_val c < 128)%N -> byte_val c <> 10%N -> byte_val c <> 13%N -> plain_rune (byte_val c, str1 c).
Proof.
  intros Hc H10 H13. assert (Hb : (byte_val c <? 128)%N = true) by (by apply N.ltb_lt). split; [|split].
  - split; [|cbn; lia]. intros t. cbn [snd str1 String.append runes]. by rewrite Hb.
  - intros t. unfold valid_utf8. cbn [snd str1 String.append valid_utf8_from]. by rewrite Hb.
  - cbn [snd]. intros Hin. apply list_elem_of_In in Hin. cbn in Hin.
    repeat (destruct Hin as [Hin|Hin]; [injection Hin as Hin; subst c; done || by (cbn in *; lia)|]). done.
Qed.

Lemma unbroken_ascii s :
  str_all (fun c => (32 <=? byte_val c)%N && (byte_val c <? 127)%N) s = true -> unbroken s.
Proof.
  induction s as [|c s IH]; [intros _; apply unbroken_nil|]. cbn [str_all].
  intros [[H1%N.leb_le H2%N.ltb_lt]%andb_true_iff Hs]%andb_true_iff.
  change (String c s) with (str1 c +:+ s). apply unbroken_app; [|by apply IH].
  apply (unbroken_rune (byte_val c, str1 c)), ascii_plain; lia.
Qed.

(** A rune of several bytes. *)
Lemma decoded_plain c p t :
  (byte_val c <? 128)%N = false -> cont_bytes c (p +:+ t) = Some (String.length p) ->
  String c p ∉ line_breaks -> plain_rune (rune_value c (String.length p) (p +:+ t), String c p).
Proof.
  intros Hc Hn Hb. pose proof (high_byte_rune c _ _ Hc Hn) as Hg. rewrite substring_app in Hg.
  destruct (cont_bytes_local _ _ _ Hn) as (_ & _ & Ht). rewrite substring_app in Ht. split; [done|]. split; [|done].
  intros u. unfold valid_utf8. cbn [snd String.append valid_utf8_from]. rewrite Hc. destruct (Ht u) as [-> _].
  apply valid_skip.
Qed.

(** ** The comment *)

Lemma skip_replaced p r :
  replace_all comment_breaks (String.length p) (p +:+ r) = replace_all comment_breaks 0 r.
Proof. induction p as [|c p IH]; [done|]. apply IH. Qed.

(** No replaced text starts in the middle of an encoding. *)
Lemma continuation_kept c s :
  (128 <= byte_val c < 192)%N -> replacement comment_breaks (String c s) = None.
Proof.
  intros Hc. unfold comment_breaks. cbn [map replacement fst snd string_of_bytes strip_prefix].
  repeat match goal with |- context [Ascii.eqb ?a c] =>
    destruct (Ascii.eqb_spec a c) as [<-|_]; [exfalso; revert Hc; vm_compute; intros [? ?]; by auto|] end.
  done.
Qed.

Lemma continuations_kept p r :
  str_all (between 128 191) p = true -> replace_all comment_breaks 0 (p +:+ r) = p +:+ replace_all comment_breaks 0 r.
Proof.
  induction p as [|c p IH]; [done|]. cbn [str_all]. intros [Hc%between_val Hp]%andb_true_iff.
  cbn [String.append replace_all]. rewrite continuation_kept by lia. by rewrite IH.
Qed.

Lemma cont_bytes_range c r n :
  cont_bytes c r = Some n -> str_all (between 128 191) (String.substring 0 n r) = true.
Proof.
  unfold cont_bytes. destruct r as [|c1 r1]; [done|].
  assert (Hw : forall lo hi d, between lo hi d = true -> (128 <= lo)%N -> (hi <= 191)%N -> between 128 191 d = true).
  { intros lo hi d H%between_val ? ?. unfold between. rewrite andb_true_iff, !N.leb_le. lia. }
  destruct (between 194 223 c && between 128 191 c1) eqn:E2.
  { intros [= <-]. apply andb_true_iff in E2 as [_ H]. destruct r1; cbn; by rewrite H. }
  destruct r1 as [|c2 r2]; [done|].
  match goal with |- (if ?b then _ else _) = _ -> _ => destruct b eqn:E3 end.
  { intros [= <-]. apply andb_true_iff in E3 as [H H2]. rewrite !orb_true_iff, !andb_true_iff in H.
    assert (between 128 191 c1 = true) as H1 by (destruct H as [[[[_ H]|[_ H]]|[_ H]]|[_ H]]; by apply Hw in H).
    destruct r2; cbn; by rewrite H1, H2. }
  destruct r2 as [|c3 r3]; [done|].
  match goal with |- (if ?b then _ else _) = _ -> _ => destruct b eqn:E4 end; [|done].
  intros [= <-]. rewrite !andb_true_iff, !orb_true_iff, !andb_true_iff in E4. destruct E4 as [[H H2] H3].
  assert (between 128 191 c1 = true) as H1 by (destruct H as [[[_ H]|[_ H]]|[_ H]]; by apply Hw in H).
  destruct r3; cbn; by rewrite H1, H2, H3.
Qed.

(** At an encoding, what is replaced is the whole of it, and it is a break. *)
Lemma encoding_replaced c p r old new :
  (byte_val c <? 128)%N = false -> cont_bytes c (p +:+ r) = Some (String.length p) ->
  replacement comment_breaks (String c (p +:+ r)) = Some (old, new) ->
  new = " " /\ (String.length old - 1)%nat = String.length p.
Proof.
  intros Hc Hn. unfold comment_breaks. cbn [map replacement fst snd].
  repeat match goal with
  | |- match strip_prefix ?b ?s with _ => _ end = _ -> _ =>
      let E := fresh "E" in destruct (strip_prefix b s) eqn:E;
      [apply strip_prefix_spec in E; cbn [string_of_bytes String.append] in E; injection E as E E'; intros [= <- <-]|clear E]
  end; try done; try (exfalso; subst c; by vm_compute in Hc); split; [done| |done| |done|];
  subst c; rewrite E' in Hn;
  match type of Hn with ?a = Some ?b => let v := eval vm_compute in a in change (v = Some b) in Hn end;
  injection Hn as <-; done.
Qed.

Lemma replacement_none olds s old new :
  replacement olds s = None -> (old, new) ∈ olds -> strip_prefix old s = None.
Proof.
  induction olds as [|[o n] olds IH]; [intros _ H; by apply elem_of_nil in H|]. cbn [replacement].
  destruct (strip_prefix o s) eqn:E; [done|]. intros H [[= -> ->]|Hin]%elem_of_cons; [done|by apply IH].
Qed.

Lemma breaks_replaced b : b ∈ line_breaks -> (b, " ") ∈ comment_breaks.
Proof.
  unfold line_breaks, comment_breaks. rewrite !list_elem_of_fmap. intros (l & -> & Hl). exists (l, " "). split; [done|].
  apply list_elem_of_In in Hl. apply list_elem_of_In. cbn in *. intuition (subst; auto 8).
Qed.

Lemma encoding_kept c p r :
  replacement comment_breaks (String c (p +:+ r)) = None -> String c p ∉ line_breaks.
Proof.
  intros Hn Hin%breaks_replaced. apply (replacement_none _ _ _ _ Hn) in Hin.
  enough (strip_prefix (String c p) (String c (p +:+ r)) = Some r) by congruence. by apply strip_prefix_spec.
Qed.

Lemma sanitized_unbroken s : valid_utf8 s = true -> unbroken (sanitizeComment s).
Proof.
  unfold valid_utf8, sanitizeComment. remember (String.length s) as len eqn:Hlen.
  revert s Hlen. induction (lt_wf len) as [len _ IH]. intros s -> Hv.
  destruct s as [|c r]; [apply unbroken_nil|]. cbn [valid_utf8_from] in Hv.
  destruct (byte_val c <? 128)%N eqn:Hc.
  - assert (Hr : unbroken (replace_all comment_breaks 0 r)) by (eapply IH; [|done|done]; cbn; lia).
    destruct (replacement comment_breaks (String c r)) as [[old new]|] eqn:E; cbn [replace_all]; rewrite E.
    + unfold comment_breaks in E. cbn [map replacement fst snd] in E.
      assert (Hc2 : forall a b, string_of_bytes (a :: b) <> "" -> (128 <=? a)%N = true -> (a <? 256)%N = true ->
        strip_prefix (string_of_bytes (a :: b)) (String c r) = None).
      { intros a b _ Ha1%N.leb_le Ha2%N.ltb_lt. cbn [string_of_bytes strip_prefix].
        destruct (Ascii.eqb_spec (byte_of a) c) as [<-|]; [|done]. exfalso. apply N.ltb_lt in Hc.
        unfold byte_val, byte_of in Hc. rewrite N_ascii_embedding in Hc; lia. }
      repeat match type of E with
      | match strip_prefix ?b ?s with _ => _ end = _ => destruct (strip_prefix b s) eqn:?;
          [injection E as <- <-; first [by rewrite Hc2 in * | cbn [String.length String.append Nat.sub]]|]
      end; try done; first [exact Hr | apply (unbroken_app " "); [by apply unbroken_ascii|exact Hr]].
    + change (String c (replace_all comment_breaks 0 r)) with (str1 c +:+ replace_all comment_breaks 0 r).
      apply unbroken_app; [|done]. apply (unbroken_rune (byte_val c, str1 c)), ascii_plain; [by apply N.ltb_lt| |];
        intros Hb; apply (f_equal byte_of) in Hb; unfold byte_of, byte_val in Hb; rewrite ascii_N_embedding in Hb; subst c; by cbn in E.
  - destruct (cont_bytes c r) as [n|] eqn:Hn; [|done]. pose proof (cont_bytes_range _ _ _ Hn) as Hrange.
    destruct (cont_bytes_high _ _ _ Hn) as (p & r' & -> & <- & _ & _). rewrite substring_app in Hrange.
    rewrite valid_skip in Hv.
    assert (Hr : unbroken (replace_all comment_breaks 0 r')).
    { eapply IH; [|done|done]. cbn [String.length]. rewrite length_app_str. lia. }
    cbn [replace_all]. destruct (replacement comment_breaks (String c (p +:+ r'))) as [[old new]|] eqn:E.
    + apply encoding_replaced in E as [-> ->]; [|done..]. rewrite skip_replaced.
      apply unbroken_app; [by apply unbroken_ascii|done].
    + rewrite continuations_kept by done. change (String c (p +:+ ?x)) with (String c p +:+ x).
      apply unbroken_app; [|done]. apply (unbroken_rune (rune_value c (String.length p) (p +:+ r'), String c p)).
      apply decoded_plain; [done..|]. by eapply encoding_kept.
Qed.

(** ** The quoted values *)

Definition passes (p : string) : Prop := forall t, closes_at_end (p +:+ t) = closes_at_end t.

Lemma passes_app a b : passes a -> passes b -> passes (a +:+ b).
Proof. intros Ha Hb t. by rewrite <- app_str_assoc, Ha, Hb. Qed.

Lemma passes_all p : str_all (fun c => negb (Ascii.eqb c dq) && negb (Ascii.eqb c bslash)) p = true -> passes p.
Proof.
  induction p as [|c p IH]; [done|]. cbn [str_all].
  intros [[Hq%negb_true_iff Hb%negb_true_iff]%andb_true_iff Hp]%andb_true_iff t.
  cbn [String.append closes_at_end]. rewrite Hq, Hb. by apply IH.
Qed.

Lemma passes_escape c p : passes p -> passes (String bslash (String c p)).
Proof. intros H t. apply H. Qed.

(** Hexadecimal digits are neither quotes nor backslashes, and do not break. *)
Definition hex_text (s : string) : Prop :=
  str_all (fun c => (48 <=? byte_val c)%N && (byte_val c <=? 57)%N || (97 <=? byte_val c)%N && (byte_val c <=? 102)%N) s = true.

Lemma hex_fixed_text w n : hex_text (hex_fixed w n).
Proof.
  revert n. induction w as [|w IH]; intros n; [done|]. unfold hex_text in *. cbn [hex_fixed]. rewrite str_all_app, IH.
  cbn [str_all str1 andb]. rewrite andb_true_r. unfold lowerhex, hex_digit.
  assert (n mod 16 < 16)%N by (by apply N.mod_lt). generalize dependent (n mod 16)%N. intros m Hm.
  unfold byte_val, byte_of. destruct (N.ltb_spec m 10); rewrite N_ascii_embedding by lia;
    rewrite orb_true_iff, !andb_true_iff, !N.leb_le; lia.
Qed.

Lemma hex_passes s : hex_text s -> passes s.
Proof.
  intros H. apply passes_all. revert H. apply str_all_impl. intros c Hc.
  destruct (Ascii.eqb_spec c dq) as [->|]; [done|]. by destruct (Ascii.eqb_spec c bslash) as [->|].
Qed.

Lemma hex_unbroken s : hex_text s -> unbroken s.
Proof.
  intros H. apply unbroken_ascii. revert H. apply str_all_impl. intros c. rewrite orb_true_iff, !andb_true_iff, !N.leb_le, N.ltb_lt. lia.
Qed.

(** A backslash, one character and hexadecimal digits. *)
Lemma escape_quoted c s :
  (32 <=? byte_val c)%N && (byte_val c <? 127)%N = true -> hex_text s ->
  unbroken (String bslash (String c s)) /\ passes (String bslash (String c s)).
Proof.
  intros Hc Hs. split; [|by apply passes_escape, hex_passes].
  change (String bslash (String c s)) with (String bslash (str1 c) +:+ s). apply unbroken_app; [|by apply hex_unbroken].
  apply unbroken_ascii. cbn [str_all str1]. by rewrite Hc.
Qed.

Lemma quote_ascii_quoted c : (byte_val c <? 128)%N = true -> unbroken (quote_ascii c) /\ passes (quote_ascii c).
Proof.
  intros Hc. unfold quote_ascii. destruct ((_ =? 34)%N || _) eqn:E1.
  { apply (escape_quoted c ""); [|done]. apply orb_true_iff in E1 as [E1|E1]; apply N.eqb_eq in E1; by rewrite E1. }
  apply orb_false_iff in E1 as [Hq%N.eqb_neq Hb%N.eqb_neq].
  destruct ((32 <=? byte_val c)%N && _) eqn:E2.
  { split; [apply unbroken_ascii; cbn; by rewrite E2|]. apply passes_all. cbn [str_all str1].
    destruct (Ascii.eqb_spec c dq) as [->|]; [done|]. by destruct (Ascii.eqb_spec c bslash) as [->|]. }
  destruct (short_quote c) as [e|] eqn:E; [|apply (escape_quoted "x"), hex_fixed_text; done].
  unfold short_quote in E. revert E. destruct (byte_val c) as [|p]; [done|].
  repeat (destruct p as [p|p|]; try (intros [= <-]; apply (escape_quoted _ ""); reflexivity); try done).
Qed.

Section Quoted.
Variable IsPrint : N -> bool.
(** The line breaks outside ASCII are not printable. *)
Hypothesis breaks_not_printed : forall v, v ∈ [133; 8232; 8233]%N -> IsPrint v = false.

Lemma printed_rune_plain c p t :
  (byte_val c <? 128)%N = false -> cont_bytes c (p +:+ t) = Some (String.length p) ->
  IsPrint (rune_value c (String.length p) (p +:+ t)) = true -> String c p ∉ line_breaks.
Proof.
  intros Hc Hn Hp Hin. apply list_elem_of_In in Hin. cbn in Hin.
  repeat (destruct Hin as [Hin|Hin]; [injection Hin as <- <-;
    first [discriminate Hc | rewrite breaks_not_printed in Hp; [done|]; apply list_elem_of_In; cbn; auto]|]). done.
Qed.

Lemma high_passes c p :
  (byte_val c <? 128)%N = false -> str_all (fun c => 128 <=? byte_val c)%N p = true -> passes (String c p).
Proof.
  intros Hc Hp. apply passes_all.
  assert (H : str_all (fun c => 128 <=? byte_val c)%N (String c p) = true).
  { cbn [str_all]. rewrite Hp, andb_true_r. apply N.leb_le. by apply N.ltb_ge. }
  revert H. apply str_all_impl. intros d Hd.
  destruct (Ascii.eqb_spec d dq) as [->|]; [done|]. by destruct (Ascii.eqb_spec d bslash) as [->|].
Qed.

Lemma quote_body_quoted skip s : unbroken (quote_body IsPrint skip s) /\ passes (quote_body IsPrint skip s).
Proof.
  assert (Happ : forall a b, unbroken a /\ passes a -> unbroken b /\ passes b -> unbroken (a +:+ b) /\ passes (a +:+ b)).
  { intros a b [? ?] [? ?]. split; [by apply unbroken_app|by apply passes_app]. }
  revert skip. induction s as [|c r IH]; intros [|k]; cbn [quote_body]; try apply IH; try (split; [apply unbroken_nil|done]).
  destruct (byte_val c <? 128)%N eqn:Hc; [apply Happ; [by apply quote_ascii_quoted|apply IH]|].
  destruct (cont_bytes c r) as [n|] eqn:Hn; [|apply Happ; [apply (escape_quoted "x"), hex_fixed_text; done|apply IH]].
  apply Happ; [|apply IH]. destruct (IsPrint _) eqn:Hp.
  - destruct (cont_bytes_high _ _ _ Hn) as (p & t & -> & <- & _ & Hhigh). rewrite substring_app.
    split; [|by apply high_passes]. apply (unbroken_rune (rune_value c (String.length p) (p +:+ t), String c p)).
    apply decoded_plain; [done..|]. by eapply printed_rune_plain.
  - destruct (_ <? 65536)%N; [apply (escape_quoted "u")|apply (escape_quoted "U")]; try done; apply hex_fixed_text.
Qed.

Lemma quote_is_quoted s : double_quoted (yamlQuote IsPrint s) = true /\ unbroken (yamlQuote IsPrint s).
Proof.
  destruct (quote_body_quoted 0 s) as [Hu Hp]. unfold yamlQuote. split.
  - cbn [String.append double_quoted str1]. rewrite Ascii.eqb_refl. by rewrite Hp.
  - apply (unbroken_app (str1 dq)); [by apply unbroken_ascii|]. apply unbroken_app; [done|by apply unbroken_ascii].
Qed.

End Quoted.

(** ** The document *)

(** A line of the document with other text in it: the same line, the comment, or
    a polarization, which is a quoted scalar; each a single line for YAML. *)
Inductive free_line : string -> string -> Prop :=
| line_kept l : free_line l l
| comment_line x x' : one_yaml_line ("# Payload type: " +:+ x') = true ->
    free_line ("# Payload type: " +:+ x) ("# Payload type: " +:+ x')
| quoted_line key x x' : key = "      dl: " \/ key = "      ul: " ->
    double_quoted x' = true -> one_yaml_line (key +:+ x') = true -> free_line (key +:+ x) (key +:+ x').

(** The same polarization fields are set. *)
Definition same_fields (p p' : option NTNPolarization) : Prop :=
  match p, p' with
  | None, None => True
  | Some p, Some p' => str_eqb (DL p) "" = str_eqb (DL p') "" /\ str_eqb (UL p) "" = str_eqb (UL p') ""
  | _, _ => False
  end.

Lemma same_lines l : Forall2 free_line l l.
Proof. induction l; constructor; [constructor|done]. Qed.

Lemma polarization_free IsPrint p p' :
  (forall v, v ∈ [133; 8232; 8233]%N -> IsPrint v = false) -> same_fields p p' ->
  Forall2 free_line (polarization_lines IsPrint (printed_polarization p))
    (polarization_lines IsPrint (printed_polarization p')).
Proof.
  intros Hprint.
  assert (Hq : forall k x y, k = "dl" \/ k = "ul" -> free_line (entry 6 k (yamlQuote IsPrint x)) (entry 6 k (yamlQuote IsPrint y))).
  { intros k x y Hk. destruct (quote_is_quoted IsPrint Hprint y) as [H1 H2].
    assert (E : forall v, entry 6 k v = ("      " +:+ k +:+ ": ") +:+ v) by (intros v; destruct Hk; by subst k).
    rewrite !E. apply quoted_line; [destruct Hk; subst k; auto|done|].
    apply unbroken_line, unbroken_app; [|done]. apply unbroken_ascii. by destruct Hk; subst k. }
  destruct p as [p|], p' as [p'|]; try done.
  intros [H1 H2]. unfold printed_polarization. rewrite H1, H2.
  destruct (str_eqb (DL p') "") eqn:E1, (str_eqb (UL p') "") eqn:E2; cbn [negb orb polarization_lines];
    rewrite ?H1, ?H2, ?E1, ?E2; repeat (constructor; auto).
Qed.

Lemma payload_line x x' :
  valid_utf8 x' = true ->
  free_line ("# Payload type: " +:+ printed_payload x +:+ " (3GPP Rel-19: transparent or regenerative)")
    ("# Payload type: " +:+ printed_payload x' +:+ " (3GPP Rel-19: transparent or regenerative)").
Proof.
  intros Hv. constructor. apply unbroken_line, (unbroken_app "# Payload type: "); [by apply unbroken_ascii|].
  apply unbroken_app; [|by apply unbroken_ascii]. apply sanitized_unbroken. by destruct (str_eqb x' "").
Qed.

(** C36. Free text stays on its line: whatever UTF-8 text a specification puts
    into the payload type, and whatever bytes into the polarizations that are set
    (line breaks, quotes, YAML syntax), the generated document has, line by line,
    the lines it has with any other text in the same fields, except for the
    comment and the polarizations; the comment is then a single line for YAML,
    without any of its five line breaks, and so is each polarization, whose value
    is one quoted scalar that ends where the line does.  So no text can add,
    remove or alter a configuration key.  The text of an object is UTF-8, since
    the API server decodes it from JSON, and the line breaks outside ASCII are not
    printable for package unicode. *)
Theorem strings_stay_on_their_line IsPrint spec payload pol text text' :
  (forall v, v ∈ [133; 8232; 8233]%N -> IsPrint v = false) ->
  same_fields (ntnPolarization (csNTN spec)) pol -> valid_utf8 payload = true ->
  GenerateConfig IsPrint spec = Ok text ->
  GenerateConfig IsPrint (with_strings spec payload pol) = Ok text' ->
  Forall2 free_line (split_byte newline text) (split_byte newline text').
Proof.
  intros Hprint Hp Hv H H'. apply generated in H as (e & -> & He), H' as (e' & -> & He').
  rewrite !split_config.
  assert (e' = e) as ->.
  { unfold applyEphemeris in He, He'. cbn [with_strings csNTN ntnECEF ntnOrbital] in He'.
    destruct (ntnECEF (csNTN spec)), (ntnOrbital (csNTN spec)); try done;
      apply (f_equal (fun r => match r with Ok d => dEphemeris d | Err _ => zero_ecef end)) in He, He';
      cbn in He, He'; congruence. }
  rewrite collect_with_strings, (collect_strings spec).
  unfold config_lines. apply Forall2_app; [|apply Forall2_app; [apply same_lines|]].
  - unfold head_lines. apply Forall2_app; [|apply same_lines].
    constructor; [constructor|]. constructor; [by apply payload_line|apply same_lines].
  - apply Forall2_app; [|apply same_lines]. unfold option_lines.
    do 7 (apply Forall2_app; [apply same_lines|]). apply Forall2_app; [|apply same_lines].
    by apply polarization_free.
Qed.

(** [unicode.IsPrint], as far as the line breaks go. *)
Definition demo_print (v : N) : bool := bool_decide (v ∉ [133; 8232; 8233]%N).

(** A payload type that tries to end its comment with NEL, and a polarization
    that tries to close its quote. *)
Definition demo_payload : string := string_of_bytes [194; 133; 13; 10]%N +:+ "cu_cp: {}".
Definition demo_pol : option NTNPolarization := Some (mkPolarization (String dq (String newline "sib:")) "").

Lemma strings_stay_on_their_line_witness :
  Forall2 free_line
    (split_byte newline (ok_text (GenerateConfig demo_print
       (demo_ntn "transparent" (Some (mkPolarization "rhcp" ""))))))
    (split_byte newline (ok_text (GenerateConfig demo_print (demo_ntn demo_payload demo_pol)))).
Proof.
  apply (strings_stay_on_their_line demo_print
    (demo_ntn "transparent" (Some (mkPolarization "rhcp" ""))) demo_payload demo_pol).
  - intros v Hv. apply bool_decide_eq_false. intros H. exact (H Hv).
  - split; reflexivity.
  - vm_compute. reflexivity.
  - vm_compute. reflexivity.
  - vm_compute. reflexivity.
Defined.

(** Without UTF-8, dropping U+0000 can join the bytes around it to a line break
    of YAML 1.1. *)
Example sanitize_can_join :
  let s := string_of_bytes [194; 0; 133]%N in
  valid_utf8 s = false /\ one_yaml_line (sanitizeComment s) = false.
Proof. vm_compute. split; reflexivity. Qed.
