(* ===== verification/EphemerisApi.v ===== *)
(** * The SatelliteEphemeris resource

    The API types of [src/api/v1alpha1/satelliteephemeris_types.go], in full (the
    view a slice has of them is in [SliceApi]), and the digest of the
    propagation inputs that producer and consumer compare
    ([propagationInputHash] of
    [src/internal/controller/satelliteephemeris_controller.go]). *)

From S2P Require Import Prelude GoStrings GoTime GoJson K8sMeta CellApi OcuduConfig.
From Stdlib Require Import Sorting.Sorted Sorting.Permutation.
Local Open Scope string_scope.
Local Arguments String.append !_ _ /.

(** ** Spec *)

Record SecretReference := mkSecretRef { srName : string; srKey : string }.

Record EphemerisSource := mkEphSource {
  esType : string;
  esURL : string;
  esRefreshInterval : Duration;
  esCredentials : option SecretReference
}.

Record SatelliteSelector := mkSelector { ssConstellation : string; NoradIDs : list Z }.

Record PassPredictionSpec := mkPassSpec {
  ppGroundStations : list string;
  ppMinElevation : string;
  ppHorizon : Duration
}.

Record SatelliteEphemerisSpec := mkEphSpec {
  Source : EphemerisSource;
  Satellites : option SatelliteSelector;
  PassPrediction : option PassPredictionSpec
}.

(** ** Status *)

Record PassWindow := mkPassWindow {
  pwSatellite : string;
  pwNoradID : Z;
  pwGroundStation : string;
  pwAOS : Time;
  pwLOS : Time;
  pwMaxElevation : string
}.

Record PropagatedState := mkPropagated {
  psSatellite : string;
  psNoradID : Z;
  psEpochUnixMs : Z;
  psSourceEpochUnixMs : Z;
  psECEF : EphemerisECEF
}.

Record SatelliteEphemerisStatus := mkEphStatus {
  PropagatedStatesInputHash : string;
  LastUpdated : option Time;
  LastPassPredictionTime : option Time;
  LastPassPredictionInputHash : string;
  SatelliteCount : Z;
  TruncatedSatelliteCount : Z;
  NextPassWindows : list PassWindow;
  PropagatedStates : list PropagatedState;
  esConditions : list Condition
}.

Definition ConditionGPDataFetched := "GPDataFetched".
Definition ConditionGPDataParsed := "GPDataParsed".
Definition ConditionPassesPredicted := "PassesPredicted".
Definition ConditionStatesTruncated := "StatesTruncated".
Definition ConditionUnsupportedOrbitRegime := "UnsupportedOrbitRegime".
Definition ConditionEphemerisEpochStale := "EphemerisEpochStale".
Definition ConditionSourceEpochRejected := "SourceEpochRejected".
Definition ConditionPropagationFailed := "PropagationFailed".
Definition ConditionRefreshIntervalClamped := "RefreshIntervalClamped".

Record SatelliteEphemeris := mkEph {
  ephMeta : ObjectMeta;
  ephSpec : SatelliteEphemerisSpec;
  ephStatus : SatelliteEphemerisStatus
}.

(** ** The digest of the propagation inputs *)

(** [sort.Ints]. *)
Fixpoint insert_int (z : Z) (l : list Z) : list Z :=
  match l with
  | [] => [z]
  | y :: l' => if (z <=? y)%Z then z :: l else y :: insert_int z l'
  end.

Definition sort_ints (l : list Z) : list Z := foldr insert_int [] l.

(** [slices.Compact]. *)
Fixpoint compact (l : list Z) : list Z :=
  match l with
  | [] => []
  | x :: l' => match l' with
               | y :: _ => if (x =? y)%Z then compact l' else x :: compact l'
               | [] => [x]
               end
  end.

(** The verb [%v] of a slice of integers. *)
Definition fmt_ints (l : list Z) : string := "[" +:+ Join (map fmt_d l) " " +:+ "]".

Section InputHash.

(** The digest, in hexadecimal; [unicode.IsPrint]. *)
Variable sha256hex : string -> string.
Variable IsPrint : N -> bool.

Definition selected_norads (spec : SatelliteEphemerisSpec) : list Z :=
  match Satellites spec with Some s => NoradIDs s | None => [] end.

Definition propagation_inputs (spec : SatelliteEphemerisSpec) : string :=
  "type=" +:+ yamlQuote IsPrint (esType (Source spec)) +:+ str1 newline +:+
  "url=" +:+ yamlQuote IsPrint (esURL (Source spec)) +:+ str1 newline +:+
  "norad=" +:+ fmt_ints (compact (sort_ints (selected_norads spec))) +:+ str1 newline.

Definition propagationInputHash (spec : SatelliteEphemerisSpec) : string :=
  sha256hex (propagation_inputs spec).

End InputHash.

(** ** Canonical selectors *)

Lemma insert_int_perm z l : Permutation (z :: l) (insert_int z l).
Proof.
  induction l as [|y l IH]; cbn [insert_int]; [done|]. destruct (z <=? y)%Z; [done|].
  etransitivity; [apply perm_swap|]. by constructor.
Qed.

Lemma sort_ints_perm l : Permutation l (sort_ints l).
Proof.
  induction l as [|z l IH]; [done|]. cbn. etransitivity; [|apply insert_int_perm]. by constructor.
Qed.

Lemma insert_int_sorted z l : Sorted Z.le l -> Sorted Z.le (insert_int z l).
Proof.
  induction 1 as [|y l Hl IH Hd]; cbn [insert_int]; [repeat constructor|].
  destruct (Z.leb_spec z y); [repeat constructor; auto; lia|].
  constructor; [done|]. destruct l as [|x l]; cbn [insert_int]; [constructor; lia|].
  destruct (z <=? x)%Z; constructor; [lia|]. by inversion Hd.
Qed.

Lemma sort_ints_sorted l : Sorted Z.le (sort_ints l).
Proof. induction l as [|z l IH]; [constructor|]. by apply insert_int_sorted. Qed.

Lemma compact_elem z l : z ∈ compact l <-> z ∈ l.
Proof.
  induction l as [|x l IH]; [done|]. cbn [compact]. destruct l as [|y l]; [done|].
  destruct (Z.eqb_spec x y) as [->|]; set_solver.
Qed.

Lemma compact_head x l : exists r, compact (x :: l) = x :: r.
Proof.
  revert x. induction l as [|y l IH]; intros x; [by exists []|].
  cbn [compact]. destruct (Z.eqb_spec x y) as [->|]; [apply IH|by eexists].
Qed.

Lemma compact_strict l : Sorted Z.le l -> StronglySorted Z.lt (compact l).
Proof.
  intros Hs. apply Sorted_StronglySorted; [intros ? ? ?; lia|].
  induction Hs as [|x l Hl IH Hd]; [constructor|]. cbn [compact]. destruct l as [|y l]; [repeat constructor|].
  inversion Hd; subst. destruct (Z.eqb_spec x y); [done|].
  constructor; [done|]. destruct (compact_head y l) as [r ->]. constructor. lia.
Qed.

Lemma strict_unique l l' :
  StronglySorted Z.lt l -> StronglySorted Z.lt l' -> (forall z, z ∈ l <-> z ∈ l') -> l = l'.
Proof.
  intros Hl. revert l'. induction Hl as [|x l Hl IH Hx]; intros l' Hl' Hi.
  - destruct l' as [|y l']; [done|]. exfalso. specialize (Hi y). set_solver.
  - destruct Hl' as [|y l' Hl' Hy]; [exfalso; specialize (Hi x); set_solver|].
    rewrite Forall_forall in Hx, Hy.
    assert (x = y) as ->.
    { pose proof (proj1 (Hi x) ltac:(set_solver)) as [|]%elem_of_cons; [done|].
      pose proof (proj2 (Hi y) ltac:(set_solver)) as [|]%elem_of_cons; [done|].
      specialize (Hx y ltac:(done)). specialize (Hy x ltac:(done)). lia. }
    f_equal. apply IH; [done|]. intros z. specialize (Hi z). split; intros Hz.
    + pose proof (Hx z Hz). pose proof (proj1 Hi ltac:(set_solver)) as [->|]%elem_of_cons; [lia|done].
    + pose proof (Hy z Hz). pose proof (proj2 Hi ltac:(set_solver)) as [->|]%elem_of_cons; [lia|done].
Qed.

(** Two selectors have one canonical form exactly when they select the same
    satellites. *)
Lemma canonical_iff l l' :
  compact (sort_ints l) = compact (sort_ints l') <-> (forall z, z ∈ l <-> z ∈ l').
Proof.
  assert (He : forall k z, z ∈ compact (sort_ints k) <-> z ∈ k).
  { intros k z. rewrite compact_elem. symmetry. by rewrite <- (sort_ints_perm k). }
  split.
  - intros E z. by rewrite <- (He l), <- (He l'), E.
  - intros H. apply strict_unique; [apply compact_strict, sort_ints_sorted..|].
    intros z. by rewrite !He.
Qed.
