(* ===== verification/Admission.v ===== *)
(** * Admission of ground stations, ephemerides and cells

    The validation markers of [groundstationlifecycle_types.go],
    [satelliteephemeris_types.go] and [ntncellconfig_types.go] (under
    [src/api/v1alpha1]) as executable rules, and what the controllers can rely on
    once a resource has passed them.

    The functions of the rule language CEL that the rules call are parameters:
    [double] of a string and [isIP]. *)

From S2P Require Import Prelude GoStrings GoNet GoUnicode GoRegexp GoTime GoFloat GoDecimal Schema K8sMeta Maintenance StationApi PassPredictor CellApi OcuduConfig EphemerisApi.
From Stdlib Require Import Ascii.
Local Open Scope string_scope.
Local Arguments String.append !_ _ /.

Section Rules.
Variable cel_double : string -> option float64.
Variable cel_isIP : string -> bool.

(** A rule on [double(self)] fails when the conversion does. *)
Definition double_rule (rule : float64 -> bool) (s : string) : bool :=
  match cel_double s with Some v => rule v | None => false end.

(** ** Ground stations *)

Definition admit_HardwareSpec (h : HardwareSpec) : bool :=
  MinLength 1 (Vendor h) && MaxLength 253 (Vendor h) && MinLength 1 (Model h) && MaxLength 253 (Model h) &&
  MaxLength 64 (AntennaType h) && MaxItems 16 (Bands h) && forallb (MaxLength 16) (Bands h).

Definition admit_GeoLocation (g : GeoLocation) : bool :=
  double_rule (fun v => f_ge v (f_of_Z (-90)) && f_le v (f_of_Z 90)) (Lat g) &&
  double_rule (fun v => f_ge v (f_of_Z (-180)) && f_le v (f_of_Z 180)) (Lon g) &&
  matchString signed_decimal_re (Lat g) && MaxLength 32 (Lat g) &&
  matchString signed_decimal_re (Lon g) && MaxLength 32 (Lon g) && MaxLength 32 (Alt g).

Definition admit_DeploymentSpec (d : DeploymentSpec) : bool :=
  admit_GeoLocation (Location d) && Enum ["k3s"; "microk8s"; "rke2"] (K8sDistro d) &&
  MaxLength 2048 (GitopsRepo d).

Definition admit_MonitoringSpec (m : MonitoringSpec) : bool := MaxLength 261 (MonitoringEndpoint m).

(** [^([01][0-9]|2[0-3]):[0-5][0-9]-([01][0-9]|2[0-3]):[0-5][0-9]\s+UTC$]. *)
Definition hour_re : regex :=
  RAlt (RCat (RRange "0" "1") RDigit) (RCat (RChar "2") (RRange "0" "3")).
Definition hhmm_re : regex := RCat hour_re (RCat (RChar ":") (RCat (RRange "0" "5") RDigit)).
Definition window_re : regex :=
  RCat hhmm_re (RCat (RChar "-") (RCat hhmm_re (RCat (RPlus (RClass is_re_space)) (RText "UTC")))).

Definition admit_FirmwareSpec (f : FirmwareSpec) : bool :=
  MaxLength 64 (Channel f) && present_str (matchString window_re) (MaintenanceWindow f).

Definition admit_GSSpec (s : GSSpec) : bool :=
  admit_HardwareSpec (Hardware s) && admit_DeploymentSpec (Deployment s) &&
  present admit_MonitoringSpec (Monitoring s) && present admit_FirmwareSpec (Firmware s).

(** ** Ephemerides *)

Definition admit_SecretReference (r : SecretReference) : bool :=
  MaxLength 253 (srName r) && MaxLength 253 (srKey r).

Definition admit_EphemerisSource (s : EphemerisSource) : bool :=
  (negb (str_eqb (esType s) "SpaceTrack") || is_some (esCredentials s)) &&
  Enum ["CelesTrak"; "SpaceTrack"] (esType s) &&
  MinLength 1 (esURL s) && matchString http_re (esURL s) && MaxLength 2048 (esURL s) &&
  present admit_SecretReference (esCredentials s).

Definition admit_SatelliteSelector (s : SatelliteSelector) : bool := MaxItems 512 (NoradIDs s).

(** The elevation mask is defaulted to [10], so it is never empty. *)
Definition admit_PassPredictionSpec (p : PassPredictionSpec) : bool :=
  MinItems 1 (ppGroundStations p) && MaxItems 64 (ppGroundStations p) &&
  forallb (MaxLength 253) (ppGroundStations p) &&
  matchString decimal_re (ppMinElevation p) && MaxLength 32 (ppMinElevation p) &&
  double_rule (fun v => f_le v (f_of_Z 90)) (ppMinElevation p).

Definition admit_SatelliteEphemerisSpec (s : SatelliteEphemerisSpec) : bool :=
  admit_EphemerisSource (Source s) && present admit_SatelliteSelector (Satellites s) &&
  present admit_PassPredictionSpec (PassPrediction s).

Definition admit_EphemerisECEF (e : EphemerisECEF) : bool :=
  InRange (-33554432) 33554430 (PosX e) && InRange (-33554432) 33554430 (PosY e) &&
  InRange (-33554432) 33554430 (PosZ e) && InRange (-131072) 131071 (VelX e) &&
  InRange (-131072) 131071 (VelY e) && InRange (-131072) 131071 (VelZ e).

(** The rules of the status subresource. *)
Definition admit_PassWindow (w : PassWindow) : bool :=
  MaxLength 64 (pwSatellite w) && matchString signed_decimal_re (pwMaxElevation w).

Definition admit_PropagatedState (p : PropagatedState) : bool :=
  MaxLength 64 (psSatellite p) && admit_EphemerisECEF (psECEF p).

(** The rules on a condition, of [metav1.Condition]; its status is one of the
    three by its type.  A reason is a letter, and then letters, digits,
    underscores, commas and colons of which the last is neither comma nor colon.
    A type may have a prefix of dotted lower-case labels before a slash; the rest
    is letters, digits, dashes, underscores and dots, with a letter or digit at
    both ends. *)
Definition is_alpha (c : ascii) : bool := bool_decide (97 <= byte_val (lower_byte c) <= 122)%N.
Definition is_word (c : ascii) : bool := is_alpha c || is_digit c || Ascii.eqb c "_".
Definition reason_re : regex :=
  RCat (RClass is_alpha)
    (ROpt (RCat (RStar (RClass (fun c => is_word c || Ascii.eqb c "," || Ascii.eqb c ":"))) (RClass is_word))).

Definition is_lower_num (c : ascii) : bool := bool_decide (97 <= byte_val c <= 122)%N || is_digit c.
Definition prefix_label_re : regex :=
  RCat (RClass is_lower_num)
    (ROpt (RCat (RStar (RClass (fun c => Ascii.eqb c "-" || is_lower_num c))) (RClass is_lower_num))).
Definition condition_type_re : regex :=
  let alnum c := is_alpha c || is_digit c in
  RCat (ROpt (RCat prefix_label_re (RCat (RStar (RCat (RChar ".") prefix_label_re)) (RChar "/"))))
    (RCat (ROpt (RCat (RClass alnum) (RStar (RClass (fun c => Ascii.eqb c "-" || is_word c || Ascii.eqb c ".")))))
       (RClass alnum)).

Definition admit_message (c : Condition) : bool := MaxLength (Z.to_nat 32768) (cMessage c).
Definition admit_condition_key (ty reason : string) : bool :=
  MaxLength 316 ty && matchString condition_type_re ty &&
  MinLength 1 reason && MaxLength 1024 reason && matchString reason_re reason.
Definition admit_Condition (c : Condition) : bool :=
  admit_message c && (0 <=? cObservedGeneration c)%Z && admit_condition_key (cType c) (cReason c).

(** Conditions are a map by their type. *)
Definition admit_conditions (l : list Condition) : bool :=
  forallb admit_Condition l && bool_decide (NoDup (map cType l)).

Definition admit_SatelliteEphemerisStatus (s : SatelliteEphemerisStatus) : bool :=
  forallb admit_PassWindow (NextPassWindows s) &&
  MaxItems 128 (PropagatedStates s) && forallb admit_PropagatedState (PropagatedStates s) &&
  admit_conditions (esConditions s).

(** ** Cells *)

Definition admit_CellID (c : CellID) : bool :=
  matchString (RBetween 5 6 RDigit) (PLMN c) && InRange 0 68719476735 (NCI c).

(** The endpoint pattern: a bracketed run of hexadecimal digits and colons, or
    labels separated by dots, and then a colon and one to five digits.  A label
    is [[a-zA-Z0-9]([-a-zA-Z0-9]*[a-zA-Z0-9])?]. *)
Definition is_alnum (c : ascii) : bool :=
  is_digit c || bool_decide (97 <= byte_val (lower_byte c) <= 122)%N.
Definition is_hex_colon (c : ascii) : bool :=
  is_digit c || Ascii.eqb c ":" || bool_decide (97 <= byte_val (lower_byte c) <= 102)%N.
Definition is_label_char (c : ascii) : bool := Ascii.eqb c "-" || is_alnum c.

Definition label_re : regex :=
  RCat (RClass is_alnum) (ROpt (RCat (RStar (RClass is_label_char)) (RClass is_alnum))).
Definition dns_re : regex := RCat label_re (RStar (RCat (RChar ".") label_re)).
Definition bracketed_re : regex := RCat (RChar "[") (RCat (RPlus (RClass is_hex_colon)) (RChar "]")).
Definition endpoint_re : regex :=
  RCat (RAlt bracketed_re dns_re) (RCat (RChar ":") (RBetween 1 5 RDigit)).

(** [self.substring(0, self.lastIndexOf(c))] and [self.substring(self.lastIndexOf(c) + 1)]. *)
Definition at_last (c : ascii) (s : string) : option (string * string) :=
  match cut (str1 c) (rev_string s) with
  | Some (after, before) => Some (rev_string before, rev_string after)
  | None => None
  end.

Definition starts_bracket (s : string) : bool :=
  match s with String c _ => Ascii.eqb c "[" | "" => false end.

(** The rules on the port, on a bracketed host, on a numeric host and on a DNS
    name, in the order of the source. *)
Definition port_rule (s : string) : bool :=
  match at_last ":" s with
  | Some (_, port) => let n := Z.of_N (dec_val port 0) in (1 <=? n)%Z && (n <=? 65535)%Z
  | None => false
  end.
Definition bracket_rule (s : string) : bool :=
  negb (starts_bracket s) ||
  match at_last "]" s with Some (String _ host, _) => cel_isIP host | _ => false end.
Definition numeric_rule (s : string) : bool :=
  match at_last ":" s with
  | Some (host, _) =>
      negb (matchString (RPlus (RClass (fun c => is_digit c || Ascii.eqb c "."))) host) || cel_isIP host
  | None => false
  end.
Definition dns_rule (s : string) : bool :=
  starts_bracket s ||
  match at_last ":" s with
  | Some (host, _) =>
      MaxLength 253 host && forallb (fun l => MinLength 1 l && MaxLength 63 l) (split_byte "." host)
  | None => false
  end.

Definition admit_RemoteControlTLS (t : RemoteControlTLS) : bool :=
  Enum ["tls"; "mtls"] (tlsMode t) && MinLength 1 (SecretName t) && MaxLength 253 (SecretName t) &&
  MaxLength 253 (ServerName t).

Definition admit_RemoteControlRef (r : RemoteControlRef) : bool :=
  let e := rcEndpoint r in
  MinLength 1 e && MaxLength 261 e && matchString endpoint_re e &&
  port_rule e && bracket_rule e && numeric_rule e && dns_rule e && present admit_RemoteControlTLS (rcTLS r).

Definition admit_ProviderRef (p : ProviderRef) : bool :=
  Enum ["ocudu"] (prType p) && MaxLength 63 (prNamespace p) &&
  present admit_RemoteControlRef (prRemoteControl p) && MaxLength 261 (prEndpoint p) &&
  present (Enum ["reanchored"; "pinned"]) (SIB19EpochMode p).

Definition admit_EphemerisOrbital (o : EphemerisOrbital) : bool :=
  InRange 6500000 42998632 (SemiMajorAxis o) && InRange 0 15005 (Eccentricity o) &&
  InRange 0 900000 (Inclination o) && InRange 0 3600000 (RightAscension o) &&
  InRange 0 3600000 (ArgOfPeriapsis o) && InRange 0 3600000 (MeanAnomaly o).

(** The three rules on a pair of optional ephemerides, with those of the parts. *)
Definition admit_ephemeris_choice (ecef : option EphemerisECEF) (orbital : option EphemerisOrbital) : bool :=
  (is_some ecef || is_some orbital) && negb (is_some ecef && is_some orbital) &&
  present (fun e => negb (PosX e =? 0)%Z || negb (PosY e =? 0)%Z || negb (PosZ e =? 0)%Z) ecef &&
  present admit_EphemerisECEF ecef && present admit_EphemerisOrbital orbital.

Definition admit_TAInfo (t : TAInfo) : bool :=
  InRange 0 66485756 (taTACommon t) && InRange (-257303) 257303 (TACommonDrift t) &&
  InRange 0 28949 (TACommonDriftVariant t) && InRange 0 2455795 (TACommonOffset t).

Definition admit_EpochTime (e : EpochTime) : bool := InRange 0 1023 (SFN e) && InRange 0 9 (SubframeNumber e).
Definition admit_FeederLinkInfo (f : FeederLinkInfo) : bool := (1 <=? DLFreqHz f)%Z && (1 <=? ULFreqHz f)%Z.
Definition admit_lat_lon (lat lon : Z) : bool := InRange (-900000) 900000 lat && InRange (-1800000) 1800000 lon.
Definition admit_NTNGatewayLocation (g : NTNGatewayLocation) : bool := admit_lat_lon (gwLatitude g) (gwLongitude g).
Definition admit_MovingRefLocation (m : MovingRefLocation) : bool := admit_lat_lon (mrLatitude m) (mrLongitude m).
Definition admit_ReferenceLocation (r : ReferenceLocation) : bool := admit_lat_lon (rlLatitude r) (rlLongitude r).

Definition admit_NTNPolarization (p : NTNPolarization) : bool :=
  (negb (str_eqb (DL p) "") || negb (str_eqb (UL p) "")) &&
  present_str (Enum ["rhcp"; "lhcp"; "linear"]) (DL p) && present_str (Enum ["rhcp"; "lhcp"; "linear"]) (UL p).

Definition validity_durations : list Z := [5; 10; 15; 20; 25; 30; 35; 40; 45; 50; 55; 60; 120; 180; 240; 900]%Z.

Definition admit_SatSwitchNTNConfig (c : SatSwitchNTNConfig) : bool :=
  admit_ephemeris_choice (swECEF c) (swOrbital c) && present (InRange 1 512) (KMac c) &&
  present_int (InRange 1 1023) (swKoffset c) && present (Enum validity_durations) (swUlSyncValidityDur c) &&
  present admit_TAInfo (swTAInfo c).

Definition admit_SatSwitchWithResync (s : SatSwitchWithResync) : bool :=
  admit_SatSwitchNTNConfig (NTNConfig s) && InRange 0 159 (SSBTimeOffsetSubframes s) &&
  present admit_NTNGatewayLocation (swGatewayLocation s).

Definition admit_NTNNeighborCell (n : NTNNeighborCell) : bool :=
  InRange 0 1007 (PhysicalCellID n) && present_int (fun f => 1 <=? f)%Z (Frequency n).

Definition admit_NTNParams (n : NTNParams) : bool :=
  admit_ephemeris_choice (ntnECEF n) (ntnOrbital n) &&
  InRange 1 1023 (CellSpecificKoffset n) && InRange 0 66485756 (TACommon n) &&
  present admit_TAInfo (ntnTAInfo n) && present admit_EpochTime (ntnEpochTime n) &&
  present admit_FeederLinkInfo (ntnFeederLink n) && present admit_NTNGatewayLocation (ntnGateway n) &&
  present admit_MovingRefLocation (ntnMovingRef n) && present admit_SatSwitchWithResync (ntnSatSwitch n) &&
  present admit_NTNPolarization (ntnPolarization n) &&
  present (Enum validity_durations) (NTNUlSyncValidityDur n) &&
  Enum ["transparent"; "regenerative"] (PayloadType n) && forallb admit_NTNNeighborCell (NeighborCells n) &&
  present admit_ReferenceLocation (ntnReference n) && present (fun d => 0 <=? d)%Z (DistanceThreshold n) &&
  present (fun t => 1 <=? t)%Z (TService n).

Definition admit_SIBSchedule (s : SIBSchedule) : bool :=
  present_int (Enum [5; 10; 20; 40; 80; 160; 320; 640; 1280]%Z) (SIWindowLength s) &&
  present_int (Enum [8; 16; 32; 64; 128; 256; 512]%Z) (SIPeriod s) && present (InRange 2 79) (SIWindowPosition s).

Definition admit_CellOverrides (c : CellOverrides) : bool := present admit_SIBSchedule (coSIBSchedule c).

Definition admit_NTNCellConfigSpec (s : NTNCellConfigSpec) : bool :=
  (negb (is_some (prRemoteControl (csProvider s))) || is_some (csCellID s)) &&
  admit_ProviderRef (csProvider s) && admit_NTNParams (csNTN s) &&
  present admit_CellOverrides (csCellOverrides s) &&
  present_str (fun r => MinLength 1 r && MaxLength 253 r) (csEphemerisRef s) &&
  present admit_CellID (csCellID s).

End Rules.

(** ** Maintenance windows *)

Lemma matches_range a b s :
  matches (RRange a b) s -> exists c, s = str1 c /\ (byte_val a <= byte_val c <= byte_val b)%N.
Proof.
  intros (c & -> & [?%N.leb_le ?%N.leb_le]%andb_true_iff)%matches_class. by exists c.
Qed.

Lemma digit_of_range c lo hi : (48 <= lo)%N -> (hi <= 57)%N -> (lo <= byte_val c <= hi)%N -> is_digit c = true.
Proof. intros ? ? ?. unfold is_digit. apply andb_true_iff. split; apply N.leb_le; lia. Qed.

(** A time of the pattern is five characters the parser reads, before midnight. *)
Lemma hhmm_reads s :
  matches hhmm_re s ->
  (forall rest, take_hhmm (s +:+ rest) = Some (s, rest)) /\
  exists m, parseHHMM s = Some m /\ (0 <= m < 1440)%Z.
Proof.
  intros (h & r & -> & Hh & (x & r' & -> & Hx%matches_char & (t & u & -> & Ht & Hu)%matches_cat)%matches_cat)%matches_cat.
  subst x. apply matches_range in Ht as (t' & -> & Ht). apply matches_class in Hu as (u' & -> & Hu).
  assert (exists a b, h = String a (str1 b) /\ is_digit a = true /\ is_digit b = true /\
    (digit_val a * 10 + digit_val b < 24)%Z) as (a & b & -> & Ha & Hb & Hlt).
  { apply matches_alt in Hh as [(x & y & -> & Hx & Hy)%matches_cat|(x & y & -> & Hx%matches_char & Hy)%matches_cat].
    - apply matches_range in Hx as (a & -> & Ha). apply matches_class in Hy as (b & -> & Hb).
      exists a, b. cbn in Ha. split_and!; [done|by eapply digit_of_range, Ha|done|].
      destruct (digit_not_special b Hb) as (_ & _ & _ & _ & _ & ?). unfold digit_val at 1. lia.
    - subst x. apply matches_range in Hy as (b & -> & Hb). exists "2"%char, b. cbn in Hb.
      split_and!; [done|done|by eapply digit_of_range, Hb|]. unfold digit_val. cbn. lia. }
  cbn in Ht. assert (Hdt : is_digit t' = true) by by eapply digit_of_range, Ht.
  destruct (digit_not_special a Ha) as (_ & _ & _ & _ & _ & ?).
  destruct (digit_not_special b Hb) as (_ & _ & _ & _ & _ & ?).
  destruct (digit_not_special u' Hu) as (_ & _ & _ & _ & _ & ?).
  assert (0 <= digit_val t' <= 5)%Z by (unfold digit_val; lia).
  split.
  - intros rest. cbn. by rewrite Ha, Hb, Hdt, Hu.
  - cbn. assert ((digit_val a * 10 + digit_val b <? 24)%Z = true) as -> by by apply Z.ltb_lt.
    assert ((digit_val t' * 10 + digit_val u' <? 60)%Z = true) as -> by (apply Z.ltb_lt; lia).
    eexists. split; [done|]. lia.
Qed.

Lemma spaces_utc_reads b : str_all is_re_space b = true -> b <> "" -> spaces_then_utc false (b +:+ "UTC") = true.
Proof.
  intros Hb Hn. assert (forall seen, str_all is_re_space b = true -> (seen = true \/ b <> "") ->
    spaces_then_utc seen (b +:+ "UTC") = true) as H; [|by apply H; auto].
  clear Hb Hn. induction b as [|c b IH]; intros seen Hb Hs.
  - destruct Hs as [->|[]]; done.
  - cbn in Hb. apply andb_true_iff in Hb as [Hc Hb]. cbn. rewrite Hc. by apply IH; auto.
Qed.

(** What the schema accepts, the firmware state machine reads; the one window it
    still refuses is the empty one, whose ends are equal. *)
Lemma admitted_window w :
  matchString window_re w = true ->
  exists from until a b, match_window w = Some (from, until) /\
    parseHHMM from = Some a /\ parseHHMM until = Some b /\ (0 <= a < 1440)%Z /\ (0 <= b < 1440)%Z.
Proof.
  intros H%matchString_spec.
  apply matches_cat in H as (from & r & -> & [Hf (a & Ha & La)]%hhmm_reads & H).
  apply matches_cat in H as (d & r' & -> & Hd%matches_char & H). subst d.
  apply matches_cat in H as (until & r & -> & [Hu (b & Hb & Lb)]%hhmm_reads & H).
  apply matches_cat in H as (sp & t & -> & [Hs Hn]%matches_plus_class & Ht%matches_text). subst t.
  exists from, until, a, b. unfold match_window. rewrite Hf. cbn. rewrite Hu, spaces_utc_reads by done. done.
Qed.

(** ** What the controllers can rely on *)

Section AdmittedObjects.
Variable cel_double : string -> option float64.
Variable cel_isIP : string -> bool.

(** [double(string)] reads a number as [strconv.ParseFloat] does. *)
Hypothesis double_reads : forall s v, cel_double s = Some v -> ParseFloat s = Ok v.

Lemma double_rule_reads rule s f :
  double_rule cel_double rule s = true -> ParseFloat s = Ok f -> rule f = true.
Proof.
  unfold double_rule. destruct (cel_double s) as [v|] eqn:E; [|done].
  apply double_reads in E. intros H. rewrite E. by intros [= <-].
Qed.

Lemma admitted_coordinate lo hi s :
  double_rule cel_double (fun v => f_ge v lo && f_le v hi) s = true ->
  matchString signed_decimal_re s = true -> MaxLength 32 s = true ->
  exists f, ParseGeoCoord s = Ok f /\ is_finite f = true /\ f_ge f lo = true /\ f_le f hi = true.
Proof.
  intros Hr Hm Hl. destruct (signed_decimal_parses s 32 Hm Hl) as (f & Hp & Hf); [lia|].
  pose proof (double_rule_reads _ _ _ Hr Hp) as [? ?]%andb_true_iff. by exists f.
Qed.

Lemma admitted_mask p :
  admit_PassPredictionSpec cel_double p = true -> exists v, ParseElevation (ppMinElevation p) = Ok v.
Proof.
  unfold admit_PassPredictionSpec. rewrite !andb_true_iff. intros (((_ & Hm) & Hl) & Hr).
  destruct (decimal_parses _ 32 Hm Hl) as (f & Hp & Hf & Hn); [lia|].
  pose proof (double_rule_reads _ _ _ Hr Hp) as Hle. unfold ParseElevation. rewrite Hp.
  destruct (str_eqb (ppMinElevation p) ""); [by eexists|].
  unfold is_finite in Hf. apply andb_true_iff in Hf as [->%negb_true_iff ->%negb_true_iff]. rewrite Hn.
  destruct (f_gt f (f_of_Z 90)) eqn:E; [|by exists f].
  cbn beta in Hle. by rewrite (f_gt_not_le _ _ E) in Hle.
Qed.

(** What passes the schema of ground stations and of pass prediction is read
    at run time: latitude and longitude are finite numbers within the globe, the
    elevation mask is accepted by the sweep, and a maintenance window is either
    understood by the firmware state machine or is the empty one, with equal
    ends, which admission cannot tell. *)
Theorem admitted_inputs_are_read s p now :
  admit_GSSpec cel_double s = true -> admit_PassPredictionSpec cel_double p = true ->
  (exists lat lon, ParseGeoCoord (Lat (Location (Deployment s))) = Ok lat /\
     ParseGeoCoord (Lon (Location (Deployment s))) = Ok lon /\
     is_finite lat = true /\ is_finite lon = true /\
     f_ge lat (f_of_Z (-90)) = true /\ f_le lat (f_of_Z 90) = true /\
     f_ge lon (f_of_Z (-180)) = true /\ f_le lon (f_of_Z 180) = true) /\
  (exists v, ParseElevation (ppMinElevation p) = Ok v /\ bad_mask v = false) /\
  (forall f, Firmware s = Some f ->
     (exists b, IsWithinMaintenanceWindow (MaintenanceWindow f) now = Ok b) \/
     (exists t, IsWithinMaintenanceWindow (MaintenanceWindow f) now = Err (EmptyWindow t))).
Proof.
  intros Hs Hp. unfold admit_GSSpec in Hs. rewrite !andb_true_iff in Hs.
  destruct Hs as (((_ & Hd) & _) & Hf). unfold admit_DeploymentSpec in Hd. rewrite !andb_true_iff in Hd.
  destruct Hd as ((Hg & _) & _). unfold admit_GeoLocation in Hg. rewrite !andb_true_iff in Hg.
  destruct Hg as ((((((Hla & Hlo) & Pla) & Lla) & Plo) & Llo) & _).
  destruct (admitted_coordinate _ _ _ Hla Pla Lla) as (lat & ? & ? & ? & ?).
  destruct (admitted_coordinate _ _ _ Hlo Plo Llo) as (lon & ? & ? & ? & ?).
  destruct (admitted_mask p Hp) as [v Hv]. split; [by exists lat, lon|]. split.
  { exists v. split; [done|]. by apply ParseElevation_in_range in Hv as (_ & _ & _ & ?). }
  intros f Ef. rewrite Ef in Hf. cbn in Hf. apply andb_true_iff in Hf as [_ Hw].
  unfold IsWithinMaintenanceWindow. unfold present_str in Hw.
  destruct (str_eqb (MaintenanceWindow f) ""); [by left; eexists|]. cbn in Hw.
  destruct (admitted_window _ Hw) as (from & until & a & b & -> & -> & -> & _ & _).
  destruct (a =? b)%Z; [by right; eexists|]. left. destruct (a <? b)%Z; by eexists.
Qed.

(** ** Endpoints of a gNB *)

(** The characters of an admitted endpoint. *)
Definition is_endpoint_char (c : ascii) : bool :=
  is_alnum c || bool_decide (c ∈ ["-"; "."; ":"; "["; "]"]%char).

Lemma all_impl P Q s : (forall c, P c = true -> Q c = true) -> str_all P s = true -> str_all Q s = true.
Proof. intros H. by apply str_all_impl. Qed.

Lemma is_digit_endpoint c : is_digit c = true -> is_endpoint_char c = true.
Proof. intros H. unfold is_endpoint_char, is_alnum. by rewrite H. Qed.

(** The characters of a DNS name. *)
Definition host_char (c : ascii) : bool := is_alnum c || bool_decide (c ∈ ["-"; "."]%char).

Lemma is_alnum_endpoint c : is_alnum c = true -> host_char c = true.
Proof. by destruct c as [[] [] [] [] [] [] [] []]. Qed.

Lemma is_label_endpoint c : is_label_char c = true -> host_char c = true.
Proof. by destruct c as [[] [] [] [] [] [] [] []]. Qed.

Lemma is_hex_endpoint c : is_hex_colon c = true -> is_endpoint_char c && negb (Ascii.eqb c "]") = true.
Proof. by destruct c as [[] [] [] [] [] [] [] []]. Qed.

Lemma label_chars s : matches label_re s -> str_all host_char s = true.
Proof.
  intros (x & r & -> & (c & -> & Hc%is_alnum_endpoint)%matches_class & Hr)%matches_cat.
  rewrite str_all_app. cbn [str_all str1]. rewrite Hc. cbn [andb].
  apply matches_opt in Hr as [->|(y & z & -> & Hy%matches_star_class & (d & -> & Hd%is_alnum_endpoint)%matches_class)%matches_cat];
    [done|]. rewrite str_all_app, (all_impl _ host_char y is_label_endpoint Hy). cbn [str_all str1]. by rewrite Hd.
Qed.

Lemma star_chars P r s :
  (forall t, matches r t -> str_all P t = true) -> matches (RStar r) s -> str_all P s = true.
Proof.
  intros H Hs. remember (RStar r) as q eqn:E. induction Hs; try discriminate; [done|].
  injection E as ->. rewrite str_all_app, H by done. by apply IHHs2.
Qed.

Lemma dns_chars s : matches dns_re s -> str_all host_char s = true.
Proof.
  intros (x & r & -> & Hx%label_chars & Hr)%matches_cat. rewrite str_all_app, Hx.
  apply (star_chars host_char) in Hr; [done|].
  intros t (d & y & -> & Hd%matches_char & Hy%label_chars)%matches_cat. subst d. by rewrite str_all_app, Hy.
Qed.

Lemma host_char_endpoint c : host_char c = true -> is_endpoint_char c = true.
Proof. by destruct c as [[] [] [] [] [] [] [] []]. Qed.

(** A host is a DNS name without a colon, or a bracketed address. *)
Lemma host_shape s :
  matches (RAlt bracketed_re dns_re) s ->
  str_all is_endpoint_char s = true /\
  (str_all host_char s = true /\ matches dns_re s \/
   exists h, s = "[" +:+ h +:+ "]" /\ str_all is_hex_colon h = true /\ h <> "").
Proof.
  intros [(a & r & -> & Ha%matches_char & (h & b & -> & [Hh Hn]%matches_plus_class & Hb%matches_char)%matches_cat)%matches_cat
         |Hm]%matches_alt.
  - subst a b. split; [|right; by exists h]. rewrite !str_all_app. cbn.
    rewrite (all_impl is_hex_colon is_endpoint_char h); [done| |done].
    intros c Hc%is_hex_endpoint. by apply andb_true_iff in Hc as [? _].
  - pose proof (dns_chars _ Hm) as Hd. split; [|by left]. revert Hd. apply all_impl, host_char_endpoint.
Qed.

Lemma rev_all P s : str_all P s = true -> str_all P (rev_string s) = true.
Proof.
  induction s as [|c s IH]; [done|]. cbn [str_all]. intros [Hc Hs]%andb_true_iff.
  rewrite rev_string_cons, str_all_app, IH by done. cbn. by rewrite Hc.
Qed.

Lemma cut_here c s : cut (String c "") (String c s) = Some ("", s).
Proof. cbn. by rewrite Ascii.eqb_refl. Qed.

(** The last colon of [host:port] is the one in front of the port. *)
Lemma at_last_colon host port :
  str_all is_digit port = true -> at_last ":" (host +:+ ":" +:+ port) = Some (host, port).
Proof.
  intros Hp. unfold at_last. rewrite !rev_string_append, <- app_str_assoc.
  assert (str_all (fun a => negb (Ascii.eqb a ":")) (rev_string port) = true) as Hr.
  { apply rev_all. revert Hp. apply all_impl. by intros [[] [] [] [] [] [] [] []]. }
  change (str1 ":"%char) with (String ":"%char ""). rewrite (cut_skip ":"%char "") by done.
  change (rev_string ":" +:+ rev_string host) with (String ":" (rev_string host)). rewrite cut_here.
  by rewrite app_str_nil_r, !rev_string_involutive.
Qed.

(** The last closing bracket of a bracketed endpoint. *)
Lemma at_last_bracket h port :
  str_all is_digit port = true ->
  at_last "]" (("[" +:+ h +:+ "]") +:+ ":" +:+ port) = Some ("[" +:+ h, ":" +:+ port).
Proof.
  intros Hd. unfold at_last.
  rewrite (rev_string_append _ (":" +:+ port)), (app_str_assoc "[" h "]"), (rev_string_append _ "]"). change (str1 "]"%char) with (String "]"%char "").
  rewrite (cut_skip "]"%char "").
  - change (rev_string "]" +:+ rev_string ("[" +:+ h)) with (String "]" (rev_string ("[" +:+ h))).
    by rewrite cut_here, app_str_nil_r, !rev_string_involutive.
  - apply rev_all. change (":" +:+ port) with (String ":" port). cbn [str_all]. apply andb_true_iff. split; [done|].
    revert Hd. apply all_impl. by intros [[] [] [] [] [] [] [] []].
Qed.

(** A label of a DNS name: letters, digits and hyphens, at most 63 of them,
    with a letter or digit at both ends. *)
Definition dns_label (l : string) : Prop :=
  MaxLength 63 l = true /\
  ((exists c, l = str1 c /\ is_alnum c = true) \/
   exists c mid d, l = str1 c +:+ mid +:+ str1 d /\ is_alnum c = true /\ str_all is_label_char mid = true /\ is_alnum d = true).

(** A DNS name of at most 253 characters; if it is made of digits and dots only,
    it is an IP address. *)
Definition dns_name (name : string) : Prop :=
  MaxLength 253 name = true /\ Forall dns_label (split_byte "." name) /\
  (str_all (fun c => is_digit c || Ascii.eqb c ".") name = true -> cel_isIP name = true).

Lemma label_form l : matches label_re l ->
  without "." l = true /\
  ((exists c, l = str1 c /\ is_alnum c = true) \/
   exists c mid d, l = str1 c +:+ mid +:+ str1 d /\ is_alnum c = true /\ str_all is_label_char mid = true /\ is_alnum d = true).
Proof.
  assert (Ha : forall c, is_alnum c = true -> negb (Ascii.eqb c ".") = true) by (by intros [[] [] [] [] [] [] [] []]).
  assert (Hl : forall c, is_label_char c = true -> negb (Ascii.eqb c ".") = true) by (by intros [[] [] [] [] [] [] [] []]).
  intros (x & r & -> & (c & -> & Hc)%matches_class & Hr)%matches_cat. unfold without. rewrite str_all_app. cbn [str_all str1].
  rewrite Ha by done. cbn [andb].
  apply matches_opt in Hr as [->|(y & z & -> & Hy%matches_star_class & (d & -> & Hd)%matches_class)%matches_cat].
  - split; [done|]. left. by exists c.
  - split; [|right; by exists c, y, d]. rewrite str_all_app, (all_impl _ _ y Hl Hy). cbn [str_all str1]. by rewrite Ha.
Qed.

(** The pieces between the dots are the labels of the pattern. *)
Lemma dns_labels s : matches dns_re s -> s <> "" /\ Forall (matches label_re) (split_byte "." s).
Proof.
  intros (x & r & -> & Hx & Hr)%matches_cat. split.
  { apply label_form in Hx as [_ [(c & -> & _)|(c & mid & d & -> & _)]]; done. }
  remember (RStar (RCat (RChar ".") label_re)) as q eqn:E. revert x Hx.
  induction Hr as [| | | | | |a y z Hy _ Hz IH]; try discriminate; intros x Hx; destruct (label_form x Hx) as [Hw _].
  - rewrite app_str_nil_r, split_byte_single by done. by repeat constructor.
  - injection E as ->. apply matches_cat in Hy as (d & l & -> & Hd%matches_char & Hl). subst d.
    rewrite <- app_str_assoc. change (str1 "." +:+ (l +:+ z)) with (String "." (l +:+ z)).
    rewrite split_byte_app by done. constructor; [done|]. by apply IH.
Qed.

Lemma dns_rules host port :
  matches dns_re host -> str_all is_digit port = true -> str_all host_char host = true ->
  numeric_rule cel_isIP (host +:+ ":" +:+ port) = true -> dns_rule (host +:+ ":" +:+ port) = true -> dns_name host.
Proof.
  intros Hre Hd Hs Hnum Hdns. destruct (dns_labels host Hre) as [Hne Hl].
  unfold numeric_rule, dns_rule in *. rewrite !at_last_colon in * by done.
  assert (starts_bracket (host +:+ ":" +:+ port) = false) as Hb.
  { destruct host as [|c host]; [done|]. cbn in Hs |- *. apply andb_true_iff in Hs as [Hc _].
    by destruct c as [[] [] [] [] [] [] [] []]. }
  rewrite Hb in Hdns. cbn [orb] in Hdns. apply andb_true_iff in Hdns as [Hmax Hall].
  split; [done|]. split.
  - rewrite Forall_forall in Hl |- *. intros l Hin. rewrite forallb_elem_of in Hall. specialize (Hall l Hin).
    apply andb_true_iff in Hall as [_ Hmx]. split; [done|]. by apply label_form, Hl.
  - intros Hdig. apply orb_true_iff in Hnum as [Hn|Hn]; [|done]. apply negb_true_iff in Hn.
    enough (matchString (RPlus (RClass (fun c => is_digit c || Ascii.eqb c "."))) host = true) by congruence.
    by apply matchString_spec, matches_plus_class.
Qed.

(** C38. An admitted remote-control endpoint is inert text in the URL that is
    dialled: a host, a colon and a port between 1 and 65535, made of letters,
    digits, hyphens, dots, colons and brackets only, so that nothing after the
    scheme can be read as a path, a query, a fragment or credentials; the host
    is a DNS name of at most 253 characters whose labels have 1 to 63 and a
    letter or digit at both ends (an IP address if it is all digits and dots), or
    an IP address in brackets.  Splitting the endpoint gives that name or
    address, which is not empty, so TLS always has a server to verify. *)
Theorem admitted_endpoint_is_inert r :
  admit_RemoteControlRef cel_isIP r = true ->
  exists host port, rcEndpoint r = host +:+ ":" +:+ port /\
    str_all is_endpoint_char (rcEndpoint r) = true /\
    str_all is_digit port = true /\ (1 <= Z.of_N (dec_val port 0) <= 65535)%Z /\
    exists name, SplitHostPort (rcEndpoint r) = Some (name, port) /\ name <> "" /\
    (host = name /\ str_all host_char name = true /\ dns_name name \/
     host = "[" +:+ name +:+ "]" /\ cel_isIP name = true).
Proof.
  intros H. unfold admit_RemoteControlRef in H. rewrite !andb_true_iff in H.
  destruct H as (((((((_ & _) & Hm) & Hp) & Hb) & Hnum) & Hdns) & _).
  apply matchString_spec, matches_cat in Hm as (host & rest & E & [Hh Hs]%host_shape & Hr).
  apply matches_cat in Hr as (c & port & -> & Hc%matches_char & Hd). subst c.
  apply matches_between_class in Hd as [Hd _]; [|lia]. rewrite E in *.
  change (str1 ":"%char) with ":" in *.
  exists host, port. split; [done|]. split.
  { rewrite !str_all_app, Hh, (all_impl _ is_endpoint_char port is_digit_endpoint Hd). done. }
  split; [done|]. unfold port_rule in Hp. rewrite at_last_colon in Hp by done.
  apply andb_true_iff in Hp as [?%Z.leb_le ?%Z.leb_le]. split; [done|].
  destruct Hs as [[Hs Hre]|(h & -> & Hx & Hne)].
  { destruct (dns_labels host Hre) as [Hne Hl]. exists host.
    split; [by apply split_plain; try (by apply (all_has_not host_char)); apply digits_has|].
    split; [done|]. left. split_and!; [done..|]. by eapply dns_rules. }
  exists h. split.
  { rewrite <- !app_str_assoc. change ("]" +:+ ":" +:+ port) with ("]:" +:+ port).
    by apply split_bracketed; try (by apply (all_has_not is_hex_colon)); apply digits_has. }
  split; [done|]. right. split; [done|]. unfold bracket_rule in Hb. by rewrite at_last_bracket in Hb.
Qed.

End AdmittedObjects.

(** ** Concrete resources *)

Definition demo_double (s : string) : option float64 :=
  match ParseFloat s with Ok v => Some v | Err _ => None end.

Lemma demo_double_reads s v : demo_double s = Some v -> ParseFloat s = Ok v.
Proof. unfold demo_double. destruct (ParseFloat s); [by intros [= ->]|done]. Qed.

Definition demo_gs_spec (alt : string) : GSSpec :=
  mkGSSpec (mkHardware "ennoconn" "m1" "" ["Ka"]) (mkDeployment (mkGeo "25.0330" "121.5654" alt) "k3s" "")
    None (Some (mkFirmware true "stable" "02:00-04:00 UTC")).

Definition demo_pass_spec : PassPredictionSpec := mkPassSpec ["gs1"] "10" (24 * Hour).

Lemma admitted_inputs_are_read_witness :
  (exists lat lon, ParseGeoCoord "25.0330" = Ok lat /\ ParseGeoCoord "121.5654" = Ok lon) /\
  exists v, ParseElevation "10" = Ok v /\ bad_mask v = false.
Proof.
  destruct (admitted_inputs_are_read demo_double demo_double_reads (demo_gs_spec "") demo_pass_spec 0)
    as ((lat & lon & H1 & H2 & _) & Hv & _); [vm_compute; reflexivity..|].
  split; [exists lat, lon; split; [exact H1|exact H2]|exact Hv].
Defined.

Lemma admitted_endpoint_is_inert_witness :
  exists host port, "[::1]:8001" = host +:+ ":" +:+ port /\ (1 <= Z.of_N (dec_val port 0) <= 65535)%Z.
Proof.
  destruct (admitted_endpoint_is_inert (fun s => str_eqb s "::1") (mkRemote "[::1]:8001" None))
    as (host & port & H1 & _ & _ & H2 & _); [vm_compute; reflexivity|].
  exists host, port. split; [exact H1|exact H2].
Defined.

(** Two points the schema leaves to run time: the altitude may be any text, and
    the two ends of a window may be equal. *)
Example schema_leaves_open :
  admit_GSSpec demo_double (demo_gs_spec "NaN") = true /\ ParseGeoCoord "NaN" = Ok SpecFloat.S754_nan /\
  admit_GSSpec demo_double (demo_gs_spec "high") = true /\ ParseGeoCoord "high" = Err ErrSyntax /\
  matchString window_re "02:00-02:00 UTC" = true /\
  IsWithinMaintenanceWindow "02:00-02:00 UTC" 0 = Err (EmptyWindow "02:00").
Proof. vm_compute. repeat split. Qed.

Example endpoints_accepted_and_refused :
  map (fun e => admit_RemoteControlRef (fun s => bool_decide (s ∈ ["::1"; "10.0.0.7"])) (mkRemote e None))
    ["gnb.ran:8001"; "10.0.0.7:8001"; "[::1]:8001"; "ws://gnb:8001"; "999.999.999.999:1"; "gnb:0"; "gnb:70000";
     "user@gnb:80"; "gnb:80/x"; "[::2]:80"] =
  [true; true; true; false; false; false; false; false; false; false].
Proof. vm_compute. reflexivity. Qed.

(** A cell that passes the schema can be rendered, its document has exactly one
    ephemeris, and its runtime path knows which cell it addresses. *)
Theorem admitted_cell_renders isIP IsPrint spec :
  admit_NTNCellConfigSpec isIP spec = true ->
  (exists text, GenerateConfig IsPrint spec = Ok text) /\
  (prRemoteControl (csProvider spec) <> None -> exists id, csCellID spec = Some id) /\
  (forall sw, ntnSatSwitch (csNTN spec) = Some sw ->
     match swECEF (NTNConfig sw), swOrbital (NTNConfig sw) with
     | Some _, None | None, Some _ => True
     | _, _ => False
     end).
Proof.
  intros H. unfold admit_NTNCellConfigSpec in H. rewrite !andb_true_iff in H.
  destruct H as (((((Hc & _) & Hn) & _) & _) & _).
  unfold admit_NTNParams in Hn. rewrite !andb_true_iff in Hn.
  destruct Hn as (((((((((((((((He & _) & _) & _) & _) & _) & _) & _) & Hsw) & _) & _) & _) & _) & _) & _) & _).
  split; [|split].
  - unfold GenerateConfig, applyEphemeris. unfold admit_ephemeris_choice in He.
    destruct (ntnECEF (csNTN spec)), (ntnOrbital (csNTN spec)); cbn in He; try done; by eexists.
  - intros Hr. destruct (prRemoteControl (csProvider spec)); [|done].
    destruct (csCellID spec) as [id|]; [by exists id|done].
  - intros sw E. rewrite E in Hsw. cbn in Hsw. unfold admit_SatSwitchWithResync, admit_SatSwitchNTNConfig in Hsw.
    rewrite !andb_true_iff in Hsw. destruct Hsw as ((((((Hsw & _) & _) & _) & _) & _) & _).
    unfold admit_ephemeris_choice in Hsw. by destruct (swECEF (NTNConfig sw)), (swOrbital (NTNConfig sw)).
Qed.
