(* ===== verification/OcuduProvider.v ===== *)
(** * Package ocudu: the ConfigMap of a cell

    Models [src/pkg/provider/ocudu/provider.go]: the name of the ConfigMap, its
    ownership rules, [ApplyCellConfig], [GetCellStatus], [PushEphemerisUpdate]
    and [Cleanup].

    The API server is an interface: [ConfigServer] states the documented
    behaviour of its create, update and delete (optimistic concurrency on the
    resource version, the UID precondition of a delete).  Other clients may
    change the store between any two requests: [other i] is what they do before
    the request number [i].  Owner references are an interface too. *)

From S2P Require Import Prelude GoStrings GoFloat K8sMeta CellApi OcuduConfig.
From Stdlib Require Import Ascii.
Local Open Scope string_scope.
Local Arguments String.append !_ _ /.

(** ** Names *)

Definition ConfigMapPrefix : string := "ocudu-ntn-".
Definition configDataKey : string := "geo_ntn.yml".
Definition koffsetAnnotation : string := "ntn.operators.dev/koffset".
Definition maxK8sNameLen : nat := 253.

(** [hash] is the hexadecimal text of the first 16 bytes of the SHA-256 digest. *)
Definition ConfigMapNameFor (hash : string -> string) (crName : string) : string :=
  let name := ConfigMapPrefix +:+ crName in
  if (maxK8sNameLen <? String.length name)%nat then
    let suffix := hash name in
    let truncLen := maxK8sNameLen - 1 - String.length suffix in
    TrimRight (String.substring 0 truncLen name) "-." +:+ "-" +:+ suffix
  else name.

(** ** Numbers *)

(** [strconv.Atoi]. *)
Definition Atoi (s : string) : option Z :=
  let '(neg, body) := match s with
                      | String "-" r => (true, r)
                      | String "+" r => (false, r)
                      | _ => (false, s)
                      end in
  if str_eqb body "" || negb (str_all is_digit body) then None
  else let v := Z.of_N (dec_val body 0) in
       let v := if neg then (- v)%Z else v in
       if ((int64_min <=? v) && (v <=? int64_max))%Z then Some v else None.

(** ** Objects and the API server *)

(** Controller references ([metav1.IsControlledBy],
    [controllerutil.SetControllerReference]). *)
Class ControllerRefs (R : Type) := {
  IsControlledBy : list R -> UID -> bool;
  SetControllerReference : UID -> list R -> option (list R);
  unowned_not_controlled : forall u, IsControlledBy [] u = false;
  set_controls : forall u l l', SetControllerReference u l = Some l' -> IsControlledBy l' u = true
}.

Record ConfigMap (R : Type) := mkCM {
  cmUID : UID;
  cmVersion : Z;
  cmOwners : list R;
  cmLabels : gmap string string;
  cmAnnotations : gmap string string;
  cmData : gmap string string
}.
Arguments mkCM {R}.
Arguments cmUID {R}.
Arguments cmVersion {R}.
Arguments cmOwners {R}.
Arguments cmLabels {R}.
Arguments cmAnnotations {R}.
Arguments cmData {R}.

Abbreviation Store R := (gmap NamespacedName (ConfigMap R)).

Inductive write_result := Written | AlreadyExists | Conflict | Gone | WriteError (e : string).

(** The stored object has the content that was sent; the server chooses the
    version, and the UID of a new object. *)
Definition same_content {R} (a b : ConfigMap R) : Prop :=
  cmOwners a = cmOwners b /\ cmLabels a = cmLabels b /\ cmAnnotations a = cmAnnotations b /\
  cmData a = cmData b.

Class ConfigServer (R : Type) := {
  srv_get : Store R -> NamespacedName -> GetResult (ConfigMap R);
  srv_create : Store R -> NamespacedName -> ConfigMap R -> write_result * Store R;
  srv_update : Store R -> NamespacedName -> ConfigMap R -> write_result * Store R;
  srv_delete : Store R -> NamespacedName -> UID -> write_result * Store R;
  get_found : forall s k cm, srv_get s k = Found cm -> s !! k = Some cm;
  get_not_found : forall s k, srv_get s k = NotFound -> s !! k = None;
  create_written : forall s k cm s', srv_create s k cm = (Written, s') ->
    s !! k = None /\ exists cm', same_content cm' cm /\ s' = <[k := cm']> s;
  create_refused : forall s k cm r s', srv_create s k cm = (r, s') -> r <> Written -> s' = s;
  update_written : forall s k cm s', srv_update s k cm = (Written, s') ->
    exists old cm', s !! k = Some old /\ cmUID old = cmUID cm /\ cmVersion old = cmVersion cm /\
      same_content cm' cm /\ cmUID cm' = cmUID cm /\ s' = <[k := cm']> s;
  update_refused : forall s k cm r s', srv_update s k cm = (r, s') -> r <> Written -> s' = s;
  delete_written : forall s k u s', srv_delete s k u = (Written, s') ->
    exists old, s !! k = Some old /\ cmUID old = u /\ s' = delete k s;
  delete_refused : forall s k u r s', srv_delete s k u = (r, s') -> r <> Written -> s' = s
}.

(** ** Ownership *)

Definition managedByLabel : string := "app.kubernetes.io/managed-by".
Definition managedByValue : string := "ntn-operators".
Definition componentLabel : string := "app.kubernetes.io/component".
Definition componentValue : string := "ocudu-ntn-config".

(** A lookup in a Go map of strings. *)
Definition get_str (m : gmap string string) (k : string) : string := default "" (m !! k).

Section Provider.
Context {R : Type} `{CR : ControllerRefs R} `{SRV : ConfigServer R}.

Definition isOperatorManaged (cm : ConfigMap R) : bool :=
  str_eqb (get_str (cmLabels cm) managedByLabel) managedByValue &&
  str_eqb (get_str (cmLabels cm) componentLabel) componentValue.

Definition isAdoptableLeftover (cm : ConfigMap R) : bool :=
  (length (cmOwners cm) =? 0)%nat && isOperatorManaged cm &&
  negb (str_eqb (get_str (cmData cm) configDataKey) "").

Variable hash : string -> string.
Variable IsPrint : N -> bool.

Definition cm_key (owner : ObjectMeta) : NamespacedName :=
  mkKey (Namespace owner) (ConfigMapNameFor hash (Name owner)).

(** ** ApplyCellConfig *)

Inductive apply_error :=
| NamespaceUnset
| NamespaceMismatch
| GenerateFailed (e : config_error)
| GetFailed (e : string)
| ReferenceFailed
| CreateFailed
| ReadBackFailed
| NotOwned
| UpdateFailed.

(** The result, the store afterwards, and for each successful write the object
    it replaced. *)
Record ApplyOut := mkApply {
  aoResult : result apply_error unit;
  aoStore : Store R;
  aoReplaced : list (option (ConfigMap R))
}.

Definition stamp_labels (l : gmap string string) : gmap string string :=
  <[managedByLabel := managedByValue]> (<[componentLabel := componentValue]> l).

Definition new_config_map (owners : list R) (koffset text : string) : ConfigMap R :=
  mkCM "" 0 owners (stamp_labels ∅) {[koffsetAnnotation := koffset]} {[configDataKey := text]}.

(** An existing ConfigMap: refuse, adopt, skip or overwrite. *)
Definition apply_existing (other : nat -> Store R -> Store R) (s : Store R) (k : NamespacedName)
  (uid : UID) (cm : ConfigMap R) (koffset text : string) : ApplyOut :=
  let alreadyOwned := IsControlledBy (cmOwners cm) uid in
  if negb alreadyOwned && negb (isAdoptableLeftover cm) then mkApply (Err NotOwned) s []
  else
    match (if alreadyOwned then Some (cmOwners cm) else SetControllerReference uid (cmOwners cm)) with
    | None => mkApply (Err ReferenceFailed) s []
    | Some owners =>
        if alreadyOwned && isOperatorManaged cm &&
           str_eqb (get_str (cmData cm) configDataKey) text &&
           str_eqb (get_str (cmAnnotations cm) koffsetAnnotation) koffset
        then mkApply (Ok tt) s []
        else
          let cm' := mkCM (cmUID cm) (cmVersion cm) owners (stamp_labels (cmLabels cm))
                       (<[koffsetAnnotation := koffset]> (cmAnnotations cm))
                       (<[configDataKey := text]> (cmData cm)) in
          let s := other 2 s in
          match srv_update s k cm' with
          | (Written, s') => mkApply (Ok tt) s' [s !! k]
          | (_, s') => mkApply (Err UpdateFailed) s' []
          end
    end.

Definition ApplyCellConfig (other : nat -> Store R -> Store R) (s : Store R)
  (owner : ObjectMeta) (spec : NTNCellConfigSpec) : ApplyOut :=
  let namespace := prNamespace (csProvider spec) in
  if str_eqb namespace "" then mkApply (Err NamespaceUnset) s []
  else if negb (str_eqb (Namespace owner) namespace) then mkApply (Err NamespaceMismatch) s []
  else
    match GenerateConfig IsPrint spec with
    | Err e => mkApply (Err (GenerateFailed e)) s []
    | Ok text =>
        let koffset := fmt_d (CellSpecificKoffset (csNTN spec)) in
        let k := cm_key owner in
        match srv_get s k with
        | Found cm => apply_existing other s k (oUID owner) cm koffset text
        | GetError e => mkApply (Err (GetFailed e)) s []
        | NotFound =>
            match SetControllerReference (oUID owner) [] with
            | None => mkApply (Err ReferenceFailed) s []
            | Some owners =>
                let s := other 0 s in
                match srv_create s k (new_config_map owners koffset text) with
                | (Written, s') => mkApply (Ok tt) s' [s !! k]
                | (AlreadyExists, s') =>
                    let s := other 1 s' in
                    match srv_get s k with
                    | Found cm => apply_existing other s k (oUID owner) cm koffset text
                    | _ => mkApply (Err ReadBackFailed) s []
                    end
                | (_, s') => mkApply (Err CreateFailed) s' []
                end
            end
        end
    end.

(** ** The other operations *)

(** [Cleanup]; the store afterwards and whether it succeeded. *)
Definition Cleanup (other : nat -> Store R -> Store R) (s : Store R) (owner : ObjectMeta)
  : bool * Store R :=
  match srv_get s (cm_key owner) with
  | NotFound => (true, s)
  | GetError _ => (false, s)
  | Found cm =>
      if IsControlledBy (cmOwners cm) (oUID owner) || isAdoptableLeftover cm then
        match srv_delete (other 0 s) (cm_key owner) (cmUID cm) with
        | (Written, s') | (Gone, s') => (true, s')
        | (_, s') => (false, s')
        end
      else (true, s)
  end.

Inductive status_error := StatusNamespace | StatusRead (e : string) | StatusNotOwned | StatusMissingKey.

Definition empty_status : NTNCellConfigStatus := mkCellStatus 0 "" "" [].

(** [GetCellStatus]: the status is returned with the error. *)
Definition GetCellStatus (s : Store R) (owner : ObjectMeta)
  : NTNCellConfigStatus * option status_error :=
  if str_eqb (Namespace owner) "" then (empty_status, Some StatusNamespace)
  else match srv_get s (cm_key owner) with
       | NotFound => (empty_status, None)
       | GetError e => (empty_status, Some (StatusRead e))
       | Found cm =>
           if negb (IsControlledBy (cmOwners cm) (oUID owner)) then (empty_status, Some StatusNotOwned)
           else
             let koffset := match cmAnnotations cm !! koffsetAnnotation with
                            | Some a => default 0%Z (Atoi a)
                            | None => 0%Z
                            end in
             (mkCellStatus koffset (kName (cm_key owner)) "" [],
              match cmData cm !! configDataKey with Some _ => None | None => Some StatusMissingKey end)
       end.

Inductive push_error :=
| PushNamespace | PushNothing | PushBoth | PushRead | PushNotOwned | PushMissingKey | PushNoBlock | PushUpdate.

Definition PushEphemerisUpdate (other : nat -> Store R -> Store R) (s : Store R) (owner : ObjectMeta)
  (update : EphemerisUpdate) : result push_error unit * Store R :=
  if str_eqb (Namespace owner) "" then (Err PushNamespace, s)
  else match uECEF update, uOrbital update with
       | None, None => (Err PushNothing, s)
       | Some _, Some _ => (Err PushBoth, s)
       | _, _ =>
           match srv_get s (cm_key owner) with
           | Found cm =>
               if negb (IsControlledBy (cmOwners cm) (oUID owner)) then (Err PushNotOwned, s)
               else match cmData cm !! configDataKey with
                    | None => (Err PushMissingKey, s)
                    | Some content =>
                        let '(updated, replaced) := replaceEphemeris content update in
                        if negb replaced then (Err PushNoBlock, s)
                        else if str_eqb updated content then (Ok tt, s)
                        else
                          let cm' := mkCM (cmUID cm) (cmVersion cm) (cmOwners cm) (cmLabels cm)
                                       (cmAnnotations cm) (<[configDataKey := updated]> (cmData cm)) in
                          match srv_update (other 0 s) (cm_key owner) cm' with
                          | (Written, s') => (Ok tt, s')
                          | (_, s') => (Err PushUpdate, s')
                          end
                    end
           | _ => (Err PushRead, s)
           end
       end.

(** * Properties *)

(** Other clients change the version of what they change. *)
Definition versioned (other : nat -> Store R -> Store R) : Prop :=
  forall i s k o o', s !! k = Some o -> other i s !! k = Some o' ->
    cmUID o = cmUID o' -> cmVersion o = cmVersion o' -> o = o'.

(** A ConfigMap the provider may overwrite or delete for an owner: one the
    owner controls, or one that nobody owns, with both operator labels and a
    configuration in it. *)
Definition ours (uid : UID) (cm : ConfigMap R) : Prop :=
  IsControlledBy (cmOwners cm) uid = true \/
  (cmOwners cm = [] /\ get_str (cmLabels cm) managedByLabel = managedByValue /\
   get_str (cmLabels cm) componentLabel = componentValue /\ get_str (cmData cm) configDataKey <> "").

Lemma ours_iff uid cm :
  ours uid cm <-> IsControlledBy (cmOwners cm) uid = true \/ isAdoptableLeftover cm = true.
Proof.
  unfold ours, isAdoptableLeftover, isOperatorManaged.
  rewrite !andb_true_iff, !negb_true_iff, str_eqb_neq, !str_eqb_eq, Nat.eqb_eq, length_zero_iff_nil.
  tauto.
Qed.

(** The state [ApplyCellConfig] is to bring about. *)
Record desired (uid : UID) (koffset text : string) (cm : ConfigMap R) : Prop := {
  des_owned : IsControlledBy (cmOwners cm) uid = true;
  des_labels : isOperatorManaged cm = true;
  des_text : get_str (cmData cm) configDataKey = text;
  des_koffset : get_str (cmAnnotations cm) koffsetAnnotation = koffset
}.

Lemma get_str_insert m k v : get_str (<[k := v]> m) k = v.
Proof. unfold get_str. by rewrite lookup_insert_eq. Qed.

Lemma stamped_managed u v o l a d : isOperatorManaged (mkCM u v o (stamp_labels l) a d) = true.
Proof.
  unfold isOperatorManaged, stamp_labels. cbn [cmLabels]. rewrite get_str_insert.
  unfold get_str. rewrite lookup_insert_ne, lookup_insert_eq by done. done.
Qed.

Lemma same_content_desired uid koffset text a b :
  same_content a b -> desired uid koffset text b -> desired uid koffset text a.
Proof.
  destruct a, b. unfold same_content. cbn. intros (-> & -> & -> & ->) [H1 H2 H3 H4].
  by constructor.
Qed.

Lemma stamped_desired uid u v owners l a d koffset text :
  IsControlledBy owners uid = true ->
  desired uid koffset text
    (mkCM u v owners (stamp_labels l) (<[koffsetAnnotation := koffset]> a) (<[configDataKey := text]> d)).
Proof. intros H. constructor; [done|apply stamped_managed|apply get_str_insert..]. Qed.

Lemma apply_existing_spec other s k uid cm koffset text :
  s !! k = Some cm ->
  let out := apply_existing other s k uid cm koffset text in
  (versioned other -> Forall (fun o => exists cm, o = Some cm /\ ours uid cm) (aoReplaced out)) /\
  (aoResult out = Ok tt -> exists cm', aoStore out !! k = Some cm' /\ desired uid koffset text cm').
Proof.
  intros Hs. cbv zeta. unfold apply_existing.
  destruct (IsControlledBy (cmOwners cm) uid) eqn:Hown; cbn [negb andb].
  - destruct (isOperatorManaged cm && _ && _) eqn:Hskip; cbn [aoResult aoStore aoReplaced].
    + split; [constructor|]. intros _. exists cm. split; [done|].
      apply andb_true_iff in Hskip as [[H1 H2%str_eqb_eq]%andb_true_iff H3%str_eqb_eq]. by constructor.
    + destruct (srv_update _ _ _) as [r s'] eqn:Hu. destruct r; try (split; [constructor|done]).
      apply update_written in Hu as (old & cm' & Ho & Hid & Hv & Hc & _ & ->).
      cbn [aoResult aoStore aoReplaced]. split.
      * intros Hoth. constructor; [|constructor]. rewrite Ho. exists old. split; [done|].
        assert (cm = old) as <- by (eapply Hoth; eauto). apply ours_iff. by left.
      * intros _. exists cm'. rewrite lookup_insert_eq. split; [done|].
        eapply same_content_desired; [exact Hc|]. by apply stamped_desired.
  - destruct (isAdoptableLeftover cm) eqn:Had; cbn [negb]; [|split; [constructor|done]].
    destruct (SetControllerReference uid (cmOwners cm)) as [owners|] eqn:Hset; [|split; [constructor|done]].
    destruct (srv_update _ _ _) as [r s'] eqn:Hu. destruct r; try (split; [constructor|done]).
    apply update_written in Hu as (old & cm' & Ho & Hid & Hv & Hc & _ & ->).
    cbn [aoResult aoStore aoReplaced]. split.
    + intros Hoth. constructor; [|constructor]. rewrite Ho. exists old. split; [done|].
      assert (cm = old) as <- by (eapply Hoth; eauto). apply ours_iff. by right.
    + intros _. exists cm'. rewrite lookup_insert_eq. split; [done|].
      eapply same_content_desired; [exact Hc|]. apply stamped_desired. by eapply set_controls.
Qed.

(** What one run promises: it replaces only objects of ours, and success means
    that the store holds the desired state. *)
Definition apply_contract (other : nat -> Store R -> Store R) (owner : ObjectMeta)
  (spec : NTNCellConfigSpec) (out : ApplyOut) : Prop :=
  (versioned other ->
     Forall (fun o => match o with Some cm => ours (oUID owner) cm | None => True end) (aoReplaced out)) /\
  (aoResult out = Ok tt -> exists text cm, GenerateConfig IsPrint spec = Ok text /\
     aoStore out !! cm_key owner = Some cm /\
     desired (oUID owner) (fmt_d (CellSpecificKoffset (csNTN spec))) text cm /\
     Namespace owner = prNamespace (csProvider spec) /\ Namespace owner <> "").

Lemma apply_existing_contract other s owner spec cm text :
  s !! cm_key owner = Some cm -> GenerateConfig IsPrint spec = Ok text ->
  Namespace owner = prNamespace (csProvider spec) -> Namespace owner <> "" ->
  apply_contract other owner spec (apply_existing other s (cm_key owner) (oUID owner) cm
    (fmt_d (CellSpecificKoffset (csNTN spec))) text).
Proof.
  intros Hs Hg Hn Hne.
  destruct (apply_existing_spec other s _ (oUID owner) cm
    (fmt_d (CellSpecificKoffset (csNTN spec))) text Hs) as [H1 H2].
  split; [intros Ho; eapply Forall_impl; [exact (H1 Ho)|]; by intros o (? & -> & ?)|].
  intros Hok. destruct (H2 Hok) as (cm' & Hl & Hd). exists text, cm'. repeat split; done || apply Hd.
Qed.

Lemma apply_spec other s owner spec :
  apply_contract other owner spec (ApplyCellConfig other s owner spec).
Proof.
  unfold ApplyCellConfig.
  destruct (str_eqb (prNamespace (csProvider spec)) "") eqn:E1; [split; [constructor|done]|].
  destruct (str_eqb (Namespace owner) _) eqn:E2; cbn [negb]; [|split; [constructor|done]].
  apply str_eqb_neq in E1. apply str_eqb_eq in E2.
  destruct (GenerateConfig IsPrint spec) as [text|] eqn:Hg; [|split; [constructor|done]].
  destruct (srv_get s (cm_key owner)) as [cm| |] eqn:Hget; [|clear Hget|split; [constructor|done]].
  { apply apply_existing_contract; auto; [by apply get_found|congruence]. }
  destruct (SetControllerReference (oUID owner) []) as [owners|] eqn:Hset; [|split; [constructor|done]].
  destruct (srv_create _ _ _) as [r s'] eqn:Hc.
  destruct r; [| |split; [constructor|done]..].
  - apply create_written in Hc as (Hnone & cm' & Hcont & ->). unfold apply_contract.
    cbn [aoResult aoStore aoReplaced]. split.
    + intros _. rewrite Hnone. by repeat constructor.
    + intros _. exists text, cm'. split; [done|]. rewrite lookup_insert_eq. split; [done|].
      split; [|split; [done|congruence]]. eapply same_content_desired; [exact Hcont|].
      apply stamped_desired. by eapply set_controls.
  - destruct (srv_get (other 1 s') (cm_key owner)) as [cm| |] eqn:Hget; [|split; [constructor|done]..].
    apply apply_existing_contract; auto; [by apply get_found|congruence].
Qed.

(** C10. A foreign ConfigMap is never overwritten: whatever other clients do
    between the requests of [ApplyCellConfig] (create the name first, delete
    and recreate it, edit it), every object one of its writes replaces was
    controlled by this very resource or was an unowned, labelled leftover with
    a configuration in it. *)
Theorem apply_never_overwrites_foreign other s owner spec :
  versioned other ->
  Forall (fun o => match o with Some cm => ours (oUID owner) cm | None => True end)
    (aoReplaced (ApplyCellConfig other s owner spec)).
Proof. apply apply_spec. Qed.

Lemma desired_skips other s k uid cm koffset text :
  desired uid koffset text cm -> apply_existing other s k uid cm koffset text = mkApply (Ok tt) s [].
Proof.
  intros [H1 H2 H3 H4]. unfold apply_existing. rewrite H1, H2, H3, H4, !str_eqb_refl. done.
Qed.

Lemma digits_nonempty f m acc : acc <> "" -> digits_fuel f m acc <> "".
Proof.
  revert m acc. induction f as [|f IH]; intros m acc Hacc; [done|]. cbn [digits_fuel].
  destruct (m <? 10)%N; [done|]. by apply IH.
Qed.

(** A printed number has a first digit. *)
Lemma fmt_N_head n : exists c r, fmt_N n = String c r /\ is_digit c = true.
Proof.
  pose proof (fmt_N_digits n) as Hd. destruct (fmt_N n) as [|c r] eqn:E.
  - exfalso. unfold fmt_N in E. cbn [digits_fuel] in E. destruct (n <? 10)%N; [done|].
    by eapply digits_nonempty in E.
  - cbn [str_all] in Hd. apply andb_true_iff in Hd as [Hd _]. eauto.
Qed.

Lemma fmt_d_nonempty z : fmt_d z <> "".
Proof.
  destruct z as [|p|p]; cbn [fmt_d]; [done| |done].
  destruct (fmt_N_head (Npos p)) as (c & r & E & _). change (Z.to_N (Zpos p)) with (Npos p). by rewrite E.
Qed.

Lemma Atoi_fmt_d z : (int64_min <= z <= int64_max)%Z -> Atoi (fmt_d z) = Some z.
Proof.
  intros Hz.
  assert (Hpos : forall n c r, fmt_N n = String c r -> is_digit c = true ->
    c <> "-"%char /\ c <> "+"%char) by (intros n c r _ Hc; split; intros ->; done).
  unfold Atoi. destruct z as [|p|p]; cbn [fmt_d].
  - reflexivity.
  - destruct (fmt_N_head (Npos p)) as (c & r & E & Hc). pose proof (fmt_N_digits (Npos p)) as Hd.
    pose proof (fmt_N_val (Npos p)) as Hv. change (Z.to_N (Zpos p)) with (Npos p). rewrite E in *.
    replace (match String c r with String "-" r0 => (true, r0) | String "+" r0 => (false, r0)
             | _ => (false, String c r) end) with (false, String c r)
      by (destruct (Hpos _ _ _ E Hc); destruct c as [[] [] [] [] [] [] [] []]; done).
    rewrite Hd, Hv. cbn. destruct (Z.leb_spec int64_min (Zpos p)), (Z.leb_spec (Zpos p) int64_max); try lia. done.
  - destruct (fmt_N_head (Npos p)) as (c & r & E & Hc). pose proof (fmt_N_digits (Npos p)) as Hd.
    pose proof (fmt_N_val (Npos p)) as Hv. rewrite E in *. cbn [String.append]. rewrite Hd, Hv. cbn.
    change (- Z.pos p)%Z with (Z.neg p).
    destruct (Z.leb_spec int64_min (Zneg p)), (Z.leb_spec (Zneg p) int64_max); try lia. done.
Qed.

(** Applying converges: when [ApplyCellConfig] succeeds, the store holds
    the document generated for the specification under this resource's control,
    with its labels; applying again writes nothing, whoever else is at work; and
    the status read back names that ConfigMap and the applied k-offset. *)
Theorem apply_converges other s owner spec :
  let out := ApplyCellConfig other s owner spec in
  aoResult out = Ok tt ->
  (int64_min <= CellSpecificKoffset (csNTN spec) <= int64_max)%Z ->
  exists text cm, GenerateConfig IsPrint spec = Ok text /\ aoStore out !! cm_key owner = Some cm /\
    get_str (cmData cm) configDataKey = text /\ IsControlledBy (cmOwners cm) (oUID owner) = true /\
    (srv_get (aoStore out) (cm_key owner) = Found cm ->
       (forall other', ApplyCellConfig other' (aoStore out) owner spec = mkApply (Ok tt) (aoStore out) []) /\
       GetCellStatus (aoStore out) owner =
         (mkCellStatus (CellSpecificKoffset (csNTN spec)) (kName (cm_key owner)) "" [], None)).
Proof.
  cbv zeta. intros Hok Hz. destruct (apply_spec other s owner spec) as [_ H].
  destruct (H Hok) as (text & cm & Hg & Hl & Hd & Hn & Hne). exists text, cm.
  clear H Hok. generalize dependent (aoStore (ApplyCellConfig other s owner spec)). intros st Hl.
  split; [done|]. split; [done|]. split; [apply Hd|]. split; [apply Hd|]. intros Hget. split.
  - intros other'. unfold ApplyCellConfig. rewrite <- Hn, (proj2 (str_eqb_neq _ _) Hne), str_eqb_refl, Hg, Hget.
    cbn [negb]. by apply desired_skips.
  - pose proof (generated_nonempty _ _ _ Hg) as Ht. unfold GetCellStatus. rewrite (proj2 (str_eqb_neq _ _) Hne), Hget.
    destruct Hd as [H1 _ H3 H4]. rewrite H1. cbn [negb].
    assert (Hs : forall (m : gmap string string) k v, get_str m k = v -> v <> "" -> m !! k = Some v).
    { intros m k v. unfold get_str. destruct (m !! k); cbn; intros <- ?; congruence. }
    rewrite (Hs _ _ _ H3 Ht). erewrite (Hs (cmAnnotations cm)); [|exact H4|].
    + by rewrite Atoi_fmt_d.
    + apply fmt_d_nonempty.
Qed.

(** Cleanup and adoption agree: for whatever object occupies the name,
    [ApplyCellConfig] refuses it as foreign exactly when [Cleanup] leaves it in
    place; and a delete removes only the very object that was judged, never one
    that was recreated under the name in between. *)
Theorem cleanup_matches_adoption other s owner spec cm text :
  srv_get s (cm_key owner) = Found cm -> GenerateConfig IsPrint spec = Ok text ->
  Namespace owner = prNamespace (csProvider spec) -> Namespace owner <> "" ->
  (aoResult (ApplyCellConfig other s owner spec) = Err NotOwned <-> ~ ours (oUID owner) cm) /\
  (~ ours (oUID owner) cm -> Cleanup other s owner = (true, s)) /\
  (ours (oUID owner) cm ->
     (Cleanup other s owner).2 = other 0 s \/
     exists old, other 0 s !! cm_key owner = Some old /\ cmUID old = cmUID cm /\
       Cleanup other s owner = (true, delete (cm_key owner) (other 0 s))).
Proof.
  intros Hget Hg Hn Hne. split; [|split].
  - unfold ApplyCellConfig. rewrite <- Hn, (proj2 (str_eqb_neq _ _) Hne), str_eqb_refl, Hg, Hget. cbn [negb].
    rewrite ours_iff. unfold apply_existing.
    destruct (IsControlledBy (cmOwners cm) (oUID owner)), (isAdoptableLeftover cm); cbn [negb andb];
      try (destruct (SetControllerReference _ _)); try (destruct (_ && _));
      try (destruct (srv_update _ _ _) as [[] ?]); cbn [aoResult];
      (split; [intros H; try discriminate H; intros [?|?]; congruence|intros H; try (exfalso; apply H; auto; fail)]).
    all: reflexivity.
  - intros Ho. unfold Cleanup. rewrite Hget. rewrite ours_iff in Ho.
    destruct (IsControlledBy _ _); [exfalso; auto|]. destruct (isAdoptableLeftover cm); [exfalso; auto|done].
  - intros Ho. unfold Cleanup. rewrite Hget.
    assert (IsControlledBy (cmOwners cm) (oUID owner) || isAdoptableLeftover cm = true) as ->.
    { apply orb_true_iff. by apply ours_iff. }
    destruct (srv_delete _ _ _) as [r s'] eqn:Hd. destruct r; try (left; by eapply delete_refused in Hd).
    right. apply delete_written in Hd as (old & ? & ? & ->). eauto.
Qed.

(** A pushed ephemeris is the regenerated document: when the stored text
    is the one generated for a specification, a successful push leaves the text
    generated for the specification with the new ephemeris, and owners, labels
    and annotations as they were; it never touches a ConfigMap that is not
    controlled by the resource. *)
Theorem push_regenerates other s owner u e spec text cm s' :
  s !! cm_key owner = Some cm -> get_str (cmData cm) configDataKey = text ->
  GenerateConfig IsPrint spec = Ok text -> update_data u = Some e ->
  PushEphemerisUpdate other s owner u = (Ok tt, s') ->
  exists text' cm', GenerateConfig IsPrint (with_ephemeris spec (uECEF u) (uOrbital u)) = Ok text' /\
    s' !! cm_key owner = Some cm' /\ get_str (cmData cm') configDataKey = text' /\
    cmOwners cm' = cmOwners cm /\ cmLabels cm' = cmLabels cm /\ cmAnnotations cm' = cmAnnotations cm /\
    IsControlledBy (cmOwners cm) (oUID owner) = true.
Proof.
  intros Hs Htext Hg Hu H. destruct (replace_regenerates _ _ _ _ _ Hg Hu) as (t & Ht & Hr).
  exists t. unfold PushEphemerisUpdate in H. destruct (str_eqb (Namespace owner) ""); [done|].
  assert (Hcase : forall A (x y z : A), match uECEF u, uOrbital u with
    | None, None => x | Some _, Some _ => y | _, _ => z end = z).
  { intros A x y z. unfold update_data in Hu. by destruct (uECEF u), (uOrbital u). }
  rewrite Hcase in H. clear Hcase.
  destruct (srv_get s (cm_key owner)) as [cm0| |] eqn:Hget; [|done..].
  apply get_found in Hget. rewrite Hget in Hs. injection Hs as ->.
  destruct (IsControlledBy (cmOwners cm) (oUID owner)) eqn:Hown; [|done]. cbn [negb] in H.
  destruct (cmData cm !! configDataKey) as [content|] eqn:Hdata; [|done].
  assert (content = text) as -> by (unfold get_str in Htext; by rewrite Hdata in Htext).
  rewrite Hr in H. cbn [negb] in H. destruct (str_eqb t text) eqn:Et.
  - injection H as <-. apply str_eqb_eq in Et as ->. exists cm. done.
  - destruct (srv_update _ _ _) as [r s1] eqn:Hup. destruct r; try done. injection H as ->.
    apply update_written in Hup as (old & cm' & _ & _ & _ & (Ho & Hl & Ha & Hd) & _ & ->).
    exists cm'. rewrite lookup_insert_eq, Hd, Ho, Hl, Ha. cbn [cmData cmOwners cmLabels cmAnnotations].
    rewrite get_str_insert. done.
Qed.

End Provider.

(** ** Names of ConfigMaps *)

Section Names.
Variable hash : string -> string.
Hypothesis hash_width : forall s, String.length (hash s) = 32%nat.

Definition long_name (crName : string) : bool :=
  (maxK8sNameLen <? String.length (ConfigMapPrefix +:+ crName))%nat.

Lemma app_str_inj_tail a b c d :
  String.length c = String.length d -> a +:+ c = b +:+ d -> a = b /\ c = d.
Proof.
  intros Hl H. assert (Ha : String.length a = String.length b).
  { apply (f_equal String.length) in H. rewrite !length_app_str in H. lia. }
  revert b Ha H. induction a as [|x a IH]; intros [|y b] Ha H; try discriminate Ha; [done|].
  injection H as -> H. injection Ha as Ha. by destruct (IH _ Ha H) as [-> ->].
Qed.

(** ConfigMap names fit and separate: a name never exceeds the 253 bytes of
    a Kubernetes name, and two resources of different names share one only if
    both names are long and their digests collide, or exactly one is long. *)
Theorem configmap_names_fit_and_separate a b :
  (String.length (ConfigMapNameFor hash a) <= maxK8sNameLen)%nat /\
  (ConfigMapNameFor hash a = ConfigMapNameFor hash b -> long_name a = long_name b ->
   a = b \/
   (long_name a = true /\ hash (ConfigMapPrefix +:+ a) = hash (ConfigMapPrefix +:+ b))).
Proof.
  unfold ConfigMapNameFor. fold (long_name a) (long_name b). split.
  - destruct (long_name a) eqn:E.
    + rewrite !length_app_str, hash_width.
      pose proof (length_TrimRight (String.substring 0 (maxK8sNameLen - 1 - 32) (ConfigMapPrefix +:+ a)) "-.") as H.
      rewrite length_substring in H. unfold maxK8sNameLen in *. cbn [String.length] in *. lia.
    + unfold long_name in E. apply Nat.ltb_ge in E. exact E.
  - intros H Hab. rewrite <- Hab in H. destruct (long_name a).
    + right. split; [done|]. rewrite !app_str_assoc in H.
      apply app_str_inj_tail in H as [_ H]; [done|by rewrite !hash_width].
    + left. by eapply app_str_inv_head.
Qed.

(** A short name can be aimed at the ConfigMap of a long one: for every
    hash function and every long resource name that begins with an
    alphanumeric, as Kubernetes requires, there is a different, short name with
    the same ConfigMap. *)
Theorem short_name_aims_at_long c a :
  c <> "-"%char -> c <> "."%char -> long_name (String c a) = true ->
  exists b, b <> String c a /\ long_name b = false /\
    ConfigMapNameFor hash b = ConfigMapNameFor hash (String c a).
Proof.
  intros H1 H2 Hlong. unfold ConfigMapNameFor at 2. fold (long_name (String c a)). rewrite Hlong, hash_width.
  change (String.substring 0 (maxK8sNameLen - 1 - 32) (ConfigMapPrefix +:+ String c a))
    with (ConfigMapPrefix +:+ String c (String.substring 0 209 a)).
  destruct (TrimRight_stops ConfigMapPrefix c (String.substring 0 209 a) "-.") as [s' Hs].
  { cbn. destruct (Ascii.eqb_spec c "-"), (Ascii.eqb_spec c "."); done. }
  pose proof (length_TrimRight (ConfigMapPrefix +:+ String c (String.substring 0 209 a)) "-.") as Hle.
  rewrite Hs in Hle |- *. set (b := String c s' +:+ "-" +:+ hash (ConfigMapPrefix +:+ String c a)).
  assert (Hb : (String.length b <= 243)%nat).
  { unfold b. rewrite !length_app_str, hash_width. rewrite !length_app_str in Hle.
    cbn [String.length] in *. rewrite length_substring in Hle. lia. }
  assert (Hshort : long_name b = false).
  { unfold long_name. apply Nat.ltb_ge. rewrite length_app_str. change (String.length ConfigMapPrefix) with 10%nat. unfold maxK8sNameLen. lia. }
  exists b. split; [|split; [done|]].
  - intros Heq. congruence.
  - unfold ConfigMapNameFor. fold (long_name b). rewrite Hshort. unfold b. by rewrite app_str_assoc.
Qed.

End Names.

(** ** Instances and witnesses *)

(** Owner references as UID and controller flag. *)
Abbreviation DemoRef := (UID * bool)%type.

Definition demo_controlled (l : list DemoRef) (u : UID) : bool :=
  match find snd l with Some r => str_eqb r.1 u | None => false end.

#[local] Instance demo_refs : ControllerRefs DemoRef.
Proof.
  refine {| IsControlledBy := demo_controlled;
            SetControllerReference u l := if existsb snd l then None else Some ((u, true) :: l) |}.
  - done.
  - intros u l l'. destruct (existsb snd l); [done|]. intros [= <-]. apply str_eqb_refl.
Defined.

Definition bump (cm : ConfigMap DemoRef) (u : UID) (v : Z) : ConfigMap DemoRef :=
  mkCM u v (cmOwners cm) (cmLabels cm) (cmAnnotations cm) (cmData cm).

(** A server that follows the protocol without faults of its own. *)
#[local] Instance demo_server : ConfigServer DemoRef.
Proof.
  refine {| srv_get (s : Store DemoRef) k := match s !! k with Some cm => Found cm | None => NotFound end;
            srv_create s k cm := match s !! k with
                                 | Some _ => (AlreadyExists, s)
                                 | None => (Written, <[k := bump cm "new" 1]> s)
                                 end;
            srv_update s k cm := match s !! k with
                                 | None => (Gone, s)
                                 | Some old =>
                                     if str_eqb (cmUID old) (cmUID cm) && (cmVersion old =? cmVersion cm)%Z
                                     then (Written, <[k := bump cm (cmUID cm) (cmVersion cm + 1)]> s)
                                     else (Conflict, s)
                                 end;
            srv_delete s k u := match s !! k with
                                | None => (Gone, s)
                                | Some old => if str_eqb (cmUID old) u then (Written, delete k s) else (Conflict, s)
                                end |}.
  - intros s k cm. destruct (s !! k); congruence.
  - intros s k. by destruct (s !! k).
  - intros s k cm s'. destruct (s !! k); [done|]. intros [= <-]. split; [done|]. eexists. split; [|reflexivity]. by repeat split.
  - intros s k cm r s'. destruct (s !! k); intros [= <- <-] Hr; congruence.
  - intros s k cm s'. destruct (s !! k) as [old|] eqn:E; [|done].
    destruct (str_eqb _ _) eqn:E1; [|done]. destruct (Z.eqb_spec (cmVersion old) (cmVersion cm)); [|done].
    intros [= <-]. apply str_eqb_eq in E1. exists old, (bump cm (cmUID cm) (cmVersion cm + 1)). by repeat split.
  - intros s k cm r s'. destruct (s !! k); [destruct (_ && _)|]; intros [= <- <-] Hr; congruence.
  - intros s k u s'. destruct (s !! k) as [old|] eqn:E; [|done].
    destruct (str_eqb _ _) eqn:E1; [|done]. intros [= <-]. apply str_eqb_eq in E1. eauto.
  - intros s k u r s'. destruct (s !! k); [destruct (str_eqb _ _)|]; intros [= <- <-] Hr; congruence.
Defined.

Definition demo_meta : ObjectMeta := mkMeta "ran" "cell" "u1" 1 None [] ∅.
Definition demo_hash (s : string) : string := replicate_str 32 "0".
Definition quiet (i : nat) (s : Store DemoRef) : Store DemoRef := s.
Definition demo_cell_spec : NTNCellConfigSpec := demo_ntn "transparent" None.
Definition printable (n : N) : bool := true.

(** Someone else makes the name just before the create. *)
Definition squatter : ConfigMap DemoRef := mkCM "x" 7 [("u2", true)] ∅ ∅ ∅.
Definition squat (i : nat) (s : Store DemoRef) : Store DemoRef :=
  match i with O => <[cm_key demo_hash demo_meta := squatter]> s | _ => s end.

Definition applied : Store DemoRef :=
  aoStore (ApplyCellConfig demo_hash printable quiet ∅ demo_meta demo_cell_spec).

Lemma apply_never_overwrites_foreign_witness :
  Forall (fun o => match o with Some cm => ours (oUID demo_meta) cm | None => True end)
    (aoReplaced (ApplyCellConfig demo_hash printable quiet ∅ demo_meta demo_cell_spec)) /\
  aoReplaced (ApplyCellConfig demo_hash printable quiet ∅ demo_meta demo_cell_spec) = [None].
Proof.
  split.
  - apply (apply_never_overwrites_foreign demo_hash printable quiet ∅ demo_meta demo_cell_spec).
    intros i s k o o' H1 H2 _ _. unfold quiet in H2. congruence.
  - vm_compute. reflexivity.
Defined.

(** The squatter is refused, and stays. *)
Example squatter_refused :
  let out := ApplyCellConfig demo_hash printable squat ∅ demo_meta demo_cell_spec in
  (aoResult out, aoStore out !! cm_key demo_hash demo_meta) = (Err NotOwned, Some squatter).
Proof. vm_compute. reflexivity. Qed.

Lemma apply_converges_witness :
  exists text cm, GenerateConfig printable demo_cell_spec = Ok text /\
    applied !! cm_key demo_hash demo_meta = Some cm /\ get_str (cmData cm) configDataKey = text.
Proof.
  assert (Hok : aoResult (ApplyCellConfig demo_hash printable quiet ∅ demo_meta demo_cell_spec) = Ok tt)
    by (vm_compute; reflexivity).
  assert (Hz : (int64_min <= CellSpecificKoffset (csNTN demo_cell_spec) <= int64_max)%Z)
    by (vm_compute; split; discriminate).
  destruct (apply_converges demo_hash printable quiet ∅ demo_meta demo_cell_spec Hok Hz)
    as (text & cm & H1 & H2 & H3 & _).
  exists text, cm. split; [exact H1|]. split; [exact H2|exact H3].
Defined.

Definition demo_document : string := ok_text (GenerateConfig printable demo_cell_spec).

Lemma cleanup_matches_adoption_witness :
  Cleanup demo_hash quiet {[cm_key demo_hash demo_meta := squatter]} demo_meta =
    (true, {[cm_key demo_hash demo_meta := squatter]}).
Proof.
  assert (Hget : srv_get ({[cm_key demo_hash demo_meta := squatter]} : Store DemoRef)
                   (cm_key demo_hash demo_meta) = Found squatter) by (vm_compute; reflexivity).
  assert (Hg : GenerateConfig printable demo_cell_spec = Ok demo_document) by (vm_compute; reflexivity).
  assert (Hn : Namespace demo_meta <> "") by discriminate.
  destruct (cleanup_matches_adoption demo_hash printable quiet _ demo_meta demo_cell_spec squatter
    demo_document Hget Hg eq_refl Hn) as (_ & H & _).
  apply H. intros [Ho|[Ho _]]; discriminate Ho.
Defined.

Definition owned_map : ConfigMap DemoRef := mkCM "c1" 3 [("u1", true)] ∅ ∅ {[configDataKey := demo_document]}.

Lemma push_regenerates_witness :
  exists text', GenerateConfig printable
    (with_ephemeris demo_cell_spec (uECEF demo_update) (uOrbital demo_update)) = Ok text'.
Proof.
  assert (Hg : GenerateConfig printable demo_cell_spec = Ok demo_document) by (vm_compute; reflexivity).
  set (out := PushEphemerisUpdate demo_hash quiet {[cm_key demo_hash demo_meta := owned_map]} demo_meta demo_update).
  assert (H1 : out.1 = Ok tt) by (vm_compute; reflexivity).
  assert (Hp : out = (Ok tt, out.2)) by (rewrite <- H1; apply surjective_pairing).
  destruct (push_regenerates demo_hash printable quiet _ demo_meta demo_update
    (orbital_data (mkOrbital 6878000 1000 530000 10 20 30)) demo_cell_spec demo_document owned_map _
    (lookup_singleton_eq _ _) eq_refl Hg eq_refl Hp) as (t & _ & Ht & _).
  exists t. exact Ht.
Defined.

Lemma configmap_names_fit_and_separate_witness :
  String.length (ConfigMapNameFor demo_hash (replicate_str 250 "a")) = 253%nat /\
  (String.length (ConfigMapNameFor demo_hash (replicate_str 250 "a")) <= maxK8sNameLen)%nat.
Proof.
  split; [vm_compute; reflexivity|].
  exact (proj1 (configmap_names_fit_and_separate demo_hash (fun _ => eq_refl) (replicate_str 250 "a") "")).
Defined.

Lemma short_name_aims_at_long_witness :
  exists b, b <> replicate_str 250 "a" /\ long_name b = false /\
    ConfigMapNameFor demo_hash b = ConfigMapNameFor demo_hash (replicate_str 250 "a").
Proof.
  exact (short_name_aims_at_long demo_hash (fun _ => eq_refl) "a"%char (replicate_str 249 "a")
    ltac:(discriminate) ltac:(discriminate) ltac:(vm_compute; reflexivity)).
Defined.
