(* ===== verification/OcuduWire.v ===== *)
(** * Package ocudu: the remote-control session

    Models [src/pkg/provider/ocudu/wsclient.go], the runtime types of
    [src/pkg/provider/interface.go] and [PushRuntimeUpdate] of
    [src/pkg/provider/ocudu/provider.go]: the JSON frame of a runtime update, one
    exchange with the gNB, and the classification of its failures.

    The WebSocket library and the gNB behind it are a [Peer]: what it answers to
    a dial, a write and a read.  An exchange returns its error, if any, and the
    list of what it did on the network. *)

From S2P Require Import Prelude GoStrings GoJson GoUnicode GoFloat CellApi OcuduConfig.
From Stdlib Require Import Ascii SpecFloat.
Local Open Scope string_scope.
Local Arguments String.append !_ _ /.

(** ** sanitizeRemoteError *)

Definition maxRemoteErrorBytes : nat := 1024.

(** The loop: what is written, and whether it was cut off; [len] is [b.Len()]. *)
Fixpoint clean_runes (len : nat) (l : list rune) : list rune * bool :=
  match l with
  | [] => ([], false)
  | r :: l =>
      if (maxRemoteErrorBytes <=? len)%nat then ([], true)
      else
        let w := if IsControl r.1 then [space_rune] else if Cf r.1 then [] else [r] in
        let '(out, t) := clean_runes (len + byte_len w) l in
        ((w ++ out)%list, t)
  end.

Definition sanitizeRemoteError (s : string) : string :=
  let '(b, truncated) := clean_runes 0 (runes 0 s) in
  let out := Join (Fields (encode b)) " " in
  let out := if truncated then out +:+ " (truncated)" else out in
  if str_eqb out "" then "(no detail)" else out.

(** ** JSON frames *)

Inductive json :=
| JStr (s : string)
| JInt (z : Z)
| JNum (f : float64)
| JBool (b : bool)
| JArr (l : list json)
| JObj (l : list (string * json)).

(** The notation of [encoding/json] for a float: exponents only below [1e-6] and
    from [1e21] on, without a leading zero. *)
Definition json_float (f : float64) : result string string :=
  match f with
  | S754_nan | S754_infinity _ => Err ("json: unsupported value: " +:+ fmt_g f)
  | S754_zero _ => Ok (fmt_f f)
  | S754_finite s m e2 =>
      let a := S754_finite false m e2 in
      if f_lt a (of_decimal false 1 (-6)) || f_ge a (of_decimal false 1 21) then
        let '(d, e) := shortest m e2 in
        let ds := fmt_d d in
        let x := (Z.of_nat (String.length ds) - 1 + e)%Z in
        let frac := drop_str 1 ds in
        Ok ((if s then "-" else "") +:+ take_str 1 ds +:+ (if str_eqb frac "" then "" else "." +:+ frac)
            +:+ "e" +:+ (if (x <? 0)%Z then "-" else "+") +:+ fmt_d (Z.abs x))
      else Ok (fmt_f f)
  end.

Local Open Scope ntn_scope.

(** [json.Marshal]. *)
Fixpoint Marshal (j : json) : result string string :=
  match j with
  | JStr s => Ok (json_string s)
  | JInt z => Ok (fmt_d z)
  | JNum f => json_float f
  | JBool b => Ok (if b then "true" else "false")
  | JArr l =>
      let? items := (fix go (l : list json) : result string (list string) :=
                       match l with
                       | [] => Ok []
                       | j :: l => let? a := Marshal j in let? b := go l in Ok (a :: b)
                       end) l in
      Ok ("[" +:+ Join items "," +:+ "]")
  | JObj l =>
      let? items := (fix go (l : list (string * json)) : result string (list string) :=
                       match l with
                       | [] => Ok []
                       | (k, j) :: l =>
                           let? a := Marshal j in let? b := go l in
                           Ok ((json_string k +:+ ":" +:+ a) :: b)
                       end) l in
      Ok ("{" +:+ Join items "," +:+ "}")
  end.

(** A field with [omitempty]. *)
Definition optional {A} (k : string) (f : A -> json) (o : option A) : list (string * json) :=
  match o with Some a => [(k, f a)] | None => [] end.

Definition nonzero (k : string) (z : Z) : list (string * json) :=
  if (z =? 0)%Z then [] else [(k, JInt z)].

Record ecefJSON := mkEcefJSON {
  PositionX : float64; PositionY : float64; PositionZ : float64;
  VelocityVX : float64; VelocityVY : float64; VelocityVZ : float64
}.

Record orbitalJSON := mkOrbitalJSON {
  jSemiMajorAxis : float64; jEccentricity : float64; jInclination : float64;
  jLongitude : float64; jPeriapsis : float64; jMeanAnomaly : float64
}.

Record ephemerisInfoJSON := mkInfoJSON { jECEF : option ecefJSON; jOrbital : option orbitalJSON }.

Record taInfoJSON := mkTaJSON {
  jTACommon : float64; jTACommonDrift : option float64; jTACommonDriftVariant : option float64
}.

Record satSwitchNtnCfgJSON := mkNtnCfgJSON {
  ncEphemeris : ephemerisInfoJSON;
  ncKMac : option Z;
  ncKoffset : option Z;
  ncUlSyncValidityDur : option Z;
  ncTAInfo : option taInfoJSON;
  ncTAReport : option bool
}.

Record geodeticJSON := mkGeodetic { Latitude : float64; Longitude : float64; Altitude : float64 }.

Record satSwitchJSON := mkSwitchJSON {
  sjEpochTimestamp : Z;
  sjGateway : option geodeticJSON;
  sjTServiceStart : Z;
  sjSSBTimeOffsetSf : Z;
  sjNTNCfg : satSwitchNtnCfgJSON
}.

Record ntnConfigCellJSON := mkCellJSON {
  cjPLMN : string;
  cjNCI : Z;
  cjEpochTimestamp : Z;
  cjUlSyncValidityDur : Z;
  cjEphemerisInfo : ephemerisInfoJSON;
  cjSatSwitch : option satSwitchJSON
}.

Record ntnConfigUpdateEnvelope := mkEnvelope { Cmd : string; Cells : list ntnConfigCellJSON }.

(** ** The keys of the structs, in field order *)

Definition ecef_json (e : ecefJSON) : json :=
  JObj [("position_x", JNum (PositionX e)); ("position_y", JNum (PositionY e));
        ("position_z", JNum (PositionZ e)); ("velocity_vx", JNum (VelocityVX e));
        ("velocity_vy", JNum (VelocityVY e)); ("velocity_vz", JNum (VelocityVZ e))].

Definition orbital_json (o : orbitalJSON) : json :=
  JObj [("semi_major_axis", JNum (jSemiMajorAxis o)); ("eccentricity", JNum (jEccentricity o));
        ("inclination", JNum (jInclination o)); ("longitude", JNum (jLongitude o));
        ("periapsis", JNum (jPeriapsis o)); ("mean_anomaly", JNum (jMeanAnomaly o))].

Definition info_json (i : ephemerisInfoJSON) : json :=
  JObj (optional "ecef" ecef_json (jECEF i) ++ optional "orbital" orbital_json (jOrbital i))%list.

Definition ta_json (t : taInfoJSON) : json :=
  JObj (("ta_common", JNum (jTACommon t)) ::
        optional "ta_common_drift" JNum (jTACommonDrift t) ++
        optional "ta_common_drift_variant" JNum (jTACommonDriftVariant t))%list.

Definition ntn_cfg_json (c : satSwitchNtnCfgJSON) : json :=
  JObj (("ephemeris_info", info_json (ncEphemeris c)) ::
        optional "k_mac" JInt (ncKMac c) ++
        optional "cell_specific_koffset" JInt (ncKoffset c) ++
        optional "ntn_ul_sync_validity_dur" JInt (ncUlSyncValidityDur c) ++
        optional "ta_info" ta_json (ncTAInfo c) ++ optional "ta_report" JBool (ncTAReport c))%list.

Definition geodetic_json (g : geodeticJSON) : json :=
  JObj [("latitude", JNum (Latitude g)); ("longitude", JNum (Longitude g)); ("altitude", JNum (Altitude g))].

Definition sat_switch_json (s : satSwitchJSON) : json :=
  JObj (nonzero "epoch_timestamp" (sjEpochTimestamp s) ++
        optional "ntn_gateway_location" geodetic_json (sjGateway s) ++
        nonzero "t_service_start" (sjTServiceStart s) ++
        nonzero "ssb_time_offset_sf" (sjSSBTimeOffsetSf s) ++
        [("ntn_cfg", ntn_cfg_json (sjNTNCfg s))])%list.

Definition cell_json (c : ntnConfigCellJSON) : json :=
  JObj ([("plmn", JStr (cjPLMN c)); ("nci", JInt (cjNCI c)); ("epoch_timestamp", JInt (cjEpochTimestamp c));
         ("ntn_ul_sync_validity_duration", JInt (cjUlSyncValidityDur c));
         ("ephemeris_info", info_json (cjEphemerisInfo c))] ++
        optional "sat_switch_with_resync" sat_switch_json (cjSatSwitch c))%list.

Definition envelope_json (e : ntnConfigUpdateEnvelope) : json :=
  JObj [("cmd", JStr (Cmd e)); ("cells", JArr (map cell_json (Cells e)))].

(** ** Building the frame *)

Record CellIdentity := mkIdentity { ciPLMN : string; ciNCI : Z }.

Record RuntimeUpdate := mkRuntime {
  ruCell : CellIdentity;
  ruEpochUnixMs : Z;
  ruUlSyncValidityDur : Z;
  ruEphemeris : EphemerisUpdate;
  ruSatSwitch : option SatSwitchWithResync
}.

Definition ntnConfigUpdateCmd : string := "ntn_config_update".

Definition buildEphemerisInfo (e : EphemerisUpdate) : result string ephemerisInfoJSON :=
  match uECEF e, uOrbital e with
  | Some _, Some _ => Err "ephemeris update has both ECEF and orbital data (mutually exclusive)"
  | None, Some o =>
      Ok (mkInfoJSON None (Some (mkOrbitalJSON (f_of_Z (SemiMajorAxis o))
            (scaled (Eccentricity o) eccentricityScale) (scaled (Inclination o) milliDegToRad)
            (scaled (RightAscension o) milliDegToRad) (scaled (ArgOfPeriapsis o) milliDegToRad)
            (scaled (MeanAnomaly o) milliDegToRad))))
  | Some ec, None =>
      Ok (mkInfoJSON (Some (mkEcefJSON (scaled (PosX ec) ECEFPositionStep)
            (scaled (PosY ec) ECEFPositionStep) (scaled (PosZ ec) ECEFPositionStep)
            (scaled (VelX ec) ECEFVelocityStep) (scaled (VelY ec) ECEFVelocityStep)
            (scaled (VelZ ec) ECEFVelocityStep))) None)
  | None, None => Err "ephemeris update has neither ECEF nor orbital data"
  end.

Definition buildTAInfo (ta : TAInfo) : taInfoJSON :=
  mkTaJSON (scaled (taTACommon ta) taCommonStepUs)
    (if (TACommonDrift ta =? 0)%Z then None else Some (scaled (TACommonDrift ta) taCommonDriftStep))
    (if (TACommonDriftVariant ta =? 0)%Z then None
     else Some (scaled (TACommonDriftVariant ta) taCommonDriftVarStep)).

Definition buildSatSwitch (s : SatSwitchWithResync) : result string satSwitchJSON :=
  let c := NTNConfig s in
  match buildEphemerisInfo (mkUpdate (swECEF c) (swOrbital c)) with
  | Err e => Err ("sat_switch_with_resync.ntn_cfg: " +:+ e)
  | Ok info =>
      let cfg := mkNtnCfgJSON info (KMac c)
                   (if (0 <? swKoffset c)%Z then Some (swKoffset c) else None)
                   (swUlSyncValidityDur c) (buildTAInfo <$> swTAInfo c) (swTAReport c) in
      Ok (mkSwitchJSON (swEpochUnixMs s)
            ((fun g => mkGeodetic (scaled (gwLatitude g) oneEMinus4DegToDeg)
                         (scaled (gwLongitude g) oneEMinus4DegToDeg) (f_of_Z (gwAltitude g)))
             <$> swGatewayLocation s)
            (TServiceStartUnixMs s) (SSBTimeOffsetSubframes s) cfg)
  end.

Definition buildNTNConfigUpdate (u : RuntimeUpdate) : result string ntnConfigUpdateEnvelope :=
  match buildEphemerisInfo (ruEphemeris u) with
  | Err e => Err ("runtime update: " +:+ e)
  | Ok info =>
      let cell := mkCellJSON (ciPLMN (ruCell u)) (ciNCI (ruCell u)) (ruEpochUnixMs u)
                    (ruUlSyncValidityDur u) info in
      match ruSatSwitch u with
      | None => Ok (mkEnvelope ntnConfigUpdateCmd [cell None])
      | Some s =>
          match buildSatSwitch s with
          | Err e => Err e
          | Ok ss => Ok (mkEnvelope ntnConfigUpdateCmd [cell (Some ss)])
          end
      end
  end.

(** ** Errors *)

Inductive wsErrorKind := wsUnreachable | wsPayloadTooLarge | wsMarshal | wsRejected | wsHandshakeRejected.

Record wsError := mkWsError { wsKind : wsErrorKind; wsMsg : string }.

Inductive wsRetryPolicy := wsRetryTight | wsRetrySlow | wsRetryNever.

Definition retryPolicy (e : wsError) : wsRetryPolicy :=
  match wsKind e with
  | wsUnreachable => wsRetryTight
  | wsHandshakeRejected => wsRetrySlow
  | wsPayloadTooLarge | wsMarshal | wsRejected => wsRetryNever
  end.

(** ** The exchange *)

Section Session.

(** [tls.Config]. *)
Variable TLS : Type.

Record ResolvedRemoteControl := mkTarget {
  Endpoint : string;
  TLSConfig : option TLS;
  AuthToken : string
}.

(** What the handshake is sent with. *)
Record DialRequest := mkDial {
  drURL : string;
  drTLS : option TLS;
  drAuthorization : option string;
  drFollowRedirects : bool;
  drProxyFromEnvironment : bool
}.

Inductive DialOutcome := Connected | DialFailed (reason : string) (status : option Z).

Record Peer := mkPeer {
  dial : DialRequest -> DialOutcome;
  write : string -> option string;
  read : result string string
}.

(** A handshake, and a frame handed to the connection. *)
Inductive event := Dialed (r : DialRequest) | Sent (payload : string).

(** [json.Unmarshal] into a struct with the field [error]; none is an error. *)
Variable Unmarshal : string -> option string.
Variable IsPrint : N -> bool.

Definition wsMaxPayload : Z := 16 * 1024.

Definition dial_request (target : ResolvedRemoteControl) : DialRequest :=
  match TLSConfig target with
  | None => mkDial ("ws://" +:+ Endpoint target) None None false false
  | Some c =>
      mkDial ("wss://" +:+ Endpoint target) (Some c)
        (if str_eqb (AuthToken target) "" then None else Some ("Bearer " +:+ AuthToken target))
        false false
  end.

(** A dial that failed. *)
Definition handshake_error (endpoint reason : string) (status : option Z) : wsError :=
  match status with
  | None => mkWsError wsUnreachable ("dial " +:+ endpoint +:+ ": " +:+ reason)
  | Some code =>
      if ((500 <=? code) && negb (code =? 501) && negb (code =? 505))%Z then
        mkWsError wsUnreachable ("handshake to " +:+ endpoint +:+ " failed: HTTP " +:+ fmt_d code)
      else if ((code =? 408) || (code =? 425))%Z then
        mkWsError wsUnreachable ("handshake to " +:+ endpoint +:+ " did not complete: HTTP " +:+ fmt_d code)
      else if (code =? 101)%Z then
        mkWsError wsHandshakeRejected
          ("handshake to " +:+ endpoint +:+ " returned HTTP 101 but is not a valid WebSocket upgrade: "
           +:+ reason)
      else mkWsError wsHandshakeRejected ("handshake to " +:+ endpoint +:+ " rejected: HTTP " +:+ fmt_d code)
  end.

Definition pushNTNConfigUpdate (p : Peer) (target : ResolvedRemoteControl) (env : ntnConfigUpdateEnvelope)
  : option wsError * list event :=
  let endpoint := Endpoint target in
  match Marshal (envelope_json env) with
  | Err e => (Some (mkWsError wsMarshal ("marshal ntn_config_update: " +:+ e)), [])
  | Ok payload =>
      if (wsMaxPayload <? Z.of_nat (String.length payload))%Z then
        (Some (mkWsError wsPayloadTooLarge
           ("frame " +:+ fmt_d (Z.of_nat (String.length payload)) +:+ " bytes exceeds OCUDU "
            +:+ fmt_d wsMaxPayload +:+ "-byte cap")), [])
      else
        let req := dial_request target in
        match dial p req with
        | DialFailed reason status => (Some (handshake_error endpoint reason status), [Dialed req])
        | Connected =>
            match write p payload with
            | Some e => (Some (mkWsError wsUnreachable ("write to " +:+ endpoint +:+ ": " +:+ e)),
                         [Dialed req; Sent payload])
            | None =>
                (match read p with
                 | Err e => Some (mkWsError wsUnreachable ("read reply from " +:+ endpoint +:+ ": " +:+ e))
                 | Ok reply =>
                     match Unmarshal reply with
                     | None =>
                         Some (mkWsError wsUnreachable
                           ("unparseable reply from " +:+ endpoint +:+ ": "
                            +:+ yamlQuote IsPrint (take_str 200 reply)))
                     | Some err =>
                         if str_eqb err "" then None
                         else Some (mkWsError wsRejected
                                ("gNB rejected ntn_config_update: " +:+ sanitizeRemoteError err))
                     end
                 end, [Dialed req; Sent payload])
            end
        end
  end.

(** The error values of the package, with the text that follows them. *)
Inductive runtime_error :=
| ErrRuntimeUnsupported
| ErrRuntimePushRejected (detail : string)
| ErrRuntimePushRetryLater (detail : string)
| TransientError (text : string).

Definition PushRuntimeUpdate (p : Peer) (target : ResolvedRemoteControl) (update : RuntimeUpdate)
  : option runtime_error * list event :=
  if str_eqb (Endpoint target) "" then (Some ErrRuntimeUnsupported, [])
  else match buildNTNConfigUpdate update with
       | Err e => (Some (ErrRuntimePushRejected e), [])
       | Ok env =>
           let '(err, tr) := pushNTNConfigUpdate p target env in
           (match err with
            | None => None
            | Some we =>
                Some (match retryPolicy we with
                      | wsRetrySlow => ErrRuntimePushRetryLater (wsMsg we)
                      | wsRetryNever => ErrRuntimePushRejected (wsMsg we)
                      | wsRetryTight => TransientError (wsMsg we)
                      end)
            end, tr)
       end.

(** * Properties *)

(** The statuses that ask for the same request again, and server failures that
    pass. *)
Definition passing_status (code : Z) : Prop :=
  (500 <= code /\ code <> 501 /\ code <> 505)%Z \/ code = 408%Z \/ code = 425%Z.

Lemma handshake_policy endpoint reason status :
  (retryPolicy (handshake_error endpoint reason status) = wsRetrySlow /\
     exists code, status = Some code /\ ~ passing_status code) \/
  (retryPolicy (handshake_error endpoint reason status) = wsRetryTight /\
     forall code, status = Some code -> passing_status code).
Proof.
  unfold handshake_error, passing_status. destruct status as [code|]; [|right; split; [done|]; done].
  destruct (Z.leb_spec 500 code), (Z.eqb_spec code 501), (Z.eqb_spec code 505),
    (Z.eqb_spec code 408), (Z.eqb_spec code 425), (Z.eqb_spec code 101); cbn;
    first [left; split; [done|]; exists code; split; [done|]; lia
          |right; split; [done|]; intros ? [= <-]; lia].
Qed.

(** How far an exchange gets with a frame. *)
Definition frame_of (u : RuntimeUpdate) : option string :=
  match buildNTNConfigUpdate u with
  | Err _ => None
  | Ok env =>
      match Marshal (envelope_json env) with
      | Err _ => None
      | Ok payload => if (wsMaxPayload <? Z.of_nat (String.length payload))%Z then None else Some payload
      end
  end.

(** The answer of the gNB to a frame. *)
Definition answer (p : Peer) (payload : string) : option string :=
  match write p payload, read p with
  | None, Ok reply => Unmarshal reply
  | _, _ => None
  end.

Definition scheduled (w : wsRetryPolicy) (t : string) : runtime_error :=
  match w with
  | wsRetrySlow => ErrRuntimePushRetryLater t
  | wsRetryNever => ErrRuntimePushRejected t
  | wsRetryTight => TransientError t
  end.

(** The result of a push in terms of its frame, the handshake and the answer. *)
Lemma push_cases p target u :
  Endpoint target <> "" ->
  let out := fst (PushRuntimeUpdate p target u) in
  match frame_of u, dial p (dial_request target) with
  | None, _ => exists t, out = Some (ErrRuntimePushRejected t)
  | Some _, DialFailed r st =>
      out = Some (scheduled (retryPolicy (handshake_error (Endpoint target) r st))
                    (wsMsg (handshake_error (Endpoint target) r st)))
  | Some f, Connected =>
      match answer p f with
      | None => exists t, out = Some (TransientError t)
      | Some e => if str_eqb e "" then out = None else exists t, out = Some (ErrRuntimePushRejected t)
      end
  end.
Proof.
  intros He. cbv zeta. unfold PushRuntimeUpdate, frame_of, answer, pushNTNConfigUpdate.
  rewrite (proj2 (str_eqb_neq _ _) He).
  destruct (buildNTNConfigUpdate u) as [env|e]; [|by eexists].
  destruct (Marshal (envelope_json env)) as [payload|e]; [|by eexists].
  destruct (wsMaxPayload <? _)%Z; [by eexists|].
  destruct (dial p (dial_request target)) as [|reason status]; [|done].
  destruct (write p payload); [by eexists|].
  destruct (read p) as [reply|]; [|by eexists].
  destruct (Unmarshal reply) as [err|]; [|by eexists].
  destruct (str_eqb err ""); [done|by eexists].
Qed.

(** C28. Every failure of a runtime push gets the schedule its remedy calls for:
    it is final exactly when the update has no valid frame or the gNB answered
    it with an error, both mended by a watched change; it is polled slowly
    exactly when the endpoint answered the handshake with a definitive status;
    it succeeds exactly when the gNB received the frame and acknowledged it; and
    everything else is retried at once. *)
Theorem runtime_push_classified p target u :
  Endpoint target <> "" ->
  let out := fst (PushRuntimeUpdate p target u) in
  let d := dial p (dial_request target) in
  (out = None <-> exists f, frame_of u = Some f /\ d = Connected /\ answer p f = Some "") /\
  ((exists t, out = Some (ErrRuntimePushRejected t)) <->
     frame_of u = None \/ exists f e, frame_of u = Some f /\ d = Connected /\ answer p f = Some e /\ e <> "") /\
  ((exists t, out = Some (ErrRuntimePushRetryLater t)) <->
     frame_of u <> None /\ exists r code, d = DialFailed r (Some code) /\ ~ passing_status code) /\
  out <> Some ErrRuntimeUnsupported.
Proof.
  intros He. cbv zeta. pose proof (push_cases p target u He) as H. cbv zeta in H.
  destruct (frame_of u) as [f|]; [|naive_solver].
  destruct (dial p (dial_request target)) as [|reason status].
  - destruct (answer p f) as [e|] eqn:Ea; [|naive_solver].
    destruct (str_eqb e "") eqn:E; [apply str_eqb_eq in E|apply str_eqb_neq in E]; naive_solver.
  - destruct (handshake_policy (Endpoint target) reason status) as [[Hp Hs]|[Hp Hs]];
      rewrite Hp in H; cbn [scheduled] in H; naive_solver.
Qed.

(** C37. The credential is confined: an exchange makes at most one handshake,
    which follows no redirect and uses no proxy of the environment; the bearer
    token travels only under the target's TLS configuration to a wss URL of the
    configured endpoint; and the only thing sent is the frame of the update,
    after the handshake. *)
Theorem credential_confined p target u :
  let tr := snd (PushRuntimeUpdate p target u) in
  (forall r, Dialed r ∈ tr ->
     drFollowRedirects r = false /\ drProxyFromEnvironment r = false /\
     (drTLS r = None -> drAuthorization r = None) /\
     (forall t, drAuthorization r = Some t ->
        t = "Bearer " +:+ AuthToken target /\ drTLS r = TLSConfig target /\
        drURL r = "wss://" +:+ Endpoint target)) /\
  (tr = [] \/ tr = [Dialed (dial_request target)] \/
   exists f, frame_of u = Some f /\ tr = [Dialed (dial_request target); Sent f]).
Proof.
  cbv zeta.
  assert (Htr : let tr := snd (PushRuntimeUpdate p target u) in
    tr = [] \/ tr = [Dialed (dial_request target)] \/
    exists f, frame_of u = Some f /\ tr = [Dialed (dial_request target); Sent f]).
  { unfold PushRuntimeUpdate, frame_of, pushNTNConfigUpdate.
    destruct (str_eqb _ _); [by left|].
    destruct (buildNTNConfigUpdate u) as [env|]; [|by left].
    destruct (Marshal _) as [payload|]; [|by left].
    destruct (wsMaxPayload <? _)%Z; [by left|].
    destruct (dial p _); [|by right; left].
    destruct (write p payload); right; right; eauto. }
  split; [|exact Htr]. cbv zeta in Htr.
  assert (Hreq : forall r, Dialed r ∈ snd (PushRuntimeUpdate p target u) -> r = dial_request target).
  { intros r Hr. destruct Htr as [E|[E|(f & _ & E)]]; rewrite E in Hr;
      repeat (apply elem_of_cons in Hr as [Hr|Hr]; [congruence|]); by apply elem_of_nil in Hr. }
  intros r ->%Hreq. unfold dial_request. destruct (TLSConfig target) as [c|]; cbn; [|done].
  destruct (str_eqb (AuthToken target) ""); split_and!; try done; intros t Ht; by simplify_eq.
Qed.

End Session.

(** ** Remote error text *)

Lemma clean_runes_spec len l :
  Forall good l -> (len <= 1027)%nat ->
  let b := (clean_runes len l).1 in
  Forall plain b /\ (len + byte_len b <= 1027)%nat.
Proof.
  intros Hl. revert len. induction Hl as [|r l Hr _ IH]; intros len Hlen; cbn [clean_runes].
  { split; [constructor|]. cbn. lia. }
  destruct (Nat.leb_spec maxRemoteErrorBytes len) as [|Hlt]; [split; [constructor|cbn; lia]|].
  unfold maxRemoteErrorBytes in Hlt.
  set (w := if IsControl r.1 then [space_rune] else if Cf r.1 then [] else [r]).
  assert (Hw : Forall plain w /\ (byte_len w <= 4)%nat).
  { unfold w. destruct (IsControl r.1) eqn:E1; [|destruct (Cf r.1) eqn:E2].
    - split; [repeat constructor; apply space_good|cbn; lia].
    - split; [constructor|cbn; lia].
    - split; [constructor; [done|constructor]|]. rewrite byte_len_cons. destruct Hr as [_ [_ H4]]. cbn. lia. }
  destruct Hw as [Hw Hw4]. destruct (IH (len + byte_len w)%nat) as [H1 H2]; [lia|].
  destruct (clean_runes (len + byte_len w) l) as [out t]. cbn [fst] in *.
  rewrite byte_len_app. split; [by apply Forall_app|lia].
Qed.

(** Text from the gNB is harmless in conditions, events and logs: whatever
    bytes it sends, what is embedded is never empty and at most 1039 bytes long,
    and none of its runes is a control or format character or white space
    other than a blank. *)
Theorem remote_error_tame s :
  let out := sanitizeRemoteError s in
  out <> "" /\ (String.length out <= 1039)%nat /\ Forall tame (runes 0 out).
Proof.
  cbv zeta. unfold sanitizeRemoteError.
  destruct (clean_runes_spec 0 (runes 0 s) (runes_good 0 s)) as [Hb Hlen]; [lia|].
  destruct (clean_runes 0 (runes 0 s)) as [b t]. cbn [fst] in *.
  destruct (fields_tame b Hb) as (j & -> & Hj & Ht).
  assert (Hjg : Forall good j) by (eapply Forall_impl; [exact Ht|]; naive_solver).
  assert (Hjt : Forall tame j) by (eapply Forall_impl; [exact Ht|]; naive_solver).
  set (suffix := runes 0 " (truncated)").
  assert (Hs : Forall tame suffix) by (apply tame_check; vm_compute; reflexivity).
  assert (Hout : exists o, (if t then encode j +:+ " (truncated)" else encode j) = encode o /\
      Forall good o /\ Forall tame o /\ (byte_len o <= 1039)%nat).
  { destruct t; [|exists j; split_and!; auto; lia]. exists (j ++ suffix)%list.
    rewrite encode_app, byte_len_app. change (byte_len suffix) with 12%nat.
    split_and!; [done|by apply Forall_app; split; [|apply runes_good]|by apply Forall_app|lia]. }
  destruct Hout as (o & -> & Hog & Hot & Hol). destruct (str_eqb (encode o) "") eqn:E.
  - split; [done|]. split; [cbn; lia|]. apply tame_check. vm_compute. reflexivity.
  - apply str_eqb_neq in E. split; [done|]. rewrite runes_encode by done. done.
Qed.

(** ** The frame and the document *)

Definition data_numbers (e : ephemeris_data) : list float64 :=
  match e with
  | OrbitalData a b c d e f => [f_of_Z a; b; c; d; e; f]
  | EcefData a b c d e f => [a; b; c; d; e; f]
  end.

Definition info_numbers (i : ephemerisInfoJSON) : list float64 :=
  match jECEF i, jOrbital i with
  | Some e, None => [PositionX e; PositionY e; PositionZ e; VelocityVX e; VelocityVY e; VelocityVZ e]
  | None, Some o => [jSemiMajorAxis o; jEccentricity o; jInclination o; jLongitude o; jPeriapsis o; jMeanAnomaly o]
  | _, _ => []
  end.

Definition data_drift (d : configData) : float64 * float64 :=
  match dTAExtended d with Some (a, b, _) => (a, b) | None => (f_zero, f_zero) end.

Lemma overrides_keep d spec :
  dTACommon (applyCellOverrides d spec) = dTACommon d /\
  dTAExtended (applyCellOverrides d spec) = dTAExtended d /\
  dGateway (applyCellOverrides d spec) = dGateway d.
Proof. unfold applyCellOverrides. by destruct (csCellOverrides spec). Qed.

Lemma collect_gateway spec :
  dGateway (collect spec) =
  option_map (fun g => (degrees (gwLatitude g) (gwLongitude g), gwAltitude g)) (ntnGateway (csNTN spec)).
Proof.
  unfold collect. rewrite (proj2 (proj2 (overrides_keep _ _))).
  cbn [applyStage3Fields applyOptionalNTNFields dGateway].
  replace (dGateway (applyTAInfo (baseConfigData spec) spec)) with (@None (float64 * float64 * Z))
    by (unfold applyTAInfo; by destruct (ntnTAInfo (csNTN spec))).
  by destruct (ntnGateway (csNTN spec)).
Qed.

Lemma collect_ta spec ta :
  ntnTAInfo (csNTN spec) = Some ta ->
  dTACommon (collect spec) = jTACommon (buildTAInfo ta) /\
  data_drift (collect spec) =
    (default f_zero (jTACommonDrift (buildTAInfo ta)), default f_zero (jTACommonDriftVariant (buildTAInfo ta))).
Proof.
  intros Hta. unfold data_drift, collect. destruct (overrides_keep
    (applyStage3Fields (applyOptionalNTNFields (applyTAInfo (baseConfigData spec) spec) spec) spec) spec)
    as (-> & -> & _).
  cbn [applyStage3Fields applyOptionalNTNFields dTACommon dTAExtended]. unfold applyTAInfo. rewrite Hta.
  cbn [dTACommon dTAExtended baseConfigData buildTAInfo jTACommon jTACommonDrift jTACommonDriftVariant].
  split; [done|].
  destruct (Z.eqb_spec (TACommonDrift ta) 0) as [E1|], (Z.eqb_spec (TACommonDriftVariant ta) 0) as [E2|],
    (Z.eqb_spec (TACommonOffset ta) 0); cbn [negb orb default]; rewrite ?E1, ?E2; reflexivity.
Qed.

(** The live frame and the static document agree: when a document can be
    generated for a specification, a switch to the same satellite (the same
    ephemeris, timing advance and gateway) has a frame, and position, velocity,
    orbit, timing advance, its drifts and the gateway are the same numbers in
    both, as is the ephemeris of the serving cell. *)
Theorem wire_matches_document spec s d :
  swECEF (NTNConfig s) = ntnECEF (csNTN spec) -> swOrbital (NTNConfig s) = ntnOrbital (csNTN spec) ->
  swTAInfo (NTNConfig s) = ntnTAInfo (csNTN spec) -> swGatewayLocation s = ntnGateway (csNTN spec) ->
  applyEphemeris (collect spec) spec = Ok d ->
  exists ss, buildSatSwitch s = Ok ss /\
    buildEphemerisInfo (mkUpdate (ntnECEF (csNTN spec)) (ntnOrbital (csNTN spec))) = Ok (ncEphemeris (sjNTNCfg ss)) /\
    info_numbers (ncEphemeris (sjNTNCfg ss)) = data_numbers (dEphemeris d) /\
    (forall ta, ncTAInfo (sjNTNCfg ss) = Some ta ->
       jTACommon ta = dTACommon d /\
       (default f_zero (jTACommonDrift ta), default f_zero (jTACommonDriftVariant ta)) = data_drift d) /\
    option_map (fun g => (Latitude g, Longitude g, Altitude g)) (sjGateway ss) =
    option_map (fun '(lat, lon, alt) => (lat, lon, f_of_Z alt)) (dGateway d).
Proof.
  intros H1 H2 H3 H4 Hd. unfold buildSatSwitch, applyEphemeris in *. rewrite H1, H2, H3, H4.
  assert (Hrest : forall e, (forall ta, buildTAInfo <$> ntnTAInfo (csNTN spec) = Some ta ->
       jTACommon ta = dTACommon (set_ephemeris (collect spec) e) /\
       (default f_zero (jTACommonDrift ta), default f_zero (jTACommonDriftVariant ta)) =
         data_drift (set_ephemeris (collect spec) e)) /\
    dGateway (set_ephemeris (collect spec) e) = dGateway (collect spec)).
  { intros e. split; [|done]. intros ta. destruct (ntnTAInfo (csNTN spec)) as [t|] eqn:Ht; [|done].
    intros [= <-]. destruct (collect_ta spec t Ht) as [Ha Hb].
    change (data_drift (set_ephemeris (collect spec) e)) with (data_drift (collect spec)). by rewrite Hb. }
  destruct (ntnECEF (csNTN spec)) as [ec|], (ntnOrbital (csNTN spec)) as [o|]; try done;
    injection Hd as <-; (eexists; split; [reflexivity|]; split; [reflexivity|]; split; [reflexivity|]);
    cbn [sjNTNCfg ncTAInfo sjGateway];
    match goal with |- context [set_ephemeris _ ?e] => destruct (Hrest e) as [Hta Hg] end;
    (split; [exact Hta|]); rewrite Hg, collect_gateway; by destruct (ntnGateway (csNTN spec)).
Qed.

(** ** Witnesses *)

Definition demo_runtime : RuntimeUpdate :=
  mkRuntime (mkIdentity "00101" 6733824) 1700000000000 240 (mkUpdate (Some (mkECEF 32432423 0 (-5) 1 0 0)) None) None.

(** Double quotes for apostrophes. *)
Definition quoted (s : string) : string := replace_all [("'", str1 dq)] 0 s.

Example demo_frame :
  frame_of demo_runtime = Some (quoted
    ("{'cmd':'ntn_config_update','cells':[{'plmn':'00101','nci':6733824," +:+
     "'epoch_timestamp':1700000000000,'ntn_ul_sync_validity_duration':240," +:+
     "'ephemeris_info':{'ecef':{'position_x':42162149.9,'position_y':0,'position_z':-6.5," +:+
     "'velocity_vx':0.06,'velocity_vy':0,'velocity_vz':0}}}]}")).
Proof. vm_compute. reflexivity. Qed.

Definition demo_target : ResolvedRemoteControl unit := mkTarget unit "gnb:8001" (Some tt) "secret".

Definition demo_peer (status : option Z) : Peer unit :=
  mkPeer unit (fun _ => DialFailed "refused" status) (fun _ => None) (Ok "{}").

Lemma runtime_push_classified_witness :
  exists t, fst (PushRuntimeUpdate unit (fun _ => Some "") (fun _ => true) (demo_peer (Some 401%Z)) demo_target
    demo_runtime) = Some (ErrRuntimePushRetryLater t).
Proof.
  destruct (runtime_push_classified unit (fun _ => Some "") (fun _ => true) (demo_peer (Some 401%Z)) demo_target
    demo_runtime ltac:(discriminate)) as (_ & _ & [_ H] & _).
  apply H. split; [vm_compute; discriminate|]. exists "refused", 401%Z. split; [reflexivity|].
  unfold passing_status. lia.
Defined.

Definition demo_switch : SatSwitchWithResync :=
  mkSwitch (mkSwitchConfig (Some (mkECEF 32432423 0 0 0 0 0)) None None 0 None None None) 0 0 0 None.

Lemma wire_matches_document_witness :
  exists ss, buildSatSwitch demo_switch = Ok ss.
Proof.
  destruct (applyEphemeris (collect (demo_ntn "transparent" None)) (demo_ntn "transparent" None))
    as [d|] eqn:E; [|discriminate E].
  destruct (wire_matches_document (demo_ntn "transparent" None) demo_switch d eq_refl eq_refl eq_refl eq_refl E)
    as (ss & H & _).
  exists ss. exact H.
Defined.

Example remote_error_samples :
  map sanitizeRemoteError [""; "bad" +:+ str1 newline +:+ " config  x"; string_of_bytes [97; 226; 128; 174; 98]%N] =
  ["(no detail)"; "bad config x"; "ab"].
Proof. vm_compute. reflexivity. Qed.
