(* ===== verification/CellController.v ===== *)
(** * The NTNCellConfig controller

    Models [src/internal/controller/ntncellconfig_controller.go]: the classification
    of push failures, the gates in front of a runtime push, the resolution of
    the remote-control credential, the push markers, the SIB19 cadence
    advisory, the finalizer and [Reconcile] as a whole.

    The provider is a record of operations ([NTNProvider], the interface of
    [src/pkg/provider/interface.go]) on a backend state of any type, so the
    theorems hold for every provider; [ocudu_provider] in [CellOcudu] is the one
    the program registers.  A reconcile is a function of the exported series, of
    the backend and of what the API server answers ([CellEnv]). *)

From S2P Require Import Prelude GoStrings GoTime GoNet GoJson GoFloat K8sMeta NetGuard CellApi OcuduConfig EphemerisApi OcuduWire.
From Stdlib Require Import Ascii.
Local Open Scope string_scope.
Local Arguments String.append !_ _ /.

#[export] Instance NTNCellConfigStatus_eq_dec : EqDecision NTNCellConfigStatus.
Proof. solve_decision. Defined.

Definition ConditionConfigApplied := "ConfigApplied".
Definition ConditionEphemerisPushed := "EphemerisPushed".
Definition ConditionSIB19CadenceSane := "SIB19CadenceSane".

(** ** Push failures *)

Definition ephemerisReasonPushFailed := "PushFailed".
Definition ephemerisReasonRefNotFound := "EphemerisRefNotFound".
Definition ephemerisReasonGetFailed := "EphemerisGetFailed".
Definition ephemerisReasonPayloadMissing := "EphemerisPayloadMissing".
Definition ephemerisReasonProviderPushFailed := "ProviderPushFailed".
Definition ephemerisReasonProviderPushRejected := "ProviderPushRejected".
Definition ephemerisReasonEphemerisStale := "EphemerisStale".
Definition ephemerisReasonRemoteControlCredential := "RemoteControlCredentialUnavailable".
Definition ephemerisReasonRemoteControlEndpointNotAllowed := "RemoteControlEndpointNotAllowed".
Definition ephemerisReasonRemoteEndpointRejected := "RemoteEndpointRejected".
Definition ephemerisReasonSelectionAmbiguous := "EphemerisSelectionAmbiguous".
Definition ephemerisReasonInputsStale := "EphemerisInputsStale".

Record ephemerisPushError := mkPushError { peReason : string; peText : string }.

Definition ephemerisPushConditionReason (e : ephemerisPushError) : string :=
  if str_eqb (peReason e) "" then ephemerisReasonPushFailed else peReason e.

Definition ephemerisPushShouldRequeue (reason : string) : bool :=
  negb (bool_decide (reason ∈
    [ephemerisReasonRefNotFound; ephemerisReasonPayloadMissing; ephemerisReasonEphemerisStale;
     ephemerisReasonInputsStale; ephemerisReasonProviderPushRejected])).

Definition remoteControlConfigRequeue : Duration := (5 * Minute)%Z.

Definition ephemerisPushRequeueInterval (reason : string) : Duration :=
  if bool_decide (reason ∈
    [ephemerisReasonRemoteControlCredential; ephemerisReasonRemoteControlEndpointNotAllowed;
     ephemerisReasonRemoteEndpointRejected])
  then remoteControlConfigRequeue else Minute.

Definition errRemoteControlCredentialUnavailable :=
  "referenced remote-control credential is unavailable or not authorized".
Definition errRemoteControlEndpointNotAllowed :=
  "remoteControl endpoint is not in the operator's remote-control allow-list".

(** [err.Error()] of a runtime push. *)
Definition runtime_error_text (e : runtime_error) : string :=
  match e with
  | ErrRuntimeUnsupported => "runtime NTN config push is not supported for this target"
  | ErrRuntimePushRejected d => "runtime NTN config push permanently rejected: " +:+ d
  | ErrRuntimePushRetryLater d => "runtime NTN config push refused by the remote endpoint: " +:+ d
  | TransientError t => t
  end.

(** ** The provider interface *)

(** [tls.Config] as the controller fills it. *)
Record TLSConf := mkTLSConf {
  tcServerName : string;
  tcRootCAs : option string;
  tcCertificate : option (string * string)
}.

(** A failed [ApplyCellConfig]: [errors.Is(err, ErrConfigMapNotOwned)] and the text. *)
Record apply_failure := mkApplyFailure { afNotOwned : bool; afText : string }.

Record NTNProvider (W : Type) := mkNTNProvider {
  prov_Apply : W -> NTNCellConfig -> NTNCellConfigSpec -> option apply_failure * W;
  prov_Status : W -> NTNCellConfig -> result string NTNCellConfigStatus;
  prov_PushEphemeris : W -> NTNCellConfig -> EphemerisUpdate -> option string * W;
  prov_PushRuntime : W -> ResolvedRemoteControl TLSConf -> RuntimeUpdate -> option runtime_error * W;
  prov_Cleanup : W -> NTNCellConfig -> option string * W
}.
Arguments mkNTNProvider {W}.
Arguments prov_Apply {W}.
Arguments prov_Status {W}.
Arguments prov_PushEphemeris {W}.
Arguments prov_PushRuntime {W}.
Arguments prov_Cleanup {W}.

(** ** Propagated states *)

Definition uniquePropagatedNorads (states : list PropagatedState) : nat :=
  length (remove_dups (map psNoradID states)).

Definition selectPropagatedState (states : list PropagatedState) (noradID : option Z)
  : option PropagatedState :=
  match states, noradID with
  | [], _ => None
  | s :: _, None => Some s
  | _, Some n => List.find (fun s => (psNoradID s =? n)%Z) states
  end.

(** ** Timing *)

Definition epochSkewMargin : Duration := (10 * Second)%Z.
Definition radioFrameDuration : Duration := (10 * Millisecond)%Z.
Definition defaultSIB19PeriodFrames : Z := 16.
Definition defaultNTNUlSyncValidityDurSeconds : Z := 5.

Definition effectiveUlSyncValidityDurSeconds (spec : NTNCellConfigSpec) : Z :=
  default defaultNTNUlSyncValidityDurSeconds (NTNUlSyncValidityDur (csNTN spec)).

Definition sib19_frames (spec : NTNCellConfigSpec) : Z :=
  match csCellOverrides spec with
  | Some o => match coSIBSchedule o with
              | Some s => if (0 <? SIPeriod s)%Z then SIPeriod s else defaultSIB19PeriodFrames
              | None => defaultSIB19PeriodFrames
              end
  | None => defaultSIB19PeriodFrames
  end.

Definition sib19CadenceWarning (spec : NTNCellConfigSpec) : string :=
  let validity := wrap64 (effectiveUlSyncValidityDurSeconds spec * Second) in
  let frames := sib19_frames spec in
  let period := wrap64 (frames * radioFrameDuration) in
  if (validity <? wrap64 (2 * period))%Z then
    let src := match NTNUlSyncValidityDur (csNTN spec) with
               | None => ", operator default (ntnUlSyncValidityDur unset)"
               | Some _ => ""
               end in
    "SIB19 broadcast period (siPeriod=" +:+ fmt_d frames +:+ " frames = " +:+ duration_string period
    +:+ ") leaves fewer than two broadcasts inside the ntn-UlSyncValidityDur window ("
    +:+ duration_string validity +:+ src
    +:+ "): a UE may fail to re-acquire SIB19 before UL-sync validity expires and then lose UL synchronization. Reduce siPeriod or increase ntnUlSyncValidityDur."
  else "".

Definition providerReanchorsSIB19Epoch (providerType : string) : bool := str_eqb providerType "ocudu".

Definition sib19EpochReanchored (spec : NTNCellConfigSpec) : bool :=
  match SIB19EpochMode (csProvider spec) with
  | Some m => str_eqb m "reanchored"
  | None => providerReanchorsSIB19Epoch (prType (csProvider spec))
  end.

(** [err.Error()] of the epoch rules. *)
Definition epoch_error_text (e : epoch_error) : string :=
  match e with
  | ImplausiblyFuture src now =>
      "source element epoch " +:+ format_rfc3339 src +:+ " is implausibly future-dated (more than "
      +:+ duration_string maxSourceEpochFutureSkew +:+ " ahead of " +:+ format_rfc3339 now +:+ ")"
  | TooOld src age =>
      "source element epoch " +:+ format_rfc3339 src +:+ " is "
      +:+ duration_string (duration_round age Second) +:+ " old, beyond the "
      +:+ duration_string maxEpochAge +:+ " freshness bound (drifting)"
  end.

(** ** Markers and digests *)

Definition ephemerisPushMarker (eph : SatelliteEphemeris) : string :=
  let lastUpdated := match LastUpdated (ephStatus eph) with
                     | Some t => format_rfc3339nano t
                     | None => "none"
                     end in
  "ephemerisRef=" +:+ Name (ephMeta eph) +:+ " generation=" +:+ fmt_d (Generation (ephMeta eph))
  +:+ " lastUpdated=" +:+ lastUpdated.

Definition nul : string := str1 (byte_of 0).

(** The content the runtime marker is a digest of. *)
Definition marker_content (eph : SatelliteEphemeris) (state : PropagatedState) : string :=
  let e := psECEF state in
  Join (oUID (ephMeta eph) :: fmt_d (Generation (ephMeta eph)) :: PropagatedStatesInputHash (ephStatus eph)
        :: map fmt_d [psNoradID state; psEpochUnixMs state; psSourceEpochUnixMs state;
                      PosX e; PosY e; PosZ e; VelX e; VelY e; VelZ e]) nul.

(** The JSON text of a pending switch ([encoding/json] on the API types). *)
Definition ecef_intent (e : EphemerisECEF) : json :=
  JObj ([("posX", JInt (PosX e)); ("posY", JInt (PosY e)); ("posZ", JInt (PosZ e))] ++
        nonzero "velX" (VelX e) ++ nonzero "velY" (VelY e) ++ nonzero "velZ" (VelZ e))%list.

Definition orbital_intent (o : EphemerisOrbital) : json :=
  JObj [("semiMajorAxis", JInt (SemiMajorAxis o)); ("eccentricity", JInt (Eccentricity o));
        ("inclination", JInt (Inclination o)); ("rightAscension", JInt (RightAscension o));
        ("argOfPeriapsis", JInt (ArgOfPeriapsis o)); ("meanAnomaly", JInt (MeanAnomaly o))].

Definition ta_intent (t : TAInfo) : json :=
  JObj (("taCommon", JInt (taTACommon t)) :: nonzero "taCommonDrift" (TACommonDrift t) ++
        nonzero "taCommonDriftVariant" (TACommonDriftVariant t) ++
        nonzero "taCommonOffset" (TACommonOffset t))%list.

Definition gateway_intent (g : NTNGatewayLocation) : json :=
  JObj [("latitude", JInt (gwLatitude g)); ("longitude", JInt (gwLongitude g));
        ("altitude", JInt (gwAltitude g))].

Definition switch_config_intent (c : SatSwitchNTNConfig) : json :=
  JObj (optional "ephemerisECEF" ecef_intent (swECEF c) ++
        optional "ephemerisOrbital" orbital_intent (swOrbital c) ++
        optional "kMac" JInt (KMac c) ++ nonzero "cellSpecificKoffset" (swKoffset c) ++
        optional "ntnUlSyncValidityDur" JInt (swUlSyncValidityDur c) ++
        optional "taInfo" ta_intent (swTAInfo c) ++ optional "taReport" JBool (swTAReport c))%list.

Definition switch_intent (s : SatSwitchWithResync) : json :=
  JObj (("ntnConfig", switch_config_intent (NTNConfig s)) ::
        nonzero "epochUnixMs" (swEpochUnixMs s) ++
        nonzero "tServiceStartUnixMs" (TServiceStartUnixMs s) ++
        nonzero "ssbTimeOffsetSubframes" (SSBTimeOffsetSubframes s) ++
        optional "gatewayLocation" gateway_intent (swGatewayLocation s))%list.

(** ** The controller *)

(** A ConfigMap as the finalizer reads it: its UID and who controls it. *)
Record ConfigMapView := mkCMView { cvUID : UID; cvControlledBy : UID -> bool }.

Section Controller.
Context `{SC : StatusConditions} {W : Type}.

(** Libraries: case folding and URLs of the allow-list,
    PEM and key-pair validity, header values, SHA-256 in hexadecimal,
    [unicode.IsPrint]. *)
Variable unicode_lower : string -> string.
Variable url_parse : string -> option URL.
Variable pem_ok : string -> bool.
Variable keypair_ok : string -> string -> bool.
Variable ValidHeaderFieldValue : string -> bool.
Variable sha256hex : string -> string.
Variable IsPrint : N -> bool.

(** The text of a not-found error. *)
Variable not_found_text : NamespacedName -> string.

(** The client on ConfigMaps, for the finalizer. *)
Variable cm_get : W -> NamespacedName -> GetResult ConfigMapView.
Variable cm_delete : W -> NamespacedName -> UID -> option string * W.

(** The reconciler's fields. *)
Variable Providers : option (gmap string (NTNProvider W)).
Variable RemoteControlAllowedHosts : EndpointAllowlist.

Definition runtimeEphemerisPushMarker (eph : SatelliteEphemeris) (state : PropagatedState) : string :=
  "norad=" +:+ fmt_d (psNoradID state) +:+ " epoch=" +:+ fmt_d (psEpochUnixMs state)
  +:+ " digest=" +:+ sha256hex (marker_content eph state).

Definition satSwitchIntentDigest (s : SatSwitchWithResync) : string :=
  match Marshal (switch_intent s) with
  | Ok b => sha256hex b
  | Err _ => "marshal-error"
  end.

(** ** The credential *)

Inductive credential_error :=
| SecretUnreadable
| KubernetesCredential
| NotOptedIn
| InvalidCA
| TokenWithoutCA
| MissingKeyPair
| InvalidKeyPair
| TokenTooLong
| InvalidToken.

Definition remoteControlCredentialLabel := "ntn.operators.dev/remote-control-credential".
Definition SecretTypeServiceAccountToken := "kubernetes.io/service-account-token".
Definition secretTypeBootstrapToken := "bootstrap.kubernetes.io/token".
Definition maxRemoteControlTokenBytes : Z := 8 * 1024.

Definition data_of (s : Secret) (k : string) : string := default "" (secData s !! k).

(** What a Secret that was read makes of the TLS settings. *)
Definition secret_tls (rc : RemoteControlRef) (t : RemoteControlTLS) (s : Secret)
  : result credential_error (option TLSConf * string) :=
  if str_eqb (secType s) SecretTypeServiceAccountToken || str_eqb (secType s) secretTypeBootstrapToken
  then Err KubernetesCredential
  else if negb (str_eqb (default "" (secLabels s !! remoteControlCredentialLabel)) "true") then Err NotOptedIn
  else
    let serverName :=
      if negb (str_eqb (ServerName t) "") then ServerName t
      else match SplitHostPort (rcEndpoint rc) with Some (host, _) => host | None => "" end in
    let ca := data_of s "ca.crt" in
    let token := data_of s "token" in
    if negb (str_eqb ca "") && negb (pem_ok ca) then Err InvalidCA
    else if str_eqb ca "" && negb (str_eqb token "") then Err TokenWithoutCA
    else
      let crt := data_of s "tls.crt" in
      let key := data_of s "tls.key" in
      let mtls := str_eqb (tlsMode t) "mtls" in
      if mtls && (str_eqb crt "" || str_eqb key "") then Err MissingKeyPair
      else if mtls && negb (keypair_ok crt key) then Err InvalidKeyPair
      else if negb (str_eqb token "") && (maxRemoteControlTokenBytes <? Z.of_nat (String.length token))%Z
      then Err TokenTooLong
      else if negb (str_eqb token "") && negb (ValidHeaderFieldValue ("Bearer " +:+ token))
      then Err InvalidToken
      else Ok (Some (mkTLSConf serverName (if str_eqb ca "" then None else Some ca)
                 (if mtls then Some (crt, key) else None)), token).

Definition resolveRemoteControlTLS (get : NamespacedName -> GetResult Secret) (namespace : string)
  (rc : RemoteControlRef) : result credential_error (option TLSConf * string) :=
  match rcTLS rc with
  | None => Ok (None, "")
  | Some t =>
      match get (mkKey namespace (SecretName t)) with
      | Found s => secret_tls rc t s
      | _ => Err SecretUnreadable
      end
  end.

(** ** Status *)

Definition map_cell_status (f : NTNCellConfigStatus -> NTNCellConfigStatus) (cc : NTNCellConfig) : NTNCellConfig :=
  mkCell (cellMeta cc) (cellSpec cc) (f (cellStatus cc)).

Definition set_applied_koffset (k : Z) : NTNCellConfig -> NTNCellConfig :=
  map_cell_status (fun st =>
    mkCellStatus k (ConfigMapRef st) (LastPushedSatSwitchDigest st) (cellConditions st)).

Definition set_config_map_ref (r : string) : NTNCellConfig -> NTNCellConfig :=
  map_cell_status (fun st =>
    mkCellStatus (AppliedKoffset st) r (LastPushedSatSwitchDigest st) (cellConditions st)).

Definition set_switch_digest (d : string) : NTNCellConfig -> NTNCellConfig :=
  map_cell_status (fun st => mkCellStatus (AppliedKoffset st) (ConfigMapRef st) d (cellConditions st)).

Definition set_cell_conditions (l : list Condition) : NTNCellConfig -> NTNCellConfig :=
  map_cell_status (fun st =>
    mkCellStatus (AppliedKoffset st) (ConfigMapRef st) (LastPushedSatSwitchDigest st) l).

Definition conditions_of (cc : NTNCellConfig) : list Condition := cellConditions (cellStatus cc).

Definition set_cell_condition (cc : NTNCellConfig) (ty : string) (s : ConditionStatus) (r msg : string)
  : NTNCellConfig :=
  set_cell_conditions
    (SetStatusCondition (conditions_of cc) (mkCond ty s r msg (Generation (cellMeta cc)))) cc.

(** The value [meta.SetStatusCondition] returns. *)
Definition condition_changes (cc : NTNCellConfig) (ty : string) (s : ConditionStatus) (r msg : string) : bool :=
  negb (bool_decide (FindStatusCondition (conditions_of cc) ty =
                     Some (mkCond ty s r msg (Generation (cellMeta cc))))).

Definition remove_cell_condition (cc : NTNCellConfig) (ty : string) : NTNCellConfig :=
  set_cell_conditions (RemoveStatusCondition (conditions_of cc) ty) cc.

Definition isEphemerisPushUpToDate (cc : NTNCellConfig) (marker : string) : bool :=
  match FindStatusCondition (conditions_of cc) ConditionEphemerisPushed with
  | None => false
  | Some c =>
      bool_decide (cStatus c = ConditionTrue) &&
      (cObservedGeneration c =? Generation (cellMeta cc))%Z && str_eqb (cMessage c) marker
  end.

(** ** The answers of the API server and the clocks of one reconcile *)

Record CellEnv := mkCellEnv {
  ceCell : GetResult NTNCellConfig;
  ceEphemeris : NamespacedName -> GetResult SatelliteEphemeris;
  ceSecret : NamespacedName -> GetResult Secret;
  ceUpdate : option string;        (* the error of Update *)
  ceStatusUpdate : option string;  (* the error of Status().Update *)
  ceEpochNow : Time;               (* the clock of the epoch gate *)
  ceSourceNow : Time;              (* the clock of the source gates *)
  cePointer : string               (* the address a pointer prints as *)
}.

(** ** The runtime push *)

(** The gates of [pushRuntimeEphemeris]: a failure, nothing to do, or the
    request with the digest to record. *)
Inductive push_plan :=
| PlanFail (e : ephemerisPushError)
| PlanUpToDate (marker : string)
| PlanPush (marker : string) (target : ResolvedRemoteControl TLSConf) (update : RuntimeUpdate)
    (switchDigest : string).

(** The state to deliver, or why there is none. *)
Definition choose_state (spec : NTNCellConfigSpec) (eph : SatelliteEphemeris) (pointer : string)
  : result ephemerisPushError PropagatedState :=
  let states := PropagatedStates (ephStatus eph) in
  let name := yamlQuote IsPrint (Name (ephMeta eph)) in
  let norad := csEphemerisNoradID spec in
  if negb (str_eqb (PropagatedStatesInputHash (ephStatus eph))
                   (propagationInputHash sha256hex IsPrint (ephSpec eph)))
  then Err (mkPushError ephemerisReasonInputsStale
         ("SatelliteEphemeris " +:+ name +:+ " propagatedStates were computed under different propagation inputs than the current spec; awaiting re-propagation"))
  else if match norad with None => (1 <? uniquePropagatedNorads states)%nat | Some _ => false end
  then Err (mkPushError ephemerisReasonSelectionAmbiguous
         ("SatelliteEphemeris " +:+ name +:+ " exposes "
          +:+ fmt_d (Z.of_nat (uniquePropagatedNorads states))
          +:+ " satellites but this NTNCellConfig sets no spec.ephemerisNoradID; set it to select which satellite to push"))
  else match selectPropagatedState states norad with
       | Some s => Ok s
       | None =>
           Err (mkPushError ephemerisReasonPayloadMissing
             ("no propagated state in SatelliteEphemeris " +:+ name +:+ " for noradID selector "
              +:+ match norad with None => "<nil>" | Some _ => pointer end
              +:+ if IsStatusConditionTrue (esConditions (ephStatus eph)) ConditionUnsupportedOrbitRegime
                  then " (the referenced SatelliteEphemeris reports UnsupportedOrbitRegime: deep-space element sets are rejected because the near-earth SGP4 propagator cannot handle them)"
                  else ""))
       end.

(** The currency gates on a chosen state. *)
Definition currency_error (eph : SatelliteEphemeris) (state : PropagatedState) (env : CellEnv)
  : option ephemerisPushError :=
  let src := UnixMilli (psSourceEpochUnixMs state) in
  let satellite := "selected satellite " +:+ fmt_d (psNoradID state) +:+ ": " in
  if (psEpochUnixMs state <=? to_unix_milli (Add (ceEpochNow env) epochSkewMargin))%Z then
    Some (mkPushError ephemerisReasonEphemerisStale
      ("propagated epoch for " +:+ yamlQuote IsPrint (Name (ephMeta eph)) +:+ " ("
       +:+ fmt_d (psEpochUnixMs state)
       +:+ ") is not sufficiently in the future; awaiting SatelliteEphemeris refresh"))
  else match sourceEpochPlausible (ceSourceNow env) src with
       | Some e => Some (mkPushError ephemerisReasonEphemerisStale
                           (satellite +:+ epoch_error_text e +:+ "; refusing"))
       | None =>
           match sourceEpochFresh (ceSourceNow env) src with
           | Some e => Some (mkPushError ephemerisReasonEphemerisStale
                               (satellite +:+ epoch_error_text e +:+ "; awaiting SatelliteEphemeris refresh"))
           | None => None
           end
       end.

Definition switch_digest (spec : NTNCellConfigSpec) : string :=
  match ntnSatSwitch (csNTN spec) with Some s => satSwitchIntentDigest s | None => "" end.

Definition runtime_update (cc : NTNCellConfig) (spec : NTNCellConfigSpec) (id : CellID)
  (state : PropagatedState) : RuntimeUpdate :=
  mkRuntime (mkIdentity (PLMN id) (NCI id mod 2 ^ 64)) (psEpochUnixMs state)
    (effectiveUlSyncValidityDurSeconds spec) (mkUpdate (Some (psECEF state)) None)
    (match ntnSatSwitch (csNTN spec) with
     | Some s => if str_eqb (satSwitchIntentDigest s) (LastPushedSatSwitchDigest (cellStatus cc))
                 then None else Some s
     | None => None
     end).

Definition runtime_plan (cc : NTNCellConfig) (spec : NTNCellConfigSpec) (rc : RemoteControlRef)
  (id : CellID) (eph : SatelliteEphemeris) (env : CellEnv) : push_plan :=
  match choose_state spec eph (cePointer env) with
  | Err e => PlanFail e
  | Ok state =>
      let marker := runtimeEphemerisPushMarker eph state in
      match currency_error eph state env with
      | Some e => PlanFail e
      | None =>
          if isEphemerisPushUpToDate cc marker then PlanUpToDate marker
          else match Check unicode_lower url_parse RemoteControlAllowedHosts ("https://" +:+ rcEndpoint rc) with
               | Some _ => PlanFail (mkPushError ephemerisReasonRemoteControlEndpointNotAllowed
                                       errRemoteControlEndpointNotAllowed)
               | None =>
                   match resolveRemoteControlTLS (ceSecret env) (Namespace (ephMeta eph)) rc with
                   | Err _ => PlanFail (mkPushError ephemerisReasonRemoteControlCredential
                                          errRemoteControlCredentialUnavailable)
                   | Ok (tlsConfig, authToken) =>
                       PlanPush marker (mkTarget TLSConf (rcEndpoint rc) tlsConfig authToken)
                         (runtime_update cc spec id state) (switch_digest spec)
                   end
               end
      end
  end.

Definition runtime_failure_reason (e : runtime_error) : string :=
  match e with
  | ErrRuntimePushRejected _ => ephemerisReasonProviderPushRejected
  | ErrRuntimePushRetryLater _ => ephemerisReasonRemoteEndpointRejected
  | _ => ephemerisReasonProviderPushFailed
  end.

(** Whether something was pushed, with the marker; the object and the backend. *)
Definition pushRuntimeEphemeris (w : W) (cc : NTNCellConfig) (spec : NTNCellConfigSpec)
  (rc : RemoteControlRef) (id : CellID) (eph : SatelliteEphemeris) (prov : NTNProvider W) (env : CellEnv)
  : result ephemerisPushError (bool * string) * NTNCellConfig * W :=
  match runtime_plan cc spec rc id eph env with
  | PlanFail e => (Err e, cc, w)
  | PlanUpToDate marker => (Ok (false, marker), cc, w)
  | PlanPush marker target update digest =>
      match prov_PushRuntime prov w target update with
      | (Some e, w) =>
          (Err (mkPushError (runtime_failure_reason e)
                  ("provider PushRuntimeUpdate: " +:+ runtime_error_text e)), cc, w)
      | (None, w) => (Ok (true, marker), set_switch_digest digest cc, w)
      end
  end.

(** The ConfigMap path: rewrite the document with the ephemeris of the spec. *)
Definition push_static (w : W) (cc : NTNCellConfig) (spec : NTNCellConfigSpec) (eph : SatelliteEphemeris)
  (prov : NTNProvider W) : result ephemerisPushError (bool * string) * NTNCellConfig * W :=
  let marker := ephemerisPushMarker eph in
  if isEphemerisPushUpToDate cc marker then (Ok (false, marker), cc, w)
  else
    match (match ntnOrbital (csNTN spec), ntnECEF (csNTN spec) with
           | Some o, _ => Some (mkUpdate None (Some o))
           | None, Some e => Some (mkUpdate (Some e) None)
           | None, None => None
           end) with
    | None =>
        (Err (mkPushError ephemerisReasonPayloadMissing "ephemeris payload missing in NTNCellConfig spec"), cc, w)
    | Some u =>
        match prov_PushEphemeris prov w cc u with
        | (Some e, w) =>
            (Err (mkPushError ephemerisReasonProviderPushFailed ("provider PushEphemerisUpdate: " +:+ e)), cc, w)
        | (None, w) => (Ok (true, marker), cc, w)
        end
    end.

Definition pushEphemerisUpdateIfNeeded (w : W) (cc : NTNCellConfig) (spec : NTNCellConfigSpec)
  (prov : NTNProvider W) (env : CellEnv)
  : result ephemerisPushError (bool * string) * NTNCellConfig * W :=
  if str_eqb (csEphemerisRef spec) "" then (Ok (false, ""), cc, w)
  else
    let getting := "getting referenced SatelliteEphemeris " +:+ yamlQuote IsPrint (csEphemerisRef spec) +:+ ": " in
    let ephKey := mkKey (Namespace (cellMeta cc)) (csEphemerisRef spec) in
    match ceEphemeris env ephKey with
    | NotFound => (Err (mkPushError ephemerisReasonRefNotFound (getting +:+ not_found_text ephKey)), cc, w)
    | GetError e => (Err (mkPushError ephemerisReasonGetFailed (getting +:+ e)), cc, w)
    | Found eph =>
        match prRemoteControl (csProvider spec), csCellID spec with
        | Some rc, Some id => pushRuntimeEphemeris w cc spec rc id eph prov env
        | _, _ => push_static w cc spec eph prov
        end
    end.

(** ** The SIB19 advisory *)

Definition cadence_sane_message :=
  "SIB19 broadcast cadence margin is within ntnUlSyncValidityDur; runtime epoch and ephemeris-push headroom are not evaluated by this condition".

(** The warning, whether it opens an episode, and the object. *)
Definition applySIB19CadenceCondition (cc : NTNCellConfig) (spec : NTNCellConfigSpec)
  : string * bool * NTNCellConfig :=
  if negb (sib19EpochReanchored spec) then ("", false, remove_cell_condition cc ConditionSIB19CadenceSane)
  else
    let warn := sib19CadenceWarning spec in
    if negb (str_eqb warn "") then
      (warn,
       conditionEpisodeChanged (FindStatusCondition (conditions_of cc) ConditionSIB19CadenceSane)
         ConditionFalse "InsufficientSIB19Margin" (Generation (cellMeta cc)),
       set_cell_condition cc ConditionSIB19CadenceSane ConditionFalse "InsufficientSIB19Margin" warn)
    else
      (warn, false,
       set_cell_condition cc ConditionSIB19CadenceSane ConditionTrue "WithinValidity" cadence_sane_message).

Definition emitSIB19CadenceWarning (warn : string) (episodeChanged : bool) : list deferredEvent :=
  if episodeChanged && negb (str_eqb warn "") then [mkEvent EventTypeWarning "SIB19CadenceRisk" warn] else [].

Definition emitConfigApplied (spec : NTNCellConfigSpec) : list deferredEvent :=
  mkEvent EventTypeNormal "ConfigApplied"
    ("Applied NTN config (koffset=" +:+ fmt_d (CellSpecificKoffset (csNTN spec)) +:+ ") via "
     +:+ prType (csProvider spec)) ::
  match ntnSatSwitch (csNTN spec), prRemoteControl (csProvider spec), csCellID spec with
  | None, _, _ | Some _, Some _, Some _ => []
  | _, _, _ =>
      [mkEvent EventTypeWarning "SatSwitchIgnored"
         "satSwitchWithResync (incl. k_mac) requires remoteControl+cellID; ignored on the ConfigMap path"]
  end.

(** ** Series, memory and outcome *)

Record CellWorld := mkCellWorld {
  cwBackend : W;
  ConfigApplyErrorsTotal : gmap (string * string * string) Z;    (* namespace, config, provider *)
  ConfigApplyReady : gmap (string * string) Z;
  EphemerisPushErrorsTotal : gmap (string * string * string) Z;  (* namespace, config, reason *)
  EphemerisPushReady : gmap (string * string) Z;
  cwRecorded : list (NamespacedName * deferredEvent)
}.

Record CellOutcome := mkCellOutcome {
  coWorld : CellWorld;
  coObject : option NTNCellConfig;
  coStatus : option NTNCellConfigStatus;
  coResult : result string (option Duration)
}.

Definition with_backend (w : CellWorld) (b : W) : CellWorld :=
  mkCellWorld b (ConfigApplyErrorsTotal w) (ConfigApplyReady w) (EphemerisPushErrorsTotal w)
    (EphemerisPushReady w) (cwRecorded w).

Definition cell_labels (cc : NTNCellConfig) : string * string := (Namespace (cellMeta cc), Name (cellMeta cc)).

Definition set_apply_ready (cc : NTNCellConfig) (v : Z) (w : CellWorld) : CellWorld :=
  mkCellWorld (cwBackend w) (ConfigApplyErrorsTotal w) (<[cell_labels cc := v]> (ConfigApplyReady w))
    (EphemerisPushErrorsTotal w) (EphemerisPushReady w) (cwRecorded w).

Definition set_push_ready (cc : NTNCellConfig) (v : option Z) (w : CellWorld) : CellWorld :=
  mkCellWorld (cwBackend w) (ConfigApplyErrorsTotal w) (ConfigApplyReady w) (EphemerisPushErrorsTotal w)
    (match v with
     | Some v => <[cell_labels cc := v]> (EphemerisPushReady w)
     | None => delete (cell_labels cc) (EphemerisPushReady w)
     end) (cwRecorded w).

Definition inc {K} `{Countable K} (k : K) (m : gmap K Z) : gmap K Z := <[k := (default 0 (m !! k) + 1)%Z]> m.

Definition count_apply_error (cc : NTNCellConfig) (provider : string) (w : CellWorld) : CellWorld :=
  mkCellWorld (cwBackend w) (inc (cell_labels cc, provider) (ConfigApplyErrorsTotal w)) (ConfigApplyReady w)
    (EphemerisPushErrorsTotal w) (EphemerisPushReady w) (cwRecorded w).

Definition count_push_error (cc : NTNCellConfig) (reason : string) (w : CellWorld) : CellWorld :=
  mkCellWorld (cwBackend w) (ConfigApplyErrorsTotal w) (ConfigApplyReady w)
    (inc (cell_labels cc, reason) (EphemerisPushErrorsTotal w)) (EphemerisPushReady w) (cwRecorded w).

Definition record (cc : NTNCellConfig) (es : list deferredEvent) (w : CellWorld) : CellWorld :=
  mkCellWorld (cwBackend w) (ConfigApplyErrorsTotal w) (ConfigApplyReady w) (EphemerisPushErrorsTotal w)
    (EphemerisPushReady w) (cwRecorded w ++ map (pair (ObjectKeyFromObject (cellMeta cc))) es)%list.

(** [DeletePartialMatch] on all four series of a cell. *)
Definition drop_series (cc : NTNCellConfig) (w : CellWorld) : CellWorld :=
  let mine (k : string * string) := k <> cell_labels cc in
  mkCellWorld (cwBackend w)
    (filter (fun kv => mine kv.1.1) (ConfigApplyErrorsTotal w))
    (delete (cell_labels cc) (ConfigApplyReady w))
    (filter (fun kv => mine kv.1.1) (EphemerisPushErrorsTotal w))
    (delete (cell_labels cc) (EphemerisPushReady w)) (cwRecorded w).

(** [persistStatusIfChanged]: the status that was written, if any. *)
Definition persistStatusIfChanged (env : CellEnv) (oldStatus status : NTNCellConfigStatus)
  : result string (option NTNCellConfigStatus) :=
  if bool_decide (oldStatus = status) then Ok None
  else match ceStatusUpdate env with
       | None => Ok (Some status)
       | Some e => Err e
       end.

(** Persist, then do what may only follow a durable status. *)
Definition persist_then (env : CellEnv) (oldStatus : NTNCellConfigStatus) (cc : NTNCellConfig)
  (w : CellWorld) (after : CellWorld -> CellWorld) (requeue : option Duration) : CellOutcome :=
  match persistStatusIfChanged env oldStatus (cellStatus cc) with
  | Err e => mkCellOutcome w None None (Err e)
  | Ok written => mkCellOutcome (after w) None written (Ok requeue)
  end.

(** ** The finalizer *)

Definition finalizerName := "ntn.operators.dev/configmap-cleanup".

Definition with_cell_finalizers (cc : NTNCellConfig) (l : list string) : NTNCellConfig :=
  let m := cellMeta cc in
  mkCell (mkMeta (Namespace m) (Name m) (oUID m) (Generation m) (DeletionTimestamp m) l (Annotations m))
    (cellSpec cc) (cellStatus cc).

Definition drop_finalizer (cc : NTNCellConfig) : NTNCellConfig :=
  with_cell_finalizers cc
    (List.filter (fun f => negb (str_eqb f finalizerName)) (Finalizers (cellMeta cc))).

Definition update_object (env : CellEnv) (w : CellWorld) (cc : NTNCellConfig) (requeue : option Duration)
  : CellOutcome :=
  match ceUpdate env with
  | None => mkCellOutcome w (Some cc) None (Ok requeue)
  | Some e => mkCellOutcome w None None (Err e)
  end.

(** Cleanup without a provider, by the recorded ConfigMap name. *)
Definition best_effort_cleanup (w : W) (cc : NTNCellConfig) : option string * W :=
  if str_eqb (ConfigMapRef (cellStatus cc)) "" then (None, w)
  else
    let key := mkKey (Namespace (cellMeta cc)) (ConfigMapRef (cellStatus cc)) in
    match cm_get w key with
    | NotFound => (None, w)
    | GetError e => (Some e, w)
    | Found cm =>
        if cvControlledBy cm (oUID (cellMeta cc)) then cm_delete w key (cvUID cm) else (None, w)
    end.

Definition handleFinalizer (w : CellWorld) (cc : NTNCellConfig) (prov : option (NTNProvider W)) (env : CellEnv)
  : option CellOutcome :=
  if deletion_set (cellMeta cc) then
    let w := drop_series cc w in
    if bool_decide (finalizerName ∈ Finalizers (cellMeta cc)) then
      let '(err, b) := match prov with
                       | None => best_effort_cleanup (cwBackend w) cc
                       | Some p => prov_Cleanup p (cwBackend w) cc
                       end in
      let w := with_backend w b in
      Some (match err with
            | Some e => mkCellOutcome w None None (Err e)
            | None => update_object env w (drop_finalizer cc) None
            end)
    else Some (mkCellOutcome w None None (Ok None))
  else if bool_decide (finalizerName ∈ Finalizers (cellMeta cc)) then None
  else Some (update_object env w
         (with_cell_finalizers cc (Finalizers (cellMeta cc) ++ [finalizerName])%list) (Some Second)).

(** ** Reconcile *)

(** [spec.Provider.Namespace = cc.Namespace]. *)
Definition enforced_spec (cc : NTNCellConfig) : NTNCellConfigSpec :=
  let s := cellSpec cc in
  let p := csProvider s in
  mkCellSpec (mkProviderRef (prType p) (Namespace (cellMeta cc)) (prRemoteControl p) (prEndpoint p) (SIB19EpochMode p))
    (csNTN s) (csCellOverrides s) (csEphemerisRef s) (csCellID s) (csEphemerisNoradID s).

Definition reconcile_no_provider (w : CellWorld) (cc : NTNCellConfig) (env : CellEnv)
  (reason msg : string) (requeue : option Duration) : CellOutcome :=
  let old := cellStatus cc in
  let cc := set_cell_condition (set_applied_koffset 0 cc) ConditionConfigApplied ConditionFalse reason msg in
  persist_then env old cc (set_apply_ready cc 0 w) id requeue.

Definition reconcile_apply_failed (w : CellWorld) (cc : NTNCellConfig) (spec : NTNCellConfigSpec)
  (e : apply_failure) (env : CellEnv) : CellOutcome :=
  let old := cellStatus cc in
  let reason := if afNotOwned e then "OwnershipConflict" else "ApplyFailed" in
  let episode := conditionEpisodeChanged (FindStatusCondition (conditions_of cc) ConditionConfigApplied)
                   ConditionFalse reason (Generation (cellMeta cc)) in
  let w := set_apply_ready cc 0 (count_apply_error cc (prType (csProvider spec)) w) in
  let cc := set_cell_condition (set_applied_koffset 0 cc) ConditionConfigApplied ConditionFalse reason (afText e) in
  persist_then env old cc w
    (record cc (if episode then [mkEvent EventTypeWarning reason (afText e)] else [])) (Some Minute).

Definition reconcile_unverified (w : CellWorld) (cc : NTNCellConfig) (e : string) (env : CellEnv) : CellOutcome :=
  let old := cellStatus cc in
  let cc := set_cell_condition cc ConditionConfigApplied ConditionUnknown "StatusCheckFailed"
              ("Config applied but status verification failed: " +:+ e) in
  persist_then env old cc (set_apply_ready cc 0 w) id (Some Minute).

Definition applied_message (spec : NTNCellConfigSpec) : string :=
  "NTN config applied via " +:+ prType (csProvider spec) +:+ " provider".

(** A failed push, after the configuration was applied; [events] are the ones
    the application gave rise to. *)
Definition reconcile_push_failed (w : CellWorld) (old : NTNCellConfigStatus) (cc : NTNCellConfig)
  (e : ephemerisPushError) (events : list deferredEvent) (env : CellEnv) : CellOutcome :=
  let reason := ephemerisPushConditionReason e in
  let episode := conditionEpisodeChanged (FindStatusCondition (conditions_of cc) ConditionEphemerisPushed)
                   ConditionFalse reason (Generation (cellMeta cc)) in
  let cc := set_cell_condition cc ConditionEphemerisPushed ConditionFalse reason (peText e) in
  persist_then env old cc w
    (fun w => record cc
       (if episode then [mkEvent EventTypeWarning "EphemerisPushFailed" (peText e)] else [])
       (set_push_ready cc (Some 0%Z) (count_push_error cc reason (record cc events w))))
    (if ephemerisPushShouldRequeue reason then Some (ephemerisPushRequeueInterval reason) else None).

(** Steps 6b to 8: the configuration is applied and verified. *)
Definition reconcile_applied (w : CellWorld) (cc : NTNCellConfig) (spec : NTNCellConfigSpec)
  (prov : NTNProvider W) (status : NTNCellConfigStatus) (env : CellEnv) : CellOutcome :=
  let old := cellStatus cc in
  let cc := set_config_map_ref (ConfigMapRef status) (set_applied_koffset (AppliedKoffset status) cc) in
  let w := set_apply_ready cc 1 w in
  let changed := condition_changes cc ConditionConfigApplied ConditionTrue "Applied" (applied_message spec) in
  let cc := set_cell_condition cc ConditionConfigApplied ConditionTrue "Applied" (applied_message spec) in
  let '(warn, episode, cc) := applySIB19CadenceCondition cc spec in
  let events := ((if changed then emitConfigApplied spec else []) ++ emitSIB19CadenceWarning warn episode)%list in
  if str_eqb (csEphemerisRef (cellSpec cc)) "" then
    let cc := remove_cell_condition cc ConditionEphemerisPushed in
    persist_then env old cc (set_push_ready cc None w) (record cc events) (Some (5 * Minute)%Z)
  else
    match pushEphemerisUpdateIfNeeded (cwBackend w) cc spec prov env with
    | (Err e, cc, b) => reconcile_push_failed (with_backend w b) old cc e events env
    | (Ok (pushed, marker), cc, b) =>
        let cc := if pushed
                  then set_cell_condition cc ConditionEphemerisPushed ConditionTrue "Pushed" marker else cc in
        persist_then env old cc (set_push_ready cc (Some 1%Z) (with_backend w b)) (record cc events)
          (Some (5 * Minute)%Z)
    end.

Definition reconcile_cell (w : CellWorld) (cc : NTNCellConfig) (prov : NTNProvider W) (env : CellEnv)
  : CellOutcome :=
  let spec := enforced_spec cc in
  match prov_Apply prov (cwBackend w) cc spec with
  | (Some e, b) => reconcile_apply_failed (with_backend w b) cc spec e env
  | (None, b) =>
      let w := with_backend w b in
      match prov_Status prov b cc with
      | Err e => reconcile_unverified w cc e env
      | Ok status => reconcile_applied w cc spec prov status env
      end
  end.

Definition provider_of (cc : NTNCellConfig) : option (NTNProvider W) :=
  match Providers with Some m => m !! prType (csProvider (cellSpec cc)) | None => None end.

Definition Reconcile (w : CellWorld) (env : CellEnv) : CellOutcome :=
  match ceCell env with
  | NotFound => mkCellOutcome w None None (Ok None)
  | GetError e => mkCellOutcome w None None (Err e)
  | Found cc =>
      match handleFinalizer w cc (provider_of cc) env with
      | Some out => out
      | None =>
          match Providers, provider_of cc with
          | None, _ =>
              reconcile_no_provider w cc env "InternalError" "NTN provider registry is not configured" (Some Minute)
          | Some _, None =>
              reconcile_no_provider w cc env "UnsupportedProvider"
                ("Provider type " +:+ yamlQuote IsPrint (prType (csProvider (cellSpec cc))) +:+ " is not registered")
                None
          | Some _, Some prov => reconcile_cell w cc prov env
          end
      end
  end.

(** ** Fan-out *)

Definition indexNTNCellConfigByEphemerisRef (cc : NTNCellConfig) : list string :=
  if str_eqb (csEphemerisRef (cellSpec cc)) "" then [] else [csEphemerisRef (cellSpec cc)].

(** [ephemerisToNTNCellConfig]; [listed] is the answer of the indexed lookup. *)
Definition ephemerisToNTNCellConfig (eph : SatelliteEphemeris)
  (listed : string -> string -> option (list NTNCellConfig)) : list NamespacedName :=
  match listed (Namespace (ephMeta eph)) (Name (ephMeta eph)) with
  | None => []
  | Some items => map (fun cc => ObjectKeyFromObject (cellMeta cc)) items
  end.

End Controller.

(** * Properties *)

(** ** Markers *)

Lemma fmt_d_without c z :
  is_digit c = false -> c <> "-"%char -> without c (fmt_d z) = true.
Proof.
  intros Hd Hm.
  assert (H : forall s, str_all is_digit s = true -> without c s = true).
  { induction s as [|a s IH]; [done|]. unfold without. cbn [str_all].
    intros [Hc Hs]%andb_true_iff. apply andb_true_iff. split; [|by apply IH].
    destruct (Ascii.eqb_spec a c) as [->|]; [congruence|done]. }
  destruct z as [|p|p]; cbn [fmt_d]; [by apply H|by apply H, fmt_N_digits|].
  rewrite without_app. apply andb_true_iff. split; [|by apply H, fmt_N_digits].
  unfold without. cbn [str_all]. rewrite andb_true_r. apply negb_true_iff, Ascii.eqb_neq. congruence.
Qed.

Lemma sep_inj c a b r r' :
  without c a = true -> without c b = true -> a +:+ String c r = b +:+ String c r' -> a = b /\ r = r'.
Proof.
  intros Ha Hb H. assert (E : a = b).
  { apply (f_equal (split_byte c)) in H. rewrite !split_byte_app in H by done. congruence. }
  subst b. split; [done|]. apply app_str_inv_head in H. congruence.
Qed.

(** A runtime marker identifies what was delivered: two markers are equal
    only for the same satellite and epoch, and then, unless SHA-256 collides on
    the two contents, for the same object, generation, inputs, source epoch,
    position and velocity; so an up-to-date marker never hides a new state. *)
Theorem marker_identifies_state sha256hex eph eph' s s' :
  without (byte_of 0) (oUID (ephMeta eph)) = true -> without (byte_of 0) (oUID (ephMeta eph')) = true ->
  without (byte_of 0) (PropagatedStatesInputHash (ephStatus eph)) = true ->
  without (byte_of 0) (PropagatedStatesInputHash (ephStatus eph')) = true ->
  runtimeEphemerisPushMarker sha256hex eph s = runtimeEphemerisPushMarker sha256hex eph' s' ->
  (marker_content eph s <> marker_content eph' s' /\
     sha256hex (marker_content eph s) = sha256hex (marker_content eph' s')) \/
  (oUID (ephMeta eph) = oUID (ephMeta eph') /\ Generation (ephMeta eph) = Generation (ephMeta eph') /\
   PropagatedStatesInputHash (ephStatus eph) = PropagatedStatesInputHash (ephStatus eph') /\
   psNoradID s = psNoradID s' /\ psEpochUnixMs s = psEpochUnixMs s' /\
   psSourceEpochUnixMs s = psSourceEpochUnixMs s' /\ psECEF s = psECEF s').
Proof.
  intros U1 U2 I1 I2 H. unfold runtimeEphemerisPushMarker in H.
  assert (Hsp : forall z, without " " (fmt_d z) = true) by (intros z; by apply fmt_d_without).
  apply app_str_inv_head in H.
  apply sep_inj in H as [Hn%fmt_d_inj H]; [|done..]. injection H as H.
  apply sep_inj in H as [He%fmt_d_inj H]; [|done..]. injection H as H.
  destruct (decide (marker_content eph s = marker_content eph' s')) as [Hc|]; [|by left]. right. clear H.
  unfold marker_content in Hc. apply (f_equal (split_byte (byte_of 0))) in Hc.
  assert (Hz : forall z, without (byte_of 0) (fmt_d z) = true) by (intros z; by apply fmt_d_without).
  unfold nul in Hc. rewrite !split_byte_Join in Hc by (done || (repeat constructor; auto)).
  cbn [map] in Hc. injection Hc as Hu Hg%fmt_d_inj Hi _ _ Hse%fmt_d_inj Hx%fmt_d_inj Hy%fmt_d_inj Hzz%fmt_d_inj
    Hvx%fmt_d_inj Hvy%fmt_d_inj Hvz%fmt_d_inj.
  split_and!; try done. destruct (psECEF s), (psECEF s'). cbn in *. congruence.
Qed.

(** ** The SIB19 advisory *)

(** The SIB19 advisory is exact: for every validity and schedule the API
    admits, it warns exactly when two broadcast periods do not fit into the
    validity the UE is given, computed without overflow; and a cell that leaves
    the schedule to its default is never warned. *)
Theorem sib19_warning_exact spec :
  (5 <= effectiveUlSyncValidityDurSeconds spec <= 900)%Z -> (sib19_frames spec <= 10000)%Z ->
  (sib19CadenceWarning spec <> "" <->
     (2 * sib19_frames spec > 100 * effectiveUlSyncValidityDurSeconds spec)%Z) /\
  (sib19_frames spec = defaultSIB19PeriodFrames -> sib19CadenceWarning spec = "").
Proof.
  intros Hv Hf. assert (Hf0 : (0 < sib19_frames spec)%Z).
  { unfold sib19_frames. destruct (csCellOverrides spec) as [o|]; [|done].
    destruct (coSIBSchedule o) as [s|]; [|done]. by destruct (Z.ltb_spec 0 (SIPeriod s)). }
  unfold sib19CadenceWarning, radioFrameDuration, Second, Millisecond.
  rewrite (wrap64_id (sib19_frames spec * _)) by (unfold int64_min, int64_max; lia).
  rewrite !wrap64_id by (unfold int64_min, int64_max; lia).
  destruct (Z.ltb_spec (effectiveUlSyncValidityDurSeconds spec * 1000000000) (2 * (sib19_frames spec * (10 * 1000000)))).
  - split; [split; [lia|done]|]. unfold defaultSIB19PeriodFrames. lia.
  - split; [split; [done|lia]|done].
Qed.
