(* ===== verification/CellSafety.v ===== *)
(** * Theorems about the NTNCellConfig controller

    What the gates in front of a runtime push guarantee, that nothing of a
    Secret that cannot be used is observable, that a satellite switch is sent
    once, that gauges, events and the finalizer tell the truth, and what a
    reconcile through the OCUDU provider leaves in the cluster. *)

From S2P Require Import Prelude GoStrings GoTime GoNet GoJson GoFloat K8sMeta NetGuard CellApi OcuduConfig EphemerisApi OcuduWire CellController.
Local Open Scope string_scope.
Local Arguments String.append !_ _ /.

Section Safety.
Context `{SC : StatusConditions} {W : Type}.
Variable unicode_lower : string -> string.
Variable url_parse : string -> option URL.
Variable pem_ok : string -> bool.
Variable keypair_ok : string -> string -> bool.
Variable ValidHeaderFieldValue : string -> bool.
Variable sha256hex : string -> string.
Variable IsPrint : N -> bool.
Variable not_found_text : NamespacedName -> string.
Variable cm_get : W -> NamespacedName -> GetResult ConfigMapView.
Variable cm_delete : W -> NamespacedName -> UID -> option string * W.
Variable Providers : option (gmap string (NTNProvider W)).
Variable AllowedHosts : EndpointAllowlist.

Abbreviation resolve := (resolveRemoteControlTLS pem_ok keypair_ok ValidHeaderFieldValue).
Abbreviation plan := (runtime_plan unicode_lower url_parse pem_ok keypair_ok
  ValidHeaderFieldValue sha256hex IsPrint AllowedHosts).
Abbreviation push_runtime := (pushRuntimeEphemeris (W := W) unicode_lower url_parse pem_ok
  keypair_ok ValidHeaderFieldValue sha256hex IsPrint AllowedHosts).
Abbreviation push := (pushEphemerisUpdateIfNeeded (W := W) unicode_lower url_parse pem_ok
  keypair_ok ValidHeaderFieldValue sha256hex IsPrint not_found_text AllowedHosts).
Abbreviation applied := (reconcile_applied (W := W) unicode_lower url_parse pem_ok keypair_ok
  ValidHeaderFieldValue sha256hex IsPrint not_found_text AllowedHosts).
Abbreviation reconcile_with := (reconcile_cell (W := W) unicode_lower url_parse pem_ok
  keypair_ok ValidHeaderFieldValue sha256hex IsPrint not_found_text AllowedHosts).
Abbreviation reconcile := (Reconcile (W := W) unicode_lower url_parse pem_ok keypair_ok
  ValidHeaderFieldValue sha256hex IsPrint not_found_text cm_get cm_delete Providers AllowedHosts).

(** ** What is pushed *)

(** A Secret its owner has opted in, which is no credential of the cluster. *)
Definition usable_secret (s : Secret) : Prop :=
  secLabels s !! remoteControlCredentialLabel = Some "true" /\
  secType s <> SecretTypeServiceAccountToken /\ secType s <> secretTypeBootstrapToken.

Lemma secret_tls_ok rc t s conf token :
  secret_tls pem_ok keypair_ok ValidHeaderFieldValue rc t s = Ok (conf, token) ->
  usable_secret s /\ token = data_of s "token" /\
  exists c, conf = Some c /\
    (token <> "" -> exists ca, tcRootCAs c = Some ca /\ ca <> "" /\ ca = data_of s "ca.crt" /\ pem_ok ca = true).
Proof.
  unfold secret_tls, usable_secret.
  destruct (str_eqb (secType s) SecretTypeServiceAccountToken) eqn:E1; [done|].
  destruct (str_eqb (secType s) secretTypeBootstrapToken) eqn:E2; [done|]. cbn [orb].
  destruct (str_eqb (default "" _) "true") eqn:E3; [|done]. cbn [negb].
  apply str_eqb_neq in E1, E2. apply str_eqb_eq in E3.
  destruct (str_eqb (data_of s "ca.crt") "") eqn:Eca, (pem_ok (data_of s "ca.crt")) eqn:Epem,
    (str_eqb (data_of s "token") "") eqn:Etok; cbn [negb andb]; try done.
  all: destruct (str_eqb (tlsMode t) "mtls" && _); [done|].
  all: destruct (str_eqb (tlsMode t) "mtls" && _); [done|].
  all: try (destruct (_ <? _)%Z; [done|]); try (destruct (negb _); [done|]).
  all: intros [= <- <-]; split.
  all: try (split_and!; [destruct (secLabels s !! _); cbn in E3; congruence|done|done]).
  all: split; [done|]; eexists; split; [done|].
  all: try (apply str_eqb_eq in Etok; intros H; congruence).
  all: apply str_eqb_neq in Eca; intros _; eexists; cbn; by repeat split.
Qed.

Lemma norads_single states s :
  (uniquePropagatedNorads states <= 1)%nat -> s ∈ states ->
  Forall (fun s' => psNoradID s' = psNoradID s) states.
Proof.
  unfold uniquePropagatedNorads. intros Hle Hs. apply Forall_forall. intros s' Hs'.
  assert (psNoradID s ∈ remove_dups (map psNoradID states) /\ psNoradID s' ∈ remove_dups (map psNoradID states))
    as [H1 H2].
  { split; apply elem_of_remove_dups; by apply (list_elem_of_fmap_2 psNoradID). }
  destruct (remove_dups (map psNoradID states)) as [|a [|b l]]; [by apply elem_of_nil in H1| |cbn in Hle; lia].
  apply list_elem_of_singleton in H1, H2. congruence.
Qed.

Lemma choose_state_ok spec eph pointer state :
  choose_state sha256hex IsPrint spec eph pointer = Ok state ->
  PropagatedStatesInputHash (ephStatus eph) = propagationInputHash sha256hex IsPrint (ephSpec eph) /\
  state ∈ PropagatedStates (ephStatus eph) /\
  match csEphemerisNoradID spec with
  | Some n => psNoradID state = n
  | None => Forall (fun s => psNoradID s = psNoradID state) (PropagatedStates (ephStatus eph))
  end.
Proof.
  unfold choose_state. destruct (str_eqb _ _) eqn:Eh; [|done]. apply str_eqb_eq in Eh. cbn [negb].
  destruct (csEphemerisNoradID spec) as [n|]; cbn [selectPropagatedState].
  - destruct (selectPropagatedState _ _) as [s|] eqn:E; [|done]. intros [= <-].
    assert (Hf : List.find (fun s => (psNoradID s =? n)%Z) (PropagatedStates (ephStatus eph)) = Some s).
    { unfold selectPropagatedState in E. by destruct (PropagatedStates (ephStatus eph)). }
    apply List.find_some in Hf as [Hin Heq%Z.eqb_eq]. split; [done|]. split; [by apply list_elem_of_In|done].
  - destruct (Nat.ltb_spec 1 (uniquePropagatedNorads (PropagatedStates (ephStatus eph)))); [done|].
    destruct (PropagatedStates (ephStatus eph)) as [|s l] eqn:E; [done|]. cbn. intros [= <-].
    split; [done|]. split; [left|]. rewrite <- E in *. apply norads_single; [lia|]. rewrite E. left.
Qed.

Lemma currency_ok eph state env :
  currency_error IsPrint eph state env = None ->
  (UnixMilli (psEpochUnixMs state) > ceEpochNow env + epochSkewMargin)%Z /\
  (ceSourceNow env - maxEpochAge <= UnixMilli (psSourceEpochUnixMs state)
     <= ceSourceNow env + maxSourceEpochFutureSkew)%Z.
Proof.
  unfold currency_error.
  destruct (Z.leb_spec (psEpochUnixMs state) (to_unix_milli (Add (ceEpochNow env) epochSkewMargin))); [done|].
  destruct (sourceEpochPlausible _ _) eqn:Ep; [done|]. destruct (sourceEpochFresh _ _) eqn:Ef; [done|].
  intros _. apply plausible_iff in Ep. apply fresh_iff in Ef. split; [|lia].
  unfold to_unix_milli, UnixMilli, Add, Millisecond in *.
  generalize dependent (ceEpochNow env + epochSkewMargin)%Z. intros t Ht. generalize dependent unix_epoch. intros u Hf Hp Ht.
  pose proof (Z.mod_pos_bound (t - u) 1000000). pose proof (Z.div_mod (t - u) 1000000). lia.
Qed.

(** C4. A runtime push is authorised and current: whenever the gates let a
    request through, its ECEF vector and epoch are those of a state of the
    referenced ephemeris, computed under its present inputs; the state is the
    selected satellite's, and without a selection the ephemeris holds one
    satellite only; its epoch lies ahead of the clock and its element set is
    neither too old nor from the future; the endpoint passes the allow-list; and
    a token is sent only if it comes from an opted-in Secret of the ephemeris'
    namespace that pins the server's CA. *)
Theorem runtime_push_is_authorised cc spec rc id eph env marker target update digest :
  plan cc spec rc id eph env = PlanPush marker target update digest ->
  exists state, state ∈ PropagatedStates (ephStatus eph) /\
    PropagatedStatesInputHash (ephStatus eph) = propagationInputHash sha256hex IsPrint (ephSpec eph) /\
    match csEphemerisNoradID spec with
    | Some n => psNoradID state = n
    | None => Forall (fun s => psNoradID s = psNoradID state) (PropagatedStates (ephStatus eph))
    end /\
    ruEphemeris update = mkUpdate (Some (psECEF state)) None /\ ruEpochUnixMs update = psEpochUnixMs state /\
    (UnixMilli (ruEpochUnixMs update) > ceEpochNow env + epochSkewMargin)%Z /\
    (ceSourceNow env - maxEpochAge <= UnixMilli (psSourceEpochUnixMs state)
       <= ceSourceNow env + maxSourceEpochFutureSkew)%Z /\
    Check unicode_lower url_parse AllowedHosts ("https://" +:+ Endpoint TLSConf target) = None /\
    (AuthToken TLSConf target <> "" ->
       exists t s c ca, rcTLS rc = Some t /\
         ceSecret env (mkKey (Namespace (ephMeta eph)) (SecretName t)) = Found s /\ usable_secret s /\
         AuthToken TLSConf target = data_of s "token" /\
         TLSConfig TLSConf target = Some c /\ tcRootCAs c = Some ca /\ ca <> "" /\ pem_ok ca = true).
Proof.
  unfold runtime_plan.
  destruct (choose_state _ _ _ _ _) as [state|] eqn:Hc; [|done]. apply choose_state_ok in Hc as (Hh & Hin & Hsel).
  destruct (currency_error _ _ _ _) eqn:Hcur; [done|]. apply currency_ok in Hcur as [He Hs].
  destruct (isEphemerisPushUpToDate _ _); [done|].
  destruct (Check _ _ _ _) eqn:Hchk; [done|].
  destruct (resolve _ _ _) as [[conf token]|] eqn:Hres; [|done].
  intros [= <- <- <- <-]. exists state.
  cbn [runtime_update ruEphemeris ruEpochUnixMs Endpoint AuthToken TLSConfig].
  split_and!; try done; try lia. intros Ht. unfold resolveRemoteControlTLS in Hres.
  destruct (rcTLS rc) as [t|]; [|congruence].
  destruct (ceSecret env _) as [s| |] eqn:Hsec; [|done..].
  apply secret_tls_ok in Hres as (Hu & Htok & c & -> & Hca).
  destruct (Hca Ht) as (ca & ? & ? & ? & ?). exists t, s, c, ca. by split_and!.
Qed.

(** ** What a Secret reveals *)

Definition with_secrets (env : CellEnv) (s : NamespacedName -> GetResult Secret) : CellEnv :=
  mkCellEnv (ceCell env) (ceEphemeris env) s (ceUpdate env) (ceStatusUpdate env) (ceEpochNow env)
    (ceSourceNow env) (cePointer env).

(** The credential, without the reason why there is none. *)
Definition credential {A} (r : result credential_error A) : option A :=
  match r with Ok a => Some a | Err _ => None end.

Section Secrets.
Variables (s1 s2 : NamespacedName -> GetResult Secret).
Hypothesis same_credentials : forall ns rc, credential (resolve s1 ns rc) = credential (resolve s2 ns rc).

Lemma plan_credentials cc spec rc id eph env :
  plan cc spec rc id eph (with_secrets env s1) = plan cc spec rc id eph (with_secrets env s2).
Proof.
  unfold runtime_plan. cbn [with_secrets cePointer ceSecret].
  destruct (choose_state _ _ _ _ _) as [state|]; [|done].
  change (currency_error IsPrint eph state (with_secrets env s1)) with (currency_error IsPrint eph state env).
  change (currency_error IsPrint eph state (with_secrets env s2)) with (currency_error IsPrint eph state env).
  destruct (currency_error _ _ _ _); [done|]. destruct (isEphemerisPushUpToDate _ _); [done|].
  destruct (Check _ _ _ _); [done|]. specialize (same_credentials (Namespace (ephMeta eph)) rc).
  destruct (resolve s1 _ _) as [[? ?]|], (resolve s2 _ _) as [[? ?]|]; cbn in same_credentials; congruence.
Qed.

Lemma push_credentials w cc spec prov env :
  push w cc spec prov (with_secrets env s1) = push w cc spec prov (with_secrets env s2).
Proof.
  unfold pushEphemerisUpdateIfNeeded. cbn [with_secrets ceEphemeris].
  destruct (str_eqb _ _); [done|]. destruct (ceEphemeris env _) as [eph| |]; [|done..].
  destruct (prRemoteControl (csProvider spec)) as [rc|]; [|done]. destruct (csCellID spec) as [id|]; [|done].
  unfold pushRuntimeEphemeris. by rewrite plan_credentials.
Qed.

Lemma applied_credentials w cc spec prov status env :
  applied w cc spec prov status (with_secrets env s1) = applied w cc spec prov status (with_secrets env s2).
Proof.
  unfold reconcile_applied. destruct (applySIB19CadenceCondition _ _) as [[warn episode] cc'].
  destruct (str_eqb _ _); [done|]. rewrite push_credentials.
  destruct (push _ _ _ _ _) as [[[[pushed marker]|e] cc''] b]; done.
Qed.

End Secrets.

(** C12. Secrets are not observable: if two cluster states differ in their
    Secrets only, and every credential either resolves to the same material in
    both or resolves in neither, a reconcile does exactly the same, whatever
    the reasons are for which the credentials do not resolve: same status,
    events, counters, requests and requeue.  So whoever writes the resource
    cannot tell a missing Secret from one of the wrong type or content. *)
Theorem secrets_not_observable w env s1 s2 :
  (forall ns rc, credential (resolve s1 ns rc) = credential (resolve s2 ns rc)) ->
  reconcile w (with_secrets env s1) = reconcile w (with_secrets env s2).
Proof.
  intros H. unfold Reconcile. cbn [with_secrets ceCell]. destruct (ceCell env) as [cc| |]; [|done..].
  change (handleFinalizer cm_get cm_delete w cc (provider_of Providers cc) (with_secrets env s1))
    with (handleFinalizer cm_get cm_delete w cc (provider_of Providers cc) (with_secrets env s2)).
  destruct (handleFinalizer _ _ _ _ _ _); [done|]. destruct Providers as [m|]; [|done].
  destruct (provider_of _ _) as [prov|]; [|done]. unfold reconcile_cell.
  destruct (prov_Apply prov _ _ _) as [[e|] b]; [done|]. destruct (prov_Status prov b cc) as [status|]; [|done].
  by apply applied_credentials.
Qed.

(** ** Schedules *)

(** What a retry is given: the same specification and the same ephemeris, at any
    later time, whatever else has become of the Secrets, the provider, its backend
    and the rest of the status. *)
Record retry_of (cc : NTNCellConfig) (env : CellEnv) (cc' : NTNCellConfig) (env' : CellEnv) : Prop := {
  re_namespace : Namespace (cellMeta cc') = Namespace (cellMeta cc);
  re_failed : IsStatusConditionTrue (conditions_of cc') ConditionEphemerisPushed = false;
  re_ephemeris : forall k, ceEphemeris env' k = ceEphemeris env k;
  re_epoch : (ceEpochNow env <= ceEpochNow env')%Z;
  re_source : (ceSourceNow env <= ceSourceNow env')%Z
}.

(** No retry succeeds, nor asks for another, before a watched object changes. *)
Definition hopeless (cc : NTNCellConfig) (spec : NTNCellConfigSpec) (env : CellEnv) : Prop :=
  forall w' cc' prov' env', retry_of cc env cc' env' ->
    exists e, (push w' cc' spec prov' env').1.1 = Err e /\ ephemerisPushShouldRequeue (peReason e) = false.

(** Why a push failed, with the requeue that follows. *)
Inductive why (w : W) (cc : NTNCellConfig) (spec : NTNCellConfigSpec) (prov : NTNProvider W) (env : CellEnv)
  : option Duration -> Prop :=
| ephemeris_unread err :
    ceEphemeris env (mkKey (Namespace (cellMeta cc)) (csEphemerisRef spec)) = GetError err ->
    why w cc spec prov env (Some Minute)
| rewrite_failed u err b :
    prov_PushEphemeris prov w cc u = (Some err, b) -> why w cc spec prov env (Some Minute)
| delivery_failed rc id eph m t u d err b :
    plan cc spec rc id eph env = PlanPush m t u d -> prov_PushRuntime prov w t u = (Some err, b) ->
    (err = ErrRuntimeUnsupported \/ exists text, err = TransientError text) -> why w cc spec prov env (Some Minute)
| selection_ambiguous eph :
    ceEphemeris env (mkKey (Namespace (cellMeta cc)) (csEphemerisRef spec)) = Found eph ->
    csEphemerisNoradID spec = None -> (1 < uniquePropagatedNorads (PropagatedStates (ephStatus eph)))%nat ->
    why w cc spec prov env (Some Minute)
| endpoint_refused rc err :
    prRemoteControl (csProvider spec) = Some rc ->
    Check unicode_lower url_parse AllowedHosts ("https://" +:+ rcEndpoint rc) = Some err ->
    why w cc spec prov env (Some (5 * Minute)%Z)
| credential_refused rc ns err :
    prRemoteControl (csProvider spec) = Some rc -> resolve (ceSecret env) ns rc = Err err ->
    why w cc spec prov env (Some (5 * Minute)%Z)
| handshake_refused rc id eph m t u d text b :
    plan cc spec rc id eph env = PlanPush m t u d ->
    prov_PushRuntime prov w t u = (Some (ErrRuntimePushRetryLater text), b) ->
    why w cc spec prov env (Some (5 * Minute)%Z)
| frame_rejected rc id eph m t u d text b :
    plan cc spec rc id eph env = PlanPush m t u d ->
    prov_PushRuntime prov w t u = (Some (ErrRuntimePushRejected text), b) -> why w cc spec prov env None
| dated_ahead eph state err :
    ceEphemeris env (mkKey (Namespace (cellMeta cc)) (csEphemerisRef spec)) = Found eph ->
    choose_state sha256hex IsPrint spec eph (cePointer env) = Ok state ->
    sourceEpochPlausible (ceSourceNow env) (UnixMilli (psSourceEpochUnixMs state)) = Some err ->
    why w cc spec prov env None
| awaits_a_change : hopeless cc spec env -> why w cc spec prov env None.

(** The requeue a reason leads to. *)
Definition requeue_of (reason : string) : option Duration :=
  if ephemerisPushShouldRequeue reason then Some (ephemerisPushRequeueInterval reason) else None.

Lemma not_up_to_date cc marker :
  IsStatusConditionTrue (conditions_of cc) ConditionEphemerisPushed = false -> isEphemerisPushUpToDate cc marker = false.
Proof.
  unfold IsStatusConditionTrue, isEphemerisPushUpToDate. destruct (FindStatusCondition _ _); [|done]. by intros ->.
Qed.

(** The choice of the state is the same in a retry, up to the text of its error. *)
Lemma choose_state_again spec eph p p' :
  match choose_state sha256hex IsPrint spec eph p, choose_state sha256hex IsPrint spec eph p' with
  | Ok s, Ok s' => s = s'
  | Err e, Err e' => peReason e' = peReason e
  | _, _ => False
  end.
Proof.
  unfold choose_state. destruct (negb _); [done|].
  destruct (match csEphemerisNoradID spec with None => _ | Some _ => _ end); [done|].
  by destruct (selectPropagatedState _ _).
Qed.

(** What is too old stays too old. *)
Lemma stale_again eph state env env' e :
  currency_error IsPrint eph state env = Some e ->
  (ceEpochNow env <= ceEpochNow env')%Z -> (ceSourceNow env <= ceSourceNow env')%Z ->
  (exists err, sourceEpochPlausible (ceSourceNow env) (UnixMilli (psSourceEpochUnixMs state)) = Some err) \/
  exists e', currency_error IsPrint eph state env' = Some e' /\ peReason e' = ephemerisReasonEphemerisStale.
Proof.
  intros H Hep Hsrc. unfold currency_error in *. set (src := UnixMilli (psSourceEpochUnixMs state)) in *.
  destruct (psEpochUnixMs state <=? to_unix_milli (Add (ceEpochNow env) epochSkewMargin))%Z eqn:E1.
  { right. assert (to_unix_milli (Add (ceEpochNow env) epochSkewMargin) <= to_unix_milli (Add (ceEpochNow env') epochSkewMargin))%Z.
    { unfold to_unix_milli, Add. apply Z.div_le_mono; [done|lia]. }
    apply Z.leb_le in E1. destruct (Z.leb_spec (psEpochUnixMs state) (to_unix_milli (Add (ceEpochNow env') epochSkewMargin))); [|lia].
    eexists; split; reflexivity. }
  destruct (sourceEpochPlausible (ceSourceNow env) src) as [err|]; [left; by exists err|].
  right. clear E1. destruct (psEpochUnixMs state <=? _)%Z; [eexists; split; reflexivity|]. destruct (sourceEpochPlausible (ceSourceNow env') src); [eexists; split; reflexivity|].
  destruct (sourceEpochFresh (ceSourceNow env') src) eqn:E2; [eexists; split; reflexivity|]. exfalso. apply fresh_iff in E2.
  assert (sourceEpochFresh (ceSourceNow env) src = None) as E3 by (apply fresh_iff; lia). by rewrite E3 in H.
Qed.

(** A failure of the gates in front of a push. *)
Lemma plan_failure w cc spec prov env rc id eph e :
  str_eqb (csEphemerisRef spec) "" = false ->
  prRemoteControl (csProvider spec) = Some rc -> csCellID spec = Some id ->
  ceEphemeris env (mkKey (Namespace (cellMeta cc)) (csEphemerisRef spec)) = Found eph ->
  plan cc spec rc id eph env = PlanFail e -> peReason e <> "" /\ why w cc spec prov env (requeue_of (peReason e)).
Proof.
  clear cm_get cm_delete Providers. intros Href Hrc Hid He.
  assert (Hretry : forall w' cc' prov' env' e', retry_of cc env cc' env' ->
    plan cc' spec rc id eph env' = PlanFail e' -> (push w' cc' spec prov' env').1.1 = Err e').
  { intros w' cc' prov' env' e' [Hn _ Hk _ _] Hp. unfold pushEphemerisUpdateIfNeeded. rewrite Href, Hn, Hk, He, Hrc, Hid.
    unfold pushRuntimeEphemeris. by rewrite Hp. }
  unfold runtime_plan. destruct (choose_state _ _ _ _ _) as [state|e0] eqn:Hc.
  - destruct (currency_error _ _ _ _) as [e0|] eqn:Hcur.
    + intros [= <-]. assert (peReason e0 = ephemerisReasonEphemerisStale) as ->.
      { destruct (stale_again eph state env env e0 Hcur) as [[err _]|(e' & Ee & Hr)]; [lia..| |congruence].
        unfold currency_error in Hcur. repeat (split_match_in Hcur; try discriminate Hcur); by injection Hcur as <-. }
      split; [done|]. change (requeue_of _) with (@None Duration).
      destruct (sourceEpochPlausible (ceSourceNow env) (UnixMilli (psSourceEpochUnixMs state))) as [err|] eqn:Hpl;
        [by eapply dated_ahead|]. apply awaits_a_change. intros w' cc' prov' env' Hre.
      destruct (stale_again eph state env env' e0 Hcur (re_epoch _ _ _ _ Hre) (re_source _ _ _ _ Hre)) as [[err Herr]|(e' & Ee & Hr)];
        [congruence|]. exists e'. split; [|by rewrite Hr]. apply Hretry; [done|]. unfold runtime_plan.
      pose proof (choose_state_again spec eph (cePointer env) (cePointer env')) as Hag. rewrite Hc in Hag.
      destruct (choose_state _ _ _ _ (cePointer env')); [|done]. subst. by rewrite Ee.
    + destruct (isEphemerisPushUpToDate _ _); [done|]. destruct (Check _ _ _ _) as [err|] eqn:Hck.
      { intros [= <-]. split; [done|]. change (requeue_of _) with (Some (5 * Minute)%Z). by eapply (endpoint_refused w cc spec prov env rc). }
      destruct (resolve _ _ _) as [[? ?]|err] eqn:Hr; [done|]. intros [= <-]. split; [done|].
      change (requeue_of _) with (Some (5 * Minute)%Z). by eapply (credential_refused w cc spec prov env rc).
  - intros [= <-]. pose proof Hc as Hc'. unfold choose_state in Hc'.
    assert (Hhope : ephemerisPushShouldRequeue (peReason e0) = false -> hopeless cc spec env).
    { intros Hq w' cc' prov' env' Hre. pose proof (choose_state_again spec eph (cePointer env) (cePointer env')) as Hag.
      rewrite Hc in Hag. destruct (choose_state _ _ _ _ (cePointer env')) as [|e'] eqn:Hc2; [done|].
      exists e'. split; [|by rewrite Hag]. apply Hretry; [done|]. unfold runtime_plan. by rewrite Hc2. }
    destruct (negb _); [injection Hc' as <-; split; [done|]; by apply awaits_a_change, Hhope|].
    destruct (match csEphemerisNoradID spec with None => _ | Some _ => _ end) eqn:Ha.
    + injection Hc' as <-. split; [done|]. destruct (csEphemerisNoradID spec) eqn:En; [done|].
      apply Nat.ltb_lt in Ha. change (requeue_of _) with (Some Minute). by apply (selection_ambiguous w cc spec prov env eph).
    + destruct (selectPropagatedState _ _); [done|]. injection Hc' as <-. split; [done|]. by apply awaits_a_change, Hhope.
Qed.

(** A failure of the ConfigMap path. *)
Lemma static_failure w cc spec prov env eph e cc' b :
  str_eqb (csEphemerisRef spec) "" = false ->
  (prRemoteControl (csProvider spec) = None \/ csCellID spec = None) ->
  ceEphemeris env (mkKey (Namespace (cellMeta cc)) (csEphemerisRef spec)) = Found eph ->
  push_static w cc spec eph prov = (Err e, cc', b) -> peReason e <> "" /\ why w cc spec prov env (requeue_of (peReason e)).
Proof.
  clear cm_get cm_delete Providers. intros Href Hstatic He. unfold push_static.
  destruct (isEphemerisPushUpToDate _ _); [done|].
  destruct (match ntnOrbital _ with Some _ => _ | None => _ end) as [u|] eqn:Eu.
  - destruct (prov_PushEphemeris _ _ _ _) as [[err|] b'] eqn:Ep; [|done]. intros [= <- _ _]. split; [done|].
    change (requeue_of _) with (Some Minute). by eapply (rewrite_failed w cc spec prov env).
  - intros [= <- _ _]. split; [done|]. apply awaits_a_change. intros w' cc2 prov' env' [Hn Hf Hk _ _].
    exists (mkPushError ephemerisReasonPayloadMissing "ephemeris payload missing in NTNCellConfig spec").
    split; [|reflexivity]. unfold pushEphemerisUpdateIfNeeded. rewrite Href, Hn, Hk, He.
    assert (Hs : push_static w' cc2 spec eph prov' =
      (Err (mkPushError ephemerisReasonPayloadMissing "ephemeris payload missing in NTNCellConfig spec"), cc2, w')).
    { unfold push_static. rewrite not_up_to_date by done. by rewrite Eu. }
    destruct Hstatic as [->| ->]; [|destruct (prRemoteControl (csProvider spec))]; by rewrite Hs.
Qed.

Lemma push_failure w cc spec prov env e cc' b :
  push w cc spec prov env = (Err e, cc', b) -> peReason e <> "" /\ why w cc spec prov env (requeue_of (peReason e)).
Proof.
  clear cm_get cm_delete Providers.
  unfold pushEphemerisUpdateIfNeeded. destruct (str_eqb _ _) eqn:Href; [done|].
  destruct (ceEphemeris env _) as [eph| |err] eqn:He.
  - destruct (prRemoteControl (csProvider spec)) as [rc|] eqn:Hrc; [|by apply static_failure; [|left|]].
    destruct (csCellID spec) as [id|] eqn:Hid; [|by apply static_failure; [|right|]].
    unfold pushRuntimeEphemeris. destruct (plan _ _ _ _ _ _) as [e'|m|m t u d] eqn:Hp; [|done|].
    { intros [= <- _ _]. by eapply plan_failure. }
    destruct (prov_PushRuntime _ _ _ _) as [[err|] b'] eqn:Hr; [|done]. intros [= <- _ _].
    destruct err as [|text|text|text]; (split; [done|]).
    + change (requeue_of _) with (Some Minute). eapply (delivery_failed w cc spec prov env); eauto.
    + change (requeue_of _) with (@None Duration). by eapply (frame_rejected w cc spec prov env).
    + change (requeue_of _) with (Some (5 * Minute)%Z). by eapply (handshake_refused w cc spec prov env).
    + change (requeue_of _) with (Some Minute). eapply (delivery_failed w cc spec prov env); eauto.
  - intros [= <- _ _]. split; [done|]. apply awaits_a_change. intros w' cc2 prov' env' [Hn _ Hk _ _].
    eexists. split; [unfold pushEphemerisUpdateIfNeeded; rewrite Href, Hn, Hk, He; reflexivity|reflexivity].
  - intros [= <- _ _]. split; [done|]. change (requeue_of _) with (Some Minute). by eapply (ephemeris_unread w cc spec prov env).
Qed.

(** C35. Every failed push has a way out: the reconcile either reports the error
    of its status write, which the work queue retries, or
    - requeues after five minutes, when the allow-list or the credentials refuse
      the endpoint or the endpoint refuses the handshake, which no watched object
      tells;
    - requeues after one minute, when the ephemeris could not be read, the
      provider failed, or more than one satellite could be meant;
    - ends without a requeue: then no retry could succeed while specification and
      ephemeris stay as they are, whatever becomes of Secrets and provider and at
      any later time, or the gNB has rejected the very frame, or the element set
      is dated too far ahead of the clock. *)
Theorem failed_push_has_a_way_out (w0 : @CellWorld W) w old cc spec prov env e cc' b events :
  push w cc spec prov env = (Err e, cc', b) ->
  let out := reconcile_push_failed w0 old cc' e events env in
  (exists err, coResult out = Err err /\ ceStatusUpdate env = Some err) \/
  exists requeue, coResult out = Ok requeue /\ why w cc spec prov env requeue.
Proof.
  clear cm_get cm_delete Providers. intros [Hne Hw]%push_failure. cbv zeta.
  unfold reconcile_push_failed, persist_then, ephemerisPushConditionReason.
  rewrite (proj2 (str_eqb_neq _ _) Hne). unfold persistStatusIfChanged. destruct (bool_decide _).
  2: destruct (ceStatusUpdate env) as [err|]; [left; by exists err|].
  all: right; cbn [coResult]; eexists; split; [reflexivity|exact Hw].
Qed.

(** ** Events *)

Lemma find_set_cell cc ty s r m ty' :
  FindStatusCondition (conditions_of (set_cell_condition cc ty s r m)) ty' =
  if decide (ty = ty') then Some (mkCond ty s r m (Generation (cellMeta cc)))
  else FindStatusCondition (conditions_of cc) ty'.
Proof. unfold set_cell_condition, conditions_of. cbn. by rewrite find_set. Qed.

Lemma find_remove_cell cc ty ty' :
  FindStatusCondition (conditions_of (remove_cell_condition cc ty)) ty' =
  if decide (ty = ty') then None else FindStatusCondition (conditions_of cc) ty'.
Proof. unfold remove_cell_condition, conditions_of. cbn. by rewrite find_remove. Qed.

(** What a push does to the object: at most the digest changes. *)
Definition same_but_digest (cc cc' : NTNCellConfig) : Prop :=
  cellMeta cc' = cellMeta cc /\ cellSpec cc' = cellSpec cc /\ conditions_of cc' = conditions_of cc.

Lemma push_keeps w cc spec prov env r cc' b :
  push w cc spec prov env = (r, cc', b) -> same_but_digest cc cc'.
Proof.
  assert (Hrefl : same_but_digest cc cc) by done.
  unfold pushEphemerisUpdateIfNeeded, push_static, pushRuntimeEphemeris.
  destruct (str_eqb _ _); [by intros [= <- <- <-]|].
  destruct (ceEphemeris env _) as [eph| |]; [|by intros [= <- <- <-]..].
  assert (Hst : push_static w cc spec eph prov = (r, cc', b) -> same_but_digest cc cc').
  { unfold push_static. destruct (isEphemerisPushUpToDate _ _); [by intros [= <- <- <-]|].
    destruct (match ntnOrbital _ with Some _ => _ | None => _ end); [|by intros [= <- <- <-]].
    destruct (prov_PushEphemeris _ _ _ _) as [[?|] ?]; by intros [= <- <- <-]. }
  destruct (prRemoteControl (csProvider spec)) as [rc|]; [|exact Hst].
  destruct (csCellID spec) as [id|]; [|exact Hst].
  destruct (plan _ _ _ _ _ _); [by intros [= <- <- <-]..|].
  destruct (prov_PushRuntime _ _ _ _) as [[?|] ?]; by intros [= <- <- <-].
Qed.

Lemma episode_of_same c gen s r :
  conditionEpisodeChanged (Some c) s r gen = true ->
  c = mkCond (cType c) s r (cMessage c) gen -> False.
Proof.
  unfold conditionEpisodeChanged. intros H E. rewrite E in H. cbn in H.
  by rewrite bool_decide_eq_true_2, str_eqb_refl, Z.eqb_refl in H.
Qed.

Lemma advisory_keeps cc spec warn episode cc' ty :
  applySIB19CadenceCondition cc spec = (warn, episode, cc') ->
  cellMeta cc' = cellMeta cc /\ cellSpec cc' = cellSpec cc /\
  (ty <> ConditionSIB19CadenceSane ->
   FindStatusCondition (conditions_of cc') ty = FindStatusCondition (conditions_of cc) ty).
Proof.
  unfold applySIB19CadenceCondition.
  destruct (sib19EpochReanchored spec); cbn [negb]; [destruct (str_eqb _ _); cbn [negb]|]; intros [= <- <- <-];
    (split; [done|]; split; [done|]; intros Hty; rewrite ?find_set_cell, ?find_remove_cell; by case_decide).
Qed.

Lemma advisory_settled cc spec warn episode cc' :
  applySIB19CadenceCondition cc spec = (warn, episode, cc') ->
  FindStatusCondition (conditions_of cc) ConditionSIB19CadenceSane =
    FindStatusCondition (conditions_of cc') ConditionSIB19CadenceSane ->
  emitSIB19CadenceWarning warn episode = [].
Proof.
  unfold applySIB19CadenceCondition. destruct (sib19EpochReanchored spec); cbn [negb]; [|by intros [= <- <- <-]].
  destruct (str_eqb (sib19CadenceWarning spec) "") eqn:E; cbn [negb]; intros [= <- <- <-].
  { done. }
  rewrite find_set_cell, decide_True by done. intros ->. unfold emitSIB19CadenceWarning.
  destruct (conditionEpisodeChanged _ _ _ _) eqn:Ee; [|done]. exfalso. by eapply episode_of_same.
Qed.

(** The events of an applied configuration presuppose a changed condition. *)
Lemma applied_events_settled cc cc1 cc2 spec warn episode l :
  cc1 = set_cell_condition cc ConditionConfigApplied ConditionTrue "Applied" (applied_message spec) ->
  applySIB19CadenceCondition cc1 spec = (warn, episode, cc2) ->
  FindStatusCondition l ConditionConfigApplied = FindStatusCondition (conditions_of cc2) ConditionConfigApplied ->
  FindStatusCondition l ConditionSIB19CadenceSane = FindStatusCondition (conditions_of cc2) ConditionSIB19CadenceSane ->
  l = conditions_of cc ->
  ((if condition_changes cc ConditionConfigApplied ConditionTrue "Applied" (applied_message spec)
    then emitConfigApplied spec else []) ++ emitSIB19CadenceWarning warn episode)%list = [].
Proof.
  intros -> Hadv H1 H2 ->. destruct (advisory_keeps _ _ _ _ _ ConditionConfigApplied Hadv) as (_ & _ & Hk).
  rewrite Hk, find_set_cell, decide_True in H1 by done.
  unfold condition_changes. rewrite H1, bool_decide_eq_true_2 by done. cbn [negb app].
  eapply advisory_settled; [exact Hadv|]. rewrite <- H2, find_set_cell. by case_decide.
Qed.

Definition quiet_or_written (w : @CellWorld W) (out : @CellOutcome W) : Prop :=
  cwRecorded (coWorld out) = cwRecorded w \/ exists st, coStatus out = Some st.

Lemma persist_quiet env old cc (w0 w : @CellWorld W) after requeue :
  cwRecorded w = cwRecorded w0 ->
  (old = cellStatus cc -> cwRecorded (after w) = cwRecorded w) ->
  quiet_or_written w0 (persist_then env old cc w after requeue).
Proof.
  intros Hw Ha. unfold quiet_or_written, persist_then, persistStatusIfChanged.
  destruct (bool_decide_reflect (old = cellStatus cc)) as [E|].
  - left. cbn. by rewrite Ha.
  - destruct (ceStatusUpdate env); [by left|]. right. by eexists.
Qed.

Lemma record_nil (cc : NTNCellConfig) (w : @CellWorld W) es :
  es = [] -> cwRecorded (record cc es w) = cwRecorded w.
Proof. intros ->. cbn. apply app_nil_r. Qed.

Lemma applied_quiet w cc spec prov status env :
  quiet_or_written w (applied w cc spec prov status env).
Proof.
  unfold reconcile_applied.
  set (cc0 := set_config_map_ref (ConfigMapRef status) (set_applied_koffset (AppliedKoffset status) cc)).
  set (cc1 := set_cell_condition cc0 ConditionConfigApplied ConditionTrue "Applied" (applied_message spec)).
  destruct (applySIB19CadenceCondition cc1 spec) as [[warn episode] cc2] eqn:Hadv.
  assert (Hev : forall l, l = conditions_of cc ->
      FindStatusCondition l ConditionConfigApplied = FindStatusCondition (conditions_of cc2) ConditionConfigApplied ->
      FindStatusCondition l ConditionSIB19CadenceSane = FindStatusCondition (conditions_of cc2) ConditionSIB19CadenceSane ->
      ((if condition_changes cc0 ConditionConfigApplied ConditionTrue "Applied" (applied_message spec)
        then emitConfigApplied spec else []) ++ emitSIB19CadenceWarning warn episode)%list = []).
  { intros l Hl H1 H2. eapply applied_events_settled; eauto. }
  destruct (str_eqb (csEphemerisRef (cellSpec cc2)) "").
  - apply persist_quiet; [done|]. intros Hold. apply record_nil. apply (f_equal cellConditions) in Hold.
    apply (Hev (conditions_of cc) eq_refl); unfold conditions_of at 1; rewrite Hold; fold (conditions_of
      (remove_cell_condition cc2 ConditionEphemerisPushed)); rewrite find_remove_cell; by case_decide.
  - destruct (push _ _ _ _ _) as [[[[pushed marker]|e] cc3] b] eqn:Hpush;
      apply push_keeps in Hpush as (Hm & _ & Hc).
    + apply persist_quiet; [done|]. intros Hold. apply record_nil. apply (f_equal cellConditions) in Hold.
      assert (Hfind : forall ty, ty <> ConditionEphemerisPushed ->
        FindStatusCondition (conditions_of cc) ty = FindStatusCondition (conditions_of cc2) ty).
      { intros ty Hty. rewrite <- Hc. unfold conditions_of at 1. rewrite Hold. destruct pushed; [|done].
        etransitivity; [apply find_set_cell|]. by case_decide. }
      by apply (Hev (conditions_of cc) eq_refl); apply Hfind.
    + unfold reconcile_push_failed. apply persist_quiet; [done|]. intros Hold.
      apply (f_equal cellConditions) in Hold.
      assert (Hfind : forall ty, FindStatusCondition (conditions_of cc) ty =
        if decide (ConditionEphemerisPushed = ty)
        then Some (mkCond ConditionEphemerisPushed ConditionFalse (ephemerisPushConditionReason e) (peText e)
                     (Generation (cellMeta cc3)))
        else FindStatusCondition (conditions_of cc2) ty).
      { intros ty. unfold conditions_of at 1. rewrite Hold. rewrite <- Hc. apply find_set_cell. }
      rewrite record_nil; [etransitivity; [|apply record_nil]; [reflexivity|]|].
      * apply (Hev (conditions_of cc) eq_refl); rewrite Hfind; by case_decide.
      * assert (Hprev : FindStatusCondition (conditions_of cc3) ConditionEphemerisPushed =
                        FindStatusCondition (conditions_of cc) ConditionEphemerisPushed).
        { rewrite Hc. destruct (advisory_keeps _ _ _ _ _ ConditionEphemerisPushed Hadv) as (_ & _ & ->); [|done].
          unfold cc1. rewrite find_set_cell. by case_decide. }
        rewrite Hprev, Hfind, decide_True by done.
        destruct (conditionEpisodeChanged _ _ _ _) eqn:Ee; [|done]. exfalso. by eapply episode_of_same.
Qed.

Lemma finalizer_quiet w cc env out :
  handleFinalizer cm_get cm_delete w cc (provider_of Providers cc) env = Some out ->
  cwRecorded (coWorld out) = cwRecorded w.
Proof.
  unfold handleFinalizer, update_object. destruct (deletion_set _).
  - destruct (bool_decide _); [|by intros [= <-]].
    destruct (match provider_of Providers cc with Some _ => _ | None => _ end) as [[e|] b];
      [by intros [= <-]|]. by destruct (ceUpdate env); intros [= <-].
  - destruct (bool_decide _); [done|]. by destruct (ceUpdate env); intros [= <-].
Qed.

(** Events follow the status: if a reconcile has recorded an event, it has
    written a status in the same run, and its status update has succeeded, so
    that no event announces a condition that is not stored, and a reconcile that
    changes nothing is silent. *)
Theorem events_follow_status (w : @CellWorld W) env :
  let out := reconcile w env in
  cwRecorded (coWorld out) <> cwRecorded w -> exists st, coStatus out = Some st.
Proof.
  cbv zeta. assert (H : quiet_or_written w (reconcile w env)); [|unfold quiet_or_written in H; naive_solver].
  unfold Reconcile. destruct (ceCell env) as [cc| |]; [|by left..].
  destruct (handleFinalizer _ _ _ _ _ _) eqn:Hf; [left; by eapply finalizer_quiet|]. clear Hf.
  destruct Providers as [m|]; [|by apply persist_quiet]. destruct (provider_of _ _) as [prov|]; [|by apply persist_quiet].
  unfold reconcile_cell. destruct (prov_Apply prov _ _ _) as [[e|] b].
  - unfold reconcile_apply_failed. apply persist_quiet; [done|]. intros Hold. apply record_nil.
    destruct (conditionEpisodeChanged _ _ _ _) eqn:Ee; [|done]. exfalso.
    apply (f_equal cellConditions) in Hold.
    assert (Hfind : FindStatusCondition (conditions_of cc) ConditionConfigApplied =
       Some (mkCond ConditionConfigApplied ConditionFalse (if afNotOwned e then "OwnershipConflict" else "ApplyFailed")
               (afText e) (Generation (cellMeta cc)))).
    { unfold conditions_of at 1. rewrite Hold. etransitivity; [apply find_set_cell|]. by rewrite decide_True. }
    rewrite Hfind in Ee. by eapply episode_of_same.
  - destruct (prov_Status prov b cc) as [status|]; [|by apply persist_quiet].
    destruct (applied_quiet (with_backend w b) cc (enforced_spec cc) prov status env) as [H|H]; [left|right]; done.
Qed.

(** ** Deletion *)

(** Deletion cleans up first: the finalizer of a resource under deletion is
    removed only in a run whose cleanup succeeded, a failed cleanup is
    reported and keeps it, nothing is applied or pushed any more, and exactly
    the resource's own series disappear. *)
Theorem deletion_cleans_up_first w env cc :
  ceCell env = Found cc -> deletion_set (cellMeta cc) = true -> finalizerName ∈ Finalizers (cellMeta cc) ->
  let cleanup := match provider_of Providers cc with
                 | Some p => prov_Cleanup p (cwBackend w) cc
                 | None => best_effort_cleanup cm_get cm_delete (cwBackend w) cc
                 end in
  let out := reconcile w env in
  cwBackend (coWorld out) = cleanup.2 /\ coStatus out = None /\
  (forall e, cleanup.1 = Some e -> coObject out = None /\ coResult out = Err e) /\
  (forall o, coObject out = Some o -> cleanup.1 = None /\ o = drop_finalizer cc /\
     finalizerName ∉ Finalizers (cellMeta o)) /\
  ConfigApplyReady (coWorld out) = delete (cell_labels cc) (ConfigApplyReady w) /\
  EphemerisPushReady (coWorld out) = delete (cell_labels cc) (EphemerisPushReady w) /\
  (forall l r, ConfigApplyErrorsTotal (coWorld out) !! (l, r) =
     if decide (l = cell_labels cc) then None else ConfigApplyErrorsTotal w !! (l, r)) /\
  (forall l r, EphemerisPushErrorsTotal (coWorld out) !! (l, r) =
     if decide (l = cell_labels cc) then None else EphemerisPushErrorsTotal w !! (l, r)).
Proof.
  intros Hcc Hdel Hfin. cbv zeta. unfold Reconcile. rewrite Hcc. unfold handleFinalizer.
  rewrite Hdel, bool_decide_eq_true_2 by done. cbn [cwBackend drop_series].
  assert (Hgone : finalizerName ∉ Finalizers (cellMeta (drop_finalizer cc))).
  { cbn. intros Hin. apply list_elem_of_In, List.filter_In in Hin as [_ Hin].
    by rewrite str_eqb_refl in Hin. }
  assert (Hf : forall (m : gmap (string * string * string) Z) l r,
    (filter (fun kv : (string * string * string) * Z => kv.1.1 <> cell_labels cc) m) !! (l, r) =
    if decide (l = cell_labels cc) then None else m !! (l, r)).
  { intros m l r. rewrite map_lookup_filter. case_decide as E; destruct (m !! (l, r)); cbn; try done.
    - by rewrite option_guard_False by (cbn; tauto).
    - by rewrite option_guard_True. }
  destruct (match provider_of Providers cc with Some _ => _ | None => _ end) as [[e|] b];
    [|unfold update_object; destruct (ceUpdate env)]; cbn;
    split_and!; try done; try (by intros ? [= <-]); try (by intros ? ?; apply Hf).
Qed.

(** ** Gauges *)

Lemma persist_then_world env old cc (w : @CellWorld W) after requeue r :
  coResult (persist_then env old cc w after requeue) = Ok r ->
  coWorld (persist_then env old cc w after requeue) = after w.
Proof. unfold persist_then. by destruct (persistStatusIfChanged _ _ _). Qed.

Lemma persist_then_any env old cc (w : @CellWorld W) after requeue :
  coWorld (persist_then env old cc w after requeue) = after w \/
  coWorld (persist_then env old cc w after requeue) = w.
Proof. unfold persist_then. destruct (persistStatusIfChanged _ _ _); [by left|by right]. Qed.

Lemma persist_backend env old cc4 (w : @CellWorld W) after rq :
  cwBackend (after w) = cwBackend w -> cwBackend (coWorld (persist_then env old cc4 w after rq)) = cwBackend w.
Proof. intros H. destruct (persist_then_any env old cc4 w after rq) as [->| ->]; done. Qed.

(** The labels of a cell depend on its metadata alone. *)
Lemma labels_same cc cc' : cellMeta cc' = cellMeta cc -> cell_labels cc' = cell_labels cc.
Proof. unfold cell_labels. by intros ->. Qed.

(** The object as [reconcile_applied] hands it to the push. *)
Definition advised (cc : NTNCellConfig) (spec : NTNCellConfigSpec) (status : NTNCellConfigStatus) : NTNCellConfig :=
  (applySIB19CadenceCondition
     (set_cell_condition
        (set_config_map_ref (ConfigMapRef status) (set_applied_koffset (AppliedKoffset status) cc))
        ConditionConfigApplied ConditionTrue "Applied" (applied_message spec)) spec).2.

Lemma advised_keeps cc spec status :
  cellMeta (advised cc spec status) = cellMeta cc /\ cellSpec (advised cc spec status) = cellSpec cc /\
  LastPushedSatSwitchDigest (cellStatus (advised cc spec status)) = LastPushedSatSwitchDigest (cellStatus cc) /\
  FindStatusCondition (conditions_of (advised cc spec status)) ConditionEphemerisPushed =
    FindStatusCondition (conditions_of cc) ConditionEphemerisPushed.
Proof.
  unfold advised.
  set (cc1 := set_cell_condition _ _ _ _ _).
  destruct (applySIB19CadenceCondition cc1 spec) as [[warn ep] cc2] eqn:H. cbn [snd].
  destruct (advisory_keeps _ _ _ _ _ ConditionEphemerisPushed H) as (-> & -> & ->); [|done].
  split_and!; try done.
  - unfold applySIB19CadenceCondition in H.
    destruct (sib19EpochReanchored spec); cbn [negb] in H; [destruct (str_eqb _ _); cbn [negb] in H|];
      injection H as <- <- <-; done.
  - unfold cc1. rewrite find_set_cell. by case_decide.
Qed.

(** [reconcile_applied] in terms of the push it makes. *)
Lemma applied_cases w cc spec prov status env r :
  coResult (applied w cc spec prov status env) = Ok r ->
  let out := applied w cc spec prov status env in
  ConfigApplyReady (coWorld out) !! cell_labels cc = Some 1%Z /\
  (csEphemerisRef (cellSpec cc) = "" -> EphemerisPushReady (coWorld out) !! cell_labels cc = None) /\
  (csEphemerisRef (cellSpec cc) <> "" ->
     EphemerisPushReady (coWorld out) !! cell_labels cc =
       Some (match (push (cwBackend w) (advised cc spec status) spec prov env).1.1 with
             | Ok _ => 1 | Err _ => 0 end)%Z).
Proof.
  cbv zeta. unfold reconcile_applied, advised.
  set (cc0 := set_config_map_ref (ConfigMapRef status) (set_applied_koffset (AppliedKoffset status) cc)).
  set (cc1 := set_cell_condition cc0 ConditionConfigApplied ConditionTrue "Applied" (applied_message spec)).
  destruct (applySIB19CadenceCondition cc1 spec) as [[warn episode] cc2] eqn:Hadv. cbn [snd].
  destruct (advisory_keeps _ _ _ _ _ "" Hadv) as (Hm & Hs & _).
  assert (Hl : cell_labels cc2 = cell_labels cc) by (by apply labels_same).
  change (cellSpec cc1) with (cellSpec cc) in Hs. rewrite Hs.
  destruct (str_eqb (csEphemerisRef (cellSpec cc)) "") eqn:Er; [apply str_eqb_eq in Er|apply str_eqb_neq in Er].
  - intros H. rewrite (persist_then_world _ _ _ _ _ _ _ H). cbn [record set_push_ready ConfigApplyReady EphemerisPushReady].
    change (cell_labels (remove_cell_condition cc2 ConditionEphemerisPushed)) with (cell_labels cc2).
    rewrite Hl. split; [apply lookup_insert_eq|]. split; [intros _; apply lookup_delete_eq|done].
  - change (cwBackend (set_apply_ready cc0 1 w)) with (cwBackend w).
    destruct (push (cwBackend w) cc2 spec prov env) as [[[[pushed marker]|e] cc3] b] eqn:Hpush;
      apply push_keeps in Hpush as (Hm3 & _ & _); cbn [fst];
      assert (Hl3 : cell_labels cc3 = cell_labels cc) by (rewrite <- Hl; by apply labels_same).
    + assert (Hl4 : cell_labels (if pushed then set_cell_condition cc3 ConditionEphemerisPushed ConditionTrue
                                   "Pushed" marker else cc3) = cell_labels cc) by (by destruct pushed).
      intros H. rewrite (persist_then_world _ _ _ _ _ _ _ H).
      cbn [record set_push_ready with_backend set_apply_ready ConfigApplyReady EphemerisPushReady].
      rewrite Hl4. split; [apply lookup_insert_eq|]. split; [done|]. intros _. apply lookup_insert_eq.
    + unfold reconcile_push_failed. intros H. rewrite (persist_then_world _ _ _ _ _ _ _ H).
      cbn [record set_push_ready count_push_error with_backend set_apply_ready ConfigApplyReady EphemerisPushReady].
      change (cell_labels (set_cell_condition cc3 ConditionEphemerisPushed ConditionFalse _ _)) with (cell_labels cc3).
      rewrite Hl3. split; [apply lookup_insert_eq|]. split; [done|]. intros _. apply lookup_insert_eq.
Qed.

Lemma applied_backend w cc spec prov status env :
  cwBackend (coWorld (applied w cc spec prov status env)) =
  if str_eqb (csEphemerisRef (cellSpec cc)) "" then cwBackend w
  else (push (cwBackend w) (advised cc spec status) spec prov env).2.
Proof.
  unfold reconcile_applied, advised.
  set (cc1 := set_cell_condition _ _ _ _ _).
  destruct (applySIB19CadenceCondition cc1 spec) as [[warn episode] cc2] eqn:Hadv. cbn [snd].
  destruct (advisory_keeps _ _ _ _ _ "" Hadv) as (_ & Hs & _).
  change (cellSpec cc1) with (cellSpec cc) in Hs. rewrite Hs.
  destruct (str_eqb (csEphemerisRef (cellSpec cc)) ""); [by rewrite persist_backend|].
  change (cwBackend (set_apply_ready _ 1 w)) with (cwBackend w).
  destruct (push (cwBackend w) cc2 spec prov env) as [[[[pushed marker]|e] cc3] b];
    unfold reconcile_push_failed; by rewrite persist_backend.
Qed.

Lemma live_reconcile w env cc prov :
  ceCell env = Found cc -> deletion_set (cellMeta cc) = false -> finalizerName ∈ Finalizers (cellMeta cc) ->
  provider_of Providers cc = Some prov -> reconcile w env = reconcile_with w cc prov env.
Proof.
  intros Hcc Hdel Hfin Hp. unfold Reconcile, handleFinalizer.
  rewrite Hcc, Hdel, bool_decide_eq_true_2, Hp by done.
  destruct Providers; [done|]. discriminate Hp.
Qed.

(** C29. The gauges tell the truth: after a completed reconcile of a live cell,
    the configuration is reported ready exactly when it was applied and read
    back in this run; and when the runtime push is reported ready after that,
    the ephemeris to serve was found, chosen unambiguously and current at this
    run's clocks, even if nothing had to be sent. *)
Theorem ready_means_current w env cc prov r :
  ceCell env = Found cc -> deletion_set (cellMeta cc) = false -> finalizerName ∈ Finalizers (cellMeta cc) ->
  provider_of Providers cc = Some prov ->
  let out := reconcile w env in
  let spec := enforced_spec cc in
  coResult out = Ok r ->
  (ConfigApplyReady (coWorld out) !! cell_labels cc = Some 1%Z <->
     exists b st, prov_Apply prov (cwBackend w) cc spec = (None, b) /\ prov_Status prov b cc = Ok st) /\
  (forall rc id, ConfigApplyReady (coWorld out) !! cell_labels cc = Some 1%Z ->
     csEphemerisRef (cellSpec cc) <> "" ->
     prRemoteControl (csProvider (cellSpec cc)) = Some rc -> csCellID (cellSpec cc) = Some id ->
     EphemerisPushReady (coWorld out) !! cell_labels cc = Some 1%Z ->
     exists eph state, ceEphemeris env (mkKey (Namespace (cellMeta cc)) (csEphemerisRef (cellSpec cc))) = Found eph /\
       choose_state sha256hex IsPrint spec eph (cePointer env) = Ok state /\
       currency_error IsPrint eph state env = None).
Proof.
  intros Hcc Hdel Hfin Hp. cbv zeta. rewrite (live_reconcile w env cc prov) by done. unfold reconcile_cell.
  destruct (prov_Apply prov _ _ _) as [[e|] b].
  { intros H. unfold reconcile_apply_failed in *. rewrite (persist_then_world _ _ _ _ _ _ _ H).
    cbn [record set_apply_ready ConfigApplyReady]. rewrite lookup_insert_eq. split; [split; [done|naive_solver]|done]. }
  destruct (prov_Status prov b cc) as [status|] eqn:Est.
  2: { intros H. unfold reconcile_unverified in *. rewrite (persist_then_world _ _ _ _ _ _ _ H).
       cbn [set_apply_ready ConfigApplyReady id]. change (cell_labels (set_cell_condition cc _ _ _ _)) with (cell_labels cc).
       rewrite lookup_insert_eq. split; [split; [done|]|done]. intros (? & ? & [= <-] & ?). congruence. }
  intros H. destruct (applied_cases _ _ _ _ _ _ _ H) as (H1 & _ & H3). split; [split; [eauto|done]|].
  intros rc id _ Href Hrc Hid. rewrite (H3 Href).
  destruct (advised_keeps cc (enforced_spec cc) status) as (Hm & _ & _).
  unfold pushEphemerisUpdateIfNeeded. change (csEphemerisRef (enforced_spec cc)) with (csEphemerisRef (cellSpec cc)).
  rewrite (proj2 (str_eqb_neq _ _) Href), Hm.
  destruct (ceEphemeris env _) as [eph| |]; [|done..].
  change (prRemoteControl (csProvider (enforced_spec cc))) with (prRemoteControl (csProvider (cellSpec cc))).
  change (csCellID (enforced_spec cc)) with (csCellID (cellSpec cc)). rewrite Hrc, Hid.
  unfold pushRuntimeEphemeris, runtime_plan.
  destruct (choose_state _ _ _ _ _) as [state|] eqn:Hc; [|done].
  destruct (currency_error _ _ _ _) eqn:Hcur; [done|]. intros _. eauto.
Qed.

(** The push gauge outlives a failing application: while [ApplyCellConfig]
    fails, a reconcile leaves the push gauge as it was, whatever has become of
    the ephemeris. *)
Theorem push_gauge_survives_apply_failure w env cc prov e b :
  ceCell env = Found cc -> deletion_set (cellMeta cc) = false -> finalizerName ∈ Finalizers (cellMeta cc) ->
  provider_of Providers cc = Some prov -> prov_Apply prov (cwBackend w) cc (enforced_spec cc) = (Some e, b) ->
  EphemerisPushReady (coWorld (reconcile w env)) = EphemerisPushReady w.
Proof.
  intros Hcc Hdel Hfin Hp Ha. rewrite (live_reconcile w env cc prov) by done. unfold reconcile_cell. rewrite Ha.
  unfold reconcile_apply_failed.
  match goal with |- context [persist_then ?e ?o ?c ?w ?a ?r] => destruct (persist_then_any e o c w a r) as [->| ->] end;
    reflexivity.
Qed.

(** ** A message that never settles *)

(** A missing satellite keeps the status changing: when the selected
    satellite has no state, the message holds the address of the selector, so
    a run that prints another address than the stored message writes the
    status again, though nothing has changed. *)
Theorem selector_message_never_settles spec eph p p' n :
  csEphemerisNoradID spec = Some n ->
  Forall (fun s => psNoradID s <> n) (PropagatedStates (ephStatus eph)) ->
  PropagatedStatesInputHash (ephStatus eph) = propagationInputHash sha256hex IsPrint (ephSpec eph) ->
  p <> p' ->
  exists e e', choose_state sha256hex IsPrint spec eph p = Err e /\
    choose_state sha256hex IsPrint spec eph p' = Err e' /\ peReason e = peReason e' /\
    forall (w : @CellWorld W) cc events env, ceStatusUpdate env = None ->
      let stored := set_cell_condition cc ConditionEphemerisPushed ConditionFalse (peReason e) (peText e) in
      coStatus (reconcile_push_failed w (cellStatus stored) stored e' events env) <> None.
Proof.
  intros Hn Hall Hh Hp. unfold choose_state. rewrite Hh, str_eqb_refl, Hn. cbn [negb].
  assert (Hsel : selectPropagatedState (PropagatedStates (ephStatus eph)) (Some n) = None).
  { destruct (PropagatedStates (ephStatus eph)) as [|s l]; [done|]. cbn [selectPropagatedState].
    destruct (List.find _ (s :: l)) as [s'|] eqn:E; [|done]. apply List.find_some in E as [Hin Heq%Z.eqb_eq].
    rewrite Forall_forall in Hall. exfalso. apply (Hall s'); [by apply list_elem_of_In|done]. }
  rewrite Hsel. eexists _, _. split; [reflexivity|]. split; [reflexivity|]. split; [done|].
  cbn [peReason peText]. intros w cc events env Hup. cbv zeta. unfold reconcile_push_failed, persist_then, persistStatusIfChanged.
  rewrite bool_decide_eq_false_2; [by rewrite Hup|]. intros Heq. apply (f_equal cellConditions) in Heq.
  apply (f_equal (fun l => FindStatusCondition l ConditionEphemerisPushed)) in Heq.
  match type of Heq with FindStatusCondition (cellConditions (cellStatus ?a)) _ =
                         FindStatusCondition (cellConditions (cellStatus ?b)) _ =>
    change (FindStatusCondition (conditions_of a) ConditionEphemerisPushed =
            FindStatusCondition (conditions_of b) ConditionEphemerisPushed) in Heq end.
  rewrite !find_set_cell, !decide_True in Heq by done. injection Heq as Heq.
  apply Hp. cbn [peText] in Heq. repeat (apply app_str_inv_head in Heq || injection Heq as Heq).
  by apply app_str_inv_tail in Heq.
Qed.

End Safety.

(** ** A satellite switch is delivered once *)

Section Switch.
Context `{SC : StatusConditions} {W0 : Type}.

(** A provider that also keeps every update it was asked to deliver, and
    whether the delivery was confirmed.  A gNB may have accepted an update whose
    delivery was not. *)
Definition logged (prov : NTNProvider W0) : NTNProvider (W0 * list (RuntimeUpdate * bool)) :=
  mkNTNProvider
    (fun w cc spec => let '(e, b) := prov_Apply prov w.1 cc spec in (e, (b, w.2)))
    (fun w cc => prov_Status prov w.1 cc)
    (fun w cc u => let '(e, b) := prov_PushEphemeris prov w.1 cc u in (e, (b, w.2)))
    (fun w t u => let '(e, b) := prov_PushRuntime prov w.1 t u in
                  (e, (b, w.2 ++ [(u, match e with None => true | Some _ => false end)])%list))
    (fun w cc => let '(e, b) := prov_Cleanup prov w.1 cc in (e, (b, w.2))).

Variable unicode_lower : string -> string.
Variable url_parse : string -> option URL.
Variable pem_ok : string -> bool.
Variable keypair_ok : string -> string -> bool.
Variable ValidHeaderFieldValue : string -> bool.
Variable sha256hex : string -> string.
Variable IsPrint : N -> bool.
Variable not_found_text : NamespacedName -> string.
Variable cm_get : W0 -> NamespacedName -> GetResult ConfigMapView.
Variable cm_delete : W0 -> NamespacedName -> UID -> option string * W0.
Variable Providers : option (gmap string (NTNProvider W0)).
Variable AllowedHosts : EndpointAllowlist.

Abbreviation W := (W0 * list (RuntimeUpdate * bool))%type.
Abbreviation push := (pushEphemerisUpdateIfNeeded (W := W) unicode_lower url_parse pem_ok
  keypair_ok ValidHeaderFieldValue sha256hex IsPrint not_found_text AllowedHosts).
Abbreviation applied := (reconcile_applied (W := W) unicode_lower url_parse pem_ok keypair_ok
  ValidHeaderFieldValue sha256hex IsPrint not_found_text AllowedHosts).
Abbreviation reconcile := (Reconcile (W := W) unicode_lower url_parse pem_ok keypair_ok
  ValidHeaderFieldValue sha256hex IsPrint not_found_text (fun w => cm_get w.1)
  (fun w k u => let '(e, b) := cm_delete w.1 k u in (e, (b, w.2)))
  (fmap (M := option) (fmap (M := gmap string) logged) Providers) AllowedHosts).

Definition with_cell (env : CellEnv) (cc : NTNCellConfig) : CellEnv :=
  mkCellEnv (Found cc) (ceEphemeris env) (ceSecret env) (ceUpdate env) (ceStatusUpdate env) (ceEpochNow env)
    (ceSourceNow env) (cePointer env).

(** What the API server stores after a reconcile. *)
Definition stored_after (cc : NTNCellConfig) (out : @CellOutcome W) : NTNCellConfig :=
  match coObject out with
  | Some o => o
  | None => match coStatus out with Some st => map_cell_status (fun _ => st) cc | None => cc end
  end.

(** Reconciles of one cell, one after the other, in any environments. *)
Fixpoint run (w : @CellWorld W) (cc : NTNCellConfig) (envs : list CellEnv) : @CellWorld W * NTNCellConfig :=
  match envs with
  | [] => (w, cc)
  | env :: envs =>
      let out := reconcile w (with_cell env cc) in run (coWorld out) (stored_after cc out) envs
  end.

Definition carries_switch (u : RuntimeUpdate) : bool :=
  match ruSatSwitch u with Some _ => true | None => false end.

(** The updates with a switch that were sent, and those of them whose delivery
    was confirmed or was not. *)
Definition sent_switches (l : list (RuntimeUpdate * bool)) : nat :=
  length (List.filter (fun e => carries_switch e.1) l).
Definition confirmed_switches (l : list (RuntimeUpdate * bool)) : nat :=
  length (List.filter (fun e => carries_switch e.1 && e.2) l).
Definition unconfirmed_switches (l : list (RuntimeUpdate * bool)) : nat :=
  length (List.filter (fun e => carries_switch e.1 && negb e.2) l).

Lemma sent_split l : sent_switches l = (confirmed_switches l + unconfirmed_switches l)%nat.
Proof.
  induction l as [|[u ok] l IH]; [done|]. unfold sent_switches, confirmed_switches, unconfirmed_switches in *. cbn.
  destruct (carries_switch u), ok; cbn; lia.
Qed.

Lemma confirmed_app a b : confirmed_switches (a ++ b) = (confirmed_switches a + confirmed_switches b)%nat.
Proof. unfold confirmed_switches. by rewrite List.filter_app, length_app. Qed.

Lemma sent_app a b : sent_switches (a ++ b) = (sent_switches a + sent_switches b)%nat.
Proof. unfold sent_switches. by rewrite List.filter_app, length_app. Qed.

Definition log_of (w : @CellWorld W) : list (RuntimeUpdate * bool) := (cwBackend w).2.

Definition failed_write (env : CellEnv) : bool :=
  match ceStatusUpdate env with Some _ => true | None => false end.

Definition digest_of (cc : NTNCellConfig) : string := LastPushedSatSwitchDigest (cellStatus cc).
Definition wanted (cc : NTNCellConfig) : string := switch_digest sha256hex (enforced_spec cc).

(** What one run adds to the log and does to the stored digest. *)
Definition step_ok (w : @CellWorld W) (env : CellEnv) (cc : NTNCellConfig) (w' : @CellWorld W) (cc' : NTNCellConfig) : Prop :=
  cellSpec cc' = cellSpec cc /\
  exists more, log_of w' = (log_of w ++ more)%list /\
  (digest_of cc = wanted cc -> sent_switches more = 0%nat /\ digest_of cc' = wanted cc) /\
  (confirmed_switches more <= 1)%nat /\
  (confirmed_switches more = 1%nat -> failed_write env = false -> digest_of cc' = wanted cc).

Lemma push_switches w cc spec prov env r cc' b :
  switch_digest sha256hex spec = wanted cc ->
  push w cc spec (logged prov) env = (r, cc', b) ->
  (b.2 = w.2 \/ exists u, b.2 = (w.2 ++ [(u, is_ok r)])%list /\ (is_ok r = true -> digest_of cc' = wanted cc) /\
     (carries_switch u = true -> digest_of cc <> wanted cc)) /\
  (digest_of cc = wanted cc -> digest_of cc' = wanted cc).
Proof.
  intros Hw. unfold pushEphemerisUpdateIfNeeded. destruct (str_eqb _ _); [intros [= <- <- <-]; auto|].
  destruct (ceEphemeris env _) as [eph| |]; [|intros [= <- <- <-]; auto..].
  assert (Hst : push_static w cc spec eph (logged prov) = (r, cc', b) -> b.2 = w.2 /\ cc' = cc).
  { unfold push_static. destruct (isEphemerisPushUpToDate _ _); [by intros [= <- <- <-]|].
    destruct (match ntnOrbital _ with Some _ => _ | None => _ end); [|by intros [= <- <- <-]].
    cbn [logged prov_PushEphemeris]. destruct (prov_PushEphemeris _ _ _ _) as [[?|] ?]; by intros [= <- <- <-]. }
  destruct (prRemoteControl (csProvider spec)) as [rc|]; [|intros [-> ->]%Hst; auto].
  destruct (csCellID spec) as [id|]; [|intros [-> ->]%Hst; auto]. clear Hst.
  unfold pushRuntimeEphemeris. destruct (runtime_plan _ _ _ _ _ _ _ _ _ _ _ _ _ _) as [e|m|m t u d] eqn:Hp;
    [intros [= <- <- <-]; auto..|].
  assert (Hd : d = wanted cc /\ (carries_switch u = true -> digest_of cc <> wanted cc)).
  { unfold runtime_plan in Hp. repeat (split_match_in Hp; try discriminate Hp).
    injection Hp as <- <- <- <-. split; [done|]. rewrite <- Hw. unfold carries_switch, switch_digest.
    cbn [runtime_update ruSatSwitch]. destruct (ntnSatSwitch (csNTN spec)) as [sw|]; [|done].
    destruct (str_eqb _ _) eqn:E; [done|]. apply str_eqb_neq in E. unfold digest_of. congruence. }
  destruct Hd as [-> Hc]. cbn [logged prov_PushRuntime].
  destruct (prov_PushRuntime prov w.1 t u) as [[e|] b'].
  - intros [= <- <- <-]. split; [right; by exists u|done].
  - intros [= <- <- <-]. split; [right; by exists u|done].
Qed.

Lemma persist_stored env cc cc4 (w : @CellWorld W) after rq :
  let out := persist_then env (cellStatus cc) cc4 w after rq in
  cellSpec (stored_after cc out) = cellSpec cc /\
  (digest_of (stored_after cc out) = digest_of cc4 \/
   (digest_of (stored_after cc out) = digest_of cc /\ failed_write env = true)).
Proof.
  cbv zeta. unfold persist_then, persistStatusIfChanged, failed_write, stored_after.
  destruct (bool_decide_reflect (cellStatus cc = cellStatus cc4)) as [E|].
  - cbn. split; [done|]. left. unfold digest_of. by rewrite E.
  - destruct (ceStatusUpdate env); cbn; auto.
Qed.

(** A run that pushes nothing. *)
Lemma idle_step env cc cc4 (w w0 : @CellWorld W) after rq :
  cwBackend (after w) = cwBackend w -> log_of w = log_of w0 ->
  (digest_of cc = wanted cc -> digest_of cc4 = wanted cc) ->
  let out := persist_then env (cellStatus cc) cc4 w after rq in
  step_ok w0 env cc (coWorld out) (stored_after cc out).
Proof.
  intros Ha Hb Hd. cbv zeta. destruct (persist_stored env cc cc4 w after rq) as [Hs Hdig].
  split; [exact Hs|]. exists []. unfold log_of in *. rewrite persist_backend, Hb, app_nil_r by done.
  split_and!; [done| |cbn; lia|done]. intros H. split; [done|]. destruct Hdig as [->|[-> _]]; auto.
Qed.

(** A run that has sent [u] before it persists. *)
Lemma sent_step env cc cc4 (w w0 : @CellWorld W) after rq u ok :
  cwBackend (after w) = cwBackend w -> log_of w = (log_of w0 ++ [(u, ok)])%list ->
  (ok = true -> digest_of cc4 = wanted cc) -> (digest_of cc = wanted cc -> digest_of cc4 = wanted cc) ->
  (carries_switch u = true -> digest_of cc <> wanted cc) ->
  let out := persist_then env (cellStatus cc) cc4 w after rq in
  step_ok w0 env cc (coWorld out) (stored_after cc out).
Proof.
  intros Ha Hb Hok Hd Hu. cbv zeta. destruct (persist_stored env cc cc4 w after rq) as [Hs Hdig].
  split; [exact Hs|]. exists [(u, ok)]. unfold log_of in *. rewrite persist_backend, Hb by done.
  unfold sent_switches, confirmed_switches. cbn. split_and!; [done|..].
  - intros H. destruct (carries_switch u); [by destruct Hu|]. split; [done|]. destruct Hdig as [->|[-> _]]; auto.
  - destruct (carries_switch u && ok); cbn; lia.
  - destruct (carries_switch u), ok; try done. intros _ Hf. destruct Hdig as [->|[_ Hf']]; [auto|congruence].
Qed.

Lemma applied_step w cc prov status env :
  let out := applied w cc (enforced_spec cc) (logged prov) status env in
  step_ok w env cc (coWorld out) (stored_after cc out).
Proof.
  cbv zeta. unfold reconcile_applied.
  set (spec := enforced_spec cc).
  pose proof (advised_keeps cc spec status) as Hk. unfold advised in Hk.
  destruct (applySIB19CadenceCondition _ spec) as [[warn episode] cc2]. cbn [snd] in Hk.
  destruct Hk as (Hm & Hsp & Hdig & _). fold (digest_of cc2) (digest_of cc) in Hdig.
  assert (Hw : wanted cc2 = wanted cc) by (unfold wanted, enforced_spec; by rewrite Hsp, Hm).
  destruct (str_eqb (csEphemerisRef (cellSpec cc2)) "").
  { apply idle_step; [done..|]. intros H. cbn. fold (digest_of cc2). congruence. }
  destruct (push _ cc2 spec (logged prov) env) as [[r cc3] b] eqn:Hpush.
  apply push_switches in Hpush as [Hb Hd]; [|by rewrite Hw]. rewrite Hdig, Hw in Hb, Hd.
  destruct r as [[pushed marker]|e].
  - set (cc4 := if pushed then _ else cc3).
    assert (Hd4 : digest_of cc4 = digest_of cc3) by (unfold cc4; by destruct pushed).
    destruct Hb as [Hb|(u & Hb & Hok & Hu)].
    + apply idle_step; [done..|]. rewrite Hd4. auto.
    + eapply sent_step; [done|exact Hb|rewrite Hd4; auto|rewrite Hd4; auto|exact Hu].
  - unfold reconcile_push_failed. destruct Hb as [Hb|(u & Hb & Hok & Hu)].
    + apply idle_step; [done..|]. exact Hd.
    + eapply sent_step; [done|exact Hb|done|exact Hd|exact Hu].
Qed.

Lemma reconcile_step w cc env :
  ceCell env = Found cc ->
  let out := reconcile w env in
  step_ok w env cc (coWorld out) (stored_after cc out).
Proof.
  intros Hcc. cbv zeta. unfold Reconcile. rewrite Hcc.
  set (reg := fmap (M := option) _ Providers).
  assert (Hsame : forall cc' (w' : @CellWorld W) (out : @CellOutcome W), coWorld out = w' ->
    stored_after cc out = cc' -> (cwBackend w').2 = (cwBackend w).2 -> cellSpec cc' = cellSpec cc ->
    digest_of cc' = digest_of cc -> step_ok w env cc (coWorld out) (stored_after cc out)).
  { intros cc' w' out -> -> Hb Hs Hd. split; [done|]. exists []. unfold log_of. rewrite Hb, Hd, app_nil_r.
    split_and!; [done..|cbn; lia|done]. }
  destruct (handleFinalizer _ _ _ _ _ _) as [out|] eqn:Hf.
  { unfold handleFinalizer, update_object in Hf.
    destruct (deletion_set _).
    - destruct (bool_decide _); [|injection Hf as <-; by eapply Hsame].
      assert (Hlog : (match provider_of reg cc with
         | Some p => prov_Cleanup p (cwBackend (drop_series cc w)) cc
         | None => best_effort_cleanup (fun w => cm_get w.1)
             (fun w k u => let '(e, b) := cm_delete w.1 k u in (e, (b, w.2))) (cwBackend (drop_series cc w)) cc
         end).2.2 = (cwBackend w).2).
      { cbn [drop_series cwBackend]. unfold provider_of, reg. destruct Providers as [m|]; cbn [fmap option_fmap option_map].
        1: rewrite lookup_fmap; destruct (m !! _) as [p|]; cbn.
        1: by destruct (prov_Cleanup p _ _).
        all: unfold best_effort_cleanup; destruct (str_eqb _ _); [done|];
          destruct (cm_get _ _) as [v| |]; try done; destruct (cvControlledBy v _); [|done];
          by destruct (cm_delete _ _ _). }
      destruct (match provider_of reg cc with Some _ => _ | None => _ end) as [[e|] b]; cbn in Hlog.
      + injection Hf as <-. by eapply Hsame.
      + destruct (ceUpdate env); injection Hf as <-; by eapply Hsame.
    - destruct (bool_decide _); [done|]. destruct (ceUpdate env); injection Hf as <-; by eapply Hsame. }
  assert (Hnp : forall a b c, step_ok w env cc
      (coWorld (reconcile_no_provider w cc env a b c))
      (stored_after cc (reconcile_no_provider w cc env a b c))).
  { intros a b c. unfold reconcile_no_provider. by apply idle_step. }
  unfold reg, provider_of. destruct Providers as [m|]; cbn [fmap option_fmap option_map]; [|apply Hnp].
  rewrite lookup_fmap. destruct (m !! _) as [prov|]; cbn [fmap option_fmap option_map]; [|apply Hnp].
  unfold reconcile_cell. cbn [logged prov_Apply]. destruct (prov_Apply prov _ _ _) as [[e|] b].
  - unfold reconcile_apply_failed. by apply idle_step.
  - cbn [logged prov_Status]. destruct (prov_Status _ _ _) as [status|].
    + apply (applied_step (with_backend w (b, (cwBackend w).2)) cc prov status env).
    + unfold reconcile_unverified. by apply idle_step.
Qed.

(** C25. A satellite switch is delivered once: over any sequence of reconciles of
    one cell with one specification, whatever the ephemeris, the endpoint, the
    provider and the API server do, at most one update that carries the switch is
    confirmed, plus one for each status write that failed; an update that was sent
    without a confirmation (the gNB may have accepted it all the same) is counted
    apart, so the gNB is sent no more than these together; and once the digest of
    the delivered switch is in the status, none is ever sent. *)
Theorem switch_delivered_once w cc envs :
  let before := log_of w in
  let after := log_of (run w cc envs).1 in
  let writes_failed := length (List.filter failed_write envs) in
  (confirmed_switches after <= confirmed_switches before + 1 + writes_failed)%nat /\
  (sent_switches after + unconfirmed_switches before <=
     sent_switches before + unconfirmed_switches after + 1 + writes_failed)%nat /\
  (digest_of cc = wanted cc -> sent_switches after = sent_switches before).
Proof.
  cbv zeta.
  cut ((confirmed_switches (log_of (run w cc envs).1) <= confirmed_switches (log_of w) +
          (if decide (digest_of cc = wanted cc) then 0 else 1) + length (List.filter failed_write envs))%nat /\
       (digest_of cc = wanted cc -> sent_switches (log_of (run w cc envs).1) = sent_switches (log_of w))).
  { intros [H1 H2]. split; [case_decide; lia|]. split; [|done]. rewrite !sent_split. case_decide; lia. }
  revert w cc. induction envs as [|env envs IH]; intros w cc; cbn [run fst List.filter length]; [split; [lia|done]|].
  destruct (reconcile_step w cc (with_cell env cc) eq_refl) as (Hs & more & Hlog & Hdone & Hone & Hw).
  change (failed_write (with_cell env cc)) with (failed_write env) in Hw.
  set (out := reconcile w (with_cell env cc)) in *.
  destruct (IH (coWorld out) (stored_after cc out)) as [IH1 IH2].
  assert (Hwant : wanted (stored_after cc out) = wanted cc).
  { unfold wanted, switch_digest, enforced_spec. cbn [csNTN]. by rewrite Hs. }
  rewrite Hwant, Hlog in IH1, IH2. rewrite confirmed_app in IH1. rewrite sent_app in IH2. pose proof (sent_split more) as Hsplit. split.
  - destruct (decide (digest_of cc = wanted cc)) as [Hd|Hd].
    + destruct (Hdone Hd) as [H0 Hd']. rewrite decide_True in IH1 by done. destruct (failed_write env); cbn [length]; lia.
    + destruct (failed_write env); cbn [length]; [repeat case_decide; lia|].
      destruct (decide (confirmed_switches more = 1%nat)) as [H1|H1]; [rewrite decide_True in IH1 by auto; lia|].
      case_decide; lia.
  - intros Hd. destruct (Hdone Hd) as [H0 Hd']. rewrite IH2 by done. lia.
Qed.

End Switch.
