(* ===== verification/CellOcudu.v ===== *)
(** * The cell controller on the OCUDU provider

    The provider the program registers ([main.go] registers the type "ocudu"),
    as an instance of the provider interface, on a ConfigMap store and the list
    of what was sent to gNBs; and what a reconcile of a cell leaves in the
    cluster when both components work together. *)

From S2P Require Import Prelude GoStrings GoTime GoNet GoJson GoFloat K8sMeta NetGuard CellApi OcuduConfig EphemerisApi OcuduWire OcuduProvider CellController CellSafety.
Local Open Scope string_scope.
Local Arguments String.append !_ _ /.

Section Ocudu.
Context `{SC : StatusConditions} {R : Type} `{CR : ControllerRefs R} `{SRV : ConfigServer R}.

(** The digest of long names, [unicode.IsPrint], the JSON decoder, the gNB, and
    the texts of errors. *)
Variable hash : string -> string.
Variable IsPrint : N -> bool.
Variable Unmarshal : string -> option string.
Variable peer : Peer TLSConf.
Variable apply_text : apply_error -> string.
Variable status_text : status_error -> string.
Variable push_text : push_error -> string.

(** Nobody else writes in between. *)
Definition undisturbed (i : nat) (s : Store R) : Store R := s.

Abbreviation Backend := (Store R * list (event TLSConf))%type.

Definition ocudu_provider : NTNProvider Backend := mkNTNProvider
  (fun w cc spec =>
     let out := ApplyCellConfig hash IsPrint undisturbed w.1 (cellMeta cc) spec in
     (match aoResult out with
      | Ok _ => None
      | Err e => Some (mkApplyFailure (match e with NotOwned => true | _ => false end) (apply_text e))
      end, (aoStore out, w.2)))
  (fun w cc =>
     match GetCellStatus hash w.1 (cellMeta cc) with
     | (st, None) => Ok st
     | (_, Some e) => Err (status_text e)
     end)
  (fun w cc u =>
     match PushEphemerisUpdate hash undisturbed w.1 (cellMeta cc) u with
     | (Ok _, s) => (None, (s, w.2))
     | (Err e, s) => (Some (push_text e), (s, w.2))
     end)
  (fun w t u =>
     let '(e, tr) := PushRuntimeUpdate TLSConf Unmarshal IsPrint peer t u in (e, (w.1, w.2 ++ tr)%list))
  (fun w cc =>
     match Cleanup hash undisturbed w.1 (cellMeta cc) with
     | (true, s) => (None, (s, w.2))
     | (false, s) => (Some "cleanup failed", (s, w.2))
     end).

(** ** Frame conditions *)

Lemma apply_existing_frame s k uid cm koffset text k' :
  k' <> k -> aoStore (apply_existing undisturbed s k uid cm koffset text) !! k' = s !! k'.
Proof.
  intros Hk. unfold apply_existing. repeat split_match; cbn; try done;
    match goal with H : srv_update _ _ _ = _ |- _ =>
      first [apply update_written in H as (? & ? & _ & _ & _ & _ & _ & ->); by rewrite lookup_insert_ne
            |apply update_refused in H; [by rewrite H|done]] end.
Qed.

Lemma apply_frame s owner spec k' :
  k' <> cm_key hash owner ->
  aoStore (ApplyCellConfig hash IsPrint undisturbed s owner spec) !! k' = s !! k'.
Proof.
  intros Hk. unfold ApplyCellConfig. destruct (str_eqb _ _); [done|]. destruct (negb _); [done|].
  destruct (GenerateConfig _ _); [|done]. destruct (srv_get s _); [by apply apply_existing_frame| |done].
  destruct (SetControllerReference _ _); [|done].
  destruct (srv_create _ _ _) as [r s'] eqn:Hc. destruct r.
  - apply create_written in Hc as (_ & cm & _ & ->). cbn. by rewrite lookup_insert_ne.
  - apply create_refused in Hc as ->; [|done]. unfold undisturbed at 1 2 3.
    destruct (srv_get s _); [by apply apply_existing_frame|done..].
  - apply create_refused in Hc; [by rewrite Hc|done].
  - apply create_refused in Hc; [by rewrite Hc|done].
  - apply create_refused in Hc; [by rewrite Hc|done].
Qed.

Lemma push_frame s owner u r s' k' :
  PushEphemerisUpdate hash undisturbed s owner u = (r, s') -> k' <> cm_key hash owner -> s' !! k' = s !! k'.
Proof.
  intros H Hk. revert H. unfold PushEphemerisUpdate. cbv zeta.
  repeat split_match; intros [= <- <-]; try done;
    match goal with H : srv_update _ _ _ = _ |- _ =>
      first [apply update_written in H as (? & ? & _ & _ & _ & _ & _ & ->); by rewrite lookup_insert_ne
            |apply update_refused in H; [by rewrite H|done]] end.
Qed.

(** Pushing the ephemeris of the spec again leaves its document as it is. *)
Lemma push_same_document s owner spec u text cm r s' :
  s !! cm_key hash owner = Some cm -> get_str (cmData cm) configDataKey = text ->
  GenerateConfig IsPrint spec = Ok text ->
  u = mkUpdate (ntnECEF (csNTN spec)) (ntnOrbital (csNTN spec)) ->
  PushEphemerisUpdate hash undisturbed s owner u = (r, s') -> s' = s.
Proof.
  intros Hs Ht Hg -> H.
  assert (Hu : exists e, update_data (mkUpdate (ntnECEF (csNTN spec)) (ntnOrbital (csNTN spec))) = Some e).
  { unfold GenerateConfig, applyEphemeris in Hg. unfold update_data. cbn.
    destruct (ntnECEF (csNTN spec)), (ntnOrbital (csNTN spec)); try done; eauto. }
  destruct Hu as [e Hu]. destruct (replace_regenerates _ _ _ _ _ Hg Hu) as (t & Hgt & Hr).
  assert (t = text) as ->.
  { cbn in Hgt. replace (with_ephemeris spec (ntnECEF (csNTN spec)) (ntnOrbital (csNTN spec))) with spec in Hgt
      by (destruct spec as [? [] ? ? ? ?]; reflexivity). congruence. }
  revert H. unfold PushEphemerisUpdate. destruct (str_eqb _ _); [by intros [= <- <-]|].
  destruct (uECEF _), (uOrbital _); try (by intros [= <- <-]);
    (destruct (srv_get s (cm_key hash owner)) as [cm0| |] eqn:Hget; [|by intros [= <- <-]..];
     apply get_found in Hget; rewrite Hget in Hs; injection Hs as ->;
     destruct (negb _); [by intros [= <- <-]|];
     destruct (cmData cm !! configDataKey) as [content|] eqn:Hd; [|by intros [= <- <-]];
     assert (content = text) as -> by (unfold get_str in Ht; by rewrite Hd in Ht);
     rewrite Hr; cbn [negb]; rewrite str_eqb_refl; by intros [= <- <-]).
Qed.

(** ** The system *)

Variable unicode_lower : string -> string.
Variable url_parse : string -> option URL.
Variable pem_ok : string -> bool.
Variable keypair_ok : string -> string -> bool.
Variable ValidHeaderFieldValue : string -> bool.
Variable sha256hex : string -> string.
Variable not_found_text : NamespacedName -> string.
Variable cm_get : Backend -> NamespacedName -> GetResult ConfigMapView.
Variable cm_delete : Backend -> NamespacedName -> UID -> option string * Backend.
Variable AllowedHosts : EndpointAllowlist.

Definition registry : option (gmap string (NTNProvider Backend)) := Some {["ocudu" := ocudu_provider]}.

Abbreviation push := (pushEphemerisUpdateIfNeeded (W := Backend) unicode_lower url_parse pem_ok
  keypair_ok ValidHeaderFieldValue sha256hex IsPrint not_found_text AllowedHosts).
Abbreviation system := (Reconcile (W := Backend) unicode_lower url_parse pem_ok keypair_ok
  ValidHeaderFieldValue sha256hex IsPrint not_found_text cm_get cm_delete registry AllowedHosts).

(** The stored document of a cell is the one of its spec, under its control. *)
Definition documented (s : Store R) (cc : NTNCellConfig) : Prop :=
  exists text cm, GenerateConfig IsPrint (enforced_spec cc) = Ok text /\
    s !! cm_key hash (cellMeta cc) = Some cm /\ get_str (cmData cm) configDataKey = text /\
    IsControlledBy (cmOwners cm) (oUID (cellMeta cc)) = true.

(** A push keeps the document and touches no other ConfigMap. *)
Lemma push_documented b cc cc' env :
  cellMeta cc' = cellMeta cc -> documented b.1 cc ->
  documented (push b cc' (enforced_spec cc) ocudu_provider env).2.1 cc /\
  forall k, k <> cm_key hash (cellMeta cc) ->
    (push b cc' (enforced_spec cc) ocudu_provider env).2.1 !! k = b.1 !! k.
Proof.
  intros Hm Hdoc. unfold pushEphemerisUpdateIfNeeded. destruct (str_eqb _ _); [done|].
  destruct (ceEphemeris env _) as [eph| |]; [|done..].
  assert (Hst : (push_static b cc' (enforced_spec cc) eph ocudu_provider).2.1 = b.1).
  { unfold push_static. destruct (isEphemerisPushUpToDate _ _); [done|].
    destruct Hdoc as (text & cm & Hg & Hl & Ht & _).
    destruct (match ntnOrbital _ with Some _ => _ | None => _ end) as [u|] eqn:Hu; [|done].
    cbn [ocudu_provider prov_PushEphemeris]. rewrite Hm.
    destruct (PushEphemerisUpdate hash undisturbed b.1 (cellMeta cc) u) as [r s'] eqn:Hp.
    assert (s' = b.1) as ->.
    { apply (push_same_document b.1 (cellMeta cc) (enforced_spec cc) u text cm r s' Hl Ht Hg); [|done].
      unfold GenerateConfig, applyEphemeris in Hg. change (csNTN (enforced_spec cc)) with (csNTN (cellSpec cc)) in *.
      destruct (ntnECEF (csNTN (cellSpec cc))), (ntnOrbital (csNTN (cellSpec cc))); try discriminate Hg;
        try discriminate Hu; by injection Hu as <-. }
    by destruct r. }
  destruct (prRemoteControl _) as [rc|]; [|by rewrite Hst]. destruct (csCellID _) as [id|]; [|by rewrite Hst].
  clear Hst. unfold pushRuntimeEphemeris. destruct (runtime_plan _ _ _ _ _ _ _ _ _ _ _ _ _ _) as [| |m t u d]; [done..|].
  cbn [ocudu_provider prov_PushRuntime]. destruct (PushRuntimeUpdate _ _ _ _ _ _) as [[e|] tr]; done.
Qed.

(** C5. Ready means deployed: when no one else writes in between, a completed
    reconcile of a live OCUDU cell that reports its configuration ready leaves
    in the cell's own namespace a ConfigMap under the cell's control that holds
    exactly the document generated from its specification, also after the
    ephemeris has been pushed; and it has changed no other ConfigMap. *)
Theorem ready_means_deployed w env cc r :
  ceCell env = Found cc -> deletion_set (cellMeta cc) = false -> finalizerName ∈ Finalizers (cellMeta cc) ->
  prType (csProvider (cellSpec cc)) = "ocudu" ->
  let out := system w env in
  coResult out = Ok r -> ConfigApplyReady (coWorld out) !! cell_labels cc = Some 1%Z ->
  documented (cwBackend (coWorld out)).1 cc /\
  kNamespace (cm_key hash (cellMeta cc)) = Namespace (cellMeta cc) /\
  forall k, k <> cm_key hash (cellMeta cc) -> (cwBackend (coWorld out)).1 !! k = (cwBackend w).1 !! k.
Proof.
  intros Hcc Hdel Hfin Hty. cbv zeta.
  rewrite (live_reconcile _ _ _ _ _ _ _ _ _ _ _ _ w env cc ocudu_provider) by
    (done || (unfold provider_of, registry; by rewrite Hty, lookup_singleton_eq)).
  unfold reconcile_cell. cbn [ocudu_provider prov_Apply].
  set (out := ApplyCellConfig hash IsPrint undisturbed (cwBackend w).1 (cellMeta cc) (enforced_spec cc)).
  destruct (aoResult out) as [[]|e] eqn:Hres.
  2: { intros H. unfold reconcile_apply_failed in *. rewrite (persist_then_world _ _ _ _ _ _ _ H).
       cbn [record set_apply_ready ConfigApplyReady]. by rewrite lookup_insert_eq. }
  destruct (prov_Status _ _ _) as [status|].
  2: { intros H. unfold reconcile_unverified in *. rewrite (persist_then_world _ _ _ _ _ _ _ H).
       cbn [set_apply_ready ConfigApplyReady id].
       change (cell_labels (set_cell_condition cc _ _ _ _)) with (cell_labels cc). by rewrite lookup_insert_eq. }
  intros _ _. rewrite applied_backend. cbn [with_backend cwBackend].
  assert (Hdoc : documented (aoStore out) cc).
  { destruct (apply_spec hash IsPrint undisturbed (cwBackend w).1 (cellMeta cc) (enforced_spec cc)) as [_ Hok].
    destruct (Hok Hres) as (text & cm & Hg & Hl & Hd & _). exists text, cm. split_and!; [done|done|apply Hd..]. }
  assert (Hframe : forall k, k <> cm_key hash (cellMeta cc) -> aoStore out !! k = (cwBackend w).1 !! k)
    by (intros k; apply apply_frame).
  destruct (str_eqb _ _); [done|].
  destruct (push_documented (aoStore out, (cwBackend w).2) cc (advised cc (enforced_spec cc) status) env)
    as [H1 H2]; [apply advised_keeps|done|].
  split; [exact H1|]. split; [done|]. intros k Hk. rewrite H2 by done. by apply Hframe.
Qed.

End Ocudu.
