(* ===== verification/CellDemo.v ===== *)
(** * A concrete cell

    Instances of the libraries, a cell, an ephemeris and environments on which
    the theorems about the cell controller are applied, with their hypotheses
    discharged by computation. *)

From S2P Require Import Prelude GoStrings GoTime GoNet GoJson GoFloat K8sMeta NetGuard CellApi OcuduConfig EphemerisApi OcuduWire OcuduProvider CellController CellSafety CellOcudu.
Local Open Scope string_scope.

#[local] Existing Instance list_conditions.
#[local] Existing Instance demo_refs.
#[local] Existing Instance demo_server.

Definition demo_url (s : string) : option URL := Some (mkURL "https" false "gnb").
Definition yes (s : string) : bool := true.
Definition yes2 (a b : string) : bool := true.
Definition same (s : string) : string := s.
Definition demo_missing (k : NamespacedName) : string := "not found".

Definition demo_cell_meta : ObjectMeta := mkMeta "ran" "cell" "u1" 1 None [finalizerName] ∅.

Definition demo_remote : RemoteControlRef := mkRemote "gnb:8001" (Some (mkTLS "tls" "cred" "")).

Definition demo_runtime_spec (norad : option Z) : NTNCellConfigSpec :=
  mkCellSpec (mkProviderRef "ocudu" "ran" (Some demo_remote) "" None) (csNTN (demo_ntn "transparent" None))
    None "eph" (Some (mkCellID "00101" 1)) norad.

Definition demo_cell : NTNCellConfig :=
  mkCell demo_cell_meta (demo_runtime_spec (Some 25544%Z)) (mkCellStatus 0 "" "" []).

Definition demo_now : Time := UnixMilli 1700000000000.

Definition demo_state (norad : Z) : PropagatedState :=
  mkPropagated "ISS" norad 1700000300000 1699990000000 (mkECEF 5000000 1 2 3 4 5).

Definition demo_eph_spec : SatelliteEphemerisSpec :=
  mkEphSpec (mkEphSource "celestrak" "https://celestrak.org" (2 * Hour) None) None None.

Definition demo_eph (norad : Z) : SatelliteEphemeris :=
  mkEph (mkMeta "ran" "eph" "u2" 1 None [] ∅) demo_eph_spec
    (mkEphStatus (propagationInputHash same printable demo_eph_spec) (Some demo_now) None "" 1 0 []
       [demo_state norad] []).

Definition demo_secret : Secret :=
  mkSecret "Opaque" {[remoteControlCredentialLabel := "true"]} {["ca.crt" := "PEM"; "token" := "abc"]}.

Definition demo_env (cell : GetResult NTNCellConfig) (norad : Z) (secret : GetResult Secret) : CellEnv :=
  mkCellEnv cell (fun _ => Found (demo_eph norad)) (fun _ => secret) None None demo_now demo_now "0xc000012345".

Abbreviation demo_plan := (runtime_plan lower_ascii demo_url yes yes2 yes same printable (mkAllow [])).

(** A provider that does nothing and succeeds, or fails to apply. *)
Definition demo_prov (fails : option apply_failure) : NTNProvider unit :=
  mkNTNProvider (fun w _ _ => (fails, w)) (fun _ _ => Ok (mkCellStatus 260 "cm" "" []))
    (fun w _ _ => (None, w)) (fun w _ _ => (None, w)) (fun w _ => (None, w)).

Abbreviation demo_reconcile fails := (Reconcile (W := unit) lower_ascii demo_url yes yes2 yes same printable
  demo_missing (fun _ _ => NotFound) (fun w _ _ => (None, w)) (Some {["ocudu" := demo_prov fails]}) (mkAllow [])).

Definition demo_world {W} (w : W) : @CellWorld W := mkCellWorld w ∅ ∅ ∅ ∅ [].

Definition pushes (p : push_plan) : bool := match p with PlanPush _ _ _ _ => true | _ => false end.

Lemma runtime_push_is_authorised_witness :
  exists m t u d, demo_plan demo_cell (demo_runtime_spec (Some 25544%Z)) demo_remote (mkCellID "00101" 1)
    (demo_eph 25544) (demo_env (Found demo_cell) 25544 (Found demo_secret)) = PlanPush m t u d /\
    AuthToken TLSConf t = "abc" /\
    Check lower_ascii demo_url (mkAllow []) ("https://" +:+ Endpoint TLSConf t) = None.
Proof.
  destruct (demo_plan demo_cell (demo_runtime_spec (Some 25544%Z)) demo_remote (mkCellID "00101" 1)
    (demo_eph 25544) (demo_env (Found demo_cell) 25544 (Found demo_secret))) as [e|m|m t u d] eqn:E;
    [vm_compute in E; discriminate E..|].
  destruct (runtime_push_is_authorised _ _ _ _ _ _ _ _ _ _ _ _ _ _ _ _ _ _ E)
    as (s & _ & _ & _ & _ & _ & _ & _ & H & _).
  exists m, t, u, d. split; [reflexivity|]. split; [|exact H].
  vm_compute in E. injection E as <- <- <- <-. reflexivity.
Defined.

Lemma secrets_not_observable_witness :
  demo_reconcile None (demo_world tt) (with_secrets (demo_env (Found demo_cell) 25544 NotFound) (fun _ => NotFound)) =
  demo_reconcile None (demo_world tt) (with_secrets (demo_env (Found demo_cell) 25544 NotFound)
    (fun _ => Found (mkSecret "Opaque" ∅ ∅))).
Proof.
  apply (secrets_not_observable lower_ascii demo_url yes yes2 yes same printable demo_missing).
  intros ns rc. unfold resolveRemoteControlTLS. destruct (rcTLS rc); reflexivity.
Defined.

(** The common answer: the uniform reason, and a slow poll. *)
Example credential_failure_result :
  coResult (demo_reconcile None (demo_world tt) (demo_env (Found demo_cell) 25544 NotFound)) = Ok (Some (5 * Minute)%Z).
Proof. vm_compute. reflexivity. Qed.

Lemma failed_push_has_a_way_out_witness :
  exists e cc' b, pushEphemerisUpdateIfNeeded (W := unit) lower_ascii demo_url yes yes2 yes same printable
      demo_missing (mkAllow []) tt demo_cell (demo_runtime_spec (Some 1%Z)) (demo_prov None)
      (demo_env (Found demo_cell) 25544 NotFound) = (Err e, cc', b) /\
    (coResult (reconcile_push_failed (demo_world tt) (cellStatus demo_cell) cc' e []
        (demo_env (Found demo_cell) 25544 NotFound)) = Ok None /\
     why lower_ascii demo_url yes yes2 yes same printable demo_missing (mkAllow []) tt demo_cell
       (demo_runtime_spec (Some 1%Z)) (demo_prov None) (demo_env (Found demo_cell) 25544 NotFound) None).
Proof.
  destruct (pushEphemerisUpdateIfNeeded (W := unit) lower_ascii demo_url yes yes2 yes same printable
      demo_missing (mkAllow []) tt demo_cell (demo_runtime_spec (Some 1%Z)) (demo_prov None)
      (demo_env (Found demo_cell) 25544 NotFound)) as [[r cc'] b] eqn:E.
  destruct r as [x|e]; [vm_compute in E; discriminate E|]. exists e, cc', b. split; [reflexivity|].
  destruct (failed_push_has_a_way_out lower_ascii demo_url yes yes2 yes same printable demo_missing
    (mkAllow []) (demo_world tt) tt (cellStatus demo_cell) demo_cell (demo_runtime_spec (Some 1%Z)) (demo_prov None)
    (demo_env (Found demo_cell) 25544 NotFound) e cc' b [] E) as [(err & _ & H)|(rq & H & Hw)];
    [discriminate H|].
  assert (rq = None) as -> by (vm_compute in E; injection E as <- <- <-; vm_compute in H; congruence).
  split; [exact H|exact Hw].
Defined.

Lemma events_follow_status_witness :
  exists st, coStatus (demo_reconcile None (demo_world tt) (demo_env (Found demo_cell) 25544 (Found demo_secret))) = Some st.
Proof.
  apply (events_follow_status lower_ascii demo_url yes yes2 yes same printable demo_missing).
  vm_compute. discriminate.
Defined.

Definition dying_cell : NTNCellConfig :=
  mkCell (mkMeta "ran" "cell" "u1" 1 (Some demo_now) [finalizerName] ∅) (demo_runtime_spec None)
    (mkCellStatus 0 "" "" []).

Lemma deletion_cleans_up_first_witness :
  coStatus (demo_reconcile None (demo_world tt) (demo_env (Found dying_cell) 25544 NotFound)) = None.
Proof.
  destruct (deletion_cleans_up_first lower_ascii demo_url yes yes2 yes same printable demo_missing
    (fun _ _ => NotFound) (fun w _ _ => (None, w)) (Some {["ocudu" := demo_prov None]}) (mkAllow [])
    (demo_world tt) (demo_env (Found dying_cell) 25544 NotFound) dying_cell eq_refl eq_refl ltac:(left))
    as (_ & H & _).
  exact H.
Defined.

Lemma ready_means_current_witness :
  exists b st, prov_Apply (demo_prov None) tt demo_cell (enforced_spec demo_cell) = (None, b) /\
    prov_Status (demo_prov None) b demo_cell = Ok st.
Proof.
  assert (Hr : coResult (demo_reconcile None (demo_world tt) (demo_env (Found demo_cell) 25544 (Found demo_secret)))
    = Ok (Some (5 * Minute)%Z)) by (vm_compute; reflexivity).
  destruct (ready_means_current lower_ascii demo_url yes yes2 yes same printable demo_missing
    (fun _ _ => NotFound) (fun w _ _ => (None, w)) (Some {["ocudu" := demo_prov None]}) (mkAllow [])
    (demo_world tt) (demo_env (Found demo_cell) 25544 (Found demo_secret)) demo_cell (demo_prov None)
    (Some (5 * Minute)%Z) eq_refl eq_refl ltac:(left) eq_refl Hr) as [[H _] _].
  apply H. vm_compute. reflexivity.
Defined.

Definition was_ready : @CellWorld unit := mkCellWorld tt ∅ ∅ ∅ {[("ran", "cell") := 1%Z]} [].

Lemma push_gauge_survives_apply_failure_witness :
  EphemerisPushReady (coWorld (demo_reconcile (Some (mkApplyFailure true "owned")) was_ready
    (demo_env (Found demo_cell) 25544 NotFound))) = EphemerisPushReady was_ready.
Proof.
  apply (push_gauge_survives_apply_failure lower_ascii demo_url yes yes2 yes same printable demo_missing
    (fun _ _ => NotFound) (fun w _ _ => (None, w)) (Some {["ocudu" := demo_prov (Some (mkApplyFailure true "owned"))]})
    (mkAllow []) was_ready
    (demo_env (Found demo_cell) 25544 NotFound) demo_cell (demo_prov (Some (mkApplyFailure true "owned")))
    (mkApplyFailure true "owned") tt); try reflexivity. left.
Defined.

Lemma selector_message_never_settles_witness :
  exists e e', choose_state same printable (demo_runtime_spec (Some 1%Z)) (demo_eph 25544) "0xc000010000" = Err e /\
    choose_state same printable (demo_runtime_spec (Some 1%Z)) (demo_eph 25544) "0xc000020000" = Err e' /\
    peReason e = peReason e'.
Proof.
  destruct (selector_message_never_settles (W := unit) same printable (demo_runtime_spec (Some 1%Z)) (demo_eph 25544)
    "0xc000010000" "0xc000020000" 1 eq_refl ltac:(repeat constructor; discriminate) eq_refl ltac:(discriminate))
    as (e & e' & H1 & H2 & H3 & _).
  exists e, e'. split; [exact H1|]. split; [exact H2|exact H3].
Defined.

Lemma marker_identifies_state_witness :
  psECEF (demo_state 25544) = psECEF (demo_state 25544).
Proof.
  destruct (marker_identifies_state same (demo_eph 25544) (demo_eph 25544) (demo_state 25544) (demo_state 25544)
    eq_refl eq_refl ltac:(vm_compute; reflexivity) ltac:(vm_compute; reflexivity) eq_refl) as [[H _]|H];
    [destruct (H eq_refl)|exact (proj2 (proj2 (proj2 (proj2 (proj2 (proj2 H))))))].
Defined.

Lemma sib19_warning_exact_witness :
  sib19CadenceWarning (demo_runtime_spec None) = "".
Proof.
  apply (sib19_warning_exact (demo_runtime_spec None)); [vm_compute; split; discriminate|vm_compute; discriminate|].
  reflexivity.
Defined.

Definition demo_tcp : Peer TLSConf := mkPeer TLSConf (fun _ => Connected) (fun _ => None) (Ok "{}").

Abbreviation demo_system := (Reconcile lower_ascii demo_url yes yes2 yes same printable demo_missing
  (fun _ _ => NotFound) (fun w _ _ => (None, w))
  (registry (R := DemoRef) demo_hash printable (fun _ => Some "") demo_tcp (fun _ => "") (fun _ => "") (fun _ => ""))
  (mkAllow [])).

Lemma ready_means_deployed_witness :
  documented (R := DemoRef) demo_hash printable
    (cwBackend (coWorld (demo_system (demo_world (∅, [])) (demo_env (Found demo_cell) 25544 (Found demo_secret))))).1
    demo_cell.
Proof.
  assert (Hr : coResult (demo_system (demo_world (∅, [])) (demo_env (Found demo_cell) 25544 (Found demo_secret)))
    = Ok (Some (5 * Minute)%Z)) by (vm_compute; reflexivity).
  assert (Hg : ConfigApplyReady (coWorld (demo_system (demo_world (∅, []))
    (demo_env (Found demo_cell) 25544 (Found demo_secret)))) !! cell_labels demo_cell = Some 1%Z)
    by (vm_compute; reflexivity).
  exact (proj1 (ready_means_deployed demo_hash printable (fun _ => Some "") demo_tcp (fun _ => "") (fun _ => "")
    (fun _ => "") lower_ascii demo_url yes yes2 yes same demo_missing (fun _ _ => NotFound)
    (fun w _ _ => (None, w)) (mkAllow []) (demo_world (∅, []))
    (demo_env (Found demo_cell) 25544 (Found demo_secret)) demo_cell (Some (5 * Minute)%Z)
    eq_refl eq_refl ltac:(left) eq_refl Hr Hg)).
Defined.

(** A cell with a switch, reconciled twice. *)
Definition switch_ntn : NTNParams :=
  mkNTN 260 100 (Some (mkECEF 32432423 0 0 0 0 0)) None None None None None None
    (Some (mkSwitch (mkSwitchConfig (Some (mkECEF 1 2 3 4 5 6)) None None 260 None None None) 1700000300000 1700000300000 0 None))
    None None None "transparent" [] None None None.

Definition switch_cell : NTNCellConfig :=
  mkCell demo_cell_meta
    (mkCellSpec (csProvider (demo_runtime_spec (Some 25544%Z))) switch_ntn None "eph" (Some (mkCellID "00101" 1)) (Some 25544%Z))
    (mkCellStatus 0 "" "" []).

Abbreviation switch_run envs := (run lower_ascii demo_url yes yes2 yes same printable demo_missing
  (fun _ _ => NotFound) (fun w _ _ => (None, w)) (Some {["ocudu" := demo_prov None]}) (mkAllow [])
  (demo_world (tt, [])) switch_cell envs).

Lemma switch_delivered_once_witness :
  let env := demo_env (Found switch_cell) 25544 (Found demo_secret) in
  confirmed_switches (log_of (switch_run [env]).1) = 1%nat /\
  (confirmed_switches (log_of (switch_run [env; env]).1) <= 1)%nat.
Proof.
  cbv zeta. split; [vm_compute; reflexivity|].
  exact (proj1 (switch_delivered_once lower_ascii demo_url yes yes2 yes same printable demo_missing
    (fun _ _ => NotFound) (fun w _ _ => (None, w)) (Some {["ocudu" := demo_prov None]}) (mkAllow [])
    (demo_world (tt, [])) switch_cell
    [demo_env (Found switch_cell) 25544 (Found demo_secret); demo_env (Found switch_cell) 25544 (Found demo_secret)])).
Defined.
