(* ===== verification/Propagator.v ===== *)
(** * Package ephemeris: propagation to ECEF

    Models [src/pkg/ephemeris/propagator.go]: the rotation of an SGP4 state from
    TEME to ECEF and its quantization to the integers of 3GPP TS 38.331.  The
    SGP4 library and the sine and cosine of package math are arguments; products
    and sums are rounded one by one, as on amd64. *)

From S2P Require Import Prelude GoStrings GoTime GoFloat CellApi PassPredictor.
From Stdlib Require Import SpecFloat.
Local Open Scope string_scope.

Definition ECEFPosMin : Z := -33554432.
Definition ECEFPosMax : Z := 33554430.
Definition ECEFVelMin : Z := -131072.
Definition ECEFVelMax : Z := 131071.

(** Position and velocity in TEME, in km and km/s. *)
Record ECIState := mkECI {
  eciX : float64; eciY : float64; eciZ : float64;
  eciVX : float64; eciVY : float64; eciVZ : float64
}.

(** [quantize]; [math.MaxInt64] and [math.MinInt64] are compared as floats. *)
Definition quantize (val step : float64) : Z :=
  let r := f_round (f_div val step) in
  if f_gt r (f_of_Z int64_max) || f_lt r (f_of_Z int64_min) || IsNaN r || IsInf r then int64_max
  else int_of_float r.

Definition kmToPos (km : float64) : Z := quantize (f_mul km (f_of_Z 1000)) ECEFPositionStep.
Definition kmsToVel (kms : float64) : Z := quantize (f_mul kms (f_of_Z 1000)) ECEFVelocityStep.

Definition f_neg (f : float64) : float64 := SFopp f.

Section Propagate.

Variable Cos Sin : float64 -> float64.

Definition rotateZ (x y z gmst : float64) : float64 * float64 * float64 :=
  let cosG := Cos gmst in
  let sinG := Sin gmst in
  (f_add (f_mul cosG x) (f_mul sinG y), f_add (f_mul (f_neg sinG) x) (f_mul cosG y), z).

Definition omegaE : float64 := of_decimal false 72921150 (-12).

Definition temeVelToECEF (ecefX ecefY vxTEME vyTEME vzTEME gmst : float64) : float64 * float64 * float64 :=
  let '(vxRot, vyRot, vzRot) := rotateZ vxTEME vyTEME vzTEME gmst in
  (f_add vxRot (f_mul omegaE ecefY), f_sub vyRot (f_mul omegaE ecefX), vzRot).

Definition out_of_range (v : string * Z * Z * Z) : option string :=
  let '(name, val, lo, hi) := v in
  if ((val <? lo) || (hi <? val))%Z then
    Some ("ECEF " +:+ name +:+ " = " +:+ fmt_d val +:+ " exceeds 3GPP range [" +:+ fmt_d lo +:+ ", " +:+ fmt_d hi +:+ "]")
  else None.

Definition check_ranges (e : EphemerisECEF) : option string :=
  head (omap out_of_range
    [("posX", PosX e, ECEFPosMin, ECEFPosMax); ("posY", PosY e, ECEFPosMin, ECEFPosMax);
     ("posZ", PosZ e, ECEFPosMin, ECEFPosMax); ("velX", VelX e, ECEFVelMin, ECEFVelMax);
     ("velY", VelY e, ECEFVelMin, ECEFVelMax); ("velZ", VelZ e, ECEFVelMin, ECEFVelMax)]).

(** The state rotated and quantized. *)
Definition quantized (s : ECIState) (gmst : float64) : EphemerisECEF :=
  let '(x, y, z) := rotateZ (eciX s) (eciY s) (eciZ s) gmst in
  let '(vx, vy, vz) := temeVelToECEF x y (eciVX s) (eciVY s) (eciVZ s) gmst in
  mkECEF (kmToPos x) (kmToPos y) (kmToPos z) (kmsToVel vx) (kmsToVel vy) (kmsToVel vz).

Variable TLE : Type.
Variable ToTLE : OMM -> result string TLE.
(** [FindPositionAtTime] and [GreenwichSiderealTime] of its result. *)
Variable FindPositionAtTime : TLE -> Time -> result string (ECIState * float64).

Definition PropagateToECEF (omm : OMM) (t : Time) : result string EphemerisECEF :=
  match ToTLE omm with
  | Err e => Err ("OMM to TLE conversion: " +:+ e)
  | Ok tle =>
      match FindPositionAtTime tle t with
      | Err e => Err ("SGP4 propagation: " +:+ e)
      | Ok (eci, gmst) =>
          let result := quantized eci gmst in
          match check_ranges result with
          | Some e => Err e
          | None => Ok result
          end
      end
  end.

End Propagate.

(** * Properties *)

(** A quantized value strictly inside the range of 64 bits comes from a number. *)
Lemma quantize_finite v step :
  (int64_min < quantize v step < int64_max)%Z ->
  is_finite (f_div v step) = true /\ quantize v step = f_trunc (f_round (f_div v step)).
Proof.
  unfold quantize. set (d := f_div v step). set (r := f_round d).
  destruct (f_gt r _ || f_lt r _ || IsNaN r || IsInf r) eqn:E; [lia|].
  apply orb_false_iff in E as [[_ En]%orb_false_iff Ei].
  assert (Hd : is_finite d = true).
  { unfold r in En, Ei. destruct d as [| | |s m e]; try done. }
  split; [done|]. unfold int_of_float in *.
  destruct (is_finite r && _ && _); [done|lia].
Qed.

Record in_3gpp_range (e : EphemerisECEF) : Prop := {
  rng_pos : Forall (fun z => (-2 ^ 25 <= z <= 2 ^ 25 - 2)%Z) [PosX e; PosY e; PosZ e];
  rng_vel : Forall (fun z => (-2 ^ 17 <= z <= 2 ^ 17 - 1)%Z) [VelX e; VelY e; VelZ e]
}.

Lemma check_ranges_ok e : check_ranges e = None -> in_3gpp_range e.
Proof.
  unfold check_ranges. intros H. assert (Hall : omap out_of_range
    [("posX", PosX e, ECEFPosMin, ECEFPosMax); ("posY", PosY e, ECEFPosMin, ECEFPosMax);
     ("posZ", PosZ e, ECEFPosMin, ECEFPosMax); ("velX", VelX e, ECEFVelMin, ECEFVelMax);
     ("velY", VelY e, ECEFVelMin, ECEFVelMax); ("velZ", VelZ e, ECEFVelMin, ECEFVelMax)] = [])
    by by destruct (omap _ _).
  clear H. cbn [omap list_omap out_of_range] in Hall.
  repeat match type of Hall with
  | context [if ?b then _ else _] => destruct b eqn:?; [discriminate Hall|]
  end.
  bool_props. unfold ECEFPosMin, ECEFPosMax, ECEFVelMin, ECEFVelMax in *.
  constructor; repeat constructor; lia.
Qed.

(** The components of the state in the rotating frame, in km and km/s, as they
    are quantized. *)
Definition rotated_positions Cos Sin (s : ECIState) (gmst : float64) : list float64 :=
  let '(x, y, z) := rotateZ Cos Sin (eciX s) (eciY s) (eciZ s) gmst in [x; y; z].
Definition rotated_velocities Cos Sin (s : ECIState) (gmst : float64) : list float64 :=
  let '(x, y, _) := rotateZ Cos Sin (eciX s) (eciY s) (eciZ s) gmst in
  let '(vx, vy, vz) := temeVelToECEF Cos Sin x y (eciVX s) (eciVY s) (eciVZ s) gmst in [vx; vy; vz].

(** The integer of a component in km or km/s: the rounded quotient by the step,
    both finite numbers. *)
Definition rounded_quotient (step v : float64) (z : Z) : Prop :=
  let q := f_div (f_mul v (f_of_Z 1000)) step in is_finite q = true /\ z = f_trunc (f_round q).

Lemma quantize_in v step lo hi z :
  (int64_min < lo)%Z -> (hi < int64_max)%Z -> z = quantize (f_mul v (f_of_Z 1000)) step -> (lo <= z <= hi)%Z ->
  rounded_quotient step v z.
Proof. intros Hlo Hhi -> Hz. apply quantize_finite. lia. Qed.

(** C33. Nothing but numbers in range is ever handed to the gNB: when a
    propagation succeeds, each of the six integers lies in its 3GPP range, and
    each, the three positions and the three velocities, is the rounded quotient
    of its rotated component by its step, and that quotient is a finite number;
    so a diverged orbit (a NaN, an infinity or a value beyond any Earth orbit,
    in the position or in the velocity) is an error and never a state. *)
Theorem propagated_state_is_sane Cos Sin TLE ToTLE FindPos omm t e :
  PropagateToECEF Cos Sin TLE ToTLE FindPos omm t = Ok e ->
  in_3gpp_range e /\
  exists tle s gmst, ToTLE omm = Ok tle /\ FindPos tle t = Ok (s, gmst) /\
    Forall2 (rounded_quotient ECEFPositionStep) (rotated_positions Cos Sin s gmst) [PosX e; PosY e; PosZ e] /\
    Forall2 (rounded_quotient ECEFVelocityStep) (rotated_velocities Cos Sin s gmst) [VelX e; VelY e; VelZ e].
Proof.
  unfold PropagateToECEF. destruct (ToTLE omm) as [tle|] eqn:Et; [|done].
  destruct (FindPos tle t) as [[s gmst]|] eqn:Ef; [|done].
  destruct (check_ranges _) eqn:Hc; [done|]. intros [= <-].
  apply check_ranges_ok in Hc. split; [done|]. exists tle, s, gmst. destruct Hc as [Hp Hv].
  unfold rotated_positions, rotated_velocities, quantized in *.
  destruct (rotateZ Cos Sin (eciX s) (eciY s) (eciZ s) gmst) as [[x y] z].
  destruct (temeVelToECEF _ _ _ _ _ _ _ _) as [[vx vy] vz]. cbn [PosX PosY PosZ VelX VelY VelZ] in *.
  rewrite !Forall_cons in Hp, Hv. split_and!; [done..| |];
    repeat constructor; (eapply quantize_in; [| |reflexivity|]; [| |first [apply Hp|apply Hv]]; by vm_compute).
Qed.

Definition demo_eci : ECIState :=
  mkECI (f_of_Z 6800) (f_of_Z 100) (f_of_Z 50) (f_of_Z 0) (f_of_Z 7) (f_of_Z 1).

Lemma propagated_state_is_sane_witness :
  in_3gpp_range (mkECEF 5230769 76923 38462 122 108402 16667).
Proof.
  refine (proj1 (propagated_state_is_sane (fun _ => f_of_Z 1) (fun _ => f_zero) unit (fun _ => Ok tt)
    (fun _ _ => Ok (demo_eci, f_zero))
    (mkOMM "" 0 "" f_zero f_zero f_zero f_zero f_zero f_zero f_zero f_zero f_zero "") 0 _ _)).
  vm_compute. reflexivity.
Defined.
