(* ===== verification/Fetchers.v ===== *)
(** * Package ephemeris: element-set sources

    Models [src/pkg/ephemeris/gp_fetcher.go] and [spacetrack_fetcher.go]: the
    validation of element sets, the text taken from error answers, Retry-After,
    the conditional GET of the CelesTrak fetcher with its three caches, and the
    session of the Space-Track fetcher.

    The origin is what answers a request; the HTTP client of Space-Track has a
    state of its own (its cookie jar).  The parsers of URLs, HTTP dates, JSON
    objects and element sets are arguments. *)

From S2P Require Import Prelude GoStrings GoJson GoUnicode GoTime GoFloat PassPredictor OcuduConfig.
From Stdlib Require Import Ascii.
Local Open Scope string_scope.
Local Arguments String.append !_ _ /.

(** ** Errors *)

(** What [errors.Is] and [errors.As] see of a fetch error. *)
Inductive fetch_class :=
| RateLimited (RetryAfter : Duration) (StatusCode : Z)
| AuthFailed
| InvalidSourceURL
| BadResponse
| SessionExpired
| OtherError.

Record fetch_error := mkFetchError { feClass : fetch_class; feText : string }.

(** [fmt.Errorf("prefix: %w", err)]. *)
Definition wrap_error (prefix : string) (e : fetch_error) : fetch_error :=
  mkFetchError (feClass e) (prefix +:+ ": " +:+ feText e).

Definition ErrBadResponse : string := "unexpected HTTP response".
Definition ErrInvalidSourceURL : string := "invalid source URL".
Definition ErrAuthFailed : string := "authentication failed".

(** A [RateLimitError] and its text. *)
Definition RateLimitError (retryAfter : Duration) (status : Z) (snippet : string) : fetch_error :=
  mkFetchError (RateLimited retryAfter status)
    ("rate limited by upstream (HTTP " +:+ fmt_d status +:+ ")" +:+
     (if str_eqb snippet "" then "" else ": " +:+ snippet)).

(** ** Answers *)

(** The bytes of a body up to its end or to a read error. *)
Record Response := mkResponse {
  rStatus : Z;
  rHeader : string -> string;
  rBody : string;
  rBodyErr : option string
}.

(** The first [n] bytes. *)
Definition prefix_Z (n : Z) (s : string) : string :=
  if (Z.of_nat (String.length s) <=? n)%Z then s else String.substring 0 (Z.to_nat n) s.

(** [io.ReadAll(io.LimitReader(body, n))]. *)
Definition read_limited (n : Z) (r : Response) : result string string :=
  if (n <=? Z.of_nat (String.length (rBody r)))%Z then Ok (prefix_Z n (rBody r))
  else match rBodyErr r with Some e => Err e | None => Ok (rBody r) end.

Definition maxResponseBody : Z := 50 * 1024 * 1024.

(** ** Retry-After *)

Definition maxRetryAfter : Duration := (24 * Hour)%Z.

Definition isAllASCIIDigits (s : string) : bool := negb (str_eqb s "") && str_all is_digit s.

Definition clampRetryAfter (d : Duration) : Duration :=
  if (d <? 0)%Z then 0%Z else if (maxRetryAfter <? d)%Z then maxRetryAfter else d.

Section Sources.

(** [http.ParseTime], [unicode.IsPrint] from code point 128 on, and
    [sgp4.ParseOMMs]. *)
Variable http_ParseTime : string -> option Time.
Variable IsPrint : N -> bool.
Variable ParseOMMs : string -> result string (list OMM).

(** [header] is the value of the header; a run of digits always parses, up to
    the range of 64 bits. *)
Definition parseRetryAfter (now : Time) (header : string) : Duration :=
  let v := TrimSpace header in
  if str_eqb v "" then 0%Z
  else if isAllASCIIDigits v then
    let secs := Z.of_N (dec_val v 0) in
    if ((2 ^ 64 <=? secs) || (Z.quot maxRetryAfter Second <=? secs))%Z then maxRetryAfter
    else (secs * Second)%Z
  else match http_ParseTime v with
       | Some t => clampRetryAfter (Sub t now)
       | None => 0%Z
       end.

(** ** Snippets *)

Definition maxSnippetBytes : nat := 512.

(** Successive [utf8.DecodeRune]: [None] is an invalid byte. *)
Fixpoint decoded (skip : nat) (s : string) : list (option rune) :=
  match s with
  | "" => []
  | String c r =>
      match skip with
      | S k => decoded k r
      | O =>
          if (byte_val c <? 128)%N then Some (byte_val c, str1 c) :: decoded 0 r
          else match cont_bytes c r with
               | None => None :: decoded 0 r
               | Some n => Some (rune_value c n r, String c (String.substring 0 n r)) :: decoded n r
               end
      end
  end.

Definition printable_rune (r : N) : bool :=
  if (r <? 128)%N then (32 <=? r)%N && (r <=? 126)%N else IsPrint r.

Definition snippet_rune (r : option rune) : rune :=
  match r with
  | Some r => if printable_rune r.1 then r else space_rune
  | None => space_rune
  end.

(** The loop; [len] bytes are written. *)
Fixpoint snippet_loop (len : nat) (l : list (option rune)) : list rune :=
  match l with
  | [] => []
  | r :: l =>
      let ch := snippet_rune r in
      if (maxSnippetBytes <? len + String.length ch.2)%nat then []
      else ch :: snippet_loop (len + String.length ch.2) l
  end.

Definition sanitizeSnippet (b : string) : string :=
  Join (Fields (encode (snippet_loop 0 (decoded 0 b)))) " ".

Definition readBodySnippet (r : Response) : string :=
  sanitizeSnippet (prefix_Z (Z.of_nat maxSnippetBytes) (rBody r)).

(** ** Element sets *)

Inductive element_error :=
| NotFinite (name : string)
| NotPositive
| EccentricityRange
| InclinationRange.

Definition element_fields (o : OMM) : list (string * float64) :=
  [("MEAN_MOTION", MeanMotion o); ("ECCENTRICITY", Eccentricity o); ("INCLINATION", Inclination o);
   ("RA_OF_ASC_NODE", RAOfAscNode o); ("ARG_OF_PERICENTER", ArgOfPericenter o);
   ("MEAN_ANOMALY", MeanAnomaly o); ("BSTAR", BStar o); ("MEAN_MOTION_DOT", MeanMotionDot o);
   ("MEAN_MOTION_DDOT", MeanMotionDDot o)].

Definition validOMM (o : OMM) : option element_error :=
  match List.find (fun e => IsNaN e.2 || IsInf e.2) (element_fields o) with
  | Some e => Some (NotFinite e.1)
  | None =>
      if f_le (MeanMotion o) f_zero then Some NotPositive
      else if f_lt (Eccentricity o) f_zero || f_ge (Eccentricity o) (f_of_Z 1) then Some EccentricityRange
      else if f_lt (Inclination o) f_zero || f_gt (Inclination o) (f_of_Z 180) then Some InclinationRange
      else None
  end.

Definition filterValidOMMs (omms : list OMM) : list OMM :=
  List.filter (fun o => match validOMM o with None => true | Some _ => false end) omms.

Definition ParseValidOMMs (body : string) : result string (list OMM) :=
  match ParseOMMs body with
  | Err e => Err e
  | Ok omms => Ok (filterValidOMMs omms)
  end.

Record GPFetchResult := mkFetched {
  OMMs : list OMM;
  fSatelliteCount : Z;
  FetchedAt : Time;
  NotModified : bool;
  ETag : string;
  LastModified : string
}.

(** ** CelesTrak *)

Record CelesTrakFetcher := mkCelesTrak {
  etagCache : gmap string string;
  lastModCache : gmap string string;
  ommCache : gmap string (list OMM)
}.

Definition NewCelesTrakFetcher : CelesTrakFetcher := mkCelesTrak ∅ ∅ ∅.

(** [LoadOrStore], without a value for "". *)
Definition seed (m : gmap string string) (url v : string) : gmap string string :=
  if str_eqb v "" then m else match m !! url with Some _ => m | None => <[url := v]> m end.

Definition SeedConditionalCache (f : CelesTrakFetcher) (url etag lastModified : string) : CelesTrakFetcher :=
  if str_eqb url "" then f
  else mkCelesTrak (seed (etagCache f) url etag) (seed (lastModCache f) url lastModified) (ommCache f).

(** A conditional GET. *)
Record GPRequest := mkGPRequest {
  gpURL : string;
  IfNoneMatch : option string;
  IfModifiedSince : option string
}.

Definition celestrak_request (f : CelesTrakFetcher) (url : string) : GPRequest :=
  mkGPRequest url (etagCache f !! url) (lastModCache f !! url).

(** The stores of a successful download, in the order they are made. *)
Inductive store_op :=
| StoreOMMs (url : string) (omms : list OMM)
| StoreETag (url etag : string)
| StoreLastModified (url lastModified : string).

Definition store (f : CelesTrakFetcher) (op : store_op) : CelesTrakFetcher :=
  match op with
  | StoreOMMs url omms => mkCelesTrak (etagCache f) (lastModCache f) (<[url := omms]> (ommCache f))
  | StoreETag url e => mkCelesTrak (<[url := e]> (etagCache f)) (lastModCache f) (ommCache f)
  | StoreLastModified url m => mkCelesTrak (etagCache f) (<[url := m]> (lastModCache f)) (ommCache f)
  end.

Definition download_stores (url : string) (omms : list OMM) (etag lastMod : string) : list store_op :=
  StoreOMMs url omms ::
  ((if str_eqb etag "" then [] else [StoreETag url etag]) ++
   (if str_eqb lastMod "" then [] else [StoreLastModified url lastMod]))%list.

Definition cached_result (f : CelesTrakFetcher) (url : string) (now : Time) : GPFetchResult :=
  let cached := default [] (ommCache f !! url) in
  mkFetched cached (Z.of_nat (length cached)) now true
    (default "" (etagCache f !! url)) (default "" (lastModCache f !! url)).

(** What an answer makes of a request: the result and the stores. *)
Definition celestrak_answer (f : CelesTrakFetcher) (url : string) (now : Time) (resp : Response)
  : result fetch_error GPFetchResult * list store_op :=
  let status := rStatus resp in
  let fail (text : string) := (Err (mkFetchError OtherError text), []) in
  if (status =? 304)%Z then (Ok (cached_result f url now), [])
  else if (status =? 200)%Z then
    match read_limited (maxResponseBody + 1) resp with
    | Err e => fail ("reading response body: " +:+ e)
    | Ok body =>
        if (maxResponseBody <? Z.of_nat (String.length body))%Z
        then fail ("response body exceeds " +:+ fmt_d maxResponseBody +:+ " bytes limit")
        else match ParseValidOMMs body with
             | Err e => fail ("parsing OMM JSON: " +:+ e)
             | Ok omms =>
                 let newETag := rHeader resp "ETag" in
                 let newLastMod := rHeader resp "Last-Modified" in
                 (Ok (mkFetched omms (Z.of_nat (length omms)) now false newETag newLastMod),
                  download_stores url omms newETag newLastMod)
             end
    end
  else if (status =? 403)%Z || (status =? 429)%Z then
    (Err (RateLimitError (parseRetryAfter now (rHeader resp "Retry-After")) status (readBodySnippet resp)), [])
  else (Err (mkFetchError BadResponse
               (ErrBadResponse +:+ ": HTTP " +:+ fmt_d status +:+ " from " +:+ url)), []).

(** [Fetch] by one goroutine: [origin] answers the request (or the transport
    fails), [new_request_err] is the error of [http.NewRequest]. *)
Definition celestrak_fetch (new_request_err : string -> option string)
  (origin : GPRequest -> result string Response) (now : Time) (f : CelesTrakFetcher) (url : string)
  : result fetch_error GPFetchResult * CelesTrakFetcher :=
  match new_request_err url with
  | Some e => (Err (mkFetchError OtherError ("creating request: " +:+ e)), f)
  | None =>
      match origin (celestrak_request f url) with
      | Err e => (Err (mkFetchError OtherError ("executing request: " +:+ e)), f)
      | Ok resp =>
          let '(r, stores) := celestrak_answer f url now resp in
          (r, fold_left store stores f)
      end
  end.

(** ** Space-Track *)

Record SpaceTrackFetcher := mkSpaceTrack {
  activeUsername : string;
  activePassword : string;
  loggedIn : bool
}.

Definition SetCredentials (f : SpaceTrackFetcher) (username password : string) : SpaceTrackFetcher :=
  if str_eqb (activeUsername f) username && str_eqb (activePassword f) password then f
  else mkSpaceTrack username password false.

Definition spaceTrackRateLimitMsg : string := "Space-Track query rate limit exceeded".

(** The base URL; [url.Parse] with scheme and host; [strings.EqualFold] outside
    ASCII; [http.NewRequest]; a body as a JSON object, with the fields whose
    values are strings; [bytes.ToLower] outside ASCII. *)
Variable baseURL : string.
Variable parse_origin : string -> result string (string * string).
Variable fold_unicode : string -> string.
Variable new_request_err : string -> option string.
Variable json_object : string -> option (list (string * option string)).
Variable unicode_lower : string -> string.

Definition EqualFold (a b : string) : bool :=
  if is_ascii a && is_ascii b then str_eqb (lower_ascii a) (lower_ascii b)
  else str_eqb (fold_unicode a) (fold_unicode b).

Definition same_origin (a b : string * string) : bool := EqualFold a.1 b.1 && EqualFold a.2 b.2.

(** [CheckRedirect] of the fetcher's client; [via] is the number of requests
    made so far. *)
Definition space_track_redirect (base target : string * string) (via : nat) : option string :=
  if (10 <=? via)%nat then Some "stopped after 10 redirects"
  else if negb (same_origin target base) then
    Some (ErrBadResponse +:+ ": refusing a Space-Track redirect off the trusted origin "
          +:+ base.1 +:+ "://" +:+ base.2)
  else None.

Definition validateGPURL (gpURL : string) : option fetch_error :=
  match parse_origin baseURL with
  | Err e => Some (mkFetchError OtherError
                     ("invalid Space-Track base URL " +:+ yamlQuote IsPrint baseURL +:+ ": " +:+ e))
  | Ok base =>
      match parse_origin gpURL with
      | Err _ => Some (mkFetchError InvalidSourceURL
                         (ErrInvalidSourceURL +:+ ": invalid Space-Track query URL"))
      | Ok u =>
          if same_origin u base then None
          else Some (mkFetchError InvalidSourceURL
                 (ErrInvalidSourceURL +:+ ": Space-Track query URL must be on the configured origin "
                  +:+ base.1 +:+ "://" +:+ base.2 +:+ " (got scheme=" +:+ yamlQuote IsPrint u.1
                  +:+ " host=" +:+ yamlQuote IsPrint u.2 +:+ ")"))
      end
  end.

(** A request of the fetcher: the login form, or a query. *)
Inductive st_request :=
| LoginPost (url identity password : string)
| QueryGet (url : string).

(** The HTTP client with its cookies, and the exchanges made so far, the latest
    first. *)
Variable Client : Type.
Variable http_do : Client -> st_request -> result string Response * Client.

Record Session := mkSession {
  sFetcher : SpaceTrackFetcher;
  sClient : Client;
  sLog : list (st_request * result string Response)
}.

Definition exchange (s : Session) (r : st_request) : result string Response * Session :=
  let '(a, c) := http_do (sClient s) r in
  (a, mkSession (sFetcher s) c ((r, a) :: sLog s)).

Definition with_fetcher (s : Session) (f : SpaceTrackFetcher) : Session :=
  mkSession f (sClient s) (sLog s).

Definition contains (sub s : string) : bool :=
  match cut sub s with Some _ => true | None => false end.

Definition quoted_word (w : string) : string := str1 dq +:+ w +:+ str1 dq.

Definition loginBodyIndicatesFailure (body : string) : bool :=
  let trimmed := TrimSpace body in
  match json_object trimmed with
  | Some fields =>
      existsb (fun f => EqualFold f.1 "Login" &&
                 match f.2 with Some s => EqualFold s "Failed" | None => false end) fields
  | None =>
      let low := ToLower unicode_lower trimmed in
      contains (quoted_word "login") low && contains (quoted_word "failed") low
  end.

(** The verdict on an answer to the login form. *)
Definition login_verdict (a : result string Response) : option fetch_error :=
  match a with
  | Err e => Some (mkFetchError OtherError ("login request failed: " +:+ e))
  | Ok resp =>
      let status := rStatus resp in
      if (status =? 401)%Z || (status =? 403)%Z then
        Some (mkFetchError AuthFailed
                (ErrAuthFailed +:+ ": SpaceTrack login rejected (HTTP " +:+ fmt_d status +:+ ")"))
      else if negb (status =? 200)%Z then
        Some (mkFetchError OtherError ("login returned HTTP " +:+ fmt_d status))
      else if loginBodyIndicatesFailure (prefix_Z (64 * 1024) (rBody resp)) then
        Some (mkFetchError AuthFailed
                (ErrAuthFailed +:+ ": SpaceTrack rejected the credentials (Login=Failed)"))
      else None
  end.

Definition login_url : string := baseURL +:+ "/ajaxauth/login".

Definition doLogin (s : Session) (username password : string) : option fetch_error * Session :=
  match new_request_err login_url with
  | Some e => (Some (mkFetchError OtherError ("creating login request: " +:+ e)), s)
  | None =>
      let '(a, s) := exchange s (LoginPost login_url username password) in
      (login_verdict a, s)
  end.

(** The outcome of a query, and whether the session ended with it. *)
Definition query_outcome (now : Time) (gpURL : string) (a : result string Response)
  : result fetch_error string * bool :=
  match a with
  | Err e => (Err (mkFetchError OtherError ("GP request failed: " +:+ e)), false)
  | Ok resp =>
      let status := rStatus resp in
      let limited := Err (RateLimitError (parseRetryAfter now (rHeader resp "Retry-After")) status
                            spaceTrackRateLimitMsg) in
      if (status =? 200)%Z then
        (match read_limited (maxResponseBody + 1) resp with
         | Err e => Err (mkFetchError OtherError ("reading GP response: " +:+ e))
         | Ok body =>
             if (maxResponseBody <? Z.of_nat (String.length body))%Z
             then Err (mkFetchError OtherError ("GP response exceeds " +:+ fmt_d maxResponseBody +:+ " bytes"))
             else Ok body
         end, false)
      else if (status =? 403)%Z || (status =? 429)%Z then (limited, false)
      else if (status =? 500)%Z then
        (if contains "violated your query rate limit"
              (ToLower unicode_lower (prefix_Z (64 * 1024) (rBody resp)))
         then limited
         else Err (mkFetchError BadResponse (ErrBadResponse +:+ ": HTTP 500 from " +:+ gpURL)), false)
      else if (status =? 401)%Z then
        (Err (mkFetchError SessionExpired "SpaceTrack session expired (HTTP 401)"), true)
      else (Err (mkFetchError BadResponse
                   (ErrBadResponse +:+ ": HTTP " +:+ fmt_d status +:+ " from " +:+ gpURL)), false)
  end.

Definition logged_out (f : SpaceTrackFetcher) : SpaceTrackFetcher :=
  mkSpaceTrack (activeUsername f) (activePassword f) false.

Definition doFetchGPRaw (now : Time) (s : Session) (gpURL : string)
  : result fetch_error string * Session :=
  match new_request_err gpURL with
  | Some e => (Err (mkFetchError OtherError ("creating GP request: " +:+ e)), s)
  | None =>
      let '(a, s) := exchange s (QueryGet gpURL) in
      let '(r, expired) := query_outcome now gpURL a in
      (r, if expired then with_fetcher s (logged_out (sFetcher s)) else s)
  end.

Definition isSessionExpired (e : fetch_error) : bool :=
  match feClass e with SessionExpired => true | _ => false end.

Definition parseGPResult (body : string) (now : Time) : result fetch_error GPFetchResult :=
  match ParseValidOMMs body with
  | Err e => Err (mkFetchError OtherError ("parsing OMM JSON: " +:+ e))
  | Ok omms => Ok (mkFetched omms (Z.of_nat (length omms)) now false "" "")
  end.

(** Log in and remember whose session it is. *)
Definition authenticate (s : Session) (username password : string) : option fetch_error * Session :=
  match doLogin s username password with
  | (Some e, s) => (Some e, s)
  | (None, s) => (None, with_fetcher s (mkSpaceTrack username password true))
  end.

(** The query, with one more login when the session has expired. *)
Definition query_with_retry (now : Time) (s : Session) (gpURL username password : string)
  : result fetch_error string * Session :=
  match doFetchGPRaw now s gpURL with
  | (Err e, s) =>
      if isSessionExpired e then
        match authenticate s username password with
        | (Some e, s) => (Err (wrap_error "SpaceTrack re-login failed" e), s)
        | (None, s) => doFetchGPRaw now s gpURL
        end
      else (Err e, s)
  | ok => ok
  end.

(** [FetchWithCredentials]; the mutex makes the whole exchange one step. *)
Definition FetchWithCredentials (now : Time) (s : Session) (gpURL username password : string)
  : result fetch_error GPFetchResult * Session :=
  match validateGPURL gpURL with
  | Some e => (Err e, s)
  | None =>
      if str_eqb username "" || str_eqb password "" then
        (Err (mkFetchError OtherError "SpaceTrack username and password must be non-empty"), s)
      else
        let f := sFetcher s in
        let needLogin := negb (loggedIn f) || negb (str_eqb (activeUsername f) username) ||
                         negb (str_eqb (activePassword f) password) in
        match (if needLogin then authenticate s username password else (None, s)) with
        | (Some e, s) => (Err (wrap_error "SpaceTrack login failed" e), s)
        | (None, s) =>
            match query_with_retry now s gpURL username password with
            | (Err e, s) => (Err e, s)
            | (Ok body, s) => (parseGPResult body now, s)
            end
        end
  end.

(** The deprecated [Fetch], with the credentials of [SetCredentials]. *)
Definition spacetrack_fetch (now : Time) (s : Session) (gpURL : string)
  : result fetch_error GPFetchResult * Session :=
  FetchWithCredentials now s gpURL (activeUsername (sFetcher s)) (activePassword (sFetcher s)).

End Sources.

(** * Properties *)

(** ** Element sets *)

(** An element set the near-earth propagator can work with. *)
Record usable (o : OMM) : Prop := {
  us_finite : Forall (fun e => is_finite e.2 = true) (element_fields o);
  us_motion : f_gt (MeanMotion o) f_zero = true;
  us_eccentricity : f_ge (Eccentricity o) f_zero = true /\ f_lt (Eccentricity o) (f_of_Z 1) = true;
  us_inclination : f_ge (Inclination o) f_zero = true /\ f_le (Inclination o) (f_of_Z 180) = true
}.

Lemma find_none_forall {A} (f : A -> bool) l : List.find f l = None <-> Forall (fun x => f x = false) l.
Proof.
  induction l as [|a l IH]; cbn; [by split|]. rewrite Forall_cons, <- IH.
  destruct (f a); naive_solver.
Qed.

Lemma validOMM_usable o : validOMM o = None <-> usable o.
Proof.
  unfold validOMM. destruct (List.find _ _) eqn:Hf.
  - split; [done|]. intros [Hfin _ _ _]. exfalso.
    apply List.find_some in Hf as [Hin Hbad]. rewrite Forall_forall in Hfin.
    specialize (Hfin p). rewrite list_elem_of_In in Hfin. specialize (Hfin Hin).
    unfold is_finite in Hfin. by destruct (IsNaN p.2), (IsInf p.2).
  - apply find_none_forall in Hf.
    assert (Hfin : Forall (fun e => is_finite e.2 = true) (element_fields o)).
    { eapply Forall_impl; [exact Hf|]. cbn. intros e [H1 H2]%orb_false_iff. unfold is_finite. by rewrite H1, H2. }
    assert (Hnan : IsNaN (MeanMotion o) = false /\ IsNaN (Eccentricity o) = false /\ IsNaN (Inclination o) = false).
    { unfold element_fields in Hfin. rewrite !Forall_cons in Hfin. cbn in Hfin.
      split_and!; apply is_finite_not_nan; naive_solver. }
    destruct Hnan as (N1 & N2 & N3).
    rewrite (f_le_negb_gt _ _ N1) by done.
    pose proof (f_ge_negb_lt (Eccentricity o) f_zero N2 eq_refl) as E1.
    pose proof (f_ge_negb_lt (Eccentricity o) (f_of_Z 1) N2 eq_refl) as E2.
    pose proof (f_ge_negb_lt (Inclination o) f_zero N3 eq_refl) as I1.
    pose proof (f_le_negb_gt (Inclination o) (f_of_Z 180) N3 eq_refl) as I2.
    split.
    + intros H. constructor; [done|..];
        destruct (f_gt (MeanMotion o) f_zero); try discriminate H; try done;
        destruct (f_lt (Eccentricity o) f_zero), (f_ge (Eccentricity o) (f_of_Z 1)); try discriminate H;
        destruct (f_lt (Inclination o) f_zero), (f_gt (Inclination o) (f_of_Z 180)); try discriminate H;
        destruct (f_lt (Eccentricity o) (f_of_Z 1)); cbn in *; try done; try congruence.
    + intros [_ Hm [He1 He2] [Hi1 Hi2]].
      rewrite Hm, (proj1 (negb_true_iff _) (eq_trans (eq_sym E1) He1)), E2, He2,
        (proj1 (negb_true_iff _) (eq_trans (eq_sym I1) Hi1)),
        (proj1 (negb_true_iff _) (eq_trans (eq_sym I2) Hi2)). done.
Qed.

Lemma parsed_usable ParseOMMs body l : ParseValidOMMs ParseOMMs body = Ok l -> Forall usable l.
Proof.
  unfold ParseValidOMMs. destruct (ParseOMMs body) as [omms|]; [|done]. intros [= <-].
  apply Forall_forall. intros o [Ho _]%elem_of_filter_bool. apply validOMM_usable.
  by destruct (validOMM o).
Qed.

(** ** Snippets *)

(** [unicode.IsPrint] is documented to hold of letters, marks, numbers,
    punctuation, symbols and the ASCII space only. *)
Definition print_class (IsPrint : N -> bool) : Prop :=
  forall r, IsPrint r = true -> IsControl r = false /\ Cf r = false.

Lemma runes_decoded n s : runes n s = map (default invalid_rune) (decoded n s).
Proof.
  revert n. induction s as [|c s IH]; intros [|n]; cbn [runes decoded]; try done.
  destruct (byte_val c <? 128)%N; [cbn; by rewrite IH|].
  destruct (cont_bytes c s); cbn; by rewrite IH.
Qed.

Lemma printable_plain IsPrint r :
  print_class IsPrint -> printable_rune IsPrint r = true -> IsControl r = false /\ Cf r = false.
Proof.
  intros Hp. unfold printable_rune. destruct (N.ltb_spec r 128) as [Hr|_]; [|by apply Hp].
  intros [H1%N.leb_le H2%N.leb_le]%andb_true_iff.
  assert (Hall : forallb (fun n => negb (IsControl n) && negb (Cf n)) (map N.of_nat (seq 32 95)) = true)
    by (vm_compute; reflexivity).
  rewrite forallb_forall in Hall. specialize (Hall r).
  assert (Hin : In r (map N.of_nat (seq 32 95))).
  { apply in_map_iff. exists (N.to_nat r). split; [lia|]. apply in_seq. lia. }
  specialize (Hall Hin). apply andb_true_iff in Hall as [?%negb_true_iff ?%negb_true_iff]. done.
Qed.

Lemma snippet_runes_plain IsPrint n s :
  print_class IsPrint -> Forall (fun r => plain (snippet_rune IsPrint r)) (decoded n s).
Proof.
  intros Hp. pose proof (runes_good n s) as Hg. rewrite runes_decoded, Forall_map in Hg.
  eapply Forall_impl; [exact Hg|]. intros [r|] Hr; cbn; [|apply space_plain].
  destruct (printable_rune IsPrint r.1) eqn:E; [|apply space_plain].
  split; [exact Hr|]. by eapply printable_plain.
Qed.

Lemma snippet_loop_spec IsPrint len l :
  Forall (fun r => plain (snippet_rune IsPrint r)) l -> (len <= maxSnippetBytes)%nat ->
  Forall plain (snippet_loop IsPrint len l) /\
  (len + byte_len (snippet_loop IsPrint len l) <= maxSnippetBytes)%nat.
Proof.
  intros Hl. revert len. induction Hl as [|r l Hr _ IH]; intros len Hlen; cbn [snippet_loop].
  { split; [constructor|]. cbn. lia. }
  destruct (Nat.ltb_spec maxSnippetBytes (len + String.length (snippet_rune IsPrint r).2)) as [|Hle].
  { split; [constructor|]. cbn. lia. }
  destruct (IH _ Hle) as [H1 H2]. rewrite byte_len_cons. split; [by constructor|lia].
Qed.

(** What an untrusted origin writes into an error answer is harmless in
    conditions, events and logs: at most 512 bytes of it are shown, on one line,
    without control or format characters, whatever bytes it sent. *)
Theorem snippet_is_tame IsPrint b :
  print_class IsPrint ->
  (String.length (sanitizeSnippet IsPrint b) <= 512)%nat /\
  Forall tame (runes 0 (sanitizeSnippet IsPrint b)).
Proof.
  intros Hp. unfold sanitizeSnippet.
  destruct (snippet_loop_spec IsPrint 0 (decoded 0 b) (snippet_runes_plain _ _ _ Hp)) as [Hb Hlen]; [lia|].
  destruct (fields_tame _ Hb) as (j & -> & Hj & Ht). split; [unfold byte_len, maxSnippetBytes in *; lia|].
  rewrite runes_encode; eapply Forall_impl; try exact Ht; naive_solver.
Qed.

Definition only_ascii (r : N) : bool := false.

Lemma snippet_is_tame_witness :
  (String.length (sanitizeSnippet only_ascii (string_of_bytes [71; 80; 10; 27; 200; 100; 97; 116; 97]%N)) <= 512)%nat /\
  sanitizeSnippet only_ascii (string_of_bytes [71; 80; 10; 27; 200; 100; 97; 116; 97]%N) = "GP data".
Proof.
  split; [|vm_compute; reflexivity]. apply snippet_is_tame. by intros r.
Defined.

(** ** Retry-After *)

(** A Retry-After can only slow the operator down within a day: whatever the
    header says, the delay lies between nothing and 24 hours, and a number of
    seconds is taken exactly up to that cap, however many digits it has. *)
Theorem retry_after_bounded parse now h :
  (0 <= parseRetryAfter parse now h <= maxRetryAfter)%Z /\
  (isAllASCIIDigits (TrimSpace h) = true ->
   parseRetryAfter parse now h = Z.min (Z.of_N (dec_val (TrimSpace h) 0) * Second) maxRetryAfter)%Z.
Proof.
  unfold parseRetryAfter.
  assert (Hm : maxRetryAfter = (86400 * Second)%Z) by reflexivity.
  assert (Hq : Z.quot maxRetryAfter Second = 86400%Z) by reflexivity. rewrite Hq.
  assert (Hs : (0 < Second)%Z) by reflexivity.
  destruct (str_eqb (TrimSpace h) "") eqn:E0.
  { split; [lia|]. unfold isAllASCIIDigits. by rewrite E0. }
  destruct (isAllASCIIDigits (TrimSpace h)).
  - set (n := Z.of_N (dec_val (TrimSpace h) 0)). assert (0 <= n)%Z by lia.
    destruct (Z.leb_spec (2 ^ 64) n), (Z.leb_spec 86400 n); cbn [orb]; split; intros; nia.
  - split; [|done]. destruct (parse _) as [t|]; [|lia]. unfold clampRetryAfter.
    destruct (Z.ltb_spec (Sub t now) 0), (Z.ltb_spec maxRetryAfter (Sub t now)); lia.
Qed.

(** ** Conditional requests *)

Section Conditional.

Context (http_ParseTime : string -> option Time) (IsPrint : N -> bool)
  (ParseOMMs : string -> result string (list OMM)) (new_request_err : string -> option string).

(** An ETag names one version of what is behind a URL. *)
Variable versions : string -> string -> string.

(** What RFC 9110 says of an origin with validators: a download is the version
    its ETag names, and 304 confirms the version the request named. *)
Definition honest (req : GPRequest) (a : result string Response) : Prop :=
  match a with
  | Err _ => True
  | Ok resp =>
      (rStatus resp = 200%Z ->
         rHeader resp "ETag" <> "" /\ rBody resp = versions (gpURL req) (rHeader resp "ETag")) /\
      (rStatus resp = 304%Z -> exists e, IfNoneMatch req = Some e)
  end.

Definition fetch (origin : GPRequest -> result string Response) (now : Time) (f : CelesTrakFetcher)
  (url : string) : result fetch_error GPFetchResult * CelesTrakFetcher :=
  celestrak_fetch http_ParseTime IsPrint ParseOMMs new_request_err origin now f url.

Inductive fetcher_step : CelesTrakFetcher -> CelesTrakFetcher -> Prop :=
| step_fetch f origin now url :
    (forall req, honest req (origin req)) -> fetcher_step f (fetch origin now f url).2
| step_seed f url etag lastModified :
    fetcher_step f (SeedConditionalCache f url etag lastModified).

Definition coherent (f : CelesTrakFetcher) : Prop :=
  forall url l, ommCache f !! url = Some l ->
    exists e, etagCache f !! url = Some e /\ ParseValidOMMs ParseOMMs (versions url e) = Ok l.

Lemma read_within n r body :
  read_limited (n + 1) r = Ok body -> (n <? Z.of_nat (String.length body))%Z = false -> (0 <= n)%Z ->
  body = rBody r.
Proof.
  unfold read_limited, prefix_Z. intros H Hn Hp. apply Z.ltb_ge in Hn.
  destruct (Z.leb_spec (n + 1) (Z.of_nat (String.length (rBody r)))) as [Hl|Hl].
  - destruct (Z.leb_spec (Z.of_nat (String.length (rBody r))) (n + 1)); [congruence|].
    injection H as <-. rewrite length_substring in Hn. lia.
  - destruct (rBodyErr r); congruence.
Qed.

Lemma download_coherent f url l etag lastMod :
  coherent f -> etag <> "" -> ParseValidOMMs ParseOMMs (versions url etag) = Ok l ->
  coherent (fold_left store (download_stores url l etag lastMod) f).
Proof.
  intros Hf He Hl. unfold download_stores. rewrite (proj2 (str_eqb_neq _ _) He).
  assert (H : coherent (store (store f (StoreOMMs url l)) (StoreETag url etag))).
  { intros u k. cbn. destruct (decide (u = url)) as [->|Hne].
    - rewrite !lookup_insert_eq. intros [= <-]. eauto.
    - rewrite !lookup_insert_ne by done. apply Hf. }
  destruct (str_eqb lastMod ""); exact H.
Qed.

Lemma step_coherent f f' : fetcher_step f f' -> coherent f -> coherent f'.
Proof.
  intros [f0 origin now url Ho|f0 url etag lm] Hf.
  - unfold fetch, celestrak_fetch. destruct (new_request_err url); [done|].
    specialize (Ho (celestrak_request f0 url)). destruct (origin _) as [resp|]; [|done].
    destruct Ho as [H200 _]. unfold celestrak_answer.
    destruct (Z.eqb_spec (rStatus resp) 304) as [|_]; [done|].
    destruct (Z.eqb_spec (rStatus resp) 200) as [E|_].
    + destruct (H200 E) as [Hne Hb].
      destruct (read_limited _ resp) as [body|] eqn:Hr; [|done].
      destruct (maxResponseBody <? _)%Z eqn:Hm; [done|].
      apply read_within in Hr as ->; [|done..]. rewrite Hb.
      destruct (ParseValidOMMs _ _) as [l|] eqn:Hp; [|done]. by apply download_coherent.
    + by destruct (_ || _).
  - unfold SeedConditionalCache. destruct (str_eqb url ""); [done|].
    intros u l Hl. destruct (Hf u l Hl) as (e & He & Hp). exists e. split; [|done]. cbn.
    unfold seed. destruct (str_eqb etag ""); [done|].
    destruct (etagCache f0 !! url) eqn:E; [done|]. rewrite lookup_insert_ne; congruence.
Qed.

(** C31. A 304 is answered with the data it confirms, as long as fetches come one
    after the other (the process reconciles one resource at a time unless its
    flag says otherwise) and the origin names the version of every download by
    an ETag: after any such downloads, failures, unchanged answers and restored
    validators, a not-modified answer returns the parsed elements of exactly the
    version the request named, or nothing when only validators were restored; it
    never returns the elements of another version.  Overlapping downloads of one
    URL can break this ([concurrent_downloads_mix]). *)
Theorem not_modified_serves_current f origin now url resp :
  rtc fetcher_step NewCelesTrakFetcher f ->
  new_request_err url = None -> (forall req, honest req (origin req)) ->
  origin (celestrak_request f url) = Ok resp -> rStatus resp = 304%Z ->
  exists r e, fetch origin now f url = (Ok r, f) /\ NotModified r = true /\
    IfNoneMatch (celestrak_request f url) = Some e /\ ETag r = e /\
    (ommCache f !! url = None /\ OMMs r = [] \/
     ParseValidOMMs ParseOMMs (versions url e) = Ok (OMMs r)).
Proof.
  intros Hrun Hreq Ho Ha Hs.
  assert (Hf : coherent f) by (eapply rtc_invariant; [apply step_coherent|exact Hrun|by intros u l]).
  specialize (Ho (celestrak_request f url)). rewrite Ha in Ho. destruct Ho as [_ H304].
  destruct (H304 Hs) as [e He]. exists (cached_result f url now), e.
  unfold fetch, celestrak_fetch. rewrite Hreq, Ha. unfold celestrak_answer. rewrite Hs. cbn [fst].
  split; [done|]. split; [done|]. split; [done|]. cbn in He |- *. rewrite He. split; [done|].
  destruct (ommCache f !! url) as [l|] eqn:El; [right|by left]. cbn.
  destruct (Hf url l El) as (e' & He' & Hp). congruence.
Qed.

End Conditional.

(** All ways two sequences of steps can be interleaved. *)
Inductive interleaving {A} : list A -> list A -> list A -> Prop :=
| inter_nil : interleaving [] [] []
| inter_left x l r m : interleaving l r m -> interleaving (x :: l) r (x :: m)
| inter_right x l r m : interleaving l r m -> interleaving l (x :: r) (x :: m).

(** The order of the stores protects one download, not two: when two
    downloads of a URL overlap, one of an older and one of a newer version, the
    cache can end up with the elements of the older under the ETag of the newer,
    so that the next not-modified answer serves outdated elements as current. *)
Theorem concurrent_downloads_mix f url older newer e1 e2 now :
  e1 <> "" -> e2 <> "" ->
  exists ops, interleaving (download_stores url older e1 "") (download_stores url newer e2 "") ops /\
    let f' := fold_left store ops f in
    OMMs (cached_result f' url now) = older /\ ETag (cached_result f' url now) = e2.
Proof.
  intros H1 H2. unfold download_stores. rewrite (proj2 (str_eqb_neq _ _) H1), (proj2 (str_eqb_neq _ _) H2).
  cbn [app]. exists [StoreOMMs url newer; StoreOMMs url older; StoreETag url e1; StoreETag url e2].
  split; [repeat constructor|]. cbn. rewrite !lookup_insert_eq. done.
Qed.

(** ** The Space-Track session *)

Section SpaceTrackSession.

Context (http_ParseTime : string -> option Time) (IsPrint : N -> bool)
  (ParseOMMs : string -> result string (list OMM)) (baseURL : string)
  (parse_origin : string -> result string (string * string)) (fold_unicode : string -> string)
  (new_request_err : string -> option string) (json_object : string -> option (list (string * option string)))
  (unicode_lower : string -> string) (Client : Type)
  (http_do : Client -> st_request -> result string Response * Client).

Abbreviation verdict := (login_verdict fold_unicode json_object unicode_lower).
Abbreviation login := (authenticate baseURL fold_unicode new_request_err json_object unicode_lower Client http_do).
Abbreviation query := (doFetchGPRaw http_ParseTime new_request_err unicode_lower Client http_do).
Abbreviation retrying := (query_with_retry http_ParseTime baseURL fold_unicode new_request_err json_object
  unicode_lower Client http_do).
Abbreviation fetch_as := (FetchWithCredentials http_ParseTime IsPrint ParseOMMs baseURL parse_origin
  fold_unicode new_request_err json_object unicode_lower Client http_do).

(** Whose session it is: the credentials of the latest accepted login. *)
Fixpoint session_owner (log : list (st_request * result string Response)) : option (string * string) :=
  match log with
  | [] => None
  | (LoginPost _ u p, a) :: log => match verdict a with None => Some (u, p) | Some _ => session_owner log end
  | (QueryGet _, _) :: log => session_owner log
  end.

Definition session_inv (s : Session Client) : Prop :=
  loggedIn (sFetcher Client s) = true ->
  session_owner (sLog Client s) = Some (activeUsername (sFetcher Client s), activePassword (sFetcher Client s)).

(** The exchanges of one call: logins of the caller at the login URL, and
    queries in the caller's session. *)
Inductive calls (url u p : string) (log : list (st_request * result string Response)) :
  nat -> list (st_request * result string Response) -> Prop :=
| calls_none : calls url u p log 0 log
| calls_login n l a : calls url u p log n l ->
    calls url u p log (S n) ((LoginPost (login_url baseURL) u p, a) :: l)
| calls_query n l a : calls url u p log n l -> session_owner l = Some (u, p) ->
    calls url u p log (S n) ((QueryGet url, a) :: l).

Lemma login_spec s u p e s' url log n :
  login s u p = (e, s') -> calls url u p log n (sLog Client s) ->
  (e = None -> session_owner (sLog Client s') = Some (u, p) /\
     sFetcher Client s' = mkSpaceTrack u p true) /\
  (e <> None -> sFetcher Client s' = sFetcher Client s /\
     session_owner (sLog Client s') = session_owner (sLog Client s)) /\
  exists k, (k <= S n)%nat /\ calls url u p log k (sLog Client s').
Proof.
  unfold authenticate, doLogin, exchange. intros H Hc.
  destruct (new_request_err _); [injection H as <- <-; split; [done|]; split; [done|eauto]|].
  destruct (http_do _ _) as [a c]. cbn [sLog sFetcher] in *.
  destruct (verdict a) as [err|] eqn:Ev; injection H as <- <-; cbn [sLog sFetcher with_fetcher session_owner];
    rewrite ?Ev; (split; [done|]; split; [done|]); eexists; (split; [|by apply calls_login; exact Hc]; lia).
Qed.

Lemma query_spec s now url u p r s' log n :
  query now s url = (r, s') -> calls url u p log n (sLog Client s) ->
  session_owner (sLog Client s) = Some (u, p) ->
  session_owner (sLog Client s') = Some (u, p) /\
  (sFetcher Client s' = sFetcher Client s \/ sFetcher Client s' = logged_out (sFetcher Client s)) /\
  exists k, (k <= S n)%nat /\ calls url u p log k (sLog Client s').
Proof.
  unfold doFetchGPRaw, exchange. intros H Hc Ho.
  destruct (new_request_err _); [injection H as <- <-; split; [done|]; split; [by left|eauto]|].
  destruct (http_do _ _) as [a c]. destruct (query_outcome _ _ _ _ _) as [q expired].
  injection H as <- <-.
  assert (Hlog : sLog Client (if expired then with_fetcher Client (mkSession Client (sFetcher Client s) c
      ((QueryGet url, a) :: sLog Client s)) (logged_out (sFetcher Client s))
      else mkSession Client (sFetcher Client s) c ((QueryGet url, a) :: sLog Client s))
    = (QueryGet url, a) :: sLog Client s) by by destruct expired.
  cbn [sFetcher] in *. rewrite Hlog. cbn [session_owner]. split; [done|]. split; [destruct expired; auto|].
  eexists. split; [|by apply calls_query; [exact Hc|]]. lia.
Qed.

Lemma retry_spec s now url u p r s' log n :
  retrying now s url u p = (r, s') -> calls url u p log n (sLog Client s) ->
  session_owner (sLog Client s) = Some (u, p) ->
  activeUsername (sFetcher Client s) = u -> activePassword (sFetcher Client s) = p ->
  session_inv s' /\ exists k, (k <= n + 3)%nat /\ calls url u p log k (sLog Client s').
Proof.
  unfold query_with_retry. intros H Hc Ho Hu Hp.
  destruct (query now s url) as [q s1] eqn:Eq.
  destruct (query_spec _ _ _ u p _ _ log n Eq Hc Ho) as (Ho1 & Hf1 & k1 & Hk1 & Hc1).
  assert (Hinv1 : session_inv s1).
  { intros _. destruct Hf1 as [->| ->]; cbn; rewrite Ho1; congruence. }
  assert (Hstop : session_inv s1 /\ exists k, (k <= n + 3)%nat /\ calls url u p log k (sLog Client s1)).
  { split; [done|]. exists k1. split; [lia|done]. }
  destruct q as [body|err]; [injection H as <- <-; exact Hstop|].
  destruct (isSessionExpired err); [|injection H as <- <-; exact Hstop].
  destruct (login s1 u p) as [e2 s2] eqn:El.
  destruct (login_spec _ _ _ _ _ url log k1 El Hc1) as (Hok & Hno & k2 & Hk2 & Hc2). destruct e2 as [e2|].
  - injection H as <- <-. destruct Hno as [Hf2 Ho2]; [done|]. split.
    + intros Hl. rewrite Ho2, Hf2 in *. by apply Hinv1.
    + exists k2. split; [lia|done].
  - destruct Hok as [Ho2 Hf2]; [done|].
    destruct (query_spec _ _ _ u p _ _ log k2 H Hc2 Ho2) as (Ho3 & Hf3 & k3 & Hk3 & Hc3). split.
    + intros _. rewrite Hf2 in Hf3. destruct Hf3 as [->| ->]; cbn; by rewrite Ho3.
    + exists k3. split; [lia|done].
Qed.

(** C26. A call stays in its own session: from a state in which the fetcher knows
    whose session it holds, a call for a user makes at most four requests, each
    either a login of that very user at the fixed login URL or a query to the
    given URL while the latest accepted login is that user's; it makes none
    unless the URL is on the trusted origin; and it leaves a state in which the
    fetcher knows whose session it holds, on every path, so that callers with
    different credentials never read each other's data. *)
Theorem session_is_the_callers now s url u p r s' :
  session_inv s -> fetch_as now s url u p = (r, s') ->
  session_inv s' /\
  exists n, (n <= 4)%nat /\ calls url u p (sLog Client s) n (sLog Client s') /\
    (sLog Client s' <> sLog Client s ->
       exists base o, parse_origin baseURL = Ok base /\ parse_origin url = Ok o /\
         same_origin fold_unicode o base = true /\ u <> "" /\ p <> "").
Proof.
  intros Hinv. unfold FetchWithCredentials.
  destruct (validateGPURL _ _ _ _ _) as [e|] eqn:Ev.
  { intros [= <- <-]. split; [done|]. exists 0%nat. split_and!; [lia|constructor|done]. }
  destruct (str_eqb u "" || str_eqb p "") eqn:Eup.
  { intros [= <- <-]. split; [done|]. exists 0%nat. split_and!; [lia|constructor|done]. }
  intros H. assert (Horigin : exists base o, parse_origin baseURL = Ok base /\ parse_origin url = Ok o /\
         same_origin fold_unicode o base = true /\ u <> "" /\ p <> "").
  { unfold validateGPURL in Ev. destruct (parse_origin baseURL) as [base|]; [|done].
    destruct (parse_origin url) as [o|]; [|done]. destruct (same_origin _ o base) eqn:Es; [|done].
    apply orb_false_iff in Eup as [?%str_eqb_neq ?%str_eqb_neq]. eauto 10. }
  set (need := negb _ || _ || _) in H.
  destruct (if need then login s u p else (None, s)) as [e1 s1] eqn:El.
  assert (H1 : exists k, (k <= 1)%nat /\ calls url u p (sLog Client s) k (sLog Client s1) /\
    (e1 = None -> session_owner (sLog Client s1) = Some (u, p) /\
       activeUsername (sFetcher Client s1) = u /\ activePassword (sFetcher Client s1) = p) /\
    (e1 <> None -> session_inv s1)).
  { destruct need eqn:En.
    - destruct (login_spec _ _ _ _ _ url (sLog Client s) 0 El (calls_none _ _ _ _)) as (Hok & Hno & k & Hk & Hc).
      exists k. split; [lia|]. split; [done|]. split.
      + intros ->. destruct Hok as [? ->]; done.
      + intros He. destruct (Hno He) as [Hf Ho]. intros Hl. rewrite Ho, Hf in *. by apply Hinv.
    - injection El as <- <-. exists 0%nat. split; [lia|]. split; [constructor|]. split; [|done]. intros _.
      unfold need in En. apply orb_false_iff in En as [[Hl%negb_false_iff Hu%negb_false_iff]%orb_false_iff
        Hp%negb_false_iff]. apply str_eqb_eq in Hu, Hp. split_and!; [|done..]. rewrite (Hinv Hl). congruence. }
  destruct H1 as (k & Hk & Hc & Hok & Hno). destruct e1 as [e1|].
  { injection H as <- <-. split; [by apply Hno|]. exists k. split_and!; [lia|done|done]. }
  destruct Hok as (Ho & Hu & Hp); [done|].
  destruct (retrying now s1 url u p) as [q s2] eqn:Er.
  destruct (retry_spec _ _ _ _ _ _ _ _ _ Er Hc Ho Hu Hp) as (Hinv2 & k2 & Hk2 & Hc2).
  assert (s' = s2) as -> by (destruct q; by injection H). split; [done|]. exists k2. split_and!; [lia|done|done].
Qed.

End SpaceTrackSession.

(** ** Examples *)

Definition sample_omm (id : Z) : OMM :=
  mkOMM "SAT" id "2024-02-29T12:34:56" (f_of_Z 15) f_zero (f_of_Z 51) f_zero f_zero f_zero f_zero f_zero f_zero "".

Definition no_header (h : string) : string := "".
Definition no_date (s : string) : option Time := None.
Definition no_request_error (u : string) : option string := None.
Definition two_sets (s : string) : result string (list OMM) :=
  if str_eqb s "v1" then Ok [sample_omm 25544]
  else Ok [sample_omm 25544; mkOMM "BAD" 7 "" (f_of_Z (-1)) f_zero f_zero f_zero f_zero f_zero f_zero f_zero f_zero ""].

(** An origin with one version, under the ETag e1. *)
Definition one_version (u e : string) : string := "v1".
Definition e1_header (h : string) : string := if str_eqb h "ETag" then "e1" else "".
Definition demo_origin (req : GPRequest) : result string Response :=
  match IfNoneMatch req with
  | Some _ => Ok (mkResponse 304 e1_header "" None)
  | None => Ok (mkResponse 200 e1_header "v1" None)
  end.

Lemma demo_honest req : honest one_version req (demo_origin req).
Proof. unfold demo_origin, honest. destruct (IfNoneMatch req); cbn; split; intros; try done; eauto. Qed.

Definition demo_url : string := "https://celestrak.org/gp".

Definition demo_warm : CelesTrakFetcher :=
  (fetch no_date only_ascii two_sets no_request_error demo_origin 0 NewCelesTrakFetcher demo_url).2.

Lemma not_modified_serves_current_witness :
  exists r e, fetch no_date only_ascii two_sets no_request_error demo_origin 5 demo_warm demo_url = (Ok r, demo_warm) /\
    ETag r = e /\ (ommCache demo_warm !! demo_url = None /\ OMMs r = [] \/
      ParseValidOMMs two_sets (one_version demo_url e) = Ok (OMMs r)).
Proof.
  destruct (not_modified_serves_current no_date only_ascii two_sets no_request_error one_version demo_warm
    demo_origin 5 demo_url (mkResponse 304 e1_header "" None)) as (r & e & H1 & _ & _ & H2 & H3).
  - apply rtc_once. apply step_fetch. apply demo_honest.
  - reflexivity.
  - apply demo_honest.
  - vm_compute. reflexivity.
  - reflexivity.
  - exists r, e. split; [exact H1|]. split; [exact H2|exact H3].
Defined.

Lemma concurrent_downloads_mix_witness :
  exists ops, interleaving (download_stores "u" [sample_omm 1] "e1" "") (download_stores "u" [sample_omm 2] "e2" "") ops /\
    let f' := fold_left store ops NewCelesTrakFetcher in
    OMMs (cached_result f' "u" 0) = [sample_omm 1] /\ ETag (cached_result f' "u" 0) = "e2".
Proof. apply (concurrent_downloads_mix NewCelesTrakFetcher "u" _ _ "e1" "e2" 0); discriminate. Defined.

Definition demo_parse_origin (u : string) : result string (string * string) := Ok ("https", "www.space-track.org").

(** Answers every request with 200 and an empty body. *)
Definition demo_http (c : unit) (r : st_request) : result string Response * unit :=
  (Ok (mkResponse 200 no_header "" None), tt).

Definition fresh_session : Session unit := mkSession unit (mkSpaceTrack "" "" false) tt [].

Definition demo_fetch (s : Session unit) (u p : string) : result fetch_error GPFetchResult * Session unit :=
  FetchWithCredentials no_date only_ascii two_sets "https://www.space-track.org" demo_parse_origin id
    no_request_error (fun _ => None) id unit demo_http 0 s "https://www.space-track.org/q" u p.

Lemma session_is_the_callers_witness :
  exists n, (n <= 4)%nat /\
    calls "https://www.space-track.org" id (fun _ => None) id "https://www.space-track.org/q" "bob" "pw"
      (sLog unit (demo_fetch fresh_session "alice" "pw").2)
      n (sLog unit (demo_fetch (demo_fetch fresh_session "alice" "pw").2 "bob" "pw").2).
Proof.
  assert (Hinv : session_inv id (fun _ => None) id unit (demo_fetch fresh_session "alice" "pw").2)
    by (intros _; vm_compute; reflexivity).
  destruct (session_is_the_callers no_date only_ascii two_sets "https://www.space-track.org" demo_parse_origin id
    no_request_error (fun _ => None) id unit demo_http 0 _ "https://www.space-track.org/q" "bob" "pw" _ _ Hinv
    (surjective_pairing _)) as (_ & n & Hn & Hc & _).
  exists n. split; [exact Hn|exact Hc].
Defined.
