(* ===== verification/EphemerisCache.v ===== *)
(** * SatelliteEphemeris: cached element sets

    Models the cache side of
    [src/internal/controller/satelliteephemeris_controller.go] (the in-memory
    entry, its keys, the fetch backoff and the decision to serve from it) and
    [src/internal/controller/satelliteephemeris_ommcache_persist.go] (the durable
    copy in a ConfigMap, its restore after a cold start and the migration of
    the older name).

    The element-set sources are an interface, [ElementSources]; the fetchers of
    [Fetchers] are its instance.  The API server is the [ConfigServer] of
    [OcuduProvider]; [other i] is what other clients do to the store before the
    request number [i] of a reconcile. *)

From S2P Require Import Prelude GoStrings GoTime GoTimeParse GoFloat K8sMeta PassPredictor OcuduConfig EphemerisApi OcuduProvider Fetchers.
From Stdlib Require Import Ascii.
Local Open Scope string_scope.
Local Arguments String.append !_ _ /.

(** ** Keys *)

Section Keys.

Variable IsPrint : N -> bool.

(** What a cached payload is a copy of. *)
Definition fetchInputKey (spec : SatelliteEphemerisSpec) : string :=
  "type=" +:+ yamlQuote IsPrint (esType (Source spec)) +:+ " url=" +:+ yamlQuote IsPrint (esURL (Source spec)).

(** What the decision to retry a fetch depends on. *)
Definition retryInputKey (spec : SatelliteEphemerisSpec) (effectiveInterval : Duration) : string :=
  let '(credName, credKey) := match esCredentials (Source spec) with
                              | Some c => (srName c, srKey c)
                              | None => ("", "")
                              end in
  "cred=" +:+ yamlQuote IsPrint credName +:+ "/" +:+ yamlQuote IsPrint credKey +:+
  " interval=" +:+ duration_string effectiveInterval.

End Keys.

(** ** The in-memory entry *)

Record cachedFetch := mkCached {
  cfResult : GPFetchResult;
  cfFetchKey : string;
  cfUID : UID;
  nextFetchAttempt : Time;
  lastFetchErr : option fetch_error;
  fetchFailures : Z;
  retryKey : string
}.

(** A fresh entry, without a backoff. *)
Definition fresh_entry (r : GPFetchResult) (fetchKey : string) (uid : UID) : cachedFetch :=
  mkCached r fetchKey uid zero_time None 0 "".

(** ** The fetch backoff *)

Definition maxAuthRetryBackoff : Duration := (15 * Minute)%Z.

Definition retryAfterFrom (e : fetch_error) : Duration :=
  match feClass e with RateLimited d _ => d | _ => 0%Z end.

Definition fetchRetryDelay (e : fetch_error) (effectiveInterval : Duration) (failures : Z) : Duration :=
  match feClass e with
  | RateLimited _ _ => Z.max effectiveInterval (retryAfterFrom e)
  | AuthFailed => Z.min effectiveInterval maxAuthRetryBackoff
  | _ =>
      let shift := Z.min (Z.max (failures - 1) 0) 10 in
      Z.min (Z.shiftl Minute shift) effectiveInterval
  end.

Inductive fetchErrClass := fetchErrTransient | fetchErrRateLimited | fetchErrAuth.

#[export] Instance fetchErrClass_eq_dec : EqDecision fetchErrClass.
Proof. solve_decision. Defined.

(** A nil error is transient, the zero value. *)
Definition classifyFetchErrClass (e : option fetch_error) : fetchErrClass :=
  match e with
  | Some e => match feClass e with
              | RateLimited _ _ => fetchErrRateLimited
              | AuthFailed => fetchErrAuth
              | _ => fetchErrTransient
              end
  | None => fetchErrTransient
  end.

Definition applyFetchBackoff (c : cachedFetch) (e : fetch_error) (newRetryKey : string)
  (effectiveInterval : Duration) (now : Time) : cachedFetch :=
  let restart := negb (str_eqb newRetryKey (retryKey c)) ||
                 negb (bool_decide (classifyFetchErrClass (Some e) = classifyFetchErrClass (lastFetchErr c))) in
  let failures := wrap64 ((if restart then 0 else fetchFailures c) + 1) in
  mkCached (cfResult c) (cfFetchKey c) (cfUID c)
    (Add now (fetchRetryDelay e effectiveInterval failures)) (Some e) failures newRetryKey.

(** ** Sources *)

(** What the controller relies on: a CelesTrak and a Space-Track fetcher, each
    perhaps not configured, and the seeding of validators. *)
Class ElementSources (F : Type) := {
  celestrak_configured : bool;
  spacetrack_configured : bool;
  src_celestrak : F -> Time -> string -> result fetch_error GPFetchResult * F;
  src_spacetrack : F -> Time -> string -> string -> string -> result fetch_error GPFetchResult * F;
  src_seed : F -> string -> string -> string -> F
}.

(** A promise of the sources: what they deliver can be propagated, as long as
    what they hold themselves can. *)
Class UsableSources (F : Type) `{ElementSources F} := {
  src_ok : F -> Prop;
  celestrak_ok : forall f t url, src_ok f ->
    src_ok (src_celestrak f t url).2 /\ forall r, (src_celestrak f t url).1 = Ok r -> Forall usable (OMMs r);
  spacetrack_ok : forall f t user password url, src_ok f ->
    src_ok (src_spacetrack f t user password url).2 /\
    forall r, (src_spacetrack f t user password url).1 = Ok r -> Forall usable (OMMs r);
  seed_ok : forall f url etag lastModified, src_ok f -> src_ok (src_seed f url etag lastModified)
}.

(** ** The durable copy *)

Definition ommCacheDataKey := "omms.json".
Definition ommCacheLabelKey := "ntn.operators.dev/omm-cache".
Definition ommCacheLabelValue := "true".
Definition ommCacheAnnFetchKey := "ntn.operators.dev/omm-fetch-key".
Definition ommCacheAnnFetchedAt := "ntn.operators.dev/omm-fetched-at".
Definition ommCacheAnnDigest := "ntn.operators.dev/omm-digest".
Definition ommCacheAnnUID := "ntn.operators.dev/omm-owner-uid".
Definition ommCacheAnnCount := "ntn.operators.dev/omm-count".
Definition ommCacheAnnETag := "ntn.operators.dev/omm-etag".
Definition ommCacheAnnLastModified := "ntn.operators.dev/omm-last-modified".
Definition ommCacheConfigMapSuffix := "-omm-cache".
Definition maxOMMCacheBytes : Z := 900 * 1024.
Definition maxConfigMapNameLen : nat := 253.
Definition maxPropagatedStates : nat := 128.

Definition ommCacheAnnotations : list string :=
  [ommCacheAnnFetchKey; ommCacheAnnFetchedAt; ommCacheAnnDigest; ommCacheAnnUID; ommCacheAnnCount;
   ommCacheAnnETag; ommCacheAnnLastModified].

Definition legacyOMMCacheConfigMapName (ephName : string) : string :=
  (if (maxConfigMapNameLen <? String.length ephName + String.length ommCacheConfigMapSuffix)%nat
   then String.substring 0 (maxConfigMapNameLen - String.length ommCacheConfigMapSuffix) ephName
   else ephName) +:+ ommCacheConfigMapSuffix.

Definition ommCachePayload (r : GPFetchResult) (spec : SatelliteEphemerisSpec) : list OMM :=
  firstn maxPropagatedStates (FilterOMMs (OMMs r) (selected_norads spec)).

Definition setOrClearAnn (ann : gmap string string) (key val : string) : gmap string string :=
  if str_eqb val "" then delete key ann else <[key := val]> ann.

(** The series of the cache. *)
Record CacheSeries := mkCacheSeries {
  OMMCachePersistTotal : gmap (string * string * string) Z;
  OMMCacheRestoreTotal : gmap (string * string * string) Z;
  OMMCacheRestoredAge : gmap (string * string) Duration
}.

Section Durable.
Context {R : Type} `{CR : ControllerRefs R} `{SRV : ConfigServer R} {F : Type} `{ES : ElementSources F}.

(** SHA-256 in hexadecimal; [unicode.IsPrint]; the JSON form of element sets
    and its parser. *)
Variable sha256hex : string -> string.
Variable IsPrint : N -> bool.
Variable marshal_omms : list OMM -> result string string.
Variable ParseOMMs : string -> result string (list OMM).

Definition ommDigest (b : string) : string := sha256hex b.

(** The first sixteen bytes of the digest are thirty-two hexadecimal digits. *)
Definition ommCacheConfigMapName (m : ObjectMeta) : string :=
  let h := String.substring 0 32 (sha256hex (Namespace m +:+ "/" +:+ Name m +:+ "/" +:+ oUID m)) in
  let room := maxConfigMapNameLen - String.length ommCacheConfigMapSuffix - String.length h - 1 in
  let prefix := if (room <? String.length (Name m))%nat
                then TrimRight (String.substring 0 room (Name m)) "-." else Name m in
  prefix +:+ "-" +:+ h +:+ ommCacheConfigMapSuffix.

(** The parts of the controller's world the cache is about. *)
Record CacheWorld := mkCacheWorld {
  owStore : Store R;
  owCache : gmap NamespacedName cachedFetch;
  owSources : F;
  owSeries : CacheSeries
}.

Definition with_store (w : CacheWorld) (s : Store R) : CacheWorld :=
  mkCacheWorld s (owCache w) (owSources w) (owSeries w).
Definition put_entry (w : CacheWorld) (k : NamespacedName) (c : cachedFetch) : CacheWorld :=
  mkCacheWorld (owStore w) (<[k := c]> (owCache w)) (owSources w) (owSeries w).
Definition with_sources (w : CacheWorld) (f : F) : CacheWorld :=
  mkCacheWorld (owStore w) (owCache w) f (owSeries w).
Definition with_series (w : CacheWorld) (s : CacheSeries) : CacheWorld :=
  mkCacheWorld (owStore w) (owCache w) (owSources w) s.

Definition bump_series (m : gmap (string * string * string) Z) (eph : ObjectMeta) (result : string) :=
  let k := (Namespace eph, Name eph, result) in <[k := (default 0 (m !! k) + 1)%Z]> m.

Definition count_persist (w : CacheWorld) (eph : ObjectMeta) (result : string) : CacheWorld :=
  let s := owSeries w in
  with_series w (mkCacheSeries (bump_series (OMMCachePersistTotal s) eph result) (OMMCacheRestoreTotal s) (OMMCacheRestoredAge s)).

Definition count_restore (w : CacheWorld) (eph : ObjectMeta) (result : string) : CacheWorld :=
  let s := owSeries w in
  with_series w (mkCacheSeries (OMMCachePersistTotal s) (bump_series (OMMCacheRestoreTotal s) eph result) (OMMCacheRestoredAge s)).

Definition set_restored_age (w : CacheWorld) (eph : ObjectMeta) (age : Duration) : CacheWorld :=
  let s := owSeries w in
  with_series w (mkCacheSeries (OMMCachePersistTotal s) (OMMCacheRestoreTotal s)
    (<[(Namespace eph, Name eph) := age]> (OMMCacheRestoredAge s))).

Definition stampOMMCache (cm : ConfigMap R) (eph : ObjectMeta) (fetchKey digest : string) (count : Z)
  (data : string) (fetchedAt : Time) (etag lastModified : string) : ConfigMap R :=
  let ann := <[ommCacheAnnCount := fmt_d count]>
             (<[ommCacheAnnUID := oUID eph]>
             (<[ommCacheAnnDigest := digest]>
             (<[ommCacheAnnFetchedAt := format_rfc3339nano fetchedAt]>
             (<[ommCacheAnnFetchKey := fetchKey]> (cmAnnotations cm))))) in
  mkCM (cmUID cm) (cmVersion cm) (cmOwners cm) (<[ommCacheLabelKey := ommCacheLabelValue]> (cmLabels cm))
    (setOrClearAnn (setOrClearAnn ann ommCacheAnnETag etag) ommCacheAnnLastModified lastModified)
    {[ommCacheDataKey := data]}.

Definition set_owners (cm : ConfigMap R) (owners : list R) : ConfigMap R :=
  mkCM (cmUID cm) (cmVersion cm) owners (cmLabels cm) (cmAnnotations cm) (cmData cm).

Definition empty_cm : ConfigMap R := mkCM "" 0 [] ∅ ∅ ∅.

(** [persistOMMCache]; nothing of it fails the reconcile. *)
Definition persistOMMCache (other : nat -> Store R -> Store R) (w : CacheWorld) (eph : SatelliteEphemeris)
  (r : GPFetchResult) (fetchKey : string) : CacheWorld :=
  let m := ephMeta eph in
  let omms := ommCachePayload r (ephSpec eph) in
  if (length omms =? 0)%nat then w
  else match marshal_omms omms with
       | Err _ => count_persist w m "skipped_marshal"
       | Ok data =>
           if (maxOMMCacheBytes <? Z.of_nat (String.length data))%Z then count_persist w m "skipped_oversize"
           else
             let digest := ommDigest data in
             let key := mkKey (Namespace m) (ommCacheConfigMapName m) in
             let stamp cm := stampOMMCache cm m fetchKey digest (Z.of_nat (length omms)) data
                               (FetchedAt r) (ETag r) (LastModified r) in
             match srv_get (owStore w) key with
             | NotFound =>
                 match SetControllerReference (oUID m) [] with
                 | None => w
                 | Some owners =>
                     match srv_create (other 3 (owStore w)) key (set_owners (stamp empty_cm) owners) with
                     | (Written, s) | (AlreadyExists, s) => count_persist (with_store w s) m "success"
                     | (_, s) => count_persist (with_store w s) m "failed"
                     end
                 end
             | GetError _ => count_persist w m "failed"
             | Found cm =>
                 if str_eqb (get_str (cmAnnotations cm) ommCacheAnnDigest) digest &&
                    negb (str_eqb (get_str (cmData cm) ommCacheDataKey) "")
                 then w
                 else
                   let cm := stamp cm in
                   let cm := match SetControllerReference (oUID m) (cmOwners cm) with
                             | Some owners => set_owners cm owners
                             | None => cm
                             end in
                   match srv_update (other 3 (owStore w)) key cm with
                   | (Written, s) => count_persist (with_store w s) m "success"
                   | (_, s) => count_persist (with_store w s) m "failed"
                   end
             end
       end.

(** The annotations of the cache that [m] has, and no others. *)
Definition copied_annotations (m : gmap string string) : gmap string string :=
  list_to_map (omap (fun k => match m !! k with Some v => Some (k, v) | None => None end) ommCacheAnnotations).

Definition copyCacheForward (other : nat -> Store R -> Store R) (s : Store R) (m : ObjectMeta)
  (legacy : ConfigMap R) : Store R :=
  match SetControllerReference (oUID m) [] with
  | None => s
  | Some owners =>
      (srv_create (other 2 s) (mkKey (Namespace m) (ommCacheConfigMapName m))
         (mkCM "" 0 owners {[ommCacheLabelKey := ommCacheLabelValue]} (copied_annotations (cmAnnotations legacy))
            {[ommCacheDataKey := get_str (cmData legacy) ommCacheDataKey]})).2
  end.

(** Why a stored copy is refused; [Ok] carries the parsed element sets. *)
Inductive refusal := NotACache | refused_digest | refused_identity | refused_parse.

Definition check_copy (cm : ConfigMap R) (uid : UID) (fetchKey : string) : result refusal (list OMM) :=
  let data := get_str (cmData cm) ommCacheDataKey in
  if negb (str_eqb (get_str (cmLabels cm) ommCacheLabelKey) ommCacheLabelValue) || str_eqb data ""
  then Err NotACache
  else if negb (str_eqb (get_str (cmAnnotations cm) ommCacheAnnDigest) (ommDigest data))
  then Err refused_digest
  else if negb (str_eqb (get_str (cmAnnotations cm) ommCacheAnnUID) uid) ||
          negb (str_eqb (get_str (cmAnnotations cm) ommCacheAnnFetchKey) fetchKey)
  then Err refused_identity
  else match ParseValidOMMs ParseOMMs data with
       | Err _ => Err refused_parse
       | Ok omms => if (length omms =? 0)%nat then Err refused_parse else Ok omms
       end.

Definition refusal_label (r : refusal) : option string :=
  match r with
  | NotACache => None
  | refused_digest => Some "refused_digest"
  | refused_identity => Some "refused_identity"
  | refused_parse => Some "refused_parse"
  end.

(** [hydrateFromCacheObject]; [now] is [time.Now()]. *)
Definition hydrateFromCacheObject (other : nat -> Store R -> Store R) (now : Time) (w : CacheWorld)
  (eph : SatelliteEphemeris) (fetchKey name : string) (legacy : bool) : bool * CacheWorld :=
  let m := ephMeta eph in
  match srv_get (owStore w) (mkKey (Namespace m) name) with
  | Found cm =>
      match check_copy cm (oUID m) fetchKey with
      | Err r => (false, match refusal_label r with Some l => count_restore w m l | None => w end)
      | Ok omms =>
          let ann := cmAnnotations cm in
          let fetchedAt := default zero_time (parse_rfc3339nano (get_str ann ommCacheAnnFetchedAt)) in
          let w := put_entry w (ObjectKeyFromObject m)
                     (fresh_entry (mkFetched omms (Z.of_nat (length omms)) fetchedAt false "" "") fetchKey (oUID m)) in
          let w := if str_eqb (esType (Source (ephSpec eph))) "CelesTrak"
                   then with_sources w (src_seed (owSources w) (esURL (Source (ephSpec eph)))
                          (get_str ann ommCacheAnnETag) (get_str ann ommCacheAnnLastModified))
                   else w in
          let w := if IsZero fetchedAt then w else set_restored_age w m (Sub now fetchedAt) in
          let w := if legacy then with_store w (copyCacheForward other (owStore w) m cm) else w in
          (true, count_restore w m (if legacy then "migrated" else "hydrated"))
      end
  | _ => (false, w)
  end.

Definition restoreOMMCache (other : nat -> Store R -> Store R) (now : Time) (w : CacheWorld)
  (eph : SatelliteEphemeris) (fetchKey : string) : bool * CacheWorld :=
  let m := ephMeta eph in
  match owCache w !! ObjectKeyFromObject m with
  | Some _ => (false, w)
  | None =>
      match hydrateFromCacheObject other now w eph fetchKey (ommCacheConfigMapName m) false with
      | (true, w) => (true, w)
      | (false, w) =>
          hydrateFromCacheObject other now (with_store w (other 1 (owStore w))) eph fetchKey
            (legacyOMMCacheConfigMapName (Name m)) true
      end
  end.

(** ** Serving from the cache *)

Definition matchingCache (w : CacheWorld) (eph : SatelliteEphemeris) : option cachedFetch :=
  match owCache w !! ObjectKeyFromObject (ephMeta eph) with
  | Some c =>
      if negb (str_eqb (cfFetchKey c) (fetchInputKey IsPrint (ephSpec eph))) ||
         negb (str_eqb (cfUID c) (oUID (ephMeta eph)))
      then None else Some c
  | None => None
  end.

Inductive cacheServeReason :=
| cacheServeNone
| cacheServeWindow (c : cachedFetch)
| cacheServeBackoff (c : cachedFetch).

Definition cacheServe (w : CacheWorld) (eph : SatelliteEphemeris) (now : Time) (effectiveInterval : Duration)
  : cacheServeReason :=
  match matchingCache w eph with
  | None => cacheServeNone
  | Some c =>
      if (Sub now (FetchedAt (cfResult c)) <? effectiveInterval)%Z then cacheServeWindow c
      else if Before now (nextFetchAttempt c) &&
              str_eqb (retryKey c) (retryInputKey IsPrint (ephSpec eph) effectiveInterval)
      then cacheServeBackoff c
      else cacheServeNone
  end.

End Durable.

(** * Properties *)

(** ** The backoff *)

Definition transient (e : fetch_error) : Prop := classifyFetchErrClass (Some e) = fetchErrTransient.

(** A run of failures under one retry key. *)
Definition failures_run (c : cachedFetch) (key : string) (interval : Duration) (es : list (fetch_error * Time))
  : cachedFetch :=
  fold_left (fun c e => applyFetchBackoff c e.1 key interval e.2) es c.

Lemma transient_delay e interval n :
  transient e -> fetchRetryDelay e interval n = Z.min (Z.shiftl Minute (Z.min (Z.max (n - 1) 0) 10)) interval.
Proof. unfold transient, classifyFetchErrClass, fetchRetryDelay. by destruct (feClass e). Qed.

(** Does a failure begin a new episode of retries? *)
Definition new_episode (c : cachedFetch) (key : string) : Prop :=
  key <> retryKey c \/ classifyFetchErrClass (lastFetchErr c) <> fetchErrTransient \/ fetchFailures c = 0%Z.

Lemma first_failure c e key interval now :
  transient e -> new_episode c key ->
  let c' := applyFetchBackoff c e key interval now in
  fetchFailures c' = 1%Z /\ retryKey c' = key /\ lastFetchErr c' = Some e.
Proof.
  intros He Hn. unfold applyFetchBackoff. cbn [fetchFailures retryKey lastFetchErr]. split; [|done].
  destruct (negb (str_eqb key (retryKey c)) || _) eqn:E; [done|].
  apply orb_false_iff in E as [E1%negb_false_iff%str_eqb_eq E2%negb_false_iff%bool_decide_eq_true].
  unfold transient in He. rewrite He in E2. destruct Hn as [Hn|[Hn|Hn]]; [congruence|congruence|by rewrite Hn].
Qed.

Lemma next_failure c e key interval now :
  transient e -> retryKey c = key -> (exists e0, lastFetchErr c = Some e0 /\ transient e0) ->
  (0 <= fetchFailures c < int64_max)%Z ->
  let c' := applyFetchBackoff c e key interval now in
  fetchFailures c' = (fetchFailures c + 1)%Z /\ retryKey c' = key /\ lastFetchErr c' = Some e.
Proof.
  intros He Hk (e0 & Hl & He0) Hf. unfold applyFetchBackoff. cbn [fetchFailures retryKey lastFetchErr]. split; [|done].
  rewrite Hk, str_eqb_refl, Hl. unfold transient in He, He0. rewrite He, He0, bool_decide_eq_true_2 by done. cbn.
  apply wrap64_id. unfold int64_max, int64_min in *. lia.
Qed.

Lemma failures_run_spec key interval es c :
  new_episode c key -> Forall (fun e => transient e.1) es -> es <> [] -> (Z.of_nat (length es) < int64_max)%Z ->
  let c' := failures_run c key interval es in
  fetchFailures c' = Z.of_nat (length es) /\ retryKey c' = key /\
  (exists e0, lastFetchErr c' = Some e0 /\ transient e0) /\
  exists e t, last es = Some (e, t) /\
    nextFetchAttempt c' = Add t (fetchRetryDelay e interval (Z.of_nat (length es))).
Proof.
  intros Hn. induction es as [|[e t] es IH] using rev_ind; [done|]. intros Ht _ Hlen.
  apply Forall_app in Ht as [Hes He]. apply Forall_cons in He as [He _]. cbn [fst] in He.
  rewrite length_app in *. cbn [length] in *. unfold failures_run in *. rewrite fold_left_app. cbn [fold_left fst snd].
  rewrite last_snoc. destruct es as [|x es].
  - destruct (first_failure c e key interval t He Hn) as (H1 & H2 & H3). cbn [fold_left] in *.
    split; [done|]. split; [done|]. split; [eauto|]. exists e, t. split; [done|].
    unfold applyFetchBackoff in *. cbn in *. by rewrite H1.
  - destruct IH as (H1 & H2 & H3 & _); [done|done|lia|]. set (c1 := fold_left _ _ _) in *.
    destruct (next_failure c1 e key interval t He H2 H3) as (G1 & G2 & G3); [unfold int64_max in *; lia|].
    assert (G1' : fetchFailures (applyFetchBackoff c1 e key interval t) = Z.of_nat (length (x :: es) + 1))
      by (rewrite G1, H1; lia).
    split; [exact G1'|]. split; [done|]. split; [eauto|]. exists e, t. split; [done|].
    rewrite <- G1'. reflexivity.
Qed.

(** The ramp of the fetch backoff is exact: the n-th consecutive transient
    failure of an episode holds the next fetch back by 1, 2, 4, ... minutes from
    the moment it failed, doubling at most ten times and never beyond the refresh
    interval; an episode starts over when the retry inputs or the kind of
    failure change, whatever count was left behind. *)
Theorem backoff_ramp_exact c key interval es e t :
  new_episode c key -> Forall (fun e => transient e.1) es -> last es = Some (e, t) ->
  (Z.of_nat (length es) < int64_max)%Z ->
  nextFetchAttempt (failures_run c key interval es) =
    (t + Z.min (Minute * 2 ^ Z.of_nat (Nat.min (length es - 1) 10)) interval)%Z.
Proof.
  intros Hn Ht Hl Hlen. assert (Hne : es <> []) by by destruct es.
  destruct (failures_run_spec key interval es c Hn Ht Hne Hlen) as (_ & _ & _ & e' & t' & Hl' & ->).
  assert (e' = e /\ t' = t) as [-> ->] by (split; congruence). rewrite transient_delay.
  - unfold Add. f_equal. f_equal. rewrite Z.shiftl_mul_pow2 by lia. f_equal. f_equal.
    destruct es; [done|]. cbn [length]. lia.
  - rewrite Forall_forall in Ht. apply (Ht (e, t)). apply last_Some_elem_of in Hl. exact Hl.
Qed.

Lemma backoff_ramp_exact_witness :
  let e := mkFetchError OtherError "timeout" in
  nextFetchAttempt (failures_run (fresh_entry (mkFetched [] 0 0 false "" "") "k" "u") "key" (2 * Hour)%Z
    [(e, 0%Z); (e, Minute); (e, (3 * Minute)%Z)]) = (7 * Minute)%Z.
Proof.
  apply (backoff_ramp_exact _ "key" (2 * Hour)%Z [_; _; _] (mkFetchError OtherError "timeout") (3 * Minute)%Z).
  - right. right. reflexivity.
  - repeat constructor.
  - reflexivity.
  - reflexivity.
Defined.

(** ** The durable copy *)

Section DurableProperties.
Context {R : Type} `{CR : ControllerRefs R} `{SRV : ConfigServer R} {F : Type} `{ES : ElementSources F}.
Context (sha256hex : string -> string) (IsPrint : N -> bool)
  (marshal_omms : list OMM -> result string string) (ParseOMMs : string -> result string (list OMM)).

Abbreviation persist := (persistOMMCache (R := R) (F := F) sha256hex marshal_omms).
Abbreviation restore := (restoreOMMCache (R := R) (F := F) sha256hex ParseOMMs).
Abbreviation hydrate := (hydrateFromCacheObject (R := R) (F := F) sha256hex ParseOMMs).
Abbreviation cache_name := (ommCacheConfigMapName sha256hex).

(** ** Names *)

(** Cache objects do not collide: the name of a resource's cache fits a
    Kubernetes name, and two resources get the same name only when the first
    128 bits of SHA-256 agree on their namespace, name and UID. *)
Theorem omm_cache_names_separate a b :
  (forall s, String.length (sha256hex s) = 64%nat) ->
  (String.length (cache_name a) <= maxConfigMapNameLen)%nat /\
  (cache_name a = cache_name b ->
   String.substring 0 32 (sha256hex (Namespace a +:+ "/" +:+ Name a +:+ "/" +:+ oUID a)) =
   String.substring 0 32 (sha256hex (Namespace b +:+ "/" +:+ Name b +:+ "/" +:+ oUID b))).
Proof.
  intros Hw. unfold ommCacheConfigMapName.
  assert (Hh : forall s, String.length (String.substring 0 32 (sha256hex s)) = 32%nat)
    by (intros s; rewrite length_substring, Hw; done).
  split.
  - rewrite !length_app_str, Hh.
    set (room := (maxConfigMapNameLen - String.length ommCacheConfigMapSuffix - 32 - 1)%nat).
    assert (Hr : room = 210%nat) by reflexivity. unfold maxConfigMapNameLen.
    destruct (Nat.ltb_spec room (String.length (Name a))).
    + pose proof (length_TrimRight (String.substring 0 room (Name a)) "-.") as H1.
      rewrite length_substring in H1. cbn [String.length ommCacheConfigMapSuffix]. lia.
    + cbn [String.length ommCacheConfigMapSuffix]. lia.
  - pose proof (Hh (Namespace a +:+ "/" +:+ Name a +:+ "/" +:+ oUID a)) as Ha.
    pose proof (Hh (Namespace b +:+ "/" +:+ Name b +:+ "/" +:+ oUID b)) as Hb. revert Ha Hb.
    generalize (String.substring 0 32 (sha256hex (Namespace a +:+ "/" +:+ Name a +:+ "/" +:+ oUID a))) as ha.
    generalize (String.substring 0 32 (sha256hex (Namespace b +:+ "/" +:+ Name b +:+ "/" +:+ oUID b))) as hb.
    intros hb ha Ha Hb H. rewrite !app_str_assoc in H. apply app_str_inv_tail in H.
    apply app_str_inj_tail in H as [_ H]; [done|congruence].
Qed.

(** ** Stamping *)

Lemma get_str_clear ann k v k' :
  get_str (setOrClearAnn ann k v) k' = if decide (k = k') then v else get_str ann k'.
Proof.
  unfold setOrClearAnn, get_str. destruct (str_eqb v "") eqn:E.
  - apply str_eqb_eq in E as ->. case_decide as D; [subst; by rewrite lookup_delete_eq|by rewrite lookup_delete_ne].
  - case_decide as D; [subst; by rewrite lookup_insert_eq|by rewrite lookup_insert_ne].
Qed.

Lemma get_str_other (m : gmap string string) k v k' :
  k <> k' -> get_str (<[k := v]> m) k' = get_str m k'.
Proof. intros. unfold get_str. by rewrite lookup_insert_ne. Qed.

Lemma stamp_annotations (cm : ConfigMap R) m fetchKey digest n data fetchedAt etag lm :
  let ann := cmAnnotations (stampOMMCache cm m fetchKey digest n data fetchedAt etag lm) in
  get_str ann ommCacheAnnDigest = digest /\ get_str ann ommCacheAnnUID = oUID m /\
  get_str ann ommCacheAnnFetchKey = fetchKey /\ get_str ann ommCacheAnnFetchedAt = format_rfc3339nano fetchedAt /\
  get_str ann ommCacheAnnETag = etag /\ get_str ann ommCacheAnnLastModified = lm.
Proof.
  cbv zeta. unfold stampOMMCache. cbn [cmAnnotations].
  split_and!; rewrite !get_str_clear; repeat (rewrite decide_False by done); rewrite ?decide_True by done;
    rewrite ?get_str_other by done; rewrite ?get_str_insert; done.
Qed.

(** What a copy of [l] fetched at [t] looks like. *)
Record is_copy (cm : ConfigMap R) (m : ObjectMeta) (fetchKey data : string) (t : Time) (etag lm : string) : Prop := {
  cp_label : get_str (cmLabels cm) ommCacheLabelKey = ommCacheLabelValue;
  cp_data : get_str (cmData cm) ommCacheDataKey = data;
  cp_digest : get_str (cmAnnotations cm) ommCacheAnnDigest = sha256hex data;
  cp_uid : get_str (cmAnnotations cm) ommCacheAnnUID = oUID m;
  cp_key : get_str (cmAnnotations cm) ommCacheAnnFetchKey = fetchKey;
  cp_time : get_str (cmAnnotations cm) ommCacheAnnFetchedAt = format_rfc3339nano t;
  cp_etag : get_str (cmAnnotations cm) ommCacheAnnETag = etag;
  cp_modified : get_str (cmAnnotations cm) ommCacheAnnLastModified = lm
}.

Lemma stamped_is_copy cm cm' m fetchKey n data t etag lm owners :
  same_content cm' (set_owners (stampOMMCache cm m fetchKey (sha256hex data) n data t etag lm) owners) ->
  is_copy cm' m fetchKey data t etag lm.
Proof.
  intros (_ & Hl & Ha & Hd). destruct (stamp_annotations cm m fetchKey (sha256hex data) n data t etag lm)
    as (H1 & H2 & H3 & H4 & H5 & H6).
  unfold set_owners in Hl, Ha, Hd. cbn [cmLabels cmAnnotations cmData] in Hl, Ha, Hd.
  constructor; rewrite ?Hl, ?Ha, ?Hd; try done; apply get_str_insert.
Qed.

(** Encoding element sets and parsing them back. *)
Definition codec_ok : Prop :=
  forall l d, marshal_omms l = Ok d -> d <> "" /\ ParseOMMs d = Ok l.

Lemma usable_kept l : Forall usable l -> filterValidOMMs l = l.
Proof.
  unfold filterValidOMMs. induction 1 as [|o l Ho _ IH]; [done|]. cbn.
  apply validOMM_usable in Ho. by rewrite Ho, IH.
Qed.

Lemma copy_accepted cm m fetchKey l data t etag lm :
  codec_ok -> marshal_omms l = Ok data -> l <> [] -> Forall usable l ->
  is_copy cm m fetchKey data t etag lm -> check_copy sha256hex ParseOMMs cm (oUID m) fetchKey = Ok l.
Proof.
  intros Hc Hm Hne Hu [H1 H2 H3 H4 H5 _ _ _]. destruct (Hc _ _ Hm) as [Hd Hp].
  unfold check_copy, ommDigest. rewrite H1, H2, H3, H4, H5, !str_eqb_refl, (proj2 (str_eqb_neq _ _) Hd). cbn.
  unfold ParseValidOMMs. rewrite Hp, usable_kept by done. by destruct l.
Qed.

(** A server that accepts every well-formed request. *)
Record accepting : Prop := {
  acc_get : forall s k, srv_get s k = match s !! k with Some cm => Found cm | None => NotFound end;
  acc_create : forall (s : Store R) k cm, s !! k = None -> exists s', srv_create s k cm = (Written, s');
  acc_update : forall (s : Store R) k cm old, s !! k = Some old -> cmUID old = cmUID cm ->
    cmVersion old = cmVersion cm -> exists s', srv_update s k cm = (Written, s');
  acc_owner : forall u, exists l : list R, SetControllerReference u [] = Some l
}.

Definition undisturbed (i : nat) (s : Store R) : Store R := s.

Lemma persist_stores w eph r fetchKey l data :
  accepting -> ommCachePayload r (ephSpec eph) = l -> l <> [] -> marshal_omms l = Ok data ->
  (Z.of_nat (String.length data) <= maxOMMCacheBytes)%Z ->
  let k := mkKey (Namespace (ephMeta eph)) (cache_name (ephMeta eph)) in
  (forall cm, owStore w !! k = Some cm -> get_str (cmAnnotations cm) ommCacheAnnDigest <> sha256hex data) ->
  exists cm, owStore (persist undisturbed w eph r fetchKey) !! k = Some cm /\
    is_copy cm (ephMeta eph) fetchKey data (FetchedAt r) (ETag r) (LastModified r).
Proof.
  intros Hacc Hl Hne Hm Hlen k Hnew. unfold persistOMMCache. rewrite Hl.
  destruct (Nat.eqb_spec (length l) 0) as [E|_]; [by apply length_zero_iff_nil in E|].
  rewrite Hm. destruct (Z.ltb_spec maxOMMCacheBytes (Z.of_nat (String.length data))); [lia|]. fold k.
  rewrite (acc_get Hacc). destruct (owStore w !! k) as [cm|] eqn:Ek.
  - unfold ommDigest. rewrite (proj2 (str_eqb_neq _ _) (Hnew cm eq_refl)). cbn [andb].
    set (cm1 := stampOMMCache cm _ _ _ _ _ _ _ _).
    assert (Hcm2 : exists o, match SetControllerReference (oUID (ephMeta eph)) (cmOwners cm1) with
        | Some owners => set_owners cm1 owners | None => cm1 end = set_owners cm1 o).
    { destruct (SetControllerReference _ _) as [o|]; [by exists o|by exists (cmOwners cm1)]. }
    destruct Hcm2 as [o ->].
    destruct (acc_update Hacc (owStore w) k (set_owners cm1 o) cm Ek eq_refl eq_refl) as [s' Hs].
    unfold undisturbed. rewrite Hs. apply update_written in Hs as (old & cm' & _ & _ & _ & Hc & _ & ->).
    cbn. exists cm'. rewrite lookup_insert_eq. split; [done|]. by eapply stamped_is_copy.
  - destruct (acc_owner Hacc (oUID (ephMeta eph))) as [o ->].
    set (cm1 := set_owners _ o). destruct (acc_create Hacc (owStore w) k cm1 Ek) as [s' Hs].
    unfold undisturbed. rewrite Hs. apply create_written in Hs as (_ & cm' & Hc & ->).
    cbn. exists cm'. rewrite lookup_insert_eq. split; [done|]. by eapply stamped_is_copy.
Qed.

(** C22. A restart does not forget the last good element sets: after a persist of
    a new payload, a process with an empty memory restores exactly the payload
    of the tracked satellites, under the resource's own identity and with the
    original time of the fetch to the nanosecond, so that window, backoff and
    freshness rules go on as if there had been no restart; and the CelesTrak
    fetcher gets its validators back. *)
Theorem restart_keeps_elements w eph r data sources series now :
  accepting -> codec_ok ->
  let l := ommCachePayload r (ephSpec eph) in
  let key := fetchInputKey IsPrint (ephSpec eph) in
  l <> [] -> Forall usable l -> marshal_omms l = Ok data ->
  (Z.of_nat (String.length data) <= maxOMMCacheBytes)%Z ->
  (0 <= FetchedAt r < 3652059 * (24 * Hour))%Z ->
  (forall cm, owStore w !! mkKey (Namespace (ephMeta eph)) (cache_name (ephMeta eph)) = Some cm ->
     get_str (cmAnnotations cm) ommCacheAnnDigest <> sha256hex data) ->
  let stored := owStore (persist undisturbed w eph r key) in
  exists w', restore undisturbed now (mkCacheWorld stored ∅ sources series) eph key = (true, w') /\
    matchingCache IsPrint w' eph =
      Some (fresh_entry (mkFetched l (Z.of_nat (length l)) (FetchedAt r) false "" "") key (oUID (ephMeta eph))) /\
    owSources w' = (if str_eqb (esType (Source (ephSpec eph))) "CelesTrak"
                    then src_seed sources (esURL (Source (ephSpec eph))) (ETag r) (LastModified r) else sources).
Proof.
  intros Hacc Hc l key Hne Hu Hm Hlen Ht Hnew stored.
  destruct (persist_stores w eph r key l data Hacc eq_refl Hne Hm Hlen Hnew) as (cm & Hcm & Hcopy).
  unfold restoreOMMCache, hydrateFromCacheObject. cbn [owCache owStore]. rewrite lookup_empty.
  rewrite (acc_get Hacc). fold stored in Hcm. rewrite Hcm.
  rewrite (copy_accepted _ _ _ _ _ _ _ _ Hc Hm Hne Hu Hcopy).
  destruct Hcopy as [_ _ _ _ _ H6 H7 H8]. rewrite H6, H7, H8, rfc3339nano_roundtrip by done.
  cbn [from_option id]. eexists. split; [reflexivity|].
  destruct (str_eqb (esType (Source (ephSpec eph))) "CelesTrak"), (IsZero (FetchedAt r));
    (split; [|done]); unfold matchingCache;
    cbn [owCache owStore with_series with_store with_sources put_entry count_restore set_restored_age];
    rewrite lookup_insert_eq; cbn [cfFetchKey cfUID fresh_entry]; unfold key; by rewrite !str_eqb_refl.
Qed.

(** A source edit can orphan the copy: when the new source delivers the very
    payload the stored copy has, the persist takes the copy as unchanged and
    leaves the old source's key on it, and the next cold start refuses it. *)
Theorem source_edit_orphans_copy w eph r data cm now other :
  accepting ->
  let l := ommCachePayload r (ephSpec eph) in
  let key := fetchInputKey IsPrint (ephSpec eph) in
  let k := mkKey (Namespace (ephMeta eph)) (cache_name (ephMeta eph)) in
  l <> [] -> marshal_omms l = Ok data -> data <> "" ->
  (Z.of_nat (String.length data) <= maxOMMCacheBytes)%Z ->
  owStore w !! k = Some cm -> get_str (cmAnnotations cm) ommCacheAnnDigest = sha256hex data ->
  get_str (cmData cm) ommCacheDataKey = data -> get_str (cmLabels cm) ommCacheLabelKey = ommCacheLabelValue ->
  get_str (cmAnnotations cm) ommCacheAnnFetchKey <> key ->
  let w1 := persist other w eph r key in
  w1 = w /\
  (hydrate other now (mkCacheWorld (owStore w1) ∅ (owSources w1) (owSeries w1)) eph key (cache_name (ephMeta eph)) false).1 = false.
Proof.
  intros Hacc l key k Hne Hm Hd Hlen Hcm Hdig Hdata Hlab Hkey. cbv zeta.
  assert (Hw : persist other w eph r key = w).
  { unfold persistOMMCache. fold l. destruct (Nat.eqb_spec (length l) 0) as [E|_]; [by apply length_zero_iff_nil in E|].
    rewrite Hm. destruct (Z.ltb_spec maxOMMCacheBytes (Z.of_nat (String.length data))); [lia|]. fold k.
    rewrite (acc_get Hacc), Hcm. unfold ommDigest. by rewrite Hdig, Hdata, str_eqb_refl, (proj2 (str_eqb_neq _ _) Hd). }
  split; [done|]. rewrite Hw. unfold hydrateFromCacheObject. cbn [owStore]. fold k. rewrite (acc_get Hacc), Hcm.
  unfold check_copy, ommDigest.
  rewrite Hlab, Hdata, Hdig, !str_eqb_refl, (proj2 (str_eqb_neq _ _) Hd). cbn [negb orb].
  rewrite (proj2 (str_eqb_neq _ _) Hkey), orb_true_r. done.
Qed.

End DurableProperties.
