(* ===== verification/EphemerisController.v ===== *)
(** * The SatelliteEphemeris controller

    Models [src/internal/controller/satelliteephemeris_controller.go]: where a
    reconcile gets its element sets from, the propagation to the push epoch, the
    pass-window sweep on its slower cadence, the two status writes and the
    events that follow them.

    The orbit computations are the class [OrbitModel], which promises what the
    controller relies on; the functions of [Propagator] and [PassPredictor] are
    its instance.  A reconcile is a function of the controller's world (memory,
    stored ConfigMaps, fetchers, series) and of the answers of its environment;
    the clock is read several times, so each reading is an answer of its own.
    Events go to a recorder that is always there. *)

From S2P Require Import Prelude GoStrings GoJson GoTime GoTimeParse GoFloat GoNet K8sMeta NetGuard CellApi StationApi PassPredictor OcuduConfig EphemerisApi OcuduProvider Propagator Fetchers EphemerisCache.
From Stdlib Require Import Ascii.
Local Open Scope string_scope.
Local Arguments String.append !_ _ /.

(** ** Constants *)

Definition minRefreshInterval : Duration := (2 * Hour)%Z.
Definition maxRefreshInterval : Duration := (24 * Hour)%Z.
Definition propagationEpochLead : Duration := (5 * Minute)%Z.
Definition maxPassHorizon : Duration := (7 * 24 * Hour)%Z.
Definition propagationRefreshInterval : Duration := (3 * Minute)%Z.
Definition passPredictionInterval : Duration := (15 * Minute)%Z.
Definition propagationFailedExamples : nat := 3.

Definition reasonCachedOMMs := "CachedOMMs".
Definition reasonFetchFailedServingCache := "FetchFailedServingCache".
Definition reasonSetupFailedServingCache := "FetcherSetupFailedServingCache".
Definition reasonPredictionFailed := "PredictionFailed".
Definition reasonGroundStationNotFound := "GroundStationNotFound".
Definition reasonInvalidGroundStationLocation := "InvalidGroundStationLocation".
Definition reasonInvalidPredictionConfig := "InvalidPredictionConfig".
Definition reasonPredictionComputationFailed := "PredictionComputationFailed".

Definition errSpaceTrackCredentialUnavailable := "Space-Track credentials unavailable or not authorized".

Definition effectivePassHorizon (raw : Duration) : result string (Duration * bool) :=
  if (raw =? 0)%Z then Ok ((24 * Hour)%Z, false)
  else if (raw <? 0)%Z then Err ("passPrediction.horizon must be positive, got " +:+ duration_string raw)
  else if (maxPassHorizon <? raw)%Z then Ok (maxPassHorizon, true)
  else Ok (raw, false).

(** ** Element-set epochs *)

(** The first layout that parses. *)
Definition parseOMMEpoch (s : string) : option Time :=
  match parse_datetime Frac6 false s with
  | Some t => Some t
  | None => match parse_datetime FracNone false s with
            | Some t => Some t
            | None => match parse_rfc3339nano s with
                      | Some t => Some t
                      | None => parse_rfc3339 s
                      end
            end
  end.

(** The choice of [canonicalizeOMMs] per NORAD number, with the epoch of the
    chosen set when it parses. *)
Definition canonical_step (best : gmap Z (OMM * option Time)) (o : OMM) : gmap Z (OMM * option Time) :=
  let t := parseOMMEpoch (EpochStr o) in
  let take := match best !! NoradCatID o with
              | None => true
              | Some (_, cur) =>
                  match t, cur with
                  | Some t, Some c => After t c
                  | Some _, None => true
                  | None, _ => false
                  end
              end in
  if take then <[NoradCatID o := (o, t)]> best else best.

(** [sort.Slice] by NORAD number; the numbers are distinct. *)
Fixpoint insert_omm (o : OMM) (l : list OMM) : list OMM :=
  match l with
  | [] => [o]
  | x :: l' => if (NoradCatID o <? NoradCatID x)%Z then o :: l else x :: insert_omm o l'
  end.

Definition canonicalizeOMMs (omms : list OMM) : list OMM :=
  foldr insert_omm [] (map (fun kv => kv.2.1) (map_to_list (fold_left canonical_step omms ∅))).

(** ** Insertion sort of names *)

Fixpoint insert_string (s : string) (l : list string) : list string :=
  match l with
  | [] => [s]
  | x :: l' => if str_lt x s then x :: insert_string s l' else s :: l
  end.

Definition sort_strings (l : list string) : list string := foldr insert_string [] l.

(** ** The orbit model *)

Class OrbitModel := {
  om_propagate : OMM -> Time -> result string EphemerisECEF;
  om_predict : list OMM -> list GroundStation -> float64 -> Duration -> list Z -> Time -> Time ->
    list nat -> option string -> result predict_error (list PassResult);
  om_in_range : forall o t e, om_propagate o t = Ok e -> in_3gpp_range e
}.

(** ** World and environment *)

(** Gauges by metric name, namespace and object name. *)
Abbreviation Gauges := (gmap (string * (string * string)) Z).

Definition GPSatelliteCount := "gp_satellite_count".
Definition GPDeepSpaceRejectedCount := "gp_deep_space_rejected_count".
Definition EphemerisEpochStaleCount := "ephemeris_epoch_stale_count".
Definition EphemerisPropagationFailedCount := "ephemeris_propagation_failed_count".
Definition GPFetchReady := "gp_fetch_ready".

Section Controller.
Context {R : Type} `{CR : ControllerRefs R} `{SRV : ConfigServer R} {F : Type} `{ES : ElementSources F}
  `{SC : StatusConditions} `{OM : OrbitModel}.

Variable sha256hex : string -> string.
Variable IsPrint : N -> bool.
Variable marshal_omms : list OMM -> result string string.
Variable ParseOMMs : string -> result string (list OMM).
Variable unicode_lower : string -> string.
Variable url_parse : string -> option URL.
Variable ip_string : IP -> string.
(** [errors.Is(err, context.Canceled) || errors.Is(err, context.DeadlineExceeded)]. *)
Variable is_context_error : string -> bool.

Abbreviation quote := (yamlQuote IsPrint).

Record EphWorld := mkEphWorld {
  ewCache : CacheWorld (R := R) (F := F);
  ewGauges : Gauges;
  ewRecorded : list (NamespacedName * deferredEvent)
}.

Record EphEnv := mkEphEnv {
  eeKey : NamespacedName;                       (* the request *)
  eeEph : GetResult SatelliteEphemeris;
  eeNow : Time;                                 (* r.now() at the start *)
  eeFetchTime : Time;                           (* the clock of the fetch *)
  eeAfterFetch : Time;                          (* r.now() after a failed fetch *)
  eePropagateNow : Time;                        (* r.now() at the propagation *)
  eeSweepDone : Time;                           (* r.now() after the sweep *)
  eeWall : Time;                                (* time.Now() *)
  eeSecret : NamespacedName -> GetResult Secret;
  eeLookup : string -> option (list IP);
  eeStations : NamespacedName -> GetResult GroundStationLifecycle;       (* for the signature *)
  eeSweepStations : NamespacedName -> GetResult GroundStationLifecycle;  (* for the sweep *)
  eeOther : nat -> Store R -> Store R;
  eeStatusUpdate : nat -> option string;        (* the error of the n-th status write *)
  eeOrder : list nat;                           (* the workers of the sweep *)
  eeContext : option string                     (* ctx.Err() after the sweep *)
}.

(** A reconcile in progress: the object in memory, the clamp Warning that waits
    for a write, and the statuses written so far. *)
Record Run := mkRun {
  rnWorld : EphWorld;
  rnEph : SatelliteEphemeris;
  rnClamp : option (string * string);
  rnWritten : list SatelliteEphemerisStatus
}.

Record EphOutcome := mkEphOutcome {
  eoWorld : EphWorld;
  eoWritten : list SatelliteEphemerisStatus;
  eoResult : result string (option Duration)
}.

Definition finish (s : Run) (r : result string (option Duration)) : EphOutcome :=
  mkEphOutcome (rnWorld s) (rnWritten s) r.

(** ** Updates *)

Definition with_status (eph : SatelliteEphemeris) (st : SatelliteEphemerisStatus) : SatelliteEphemeris :=
  mkEph (ephMeta eph) (ephSpec eph) st.

Definition with_conditions (st : SatelliteEphemerisStatus) (l : list Condition) : SatelliteEphemerisStatus :=
  mkEphStatus (PropagatedStatesInputHash st) (LastUpdated st) (LastPassPredictionTime st)
    (LastPassPredictionInputHash st) (SatelliteCount st) (TruncatedSatelliteCount st) (NextPassWindows st)
    (PropagatedStates st) l.

Definition with_fetched (st : SatelliteEphemerisStatus) (count : Z) (t : Time) : SatelliteEphemerisStatus :=
  mkEphStatus (PropagatedStatesInputHash st) (Some t) (LastPassPredictionTime st)
    (LastPassPredictionInputHash st) count (TruncatedSatelliteCount st) (NextPassWindows st)
    (PropagatedStates st) (esConditions st).

Definition with_states (st : SatelliteEphemerisStatus) (l : list PropagatedState) : SatelliteEphemerisStatus :=
  mkEphStatus (PropagatedStatesInputHash st) (LastUpdated st) (LastPassPredictionTime st)
    (LastPassPredictionInputHash st) (SatelliteCount st) (TruncatedSatelliteCount st) (NextPassWindows st)
    l (esConditions st).

Definition with_truncated (st : SatelliteEphemerisStatus) (n : Z) : SatelliteEphemerisStatus :=
  mkEphStatus (PropagatedStatesInputHash st) (LastUpdated st) (LastPassPredictionTime st)
    (LastPassPredictionInputHash st) (SatelliteCount st) n (NextPassWindows st)
    (PropagatedStates st) (esConditions st).

Definition with_input_hash (st : SatelliteEphemerisStatus) (h : string) : SatelliteEphemerisStatus :=
  mkEphStatus h (LastUpdated st) (LastPassPredictionTime st)
    (LastPassPredictionInputHash st) (SatelliteCount st) (TruncatedSatelliteCount st) (NextPassWindows st)
    (PropagatedStates st) (esConditions st).

Definition with_windows (st : SatelliteEphemerisStatus) (l : list PassWindow) : SatelliteEphemerisStatus :=
  mkEphStatus (PropagatedStatesInputHash st) (LastUpdated st) (LastPassPredictionTime st)
    (LastPassPredictionInputHash st) (SatelliteCount st) (TruncatedSatelliteCount st) l
    (PropagatedStates st) (esConditions st).

Definition with_sweep (st : SatelliteEphemerisStatus) (t : option Time) (h : string) : SatelliteEphemerisStatus :=
  mkEphStatus (PropagatedStatesInputHash st) (LastUpdated st) t h (SatelliteCount st)
    (TruncatedSatelliteCount st) (NextPassWindows st) (PropagatedStates st) (esConditions st).

Definition conditions (eph : SatelliteEphemeris) : list Condition := esConditions (ephStatus eph).

(** [meta.SetStatusCondition] with the generation of the object. *)
Definition set_condition (eph : SatelliteEphemeris) (ty : string) (status : ConditionStatus) (reason msg : string)
  : SatelliteEphemeris :=
  with_status eph (with_conditions (ephStatus eph)
    (SetStatusCondition (conditions eph) (mkCond ty status reason msg (Generation (ephMeta eph))))).

Definition remove_condition (eph : SatelliteEphemeris) (ty : string) : SatelliteEphemeris :=
  with_status eph (with_conditions (ephStatus eph) (RemoveStatusCondition (conditions eph) ty)).

(** Whether [SetStatusCondition] reports a change. *)
Definition condition_changes (eph : SatelliteEphemeris) (ty : string) (status : ConditionStatus) (reason msg : string)
  : bool :=
  negb (bool_decide (FindStatusCondition (conditions eph) ty =
                     Some (mkCond ty status reason msg (Generation (ephMeta eph))))).

Definition episode (eph : SatelliteEphemeris) (ty : string) (status : ConditionStatus) (reason : string) : bool :=
  conditionEpisodeChanged (FindStatusCondition (conditions eph) ty) status reason (Generation (ephMeta eph)).

Definition with_cache (w : EphWorld) (c : CacheWorld (R := R) (F := F)) : EphWorld :=
  mkEphWorld c (ewGauges w) (ewRecorded w).

Definition set_gauge (w : EphWorld) (metric : string) (m : ObjectMeta) (v : Z) : EphWorld :=
  mkEphWorld (ewCache w) (<[(metric, (Namespace m, Name m)) := v]> (ewGauges w)) (ewRecorded w).

Definition record_events (w : EphWorld) (m : ObjectMeta) (l : list deferredEvent) : EphWorld :=
  mkEphWorld (ewCache w) (ewGauges w) (ewRecorded w ++ map (pair (ObjectKeyFromObject m)) l)%list.

Definition map_world (f : EphWorld -> EphWorld) (s : Run) : Run :=
  mkRun (f (rnWorld s)) (rnEph s) (rnClamp s) (rnWritten s).
Definition map_eph (f : SatelliteEphemeris -> SatelliteEphemeris) (s : Run) : Run :=
  mkRun (rnWorld s) (f (rnEph s)) (rnClamp s) (rnWritten s).
Definition map_status (f : SatelliteEphemerisStatus -> SatelliteEphemerisStatus) (s : Run) : Run :=
  map_eph (fun e => with_status e (f (ephStatus e))) s.
Definition run_gauge (metric : string) (v : Z) (s : Run) : Run :=
  map_world (fun w => set_gauge w metric (ephMeta (rnEph s)) v) s.
Definition run_events (l : list deferredEvent) (s : Run) : Run :=
  map_world (fun w => record_events w (ephMeta (rnEph s)) l) s.

(** ** The refresh interval *)

Definition clampRefreshInterval (eph : SatelliteEphemeris)
  : Duration * option (string * string) * SatelliteEphemeris :=
  let configured := esRefreshInterval (Source (ephSpec eph)) in
  let clamp :=
    if (configured <? minRefreshInterval)%Z then
      Some (minRefreshInterval, "BelowMinimum",
            "refreshInterval " +:+ duration_string configured +:+ " is below minimum 2h; using 2h")
    else if (maxRefreshInterval <? configured)%Z then
      Some (maxRefreshInterval, "AboveMaximum",
            "refreshInterval " +:+ duration_string configured +:+
            " exceeds maximum 24h; using 24h to keep the element set fresh")
    else None in
  match clamp with
  | None =>
      (configured, None,
       set_condition eph ConditionRefreshIntervalClamped ConditionFalse "WithinBounds"
         "Configured refreshInterval is within the supported range [2h, 24h]")
  | Some (effective, reason, msg) =>
      let clampEpisode := episode eph ConditionRefreshIntervalClamped ConditionTrue reason in
      (effective, if clampEpisode then Some (reason, msg) else None,
       set_condition eph ConditionRefreshIntervalClamped ConditionTrue reason msg)
  end.

Definition persistEphStatus (env : EphEnv) (s : Run) : result string Run :=
  match eeStatusUpdate env (length (rnWritten s)) with
  | Some e => Err e
  | None =>
      let s := mkRun (rnWorld s) (rnEph s) (rnClamp s) (rnWritten s ++ [ephStatus (rnEph s)])%list in
      Ok match rnClamp s with
         | Some (reason, msg) =>
             let s := run_events [mkEvent EventTypeWarning "RefreshIntervalClamped" msg] s in
             mkRun (rnWorld s) (rnEph s) None (rnWritten s)
         | None => s
         end
  end.

(** Persist and return, with the events that follow a durable status. *)
Definition persist_and_return (env : EphEnv) (s : Run) (events : list deferredEvent)
  (r : result string (option Duration)) : Run * result string (option Duration) :=
  match persistEphStatus env s with
  | Err e => (s, Err e)
  | Ok s => (run_events events s, r)
  end.

Definition invalidatePassPredictionStatus (eph : SatelliteEphemeris) : SatelliteEphemeris :=
  remove_condition (with_status eph (with_sweep (with_windows (ephStatus eph) []) None ""))
    ConditionPassesPredicted.

(** ** Sources *)

Inductive fetcher_choice := UseCelesTrak | UseSpaceTrack (username password : string).

Definition fetcherForSource (env : EphEnv) (eph : SatelliteEphemeris) : result string fetcher_choice :=
  let src := Source (ephSpec eph) in
  if str_eqb (esType src) "CelesTrak" then
    if celestrak_configured then Ok UseCelesTrak else Err "CelesTrak fetcher is not configured"
  else if str_eqb (esType src) "SpaceTrack" then
    if negb spacetrack_configured then Err "SpaceTrack fetcher is not configured"
    else match esCredentials src with
         | None => Err "SpaceTrack requires credentials; set spec.source.credentials"
         | Some creds =>
             match eeSecret env (mkKey (Namespace (ephMeta eph)) (srName creds)) with
             | Found secret =>
                 let key := if str_eqb (srKey creds) "" then "password" else srKey creds in
                 match secData secret !! key, secData secret !! "username" with
                 | Some password, Some username => Ok (UseSpaceTrack username password)
                 | _, _ => Err errSpaceTrackCredentialUnavailable
                 end
             | _ => Err errSpaceTrackCredentialUnavailable
             end
         end
  else Err ("unsupported source type " +:+ quote (esType src)).

(** The first public address behind a cleartext URL. *)
Definition publicHTTPSource (env : EphEnv) (raw : string) : option IP :=
  match url_parse raw with
  | None => None
  | Some u =>
      if negb (str_eqb (ToLower unicode_lower (Scheme u)) "http") then None
      else match eeLookup env (Hostname u) with
           | None => None
           | Some ips => List.find (fun ip => negb (IsPrivateIP ip)) ips
           end
  end.

Definition handleInsecureURL (env : EphEnv) (s : Run) (ip : IP) : Run * result string (option Duration) :=
  let msg := "cleartext http source resolves to public IP " +:+ ip_string ip +:+
             "; use https to prevent forged OMM injection into SIB19" in
  let insecureEpisode := episode (rnEph s) ConditionGPDataFetched ConditionFalse "InsecureURL" in
  let s := map_eph (fun e => invalidatePassPredictionStatus
                     (set_condition e ConditionGPDataFetched ConditionFalse "InsecureURL" msg)) s in
  persist_and_return env s (if insecureEpisode then [mkEvent EventTypeWarning "InsecureURL" msg] else [])
    (Ok (Some Minute)).

Definition classifyFetchError (e : fetch_error) (effectiveInterval : Duration) : string * Duration * bool :=
  match feClass e with
  | RateLimited _ _ => ("RateLimited", Z.max effectiveInterval (retryAfterFrom e), false)
  | AuthFailed => ("AuthFailed", effectiveInterval, false)
  | InvalidSourceURL => ("InvalidSourceURL", effectiveInterval, false)
  | _ => ("FetchFailed", 0%Z, true)
  end.

Definition handleFetchError (env : EphEnv) (s : Run) (e : fetch_error) (effectiveInterval : Duration)
  : Run * result string (option Duration) :=
  let '(reason, requeueAfter, returnAsError) := classifyFetchError e effectiveInterval in
  let fetchEpisode := episode (rnEph s) ConditionGPDataFetched ConditionFalse reason in
  let s := map_eph (fun eph =>
             let eph := set_condition eph ConditionGPDataFetched ConditionFalse reason (feText e) in
             let eph := set_condition eph ConditionGPDataParsed ConditionFalse reason
                          "No data to parse due to fetch failure" in
             invalidatePassPredictionStatus eph) s in
  persist_and_return env s (if fetchEpisode then [mkEvent EventTypeWarning reason (feText e)] else [])
    (if returnAsError then Err (feText e) else Ok (Some requeueAfter)).

Definition handleSetupFailure (env : EphEnv) (s : Run) (e : string) : Run * result string (option Duration) :=
  let s := map_eph (fun eph => set_condition eph ConditionGPDataFetched ConditionFalse "FetcherSetupFailed" e) s in
  let s := run_gauge GPFetchReady 0 s in
  let s := map_eph invalidatePassPredictionStatus s in
  persist_and_return env s [] (Ok (Some Minute)).

(** ** Acquiring element sets *)

Record ommFetchOutcome := mkOutcome {
  foResult : GPFetchResult;
  reusedCache : bool;
  (* the error and the reason, when the cache is served in spite of it *)
  servedCacheOnError : option (string * string)
}.

Inductive acquired := Acquired (o : ommFetchOutcome) | Early (r : result string (option Duration)).

Definition early (x : Run * result string (option Duration)) : Run * acquired := (x.1, Early x.2).

Definition fetch_from (env : EphEnv) (c : CacheWorld (R := R) (F := F)) (f : fetcher_choice) (url : string)
  : result fetch_error GPFetchResult * CacheWorld (R := R) (F := F) :=
  let '(r, sources) := match f with
                       | UseCelesTrak => src_celestrak (owSources c) (eeFetchTime env) url
                       | UseSpaceTrack u p => src_spacetrack (owSources c) (eeFetchTime env) u p url
                       end in
  (r, with_sources c sources).

Definition with_entry (s : Run) (c : cachedFetch) : Run :=
  map_world (fun w => with_cache w (put_entry (ewCache w) (ObjectKeyFromObject (ephMeta (rnEph s))) c)) s.

(** A 304 without a body that confirms the restored elements. *)
Definition confirmed_entry (c : cachedFetch) (r : GPFetchResult) : cachedFetch :=
  let old := cfResult c in
  mkCached (mkFetched (OMMs old) (fSatelliteCount old) (FetchedAt r) true (ETag old) (LastModified old))
    (cfFetchKey c) (cfUID c) zero_time None 0 (retryKey c).

Definition obtainOMMs (env : EphEnv) (s : Run) (f : fetcher_choice) (effectiveInterval : Duration)
  : Run * acquired :=
  let eph := rnEph s in
  let url := esURL (Source (ephSpec eph)) in
  let fetchKey := fetchInputKey IsPrint (ephSpec eph) in
  match publicHTTPSource env url with
  | Some ip => early (handleInsecureURL env s ip)
  | None =>
      let '(r, c) := fetch_from env (ewCache (rnWorld s)) f url in
      let s := map_world (fun w => with_cache w c) s in
      match r with
      | Err e =>
          match matchingCache IsPrint c eph with
          | Some entry =>
              let entry := applyFetchBackoff entry e (retryInputKey IsPrint (ephSpec eph) effectiveInterval)
                             effectiveInterval (eeAfterFetch env) in
              (with_entry s entry,
               Acquired (mkOutcome (cfResult entry) false (Some (feText e, reasonFetchFailedServingCache))))
          | None => early (handleFetchError env s e effectiveInterval)
          end
      | Ok result =>
          let fresh :=
            let s := with_entry s (fresh_entry result fetchKey (oUID (ephMeta eph))) in
            (map_world (fun w => with_cache w (persistOMMCache sha256hex marshal_omms (eeOther env) (ewCache w) eph result fetchKey)) s,
             Acquired (mkOutcome result false None)) in
          if NotModified result && (length (OMMs result) =? 0)%nat then
            match matchingCache IsPrint c eph with
            | Some entry =>
                if (length (OMMs (cfResult entry)) =? 0)%nat then fresh
                else let entry := confirmed_entry entry result in
                     (with_entry s entry, Acquired (mkOutcome (cfResult entry) false None))
            | None => fresh
            end
          else fresh
      end
  end.

Definition acquireOMMs (env : EphEnv) (s : Run) (effectiveInterval : Duration) : Run * acquired :=
  let eph := rnEph s in
  let s := map_world (fun w => with_cache w (restoreOMMCache sha256hex ParseOMMs (eeOther env) (eeWall env)
                                              (ewCache w) eph (fetchInputKey IsPrint (ephSpec eph))).2) s in
  match cacheServe IsPrint (ewCache (rnWorld s)) eph (eeNow env) effectiveInterval with
  | cacheServeWindow c => (s, Acquired (mkOutcome (cfResult c) true None))
  | cacheServeBackoff c =>
      (s, Acquired (mkOutcome (cfResult c) false
            (Some (match lastFetchErr c with Some e => feText e | None => "" end, reasonFetchFailedServingCache))))
  | cacheServeNone =>
      match fetcherForSource env eph with
      | Ok f => obtainOMMs env s f effectiveInterval
      | Err e =>
          match matchingCache IsPrint (ewCache (rnWorld s)) eph with
          | Some c => (s, Acquired (mkOutcome (cfResult c) false (Some (e, reasonSetupFailedServingCache))))
          | None => early (handleSetupFailure env s e)
          end
      end
  end.

(** ** Reports *)

Definition count (p : OMM -> bool) (l : list OMM) : nat := length (List.filter p l).

Inductive epoch_health := EpochUnparseable | EpochFuture | EpochTooOld | EpochHealthy.

#[export] Instance epoch_health_eq_dec : EqDecision epoch_health.
Proof. solve_decision. Defined.

(** The branch of the counting pass of [propagateStates] an element set takes. *)
Definition epoch_health_of (now : Time) (o : OMM) : epoch_health :=
  match parseOMMEpoch (EpochStr o) with
  | None => EpochUnparseable
  | Some t => match sourceEpochPlausible now t with
              | Some _ => EpochFuture
              | None => if (maxEpochAge <? Sub now t)%Z then EpochTooOld else EpochHealthy
              end
  end.

Definition fmt_n (n : nat) : string := fmt_d (Z.of_nat n).

Definition reportStatesTruncated (eph : SatelliteEphemeris) (selected truncated : nat)
  : string * SatelliteEphemeris :=
  let eph := with_status eph (with_truncated (ephStatus eph) (Z.of_nat truncated)) in
  if (truncated =? 0)%nat then
    ("", set_condition eph ConditionStatesTruncated ConditionFalse "WithinCap"
           "All selected satellites fit within the propagated-state cap")
  else
    let firstTransition := negb (IsStatusConditionTrue (conditions eph) ConditionStatesTruncated) in
    let msg := "selected " +:+ fmt_n selected +:+ " satellites but the propagated-state cap is " +:+
               fmt_n maxPropagatedStates +:+ "; " +:+ fmt_n truncated +:+
               " omitted from runtime-push status — narrow spec.satellites.noradIDs or the source URL GROUP=" in
    (if firstTransition then msg else "",
     set_condition eph ConditionStatesTruncated ConditionTrue "PropagatedStateCapExceeded" msg).

Definition reportEphemerisEpochStale (stale total : nat) (s : Run) : Run :=
  let s := map_eph (fun eph =>
    if (0 <? stale)%nat then
      set_condition eph ConditionEphemerisEpochStale ConditionTrue "EpochStale"
        (fmt_n stale +:+ " of " +:+ fmt_n total +:+ " tracked element set(s) have an epoch older than " +:+
         duration_string maxEpochAge +:+ "; the pushed ECEF is derived from stale elements and is drifting")
    else set_condition eph ConditionEphemerisEpochStale ConditionFalse "EpochsFresh"
           "All propagated element sets are within the freshness bound") s in
  run_gauge EphemerisEpochStaleCount (Z.of_nat stale) s.

Definition reportSourceEpochRejected (unparseable futureDated total : nat) (eph : SatelliteEphemeris)
  : SatelliteEphemeris :=
  let rejected reason msg :=
    set_condition eph ConditionSourceEpochRejected ConditionTrue reason
      (msg +:+ " They produce no propagated state, so a cell selecting one reports EphemerisPayloadMissing. Check the GP source for corrupt data.") in
  let of_total n := fmt_n n +:+ " of " +:+ fmt_n total +:+ " tracked element set(s) refused before propagation: " in
  if (0 <? unparseable)%nat && (0 <? futureDated)%nat then
    rejected "SourceEpochRejected"
      (of_total (unparseable + futureDated) +:+ fmt_n unparseable +:+ " with an unparseable OMM EPOCH, " +:+
       fmt_n futureDated +:+ " dated more than " +:+ duration_string maxSourceEpochFutureSkew +:+ " in the future.")
  else if (0 <? unparseable)%nat then
    rejected "UnparseableSourceEpoch" (of_total unparseable +:+ "the OMM EPOCH could not be parsed.")
  else if (0 <? futureDated)%nat then
    rejected "FutureDatedSourceEpoch"
      (of_total futureDated +:+ "the OMM EPOCH is more than " +:+ duration_string maxSourceEpochFutureSkew +:+
       " in the future (SGP4 would be driven backward from a bogus epoch).")
  else set_condition eph ConditionSourceEpochRejected ConditionFalse "SourceEpochsPlausible"
         "Every tracked element set has a parseable, plausibly-dated epoch".

Definition reportPropagationFailed (failed total : nat) (exampleNorads : list Z) (s : Run) : Run :=
  let s := map_eph (fun eph =>
    if (0 <? failed)%nat then
      set_condition eph ConditionPropagationFailed ConditionTrue "PropagationFailed"
        (fmt_n failed +:+ " of " +:+ fmt_n total +:+
         " tracked element set(s) failed SGP4 propagation to ECEF (conversion, propagation, or ECEF range) and were dropped from propagatedStates" +:+
         if (0 <? length exampleNorads)%nat then
           "; e.g. NORAD " +:+ Join (map fmt_d exampleNorads) ", " +:+
           (if (length exampleNorads <? failed)%nat then ", ..." else "")
         else "")
    else set_condition eph ConditionPropagationFailed ConditionFalse "PropagationOK"
           "All tracked element sets propagated to ECEF successfully") s in
  run_gauge EphemerisPropagationFailedCount (Z.of_nat failed) s.

Definition reportOrbitRegime (eph : SatelliteEphemeris) (rejectedCount : nat) (summary : string)
  : string * SatelliteEphemeris :=
  if (rejectedCount =? 0)%nat then
    ("", set_condition eph ConditionUnsupportedOrbitRegime ConditionFalse "AllNearEarth"
           "No deep-space element sets among the tracked satellites")
  else
    let firstTransition := negb (IsStatusConditionTrue (conditions eph) ConditionUnsupportedOrbitRegime) in
    (if firstTransition then summary else "",
     set_condition eph ConditionUnsupportedOrbitRegime ConditionTrue "DeepSpaceElementsRejected" summary).

(** ** Propagation *)

Record Propagation := mkPropagation {
  prStates : list PropagatedState;
  skippedByCap : nat;
  propagationFailures : nat;
  failedNorads : list Z
}.

Definition state_of (o : OMM) (epoch src : Time) (e : EphemerisECEF) : PropagatedState :=
  mkPropagated (BoundedSatelliteLabel (ObjectName o)) (NoradCatID o) (to_unix_milli epoch) (to_unix_milli src) e.

Fixpoint propagate_loop (now epoch : Time) (omms : list OMM) (p : Propagation) : Propagation :=
  match omms with
  | [] => p
  | o :: rest =>
      if (maxPropagatedStates <=? length (prStates p))%nat then
        mkPropagation (prStates p) (length omms) (propagationFailures p) (failedNorads p)
      else
        match parseOMMEpoch (EpochStr o) with
        | None => propagate_loop now epoch rest p
        | Some t =>
            match sourceEpochPlausible now t with
            | Some _ => propagate_loop now epoch rest p
            | None =>
                match om_propagate o epoch with
                | Err _ =>
                    propagate_loop now epoch rest
                      (mkPropagation (prStates p) (skippedByCap p) (S (propagationFailures p))
                        (if (length (failedNorads p) <? propagationFailedExamples)%nat
                         then failedNorads p ++ [NoradCatID o] else failedNorads p)%list)
                | Ok e =>
                    propagate_loop now epoch rest
                      (mkPropagation (prStates p ++ [state_of o epoch t e])%list (skippedByCap p)
                        (propagationFailures p) (failedNorads p))
                end
            end
        end
  end.

Definition propagateStates (epoch : Time) (omms : list OMM) (s : Run) : string * Run :=
  let tracked := canonicalizeOMMs (FilterOMMs omms (selected_norads (ephSpec (rnEph s)))) in
  let now := Add epoch (- propagationEpochLead) in
  let health h := count (fun o => bool_decide (epoch_health_of now o = h)) tracked in
  let p := propagate_loop now epoch tracked (mkPropagation [] 0 0 []) in
  let s := map_status (fun st => with_states st (prStates p)) s in
  let '(truncEvent, eph) := reportStatesTruncated (rnEph s) (length tracked) (skippedByCap p) in
  let s := map_eph (fun _ => eph) s in
  let s := reportEphemerisEpochStale (health EpochTooOld) (length tracked) s in
  let s := map_eph (reportSourceEpochRejected (health EpochUnparseable) (health EpochFuture) (length tracked)) s in
  (truncEvent, reportPropagationFailed (propagationFailures p) (length tracked) (failedNorads p) s).

(** ** The pass sweep *)

Definition passPredictionConfigured (spec : SatelliteEphemerisSpec) : bool :=
  match PassPrediction spec with
  | Some pp => negb (length (ppGroundStations pp) =? 0)%nat
  | None => false
  end.

Definition passSweepDue (eph : SatelliteEphemeris) (now : Time) (currentInputHash : string) : bool :=
  if negb (str_eqb currentInputHash (LastPassPredictionInputHash (ephStatus eph))) then true
  else match LastPassPredictionTime (ephStatus eph) with
       | None => true
       | Some last => if After last now then true
                      else negb (Before now (Add last passPredictionInterval))
       end.

Definition fmt_t (b : bool) : string := if b then "true" else "false".

(** The line of one station in the signature. *)
Definition station_line (env : EphEnv) (namespace name : string) : string :=
  match eeStations env (mkKey namespace name) with
  | Found gs =>
      "gs=" +:+ quote name +:+ ":uid=" +:+ oUID (gsMeta gs) +:+ ":gen=" +:+ fmt_d (Generation (gsMeta gs)) +:+
      ":terminating=" +:+ fmt_t (deletion_set (gsMeta gs)) +:+ str1 newline
  | _ => "gs=" +:+ quote name +:+ ":absent" +:+ str1 newline
  end.

(** What [passPredictionInputSignature] writes to the digest. *)
Definition pass_inputs (env : EphEnv) (eph : SatelliteEphemeris) (pp : PassPredictionSpec) : string :=
  "minElev=" +:+ quote (ppMinElevation pp) +:+ str1 newline +:+
  "horizon=" +:+ fmt_d (ppHorizon pp) +:+ str1 newline +:+
  "norad=" +:+ fmt_ints (compact (sort_ints (selected_norads (ephSpec eph)))) +:+ str1 newline +:+
  "srcType=" +:+ quote (esType (Source (ephSpec eph))) +:+ str1 newline +:+
  "srcURL=" +:+ quote (esURL (Source (ephSpec eph))) +:+ str1 newline +:+
  String.concat "" (map (station_line env (Namespace (ephMeta eph))) (sort_strings (ppGroundStations pp))).

Definition passPredictionInputSignature (env : EphEnv) (eph : SatelliteEphemeris) (pp : PassPredictionSpec) : string :=
  sha256hex (pass_inputs env eph pp).

Definition passSweepDecision (env : EphEnv) (eph : SatelliteEphemeris) (now : Time) : string * bool :=
  match PassPrediction (ephSpec eph) with
  | Some pp =>
      if passPredictionConfigured (ephSpec eph) then
        let inputSig := passPredictionInputSignature env eph pp in
        (inputSig, passSweepDue eph now inputSig)
      else ("", false)
  | None => ("", false)
  end.

(** A [predictionError], with whether it wraps an error of the context. *)
Record predictionError := mkPredictionError {
  peReason : string;
  peText : string;
  peContext : bool
}.

Definition num_error_text (s : string) (e : NumError) : string :=
  "strconv.ParseFloat: parsing " +:+ quote s +:+ ": " +:+
  match e with ErrSyntax => "invalid syntax" | ErrRange => "value out of range" end.

Definition geo_error (what name coord : string) (e : NumError) : predictionError :=
  mkPredictionError reasonInvalidGroundStationLocation
    ("invalid " +:+ what +:+ " for " +:+ quote name +:+ ": " +:+ num_error_text coord e) false.

(** One round of the loop over the stations; a station under deletion is left out. *)
Definition resolve_station (get : NamespacedName -> GetResult GroundStationLifecycle) (namespace name : string) : result predictionError (option GroundStation) :=
  match get (mkKey namespace name) with
  | NotFound =>
      Err (mkPredictionError reasonGroundStationNotFound ("ground station " +:+ quote name +:+ " not found") false)
  | GetError e =>
      Err (mkPredictionError reasonPredictionFailed ("getting ground station " +:+ quote name +:+ ": " +:+ e)
             (is_context_error e))
  | Found gs =>
      if deletion_set (gsMeta gs) then Ok None
      else
        let loc := station_location gs in
        match ParseGeoCoord (Lat loc) with
        | Err e => Err (geo_error "latitude" name (Lat loc) e)
        | Ok lat =>
            match ParseGeoCoord (Lon loc) with
            | Err e => Err (geo_error "longitude" name (Lon loc) e)
            | Ok lon =>
                match (if str_eqb (Alt loc) "" then Ok f_zero else ParseGeoCoord (Alt loc)) with
                | Err e => Err (geo_error "altitude" name (Alt loc) e)
                | Ok alt => Ok (Some (mkStation name lat lon alt))
                end
            end
        end
  end.

Fixpoint resolve_stations (get : NamespacedName -> GetResult GroundStationLifecycle) (namespace : string) (names : list string)
  : result predictionError (list GroundStation) :=
  match names with
  | [] => Ok []
  | name :: rest =>
      match resolve_station get namespace name with
      | Err e => Err e
      | Ok st => match resolve_stations get namespace rest with
                 | Err e => Err e
                 | Ok l => Ok match st with Some s => s :: l | None => l end
                 end
      end
  end.

Definition elevation_error_text (s : string) (e : elevation_error) : string :=
  match e with
  | InvalidElevation e => "invalid elevation " +:+ quote s +:+ ": " +:+ num_error_text s e
  | ElevationOutOfRange => "elevation " +:+ quote s +:+ " must be a finite value in [0,90]"
  end.

Definition predict_error_text (minEl : float64) (e : predict_error) : string :=
  match e with
  | BadMask => "minElevation must be a finite value in [0,90], got " +:+ fmt_g minEl
  | Cancelled e | ItemFailed e => e
  end.

(** [ctx.Err()] is [context.Canceled] or [context.DeadlineExceeded]. *)
Definition cancelled (e : predict_error) : bool := match e with Cancelled _ => true | _ => false end.

Definition pass_window (p : PassResult) : PassWindow :=
  mkPassWindow (pSatellite p) (pNoradID p) (pGroundStation p) (pAOS p) (pLOS p) (fmt_fixed 1 (pMaxElevation p)).

Definition predictPasses (env : EphEnv) (eph : SatelliteEphemeris) (pp : PassPredictionSpec) (omms : list OMM)
  (now : Time) : result predictionError (string * SatelliteEphemeris) :=
  match resolve_stations (eeSweepStations env) (Namespace (ephMeta eph)) (ppGroundStations pp) with
  | Err e => Err e
  | Ok stations =>
      match ParseElevation (ppMinElevation pp) with
      | Err e => Err (mkPredictionError reasonInvalidPredictionConfig
                        ("invalid minElevation: " +:+ elevation_error_text (ppMinElevation pp) e) false)
      | Ok minEl =>
          match effectivePassHorizon (ppHorizon pp) with
          | Err e => Err (mkPredictionError reasonInvalidPredictionConfig e false)
          | Ok (horizon, clamped) =>
              match om_predict omms stations minEl horizon (selected_norads (ephSpec eph)) now (eeWall env)
                      (eeOrder env) (eeContext env) with
              | Err e => Err (mkPredictionError reasonPredictionComputationFailed
                                ("computing passes: " +:+ predict_error_text minEl e) (cancelled e))
              | Ok passes =>
                  let windows := map pass_window passes in
                  let eph := with_status eph (with_windows (ephStatus eph) windows) in
                  let msg := "Computed " +:+ fmt_n (length windows) +:+ " passes over " +:+
                             fmt_n (length stations) +:+ " ground stations" +:+
                             if clamped then "; passPrediction.horizon clamped to " +:+ duration_string maxPassHorizon
                             else "" in
                  Ok (if condition_changes eph ConditionPassesPredicted ConditionTrue "PredictionSucceeded" msg
                      then msg else "",
                      set_condition eph ConditionPassesPredicted ConditionTrue "PredictionSucceeded" msg)
              end
          end
      end
  end.

(** The notes of the events that follow the second write, or the error of the
    context. *)
Definition handlePassPrediction (env : EphEnv) (eph : SatelliteEphemeris) (omms : list OMM) (now : Time)
  : result string (string * string) * SatelliteEphemeris :=
  match PassPrediction (ephSpec eph) with
  | Some pp =>
      if passPredictionConfigured (ephSpec eph) then
        match predictPasses env eph pp omms now with
        | Ok (note, eph) => (Ok (note, ""), eph)
        | Err e =>
            if peContext e then (Err (peText e), eph)
            else
              let eph := with_status eph (with_windows (ephStatus eph) []) in
              let failEpisode := episode eph ConditionPassesPredicted ConditionFalse (peReason e) in
              (Ok ("", if failEpisode then peText e else ""),
               set_condition eph ConditionPassesPredicted ConditionFalse (peReason e) (peText e))
        end
      else (Ok ("", ""), remove_condition (with_status eph (with_windows (ephStatus eph) [])) ConditionPassesPredicted)
  | None => (Ok ("", ""), remove_condition (with_status eph (with_windows (ephStatus eph) [])) ConditionPassesPredicted)
  end.

Definition note_event (ty : EventType) (reason note : string) : list deferredEvent :=
  if str_eqb note "" then [] else [mkEvent ty reason note].

(** ** Reconcile *)

(** The two conditions of the fetch. *)
Definition fetch_conditions (o : ommFetchOutcome) (eph : SatelliteEphemeris) : SatelliteEphemeris :=
  let n := fmt_d (fSatelliteCount (foResult o)) in
  let fetched status reason msg := set_condition eph ConditionGPDataFetched status reason msg in
  let parsed reason msg e := set_condition e ConditionGPDataParsed ConditionTrue reason msg in
  match servedCacheOnError o with
  | Some (e, reason) =>
      parsed reasonCachedOMMs "Using cached OMM data from a previous fetch"
        (fetched ConditionFalse reason
           ("GP fetch failed (" +:+ e +:+ "); serving " +:+ n +:+
            " satellites from cached OMMs — pass windows and runtime push preserved"))
  | None =>
      if reusedCache o then
        parsed reasonCachedOMMs "Using cached OMM data from previous fetch"
          (fetched ConditionTrue "CachedRepropagation"
             ("Re-propagated " +:+ n +:+
              " satellites from cached OMMs; GP source not contacted within the refresh window"))
      else if NotModified (foResult o) then
        parsed reasonCachedOMMs "Using cached OMM data from previous fetch"
          (fetched ConditionTrue "NotModified"
             ("GP data unchanged from " +:+ esType (Source (ephSpec eph)) +:+ " (304)"))
      else
        parsed "ParseSucceeded" "OMM JSON parsed successfully"
          (fetched ConditionTrue "FetchSucceeded"
             ("Fetched " +:+ n +:+ " satellites from " +:+ esType (Source (ephSpec eph))))
  end.

(** The event about the fetch, with whether serving the cache is a new episode. *)
Definition fetch_event (o : ommFetchOutcome) (serveCacheEpisode : bool) : list deferredEvent :=
  let n := fmt_d (fSatelliteCount (foResult o)) in
  match servedCacheOnError o with
  | Some (e, reason) =>
      if serveCacheEpisode then
        [mkEvent EventTypeWarning reason
           ("GP fetch failed (" +:+ e +:+ "); serving " +:+ n +:+ " satellites from cached OMMs")]
      else []
  | None =>
      if reusedCache o then [] else [mkEvent EventTypeNormal "GPDataFetched" ("Fetched " +:+ n +:+ " satellites")]
  end.

(** Step 6: the outcome of the fetch in the status and the series. *)
Definition record_fetch (o : ommFetchOutcome) (s : Run) : Run :=
  let r := foResult o in
  let s := map_status (fun st => with_fetched st (fSatelliteCount r) (FetchedAt r)) s in
  let s := run_gauge GPSatelliteCount (fSatelliteCount r) s in
  let s := run_gauge GPFetchReady 1 s in
  map_eph (fetch_conditions o) s.

(** Step 6b: the orbit-regime guard; the near-earth element sets go on. *)
Definition orbit_guard (omms : list OMM) (s : Run) : string * list OMM * Run :=
  let '(nearEarth, deepSpace) := SplitByOrbitRegime omms in
  let trackedDeepSpace := FilterOMMs deepSpace (selected_norads (ephSpec (rnEph s))) in
  let '(orbitRegimeEvent, eph) :=
    reportOrbitRegime (rnEph s) (length trackedDeepSpace) (DeepSpaceSummary trackedDeepSpace) in
  let s := map_eph (fun _ => eph) s in
  (orbitRegimeEvent, nearEarth, run_gauge GPDeepSpaceRejectedCount (Z.of_nat (length trackedDeepSpace)) s).

(** The status of the passes in the first write. *)
Definition pass_status_for_write (inputSig : string) (eph : SatelliteEphemeris) : SatelliteEphemeris :=
  if negb (passPredictionConfigured (ephSpec eph)) then invalidatePassPredictionStatus eph
  else if negb (str_eqb inputSig (LastPassPredictionInputHash (ephStatus eph))) then
    set_condition (invalidatePassPredictionStatus eph) ConditionPassesPredicted ConditionUnknown "Recomputing"
      "pass inputs changed; predictions are being recomputed"
  else eph.

(** The sweep and the second write. *)
Definition sweep (env : EphEnv) (inputSig : string) (omms : list OMM) (now : Time) (s : Run)
  : Run * option string :=
  let '(r, eph) := handlePassPrediction env (rnEph s) omms now in
  let s := map_eph (fun _ => eph) s in
  match r with
  | Err e => (s, Some e)
  | Ok (passNote, passFailNote) =>
      let s := map_status (fun st => with_sweep st (Some (eeSweepDone env)) inputSig) s in
      match persistEphStatus env s with
      | Err e => (s, Some e)
      | Ok s => (run_events (note_event EventTypeNormal "PassesPredicted" passNote ++
                             note_event EventTypeWarning "PredictionFailed" passFailNote)%list s, None)
      end
  end.

(** The object ready for the first write, with the events that follow it and
    what the sweep needs. *)
Record Prepared := mkPrepared {
  ppRun : Run;
  ppEvents : list deferredEvent;
  ppOMMs : list OMM;
  ppInputSig : string;
  ppSweepDue : bool
}.

Definition prepare (env : EphEnv) (o : ommFetchOutcome) (s : Run) : Prepared :=
  let serveCacheEpisode :=
    match servedCacheOnError o with
    | Some (_, reason) => episode (rnEph s) ConditionGPDataFetched ConditionFalse reason
    | None => false
    end in
  let s := record_fetch o s in
  let '(orbitRegimeEvent, omms, s) := orbit_guard (OMMs (foResult o)) s in
  let '(truncEvent, s) := propagateStates (Add (eePropagateNow env) propagationEpochLead) omms s in
  let s := map_status (fun st => with_input_hash st (propagationInputHash sha256hex IsPrint (ephSpec (rnEph s)))) s in
  let '(inputSig, sweepDue) := passSweepDecision env (rnEph s) (eeNow env) in
  mkPrepared (map_eph (pass_status_for_write inputSig) s)
    (note_event EventTypeWarning "UnsupportedOrbitRegime" orbitRegimeEvent ++
     note_event EventTypeWarning "StatesTruncated" truncEvent ++ fetch_event o serveCacheEpisode)%list
    omms inputSig sweepDue.

(** What follows the acquisition of element sets. *)
Definition publish (env : EphEnv) (effectiveInterval : Duration) (o : ommFetchOutcome) (s : Run) : EphOutcome :=
  let p := prepare env o s in
  match persistEphStatus env (ppRun p) with
  | Err e => finish (ppRun p) (Err e)
  | Ok s =>
      let s := run_events (ppEvents p) s in
      let requeue := Ok (Some (Z.min effectiveInterval propagationRefreshInterval)) in
      if ppSweepDue p then
        match sweep env (ppInputSig p) (ppOMMs p) (eeNow env) s with
        | (s, Some e) => finish s (Err e)
        | (s, None) => finish s requeue
        end
      else finish s requeue
  end.

(** The series and the entry of a deleted resource. *)
Definition forget (k : NamespacedName) (w : EphWorld) : EphWorld :=
  let c := ewCache w in
  let series := owSeries c in
  let label := (kNamespace k, kName k) in
  mkEphWorld
    (mkCacheWorld (owStore c) (delete k (owCache c)) (owSources c)
      (mkCacheSeries (filter (fun kv => kv.1.1 <> label) (OMMCachePersistTotal series))
        (filter (fun kv => kv.1.1 <> label) (OMMCacheRestoreTotal series))
        (delete label (OMMCacheRestoredAge series))))
    (filter (fun kv => kv.1.2 <> label) (ewGauges w)) (ewRecorded w).

Definition eph_reconcile (env : EphEnv) (w : EphWorld) : EphOutcome :=
  match eeEph env with
  | NotFound => mkEphOutcome (forget (eeKey env) w) [] (Ok None)
  | GetError e => mkEphOutcome w [] (Err e)
  | Found eph =>
      let '(effectiveInterval, clampWarning, eph) := clampRefreshInterval eph in
      match acquireOMMs env (mkRun w eph clampWarning []) effectiveInterval with
      | (s, Early r) => finish (run_gauge GPFetchReady 0 s) r
      | (s, Acquired o) => publish env effectiveInterval o s
      end
  end.

(** ** The watch on ground stations *)

Definition groundStationToEphemeris (ephList : result string (list SatelliteEphemeris)) (gs : ObjectMeta)
  : list NamespacedName :=
  match ephList with
  | Err _ => []
  | Ok items =>
      map (fun eph => ObjectKeyFromObject (ephMeta eph))
        (List.filter (fun eph =>
           str_eqb (Namespace (ephMeta eph)) (Namespace gs) &&
           match PassPrediction (ephSpec eph) with
           | None => false
           | Some pp => bool_decide (Name gs ∈ ppGroundStations pp)
           end) items)
  end.

End Controller.
