(* ===== verification/EphemerisSafety.v ===== *)
(** * What the SatelliteEphemeris controller guarantees

    Theorems about [EphemerisController]: which element set is chosen per
    satellite, what the published states look like, that a cached element set
    outlives every failure of its source, that the source is left alone while
    the cache can answer, that pass windows are never published over other
    inputs, that events follow durable writes, and that the states a reconcile
    publishes are accepted by the cell controller until after the next one. *)

From Stdlib Require Import Sorting.Sorted Sorting.Permutation.
From stdpp Require Import sorting list.
From S2P Require Import Prelude GoStrings GoNet GoJson GoUnicode GoTime GoTimeParse GoFloat K8sMeta NetGuard CellApi PassPredictor OcuduConfig EphemerisApi OcuduProvider CellController CellSafety Propagator Fetchers EphemerisCache EphemerisController.
Local Open Scope string_scope.
Local Arguments String.append !_ _ /.

(** ** The choice of element sets *)

(** The better of two epochs: a parsed one beats none, a later one an earlier. *)
Definition epoch_le (a b : option Time) : Prop :=
  match a, b with
  | None, _ => True
  | Some _, None => False
  | Some s, Some t => (s <= t)%Z
  end.

#[export] Instance epoch_le_preorder : PreOrder epoch_le.
Proof. split; [intros [x|]; cbn; [lia|done]|intros [x|] [y|] [z|]; cbn; lia || done]. Qed.

Abbreviation epoch_of o := (parseOMMEpoch (EpochStr o)).

(** What the map of the loop holds after the element sets [l]. *)
Record best_of (l : list OMM) (best : gmap Z (OMM * option Time)) : Prop := {
  bo_sound : forall id o t, best !! id = Some (o, t) ->
    o ∈ l /\ NoradCatID o = id /\ t = epoch_of o /\
    (forall o', o' ∈ l -> NoradCatID o' = id -> epoch_le (epoch_of o') t);
  bo_complete : forall o, o ∈ l -> is_Some (best !! NoradCatID o)
}.

Lemma elem_snoc {A} (x y : A) l : x ∈ (l ++ [y])%list <-> x ∈ l \/ x = y.
Proof. rewrite elem_of_app, list_elem_of_singleton. done. Qed.

(** Taking an element set that is as good as all before it. *)
Lemma best_take l best o :
  best_of l best -> (forall o', o' ∈ l -> NoradCatID o' = NoradCatID o -> epoch_le (epoch_of o') (epoch_of o)) ->
  best_of (l ++ [o])%list (<[NoradCatID o := (o, epoch_of o)]> best).
Proof.
  intros [Hs Hc] Ho. split.
  - intros id p t [[<- E]|[Hne He]]%lookup_insert_Some; [injection E as <- <-|].
    + repeat split; [set_solver|]. intros o' [H|H]%elem_snoc Hid; [by apply Ho|by subst].
    + destruct (Hs _ _ _ He) as (? & ? & ? & Hm). repeat split; [set_solver|done..|].
      intros o' [H'|H']%elem_snoc; [by apply Hm|by subst].
  - intros o' [H|H]%elem_snoc; [|subst; by rewrite lookup_insert_eq].
    destruct (decide (NoradCatID o = NoradCatID o')) as [->|]; [by rewrite lookup_insert_eq|].
    rewrite lookup_insert_ne by done. by apply Hc.
Qed.

(** Passing over one that is no better than the choice so far. *)
Lemma best_pass l best o c ct :
  best_of l best -> best !! NoradCatID o = Some (c, ct) -> epoch_le (epoch_of o) ct ->
  best_of (l ++ [o])%list best.
Proof.
  intros [Hs Hc] Eb Ho. split.
  - intros id p t He. destruct (Hs _ _ _ He) as (? & ? & ? & Hm). repeat split; [set_solver|done..|].
    intros o' [H'|H']%elem_snoc Hid; [by apply Hm|]. subst o'. rewrite <- Hid, Eb in He. by simplify_eq.
  - intros o' [H|H]%elem_snoc; [by apply Hc|]. subst. by rewrite Eb.
Qed.

Lemma canonical_step_best l best o : best_of l best -> best_of (l ++ [o])%list (canonical_step best o).
Proof.
  intros Hb. unfold canonical_step. destruct (best !! NoradCatID o) as [[c ct]|] eqn:Eb.
  - destruct (bo_sound _ _ Hb _ _ _ Eb) as (_ & _ & _ & Hmax).
    assert (Hgood : epoch_le ct (epoch_of o) -> best_of (l ++ [o])%list (<[NoradCatID o:=(o, epoch_of o)]> best)).
    { intros Hle. apply best_take; [done|]. intros o' H Hid. etransitivity; [by apply Hmax|done]. }
    assert (Hbad : epoch_le (epoch_of o) ct -> best_of (l ++ [o])%list best) by (intros; by eapply best_pass).
    destruct (epoch_of o) as [t|] eqn:Et, ct as [c'|]; cbn in *; auto.
    unfold After. destruct (Z.ltb_spec c' t); [apply Hgood|apply Hbad]; lia.
  - apply best_take; [done|]. intros o' H Hid. destruct (bo_complete _ _ Hb o' H) as [x Hx].
    by rewrite Hid, Eb in Hx.
Qed.

Lemma canonical_best l : best_of l (fold_left canonical_step l ∅).
Proof.
  induction l as [|o l IH] using rev_ind; [split; [intros id o t; cbn; by rewrite lookup_empty|set_solver]|].
  rewrite fold_left_app. by apply canonical_step_best.
Qed.

(** *** The sort *)

Abbreviation by_norad := (fun a b : OMM => (NoradCatID a < NoradCatID b)%Z).

Lemma insert_omm_perm o l : Permutation (insert_omm o l) (o :: l).
Proof.
  induction l as [|x l IH]; cbn [insert_omm]; [done|]. destruct (_ <? _)%Z; [done|].
  etransitivity; [by apply perm_skip|apply perm_swap].
Qed.

Lemma insert_omm_sorted o l :
  StronglySorted by_norad l -> (forall x, x ∈ l -> NoradCatID x <> NoradCatID o) ->
  StronglySorted by_norad (insert_omm o l).
Proof.
  induction 1 as [|x l Hl IH Hx]; intros Hne; cbn [insert_omm]; [repeat constructor|].
  destruct (Z.ltb_spec (NoradCatID o) (NoradCatID x)) as [H|H].
  - constructor; [by constructor|]. constructor; [done|]. eapply Forall_impl; [done|]. cbn. lia.
  - constructor; [apply IH; set_solver|]. rewrite Forall_forall in Hx |- *.
    intros y Hy. rewrite (insert_omm_perm o l) in Hy. apply elem_of_cons in Hy as [->|Hy]; [|by apply Hx].
    specialize (Hne x ltac:(set_solver)). lia.
Qed.

Lemma sort_omms l :
  NoDup (map NoradCatID l) ->
  Permutation (foldr insert_omm [] l) l /\ StronglySorted by_norad (foldr insert_omm [] l).
Proof.
  induction l as [|o l IH]; intros Hnd; [split; [done|constructor]|].
  cbn [map] in Hnd. apply NoDup_cons in Hnd as [Ho Hnd]. destruct (IH Hnd) as [Hp Hs]. cbn [foldr].
  split; [by rewrite insert_omm_perm, Hp|]. apply insert_omm_sorted; [done|].
  intros x Hx E. rewrite Hp in Hx. apply Ho. rewrite <- E. by apply (list_elem_of_fmap_2 NoradCatID).
Qed.

Lemma canonical_members l :
  let best := fold_left canonical_step l ∅ in
  NoDup (map NoradCatID (map (fun kv => kv.2.1) (map_to_list best))) /\
  (forall o, o ∈ map (fun kv => kv.2.1) (map_to_list best) <-> exists t, best !! NoradCatID o = Some (o, t)).
Proof.
  cbv zeta. pose proof (canonical_best l) as Hb. set (best := fold_left canonical_step l ∅) in *.
  assert (Hkey : map NoradCatID (map (fun kv => kv.2.1) (map_to_list best)) = map fst (map_to_list best)).
  { rewrite map_map. apply map_ext_in. intros [id [o t]] Hin%list_elem_of_In%elem_of_map_to_list. cbn.
    by destruct (bo_sound _ _ Hb _ _ _ Hin) as (_ & ? & _). }
  split; [rewrite Hkey; apply NoDup_fst_map_to_list|].
  intros o. rewrite list_elem_of_fmap. split.
  - intros ([id [o' t]] & -> & Hin%elem_of_map_to_list). cbn. exists t.
    by destruct (bo_sound _ _ Hb _ _ _ Hin) as (_ & -> & _).
  - intros [t Ht]. exists (NoradCatID o, (o, t)). split; [done|]. by apply elem_of_map_to_list.
Qed.

Record canonical_of (l out : list OMM) : Prop := {
  co_sorted : StronglySorted by_norad out;
  co_from : forall o, o ∈ out -> o ∈ l /\
    forall o', o' ∈ l -> NoradCatID o' = NoradCatID o -> epoch_le (epoch_of o') (epoch_of o);
  co_all : forall o, o ∈ l -> exists o', o' ∈ out /\ NoradCatID o' = NoradCatID o
}.

Lemma canonicalize_spec l : canonical_of l (canonicalizeOMMs l).
Proof.
  pose proof (canonical_best l) as Hb. destruct (canonical_members l) as [Hnd Hm].
  unfold canonicalizeOMMs. destruct (sort_omms _ Hnd) as [Hp Hs]. split; [done|..].
  - intros o Ho. rewrite Hp, Hm in Ho. destruct Ho as [t Ht].
    destruct (bo_sound _ _ Hb _ _ _ Ht) as (Hin & _ & -> & Hmax). auto.
  - intros o Ho. destruct (bo_complete _ _ Hb o Ho) as [[o' t] Ht].
    destruct (bo_sound _ _ Hb _ _ _ Ht) as (Hin & Hid & _). exists o'. split; [|done].
    rewrite Hp, Hm. exists t. by rewrite Hid.
Qed.

Lemma canonical_NoDup out : StronglySorted by_norad out -> NoDup (map NoradCatID out).
Proof.
  induction 1 as [|o l Hl IH Ho]; cbn; constructor; [|done].
  intros (x & E & Hx)%list_elem_of_fmap. rewrite Forall_forall in Ho. specialize (Ho x Hx). lia.
Qed.

(** Among the element sets of a feed, whatever its order and however many
    sets it holds per satellite, exactly one per catalogue number is kept, in
    ascending order of the numbers: one of the feed, whose epoch parses if any
    does, and is then the latest that parses. *)
Theorem one_set_per_satellite l :
  StronglySorted by_norad (canonicalizeOMMs l) /\
  (forall id, id ∈ map NoradCatID (canonicalizeOMMs l) <-> id ∈ map NoradCatID l) /\
  (forall o o', o ∈ canonicalizeOMMs l -> o' ∈ l -> NoradCatID o' = NoradCatID o ->
     o ∈ l /\ epoch_le (parseOMMEpoch (EpochStr o')) (parseOMMEpoch (EpochStr o))).
Proof.
  destruct (canonicalize_spec l) as [Hs Hf Ha]. split; [done|]. split.
  - intros id. rewrite !list_elem_of_fmap. split.
    + intros (o & -> & Ho). exists o. split; [done|]. by apply Hf.
    + intros (o & -> & Ho). destruct (Ha o Ho) as (o' & Ho' & E). by exists o'.
  - intros o o' Ho Ho' E. destruct (Hf o Ho) as [? Hm]. auto.
Qed.

(** No two different sets of one satellite with the same epoch. *)
Definition epochs_decide (l : list OMM) : Prop :=
  forall o o', o ∈ l -> o' ∈ l -> NoradCatID o = NoradCatID o' -> epoch_of o = epoch_of o' -> o = o'.

Lemma epoch_le_antisym a b : epoch_le a b -> epoch_le b a -> a = b.
Proof. destruct a, b; cbn; try done. intros. f_equal. lia. Qed.

Lemma canonical_unique l out out' :
  epochs_decide l -> canonical_of l out -> canonical_of l out' -> forall o, o ∈ out -> o ∈ out'.
Proof.
  intros Hd [_ Hf _] [_ Hf' Ha'] o Ho. destruct (Hf o Ho) as [Hin Hm].
  destruct (Ha' o Hin) as (o' & Ho' & E). destruct (Hf' o' Ho') as [Hin' Hm'].
  rewrite (Hd o o'); [done..|]. apply epoch_le_antisym; [by apply Hm'|by apply Hm].
Qed.

Lemma canonical_perm l l' out : Permutation l l' -> canonical_of l out -> canonical_of l' out.
Proof.
  intros Hp [Hs Hf Ha]. split; [done|..].
  - intros o Ho. destruct (Hf o Ho) as [Hin Hm]. rewrite <- Hp. split; [done|].
    intros o' Ho'. apply Hm. by rewrite Hp.
  - intros o Ho. rewrite <- Hp in Ho. by apply Ha.
Qed.

(** Upstream order is without effect: two responses with the same element
    sets, in any order, give the same list, so the first state of a resource
    does not change its satellite from one fetch to the next. *)
Theorem canonical_order_independent l l' :
  Permutation l l' -> epochs_decide l -> canonicalizeOMMs l = canonicalizeOMMs l'.
Proof.
  intros Hp Hd. pose proof (canonicalize_spec l) as Hc.
  pose proof (canonical_perm _ _ _ (symmetry Hp) (canonicalize_spec l')) as Hc'.
  assert (Hnd : forall k, StronglySorted by_norad k -> NoDup k)
    by (intros k Hk; eapply NoDup_fmap_1, canonical_NoDup, Hk).
  apply (StronglySorted_unique_strong by_norad); [intros; lia|apply Hc|apply Hc'|].
  apply NoDup_Permutation; [apply Hnd, Hc|apply Hnd, Hc'|].
  intros o. split; by apply (canonical_unique l).
Qed.

Section Safety.
Context {R : Type} `{CR : ControllerRefs R} `{SRV : ConfigServer R} {F : Type} `{ES : ElementSources F}
  `{SC : StatusConditions} `{OM : OrbitModel}.

Variable sha256hex : string -> string.
Variable IsPrint : N -> bool.
Variable marshal_omms : list OMM -> result string string.
Variable ParseOMMs : string -> result string (list OMM).
Variable unicode_lower : string -> string.
Variable url_parse : string -> option URL.
Variable ip_string : IP -> string.
Variable is_context_error : string -> bool.

Abbreviation acquire := (acquireOMMs (R := R) (F := F) sha256hex IsPrint marshal_omms ParseOMMs unicode_lower url_parse ip_string).
Abbreviation obtain := (obtainOMMs (R := R) (F := F) sha256hex IsPrint marshal_omms unicode_lower url_parse ip_string).
Abbreviation signature := (passPredictionInputSignature sha256hex IsPrint).
Abbreviation prepared := (prepare (R := R) (F := F) sha256hex IsPrint).
Abbreviation publishing := (publish (R := R) (F := F) sha256hex IsPrint is_context_error).
Abbreviation sweeping := (sweep (R := R) (F := F) IsPrint is_context_error).
Abbreviation reconcile := (eph_reconcile (R := R) (F := F) sha256hex IsPrint marshal_omms ParseOMMs unicode_lower url_parse
  ip_string is_context_error).

(** ** The published states *)

(** The state of one satellite, when it has one. *)
Definition pushable (now epoch : Time) (o : OMM) : option PropagatedState :=
  match parseOMMEpoch (EpochStr o) with
  | None => None
  | Some t =>
      match sourceEpochPlausible now t, om_propagate o epoch with
      | None, Ok e => Some (state_of o epoch t e)
      | _, _ => None
      end
  end.

Lemma propagate_loop_states now epoch omms p :
  (length (prStates p) <= maxPropagatedStates)%nat ->
  prStates (propagate_loop now epoch omms p) =
    firstn maxPropagatedStates (prStates p ++ omap (pushable now epoch) omms)%list.
Proof.
  revert p. induction omms as [|o omms IH]; intros p Hp; cbn [propagate_loop].
  - cbn [omap list_omap]. rewrite app_nil_r. symmetry. by apply firstn_all2.
  - destruct (Nat.leb_spec maxPropagatedStates (length (prStates p))).
    { cbn [prStates]. rewrite firstn_app, (firstn_all2 (prStates p)) by lia.
      replace (maxPropagatedStates - _)%nat with 0%nat by lia. by rewrite app_nil_r. }
    change (omap (pushable now epoch) (o :: omms)) with
      (match pushable now epoch o with Some y => y :: omap (pushable now epoch) omms
                                     | None => omap (pushable now epoch) omms end).
    unfold pushable at 1. destruct (parseOMMEpoch (EpochStr o)) as [t|]; [|by apply IH].
    destruct (sourceEpochPlausible now t); [by apply IH|].
    destruct (om_propagate o epoch) as [e|e]; rewrite IH; cbn [prStates].
    + by rewrite <- app_assoc.
    + rewrite length_app. cbn. lia.
    + done.
    + done.
Qed.

(** The element sets the cap leaves out were not tried at all. *)
Lemma propagate_loop_skipped now epoch omms p :
  (length (prStates p) <= maxPropagatedStates)%nat -> skippedByCap p = 0%nat ->
  exists tried rest, omms = (tried ++ rest)%list /\
    prStates (propagate_loop now epoch omms p) = (prStates p ++ omap (pushable now epoch) tried)%list /\
    skippedByCap (propagate_loop now epoch omms p) = length rest /\
    (rest <> [] -> length (prStates (propagate_loop now epoch omms p)) = maxPropagatedStates).
Proof.
  revert p. induction omms as [|o omms IH]; intros p Hp Hk; cbn [propagate_loop].
  - exists [], []. cbn. by rewrite app_nil_r.
  - destruct (Nat.leb_spec maxPropagatedStates (length (prStates p))) as [Hle|Hlt].
    { exists [], (o :: omms). cbn. rewrite app_nil_r. repeat split. lia. }
    assert (Hstep : forall p', skippedByCap p' = 0%nat -> (length (prStates p') <= maxPropagatedStates)%nat ->
      prStates p' = (prStates p ++ match pushable now epoch o with Some y => [y] | None => [] end)%list ->
      exists tried rest, o :: omms = (tried ++ rest)%list /\
        prStates (propagate_loop now epoch omms p') = (prStates p ++ omap (pushable now epoch) tried)%list /\
        skippedByCap (propagate_loop now epoch omms p') = length rest /\
        (rest <> [] -> length (prStates (propagate_loop now epoch omms p')) = maxPropagatedStates)).
    { intros p' Hk' Hp' E. destruct (IH p' Hp' Hk') as (tried & rest & -> & H1 & H2 & H3).
      exists (o :: tried), rest. repeat split; [|done|done]. rewrite H1, E, <- app_assoc. f_equal.
      cbn. by destruct (pushable now epoch o). }
    unfold pushable in Hstep at 1.
    destruct (parseOMMEpoch (EpochStr o)) as [t|] eqn:Et; [|apply Hstep; [done|lia|by rewrite app_nil_r]].
    destruct (sourceEpochPlausible now t); [apply Hstep; [done|lia|by rewrite app_nil_r]|].
    destruct (om_propagate o epoch) as [e|e]; apply Hstep; cbn [prStates skippedByCap];
      rewrite ?app_nil_r, ?length_app; cbn [length]; try done; lia.
Qed.

(** *** What the steps leave alone *)

(** The parts of a resource that no report changes. *)
Definition core (e : SatelliteEphemeris) :=
  let st := ephStatus e in
  (ephMeta e, ephSpec e, (PropagatedStates st, PropagatedStatesInputHash st),
   (NextPassWindows st, LastPassPredictionTime st, LastPassPredictionInputHash st)).

Lemma core_meta e e' : core e = core e' -> ephMeta e = ephMeta e'.
Proof. intros E. exact (f_equal (fun c => c.1.1.1) E). Qed.
Lemma core_spec e e' : core e = core e' -> ephSpec e = ephSpec e'.
Proof. intros E. exact (f_equal (fun c => c.1.1.2) E). Qed.
Lemma core_states e e' : core e = core e' -> PropagatedStates (ephStatus e) = PropagatedStates (ephStatus e').
Proof. intros E. exact (f_equal (fun c => c.1.2.1) E). Qed.
Lemma core_hash e e' :
  core e = core e' -> PropagatedStatesInputHash (ephStatus e) = PropagatedStatesInputHash (ephStatus e').
Proof. intros E. exact (f_equal (fun c => c.1.2.2) E). Qed.

Lemma fetch_conditions_core o e : core (fetch_conditions o e) = core e.
Proof. unfold fetch_conditions. destruct (servedCacheOnError o) as [[]|], (reusedCache o), (NotModified (foResult o)); reflexivity. Qed.

Lemma reportOrbitRegime_core e n m : core (reportOrbitRegime e n m).2 = core e.
Proof. unfold reportOrbitRegime. by destruct (n =? 0)%nat. Qed.

Lemma reportStatesTruncated_core e n m : core (reportStatesTruncated e n m).2 = core e.
Proof. unfold reportStatesTruncated. by destruct (m =? 0)%nat. Qed.

Lemma reportSourceEpochRejected_core a b c e : core (reportSourceEpochRejected a b c e) = core e.
Proof. unfold reportSourceEpochRejected. by destruct (0 <? a)%nat, (0 <? b)%nat. Qed.

(** The parts of a run that do not change before a write. *)
Definition outer (s : Run (R := R) (F := F)) :=
  (rnClamp s, rnWritten s, ewCache (rnWorld s), ewRecorded (rnWorld s)).

Definition gauge (w : EphWorld (R := R) (F := F)) (metric : string) (m : ObjectMeta) : option Z :=
  ewGauges w !! (metric, (Namespace m, Name m)).

Lemma stale_frame n m (s : Run (R := R) (F := F)) :
  let s' := reportEphemerisEpochStale n m s in
  outer s' = outer s /\ core (rnEph s') = core (rnEph s) /\
  gauge (rnWorld s') GPFetchReady (ephMeta (rnEph s)) = gauge (rnWorld s) GPFetchReady (ephMeta (rnEph s)).
Proof.
  unfold reportEphemerisEpochStale. destruct (0 <? n)%nat; (split; [done|]; split; [done|]);
    unfold gauge; cbn; by rewrite lookup_insert_ne.
Qed.

Lemma failed_frame n m l (s : Run (R := R) (F := F)) :
  let s' := reportPropagationFailed n m l s in
  outer s' = outer s /\ core (rnEph s') = core (rnEph s) /\
  gauge (rnWorld s') GPFetchReady (ephMeta (rnEph s)) = gauge (rnWorld s) GPFetchReady (ephMeta (rnEph s)).
Proof.
  unfold reportPropagationFailed. destruct (0 <? n)%nat; (split; [done|]; split; [done|]);
    unfold gauge; cbn; by rewrite lookup_insert_ne.
Qed.

(** The element sets that are propagated, and their states. *)
Definition tracked (spec : SatelliteEphemerisSpec) (omms : list OMM) : list OMM :=
  canonicalizeOMMs (FilterOMMs (SplitByOrbitRegime omms).1 (selected_norads spec)).

Definition published (now : Time) (spec : SatelliteEphemerisSpec) (omms : list OMM) : list PropagatedState :=
  firstn maxPropagatedStates (omap (pushable now (Add now propagationEpochLead)) (tracked spec omms)).

Lemma propagateStates_frame now omms (s : Run (R := R) (F := F)) :
  let s' := (propagateStates (Add now propagationEpochLead) omms s).2 in
  let e := rnEph s in
  outer s' = outer s /\
  core (rnEph s') = core (with_status e (with_states (ephStatus e)
    (firstn maxPropagatedStates (omap (pushable now (Add now propagationEpochLead))
       (canonicalizeOMMs (FilterOMMs omms (selected_norads (ephSpec e)))))))) /\
  gauge (rnWorld s') GPFetchReady (ephMeta e) = gauge (rnWorld s) GPFetchReady (ephMeta e).
Proof.
  cbv zeta. unfold propagateStates.
  replace (Add (Add now propagationEpochLead) (- propagationEpochLead)) with now by (unfold Add; lia).
  set (l := canonicalizeOMMs _). set (p := propagate_loop _ _ _ _).
  assert (Hp : prStates p = firstn maxPropagatedStates (omap (pushable now (Add now propagationEpochLead)) l)).
  { unfold p. rewrite propagate_loop_states by (cbn; lia). done. }
  pose proof (reportStatesTruncated_core (rnEph (map_status (fun st => with_states st (prStates p)) s))
    (length l) (skippedByCap p)) as Ht.
  destruct (reportStatesTruncated _ _ _) as [ev e1]. cbn [snd] in Ht |- *.
  set (s1 := map_eph (fun _ => e1) _). set (s2 := reportEphemerisEpochStale _ _ s1).
  set (s3 := map_eph (reportSourceEpochRejected _ _ _) s2).
  destruct (stale_frame (count (fun o => bool_decide (epoch_health_of now o = EpochTooOld)) l) (length l) s1) as (A1 & B1 & C1).
  destruct (failed_frame (propagationFailures p) (length l) (failedNorads p) s3) as (A3 & B3 & C3).
  fold s2 in A1, B1, C1.
  assert (B2 : core (rnEph s3) = core (rnEph s2)) by apply reportSourceEpochRejected_core.
  change (rnEph s1) with e1 in B1, C1.
  assert (Hm : ephMeta e1 = ephMeta (rnEph s)) by apply (core_meta _ _ Ht).
  assert (Hm3 : ephMeta (rnEph s3) = ephMeta (rnEph s)) by (rewrite <- Hm; apply core_meta; by rewrite B2, B1).
  split; [by rewrite A3|]. split; [by rewrite B3, B2, B1, Ht, Hp|].
  rewrite Hm3 in C3. rewrite C3. rewrite Hm in C1. exact C1.
Qed.

(** *** The object of the first write *)

(** The signature of the pass inputs, when pass prediction is on. *)
Definition current_signature (env : EphEnv (R := R)) (eph : SatelliteEphemeris) : option string :=
  match PassPrediction (ephSpec eph) with
  | Some pp => if passPredictionConfigured (ephSpec eph) then Some (signature env eph pp) else None
  | None => None
  end.

Lemma current_signature_ext env e e' :
  ephMeta e = ephMeta e' -> ephSpec e = ephSpec e' -> current_signature env e = current_signature env e'.
Proof.
  intros Hm Hs. unfold current_signature, passPredictionInputSignature, pass_inputs. by rewrite Hm, Hs.
Qed.

(** Published windows belong to the current inputs. *)
Definition passes_backed (sig : option string) (st : SatelliteEphemerisStatus) : Prop :=
  IsStatusConditionTrue (esConditions st) ConditionPassesPredicted = true ->
  sig = Some (LastPassPredictionInputHash st).

Lemma invalidated_backed sig e : passes_backed sig (ephStatus (invalidatePassPredictionStatus e)).
Proof.
  unfold passes_backed, invalidatePassPredictionStatus, remove_condition, IsStatusConditionTrue. cbn.
  rewrite find_remove. by rewrite decide_True.
Qed.

Lemma passSweepDecision_signature env e now :
  match current_signature env e with
  | Some sig => (passSweepDecision sha256hex IsPrint env e now).1 = sig
  | None => passSweepDecision sha256hex IsPrint env e now = ("", false)
  end.
Proof.
  unfold current_signature, passSweepDecision.
  destruct (PassPrediction (ephSpec e)) as [pp|]; [|done]. by destruct (passPredictionConfigured _).
Qed.

Lemma pass_status_backed env e now :
  let sig := (passSweepDecision sha256hex IsPrint env e now).1 in
  passes_backed (current_signature env e) (ephStatus (pass_status_for_write sig e)).
Proof.
  cbv zeta. pose proof (passSweepDecision_signature env e now) as Hd.
  destruct (passSweepDecision _ _ env e now) as [sig due]. cbn [fst] in *.
  unfold pass_status_for_write. destruct (passPredictionConfigured (ephSpec e)) eqn:Ec.
  2: { apply invalidated_backed. }
  cbn [negb]. unfold current_signature in *. rewrite Ec in *.
  unfold passPredictionConfigured in Ec. destruct (PassPrediction (ephSpec e)) as [pp|]; [|done].
  destruct (str_eqb sig _) eqn:Es; cbn [negb].
  - apply str_eqb_eq in Es. intros _. by rewrite <- Hd, Es.
  - unfold passes_backed, IsStatusConditionTrue. cbn. rewrite find_set. cbn.
    rewrite decide_True by done. cbn. by rewrite bool_decide_eq_false_2.
Qed.

(** The states with the hash they stand under, and the windows with theirs. *)
Definition states_part (st : SatelliteEphemerisStatus) := (PropagatedStates st, PropagatedStatesInputHash st).
Definition windows_part (st : SatelliteEphemerisStatus) := (NextPassWindows st, LastPassPredictionInputHash st).

Lemma core_states_part e e' : core e = core e' -> states_part (ephStatus e) = states_part (ephStatus e').
Proof. intros E. exact (f_equal (fun c => c.1.2) E). Qed.
Lemma core_windows_part e e' : core e = core e' -> windows_part (ephStatus e) = windows_part (ephStatus e').
Proof. intros E. exact (f_equal (fun c => (c.2.1.1, c.2.2)) E). Qed.

(** The windows of a status are those of an earlier one, with the digest of
    their inputs, which are still the current ones, or none. *)
Definition windows_kept (current : option string) (old st : SatelliteEphemerisStatus) : Prop :=
  windows_part st = windows_part old /\ current = Some (LastPassPredictionInputHash old) \/ NextPassWindows st = [].

Lemma windows_kept_ext current old old' st :
  windows_part old = windows_part old' -> windows_kept current old st -> windows_kept current old' st.
Proof. unfold windows_kept. intros E [[H1 H2]|H]; [left|by right]. rewrite <- E. injection E as _ <-. by split. Qed.

(** The windows are the passes predicted for the element sets [omms], over the
    stations, mask, horizon and satellites of the resource. *)
Definition predicted_from (env : EphEnv (R := R)) (eph : SatelliteEphemeris) (omms : list OMM)
  (windows : list PassWindow) : Prop :=
  exists pp stations minEl horizon clamped passes,
    PassPrediction (ephSpec eph) = Some pp /\
    resolve_stations IsPrint is_context_error (eeSweepStations env) (Namespace (ephMeta eph)) (ppGroundStations pp)
      = Ok stations /\
    ParseElevation (ppMinElevation pp) = Ok minEl /\ effectivePassHorizon (ppHorizon pp) = Ok (horizon, clamped) /\
    om_predict omms stations minEl horizon (selected_norads (ephSpec eph)) (eeNow env) (eeWall env) (eeOrder env)
      (eeContext env) = Ok passes /\
    windows = map pass_window passes.

(** What a sweep leaves: a prediction, or no windows. *)
Definition swept (env : EphEnv (R := R)) (eph : SatelliteEphemeris) (omms : list OMM)
  (st : SatelliteEphemerisStatus) : Prop :=
  NextPassWindows st = [] \/ predicted_from env eph omms (NextPassWindows st).

Lemma predicted_from_ext env e e' omms l :
  ephMeta e = ephMeta e' -> ephSpec e = ephSpec e' -> predicted_from env e omms l -> predicted_from env e' omms l.
Proof. unfold predicted_from. by intros -> ->. Qed.

Record prepared_spec (env : EphEnv (R := R)) (o : ommFetchOutcome) (s : Run (R := R) (F := F)) (p : Prepared (R := R) (F := F))
  : Prop := {
  pr_outer : outer (ppRun p) = outer s;
  pr_meta : ephMeta (rnEph (ppRun p)) = ephMeta (rnEph s);
  pr_spec : ephSpec (rnEph (ppRun p)) = ephSpec (rnEph s);
  pr_omms : ppOMMs p = (SplitByOrbitRegime (OMMs (foResult o))).1;
  pr_states : PropagatedStates (ephStatus (rnEph (ppRun p))) =
    published (eePropagateNow env) (ephSpec (rnEph s)) (OMMs (foResult o));
  pr_hash : PropagatedStatesInputHash (ephStatus (rnEph (ppRun p))) =
    propagationInputHash sha256hex IsPrint (ephSpec (rnEph s));
  pr_ready : gauge (rnWorld (ppRun p)) GPFetchReady (ephMeta (rnEph s)) = Some 1%Z;
  pr_backed : passes_backed (current_signature env (rnEph s)) (ephStatus (rnEph (ppRun p)));
  pr_due : ppSweepDue p = true -> current_signature env (rnEph s) = Some (ppInputSig p);
  pr_windows : windows_kept (current_signature env (rnEph s)) (ephStatus (rnEph s)) (ephStatus (rnEph (ppRun p)))
}.

Lemma record_fetch_frame o (s : Run (R := R) (F := F)) :
  outer (record_fetch o s) = outer s /\ core (rnEph (record_fetch o s)) = core (rnEph s) /\
  gauge (rnWorld (record_fetch o s)) GPFetchReady (ephMeta (rnEph s)) = Some 1%Z.
Proof.
  unfold record_fetch. split; [done|]. split; [by etransitivity; [apply fetch_conditions_core|]|].
  unfold gauge. cbn. apply lookup_insert_eq.
Qed.

Lemma orbit_guard_frame omms (s : Run (R := R) (F := F)) :
  let '(_, near, s') := orbit_guard omms s in
  near = (SplitByOrbitRegime omms).1 /\ outer s' = outer s /\ core (rnEph s') = core (rnEph s) /\
  gauge (rnWorld s') GPFetchReady (ephMeta (rnEph s)) = gauge (rnWorld s) GPFetchReady (ephMeta (rnEph s)).
Proof.
  unfold orbit_guard. destruct (SplitByOrbitRegime omms) as [near deep].
  set (d := FilterOMMs deep _). pose proof (reportOrbitRegime_core (rnEph s) (length d) (DeepSpaceSummary d)) as Hc.
  destruct (reportOrbitRegime _ _ _) as [ev e]. cbn [snd] in Hc. repeat split; [done|].
  unfold gauge. cbn. by rewrite lookup_insert_ne.
Qed.

Lemma pass_status_windows env e now :
  let sig := (passSweepDecision sha256hex IsPrint env e now).1 in
  windows_kept (current_signature env e) (ephStatus e) (ephStatus (pass_status_for_write sig e)).
Proof.
  cbv zeta. pose proof (passSweepDecision_signature env e now) as Hd.
  destruct (passSweepDecision _ _ env e now) as [sig due]. cbn [fst] in *.
  unfold pass_status_for_write. destruct (passPredictionConfigured (ephSpec e)) eqn:Ec; [|by right]. cbn [negb].
  destruct (str_eqb sig _) eqn:Es; [|by right]. cbn [negb]. left. split; [done|].
  unfold current_signature in *. rewrite Ec in *. unfold passPredictionConfigured in Ec.
  destruct (PassPrediction (ephSpec e)) as [pp|]; [|done]. apply str_eqb_eq in Es. congruence.
Qed.

Lemma pass_status_core sig e :
  ephMeta (pass_status_for_write sig e) = ephMeta e /\ ephSpec (pass_status_for_write sig e) = ephSpec e /\
  PropagatedStates (ephStatus (pass_status_for_write sig e)) = PropagatedStates (ephStatus e) /\
  PropagatedStatesInputHash (ephStatus (pass_status_for_write sig e)) = PropagatedStatesInputHash (ephStatus e).
Proof. unfold pass_status_for_write. by destruct (passPredictionConfigured _), (str_eqb _ _). Qed.

Lemma prepare_spec env o s : prepared_spec env o s (prepared env o s).
Proof.
  unfold prepare.
  destruct (record_fetch_frame o s) as (A1 & B1 & C1). set (s1 := record_fetch o s) in *.
  pose proof (orbit_guard_frame (OMMs (foResult o)) s1) as Hg.
  destruct (orbit_guard _ _) as [[ev near] s2]. destruct Hg as (Hn & A2 & B2 & C2).
  pose proof (propagateStates_frame (eePropagateNow env) near s2) as (A3 & B3 & C3).
  destruct (propagateStates _ _ _) as [tr s3]. cbn [snd] in A3, B3, C3.
  set (s4 := map_status _ s3).
  assert (Hm2 : ephMeta (rnEph s2) = ephMeta (rnEph s)) by (apply core_meta; by rewrite B2).
  assert (Hs2 : ephSpec (rnEph s2) = ephSpec (rnEph s)) by (apply core_spec; by rewrite B2).
  assert (Hm4 : ephMeta (rnEph s4) = ephMeta (rnEph s)) by (rewrite <- Hm2; exact (core_meta _ _ B3)).
  assert (Hs4 : ephSpec (rnEph s4) = ephSpec (rnEph s)) by (rewrite <- Hs2; exact (core_spec _ _ B3)).
  pose proof (pass_status_backed env (rnEph s4) (eeNow env)) as Hback.
  pose proof (pass_status_windows env (rnEph s4) (eeNow env)) as Hwin.
  pose proof (passSweepDecision_signature env (rnEph s4) (eeNow env)) as Hsig.
  rewrite (current_signature_ext env _ _ Hm4 Hs4) in Hback, Hsig, Hwin.
  destruct (passSweepDecision _ _ _ _ _) as [sig due]. cbn [fst] in Hback, Hwin.
  destruct (pass_status_core sig (rnEph s4)) as (Hm & Hs & Hst & Hh).
  split; cbn [ppRun ppOMMs ppSweepDue ppInputSig map_eph rnEph rnWorld].
  - change (outer s3 = outer s). by rewrite A3, A2, A1.
  - by rewrite Hm.
  - by rewrite Hs.
  - exact Hn.
  - rewrite Hst. change (PropagatedStates (ephStatus (rnEph s3)) = published (eePropagateNow env) (ephSpec (rnEph s)) (OMMs (foResult o))).
    rewrite (core_states _ _ B3). cbn [ephStatus with_status with_states PropagatedStates].
    unfold published, tracked. by rewrite Hs2, Hn.
  - rewrite Hh. change (propagationInputHash sha256hex IsPrint (ephSpec (rnEph s3)) = propagationInputHash sha256hex IsPrint (ephSpec (rnEph s))).
    by rewrite <- Hs4.
  - change (gauge (rnWorld s3) GPFetchReady (ephMeta (rnEph s)) = Some 1%Z).
    rewrite Hm2 in C3. rewrite C3. rewrite (core_meta _ _ B1) in C2. by rewrite C2.
  - done.
  - intros ->. destruct (current_signature env (rnEph s)); [by subst|done].
  - assert (windows_part (ephStatus (rnEph s4)) = windows_part (ephStatus (rnEph s))) as Hw.
    { change (windows_part (ephStatus (rnEph s3)) = windows_part (ephStatus (rnEph s))).
      rewrite (core_windows_part _ _ B3), <- (core_windows_part _ _ B1), <- (core_windows_part _ _ B2). done. }
    by eapply windows_kept_ext.
Qed.

(** ** Writes and events *)

Lemma status_write_spec env (s s' : Run (R := R) (F := F)) :
  persistEphStatus env s = Ok s' ->
  eeStatusUpdate env (length (rnWritten s)) = None /\
  rnEph s' = rnEph s /\ rnWritten s' = (rnWritten s ++ [ephStatus (rnEph s)])%list /\ rnClamp s' = None /\
  ewCache (rnWorld s') = ewCache (rnWorld s) /\ ewGauges (rnWorld s') = ewGauges (rnWorld s).
Proof.
  unfold persistEphStatus. destruct (eeStatusUpdate env _); [done|]. cbn.
  destruct (rnClamp s) as [[]|] eqn:Ec; intros [= <-]; cbn; by rewrite ?Ec.
Qed.

Lemma persist_ok env (s : Run (R := R) (F := F)) :
  eeStatusUpdate env (length (rnWritten s)) = None -> exists s', persistEphStatus env s = Ok s'.
Proof. unfold persistEphStatus. intros ->. by eexists. Qed.

Lemma persist_failed env (s : Run (R := R) (F := F)) e :
  eeStatusUpdate env (length (rnWritten s)) = Some e -> persistEphStatus env s = Err e.
Proof. unfold persistEphStatus. by intros ->. Qed.

(** An early end of a reconcile: one write that takes the windows back, or
    no write and no event. *)
Record early_spec (env : EphEnv (R := R)) (s s' : Run (R := R) (F := F)) (r : result string (option Duration)) : Prop := {
  ea_next : r <> Ok None;
  ea_write : (exists e, eeStatusUpdate env (length (rnWritten s)) = Some e /\ r = Err e /\
                rnWritten s' = rnWritten s /\ ewRecorded (rnWorld s') = ewRecorded (rnWorld s)) \/
    (eeStatusUpdate env (length (rnWritten s)) = None /\
     exists st, rnWritten s' = (rnWritten s ++ [st])%list /\ (forall sig, passes_backed sig st) /\
       states_part st = states_part (ephStatus (rnEph s)) /\ NextPassWindows st = [])
}.

Lemma persist_and_return_early env (s s1 : Run (R := R) (F := F)) events r :
  r <> Ok None -> rnWritten s1 = rnWritten s -> ewRecorded (rnWorld s1) = ewRecorded (rnWorld s) ->
  states_part (ephStatus (rnEph s1)) = states_part (ephStatus (rnEph s)) ->
  NextPassWindows (ephStatus (rnEph s1)) = [] ->
  (forall sig, passes_backed sig (ephStatus (rnEph s1))) ->
  early_spec env s (persist_and_return env s1 events r).1 (persist_and_return env s1 events r).2.
Proof.
  intros Hr Hw Hev Hst Hnw Hb. unfold persist_and_return.
  destruct (eeStatusUpdate env (length (rnWritten s))) as [e|] eqn:Eu.
  - rewrite (persist_failed env s1 e) by (by rewrite Hw). cbn. split; [done|]. left. by exists e.
  - destruct (persist_ok env s1) as [s2 E2]; [by rewrite Hw|]. rewrite E2.
    apply status_write_spec in E2 as (_ & _ & Hw2 & _). cbn. split; [done|]. right. split; [done|].
    exists (ephStatus (rnEph s1)). split; [|by split_and!]. cbn. by rewrite Hw2, Hw.
Qed.

(** The parts of a run that acquiring element sets leaves alone. *)
Definition kept (s : Run (R := R) (F := F)) :=
  (rnEph s, rnClamp s, rnWritten s, ewRecorded (rnWorld s), ewGauges (rnWorld s)).

Definition acquire_spec (env : EphEnv (R := R)) (s : Run (R := R) (F := F)) (x : Run (R := R) (F := F) * acquired) : Prop :=
  match x with
  | (s', Acquired _) => kept s' = kept s
  | (s', Early r) => early_spec env s s' r
  end.

Lemma invalid_condition_backed sig eph ty status reason msg :
  passes_backed sig (ephStatus (invalidatePassPredictionStatus (set_condition eph ty status reason msg))).
Proof. apply invalidated_backed. Qed.

Lemma early_frame env (s1 s2 s' : Run (R := R) (F := F)) r :
  kept s1 = kept s2 -> early_spec env s1 s' r -> early_spec env s2 s' r.
Proof. intros [= He _ Hw Hr _] [H1 H2]. rewrite He, Hw, Hr in H2. by split. Qed.

Lemma obtain_spec env s f d : acquire_spec env s (obtain env s f d).
Proof.
  unfold obtainOMMs. destruct (publicHTTPSource _ _ env _) as [ip|].
  { unfold early, acquire_spec, handleInsecureURL. apply persist_and_return_early; [done..|].
    intros sig. apply invalid_condition_backed. }
  destruct (fetch_from env _ f _) as [[r|e] c].
  - destruct (NotModified r && _); [|done]. destruct (matchingCache IsPrint c (rnEph s)); [|done].
    by destruct (length _ =? 0)%nat.
  - destruct (matchingCache IsPrint c (rnEph s)); [done|].
    unfold early, acquire_spec, handleFetchError. destruct (classifyFetchError e d) as [[reason requeue] asError].
    apply persist_and_return_early; [by destruct asError|done..|]. intros sig. apply invalid_condition_backed.
Qed.

Lemma acquire_frame env s d : acquire_spec env s (acquire env s d).
Proof.
  unfold acquireOMMs. set (s0 := map_world _ s). set (cs := cacheServe _ _ _ _ _).
  destruct cs; [|done..]. destruct (fetcherForSource IsPrint env (rnEph s)) as [f|e].
  - pose proof (obtain_spec env s0 f d) as Ho. destruct (obtain env s0 f d) as [s' [o|r]]; [done|].
    by apply (early_frame env s0).
  - destruct (matchingCache _ _ _); [done|]. unfold early, acquire_spec, handleSetupFailure.
    apply persist_and_return_early; [done..|]. intros sig. apply invalidated_backed.
Qed.

Lemma clamp_frame eph :
  ephMeta (clampRefreshInterval eph).2 = ephMeta eph /\ ephSpec (clampRefreshInterval eph).2 = ephSpec eph.
Proof. unfold clampRefreshInterval. repeat case_match; by simplify_eq. Qed.

Lemma clamp_states eph :
  states_part (ephStatus (clampRefreshInterval eph).2) = states_part (ephStatus eph) /\
  windows_part (ephStatus (clampRefreshInterval eph).2) = windows_part (ephStatus eph).
Proof. unfold clampRefreshInterval. repeat case_match; by simplify_eq. Qed.

Lemma clamp_bounds eph : (minRefreshInterval <= (clampRefreshInterval eph).1.1 <= maxRefreshInterval)%Z.
Proof.
  unfold clampRefreshInterval. destruct (Z.ltb_spec (esRefreshInterval (Source (ephSpec eph))) minRefreshInterval);
    [cbn; vm_compute; split; congruence|].
  destruct (Z.ltb_spec maxRefreshInterval (esRefreshInterval (Source (ephSpec eph)))); [cbn; vm_compute; split; congruence|].
  cbn. lia.
Qed.

(** A sweep that was cut short: its context was done, or its status write, the
    [n]-th of the reconcile, failed. *)
Definition sweep_ended (env : EphEnv (R := R)) (n : nat) (e : string) : Prop :=
  eeStatusUpdate env n = Some e \/
  exists eph pp omms pe, predictPasses IsPrint is_context_error env eph pp omms (eeNow env) = Err pe /\
    peContext pe = true /\ e = peText pe.

Lemma handlePassPrediction_states (env : EphEnv (R := R)) eph omms now :
  states_part (ephStatus (handlePassPrediction IsPrint is_context_error env eph omms now).2) =
  states_part (ephStatus eph).
Proof.
  unfold handlePassPrediction, predictPasses.
  destruct (PassPrediction (ephSpec eph)) as [pp|]; [|done]. destruct (passPredictionConfigured _); [|done].
  destruct (resolve_stations _ _ _ _ _) as [l|e]; [|by destruct (peContext e)].
  destruct (ParseElevation _); [|done]. destruct (effectivePassHorizon _) as [[]|]; [|done].
  destruct (om_predict _ _ _ _ _ _ _ _ _) as [|e]; [done|]. by destruct e.
Qed.

Lemma handlePassPrediction_windows (env : EphEnv (R := R)) eph omms note eph' :
  handlePassPrediction IsPrint is_context_error env eph omms (eeNow env) = (Ok note, eph') ->
  swept env eph omms (ephStatus eph').
Proof.
  unfold handlePassPrediction, predictPasses.
  destruct (PassPrediction (ephSpec eph)) as [pp|] eqn:Ep; [|by intros [= _ <-]; left].
  destruct (passPredictionConfigured _); [|by intros [= _ <-]; left].
  destruct (resolve_stations _ _ _ _ _) as [l|e] eqn:El; [|destruct (peContext e); [done|by intros [= _ <-]; left]].
  destruct (ParseElevation _) eqn:Em; [|by intros [= _ <-]; left].
  destruct (effectivePassHorizon _) as [[]|] eqn:Eh; [|by intros [= _ <-]; left].
  destruct (om_predict _ _ _ _ _ _ _ _ _) as [passes|e] eqn:E.
  - intros [= _ <-]. right. do 6 eexists. split_and!; [exact Ep|exact El|exact Em|exact Eh|exact E|done].
  - cbn [peContext]. destruct (cancelled e); [done|]. by intros [= _ <-]; left.
Qed.

Lemma sweep_spec env sig omms (s : Run (R := R) (F := F)) :
  let '(s', r) := sweeping env sig omms (eeNow env) s in
  ewGauges (rnWorld s') = ewGauges (rnWorld s) /\
  ((rnWritten s' = rnWritten s /\ exists e, r = Some e /\ sweep_ended env (length (rnWritten s)) e) \/
   exists st, rnWritten s' = (rnWritten s ++ [st])%list /\ LastPassPredictionInputHash st = sig /\
     states_part st = states_part (ephStatus (rnEph s)) /\ swept env (rnEph s) omms st /\ r = None).
Proof.
  unfold sweep. pose proof (handlePassPrediction_states env (rnEph s) omms (eeNow env)) as Hst.
  destruct (handlePassPrediction _ _ env (rnEph s) omms (eeNow env)) as [[[n m]|e] eph] eqn:Eh.
  - set (s1 := map_status _ _). destruct (persistEphStatus env s1) as [s2|e] eqn:E.
    + apply status_write_spec in E as (_ & _ & Hw & _ & _ & Hg). split; [exact Hg|].
      right. eexists. cbn. split; [exact Hw|]. apply handlePassPrediction_windows in Eh. by split_and!.
    + split; [done|]. left. split; [done|]. eexists. split; [done|]. left.
      unfold persistEphStatus in E. cbn [s1 map_status map_eph rnWritten] in E. by destruct (eeStatusUpdate env _) as [e'|]; simplify_eq.
  - split; [done|]. left. split; [done|]. eexists. split; [done|]. right.
    unfold handlePassPrediction in Eh. destruct (PassPrediction _) as [pp|]; [|done].
    destruct (passPredictionConfigured _); [|done]. destruct (predictPasses _ _ _ _ _ _ _) as [[? ?]|pe] eqn:Ep; [done|].
    destruct (peContext pe) eqn:Ec; [|done]. injection Eh as <- _. by eexists _, _, _, pe.
Qed.

(** Publish, seen from its writes. *)
Lemma publish_writes env d o s :
  let p := prepared env o s in
  let out := publishing env d o s in
  (exists e, eeStatusUpdate env (length (rnWritten s)) = Some e /\ eoResult out = Err e /\
     eoWritten out = rnWritten s /\ ewRecorded (eoWorld out) = ewRecorded (rnWorld s)) \/
  (eeStatusUpdate env (length (rnWritten s)) = None /\
   exists more, eoWritten out = (rnWritten s ++ ephStatus (rnEph (ppRun p)) :: more)%list /\
     (ppSweepDue p = false -> more = []) /\ (forall st, st ∈ more -> LastPassPredictionInputHash st = ppInputSig p /\ ppSweepDue p = true /\
        states_part st = states_part (ephStatus (rnEph (ppRun p))) /\ swept env (rnEph (ppRun p)) (ppOMMs p) st) /\
     ewGauges (eoWorld out) = ewGauges (rnWorld (ppRun p)) /\
     (eoResult out = Ok (Some (Z.min d propagationRefreshInterval)) \/
      exists e, eoResult out = Err e /\ more = [] /\ ppSweepDue p = true /\ sweep_ended env (S (length (rnWritten s))) e)).
Proof.
  cbv zeta. pose proof (pr_outer _ _ _ _ (prepare_spec env o s)) as Ho. unfold publish.
  set (p := prepared env o s) in *. unfold outer in Ho. injection Ho as _ Hw _ Hr.
  destruct (eeStatusUpdate env (length (rnWritten s))) as [e|] eqn:Eu.
  - rewrite (persist_failed env (ppRun p) e) by (by rewrite Hw). left. exists e. cbn. by rewrite Hw, Hr.
  - destruct (persist_ok env (ppRun p)) as [s1 E1]; [by rewrite Hw|]. rewrite E1.
    apply status_write_spec in E1 as (_ & He1 & Hw1 & _ & _ & Hg1). right. split; [done|].
    rewrite Hw in Hw1. set (s2 := run_events _ s1). assert (Hw2 : rnWritten s2 = (rnWritten s ++ [ephStatus (rnEph (ppRun p))])%list) by done.
    destruct (ppSweepDue p) eqn:Ed.
    + pose proof (sweep_spec env (ppInputSig p) (ppOMMs p) s2) as Hs.
      destruct (sweeping env _ _ _ s2) as [s3 r]. destruct Hs as [Hg3 Hs].
      assert (Hg : ewGauges (rnWorld s3) = ewGauges (rnWorld (ppRun p))) by (by rewrite Hg3).
      destruct Hs as [[Hw3 (e & -> & Hcut)]|(st & Hw3 & Hh & Hst & Hwin & ->)]; cbn [finish eoWritten eoResult eoWorld].
      * exists []. rewrite Hw3. split_and!; [done|done|set_solver|done|]. right. exists e. split_and!; [done..|].
        rewrite Hw2, length_app, Nat.add_1_r in Hcut. exact Hcut.
      * exists [st]. rewrite Hw3, Hw2, <- app_assoc. split_and!; [done|done| |done|by left].
        intros st' Hin%list_elem_of_singleton. subst st'. cbn in Hst, Hwin. rewrite He1 in Hst, Hwin. done.
    + exists []. cbn. split_and!; [done|done|set_solver|done|by left].
Qed.

Lemma publish_cache env d o s : ewCache (eoWorld (publishing env d o s)) = ewCache (rnWorld s).
Proof.
  pose proof (pr_outer _ _ _ _ (prepare_spec env o s)) as [= _ _ Hc _]. unfold publish.
  set (p := prepared env o s) in *. destruct (persistEphStatus env (ppRun p)) as [s1|] eqn:E1; [|done].
  apply status_write_spec in E1 as (_ & _ & _ & _ & Hc1 & _). rewrite <- Hc, <- Hc1.
  destruct (ppSweepDue p); [|done]. unfold sweep.
  destruct (handlePassPrediction _ _ _ _ _ _) as [[[n m]|e] eph]; [|done].
  set (s2 := map_status _ _). destruct (persistEphStatus env s2) as [s3|] eqn:E3; [|done].
  by apply status_write_spec in E3 as (_ & _ & _ & _ & Hc3 & _).
Qed.

(** ** Reconcile *)

(** Where a written status comes from: its states were kept, or published
    from the element sets that were acquired; its windows are backed by the
    inputs, and were kept, swept, or taken back. *)
Record written_from (env : EphEnv (R := R)) (w : EphWorld (R := R) (F := F)) (eph : SatelliteEphemeris)
  (st : SatelliteEphemerisStatus) : Prop := {
  wf_backed : passes_backed (current_signature env eph) st;
  wf_states : states_part st = states_part (ephStatus eph) \/
    exists d c s' o, acquire env (mkRun w (clampRefreshInterval eph).2 c []) d = (s', Acquired o) /\
      PropagatedStates st = published (eePropagateNow env) (ephSpec eph) (OMMs (foResult o)) /\
      PropagatedStatesInputHash st = propagationInputHash sha256hex IsPrint (ephSpec eph);
  wf_windows : windows_kept (current_signature env eph) (ephStatus eph) st \/
    exists d c s' o, acquire env (mkRun w (clampRefreshInterval eph).2 c []) d = (s', Acquired o) /\
      current_signature env eph = Some (LastPassPredictionInputHash st) /\
      swept env eph (SplitByOrbitRegime (OMMs (foResult o))).1 st
}.

Lemma reconcile_writes env w eph st :
  eeEph env = Found eph -> st ∈ eoWritten (reconcile env w) -> written_from env w eph st.
Proof.
  intros He. unfold eph_reconcile. rewrite He.
  destruct (clamp_frame eph) as [Hm Hs]. destruct (clamp_states eph) as [Hst Hcw].
  destruct (clampRefreshInterval eph) as [[d c] eph1] eqn:Ec. cbn [snd] in Hm, Hs, Hst, Hcw.
  set (s0 := mkRun w eph1 c []). pose proof (acquire_frame env s0 d) as Ha.
  assert (Hsig := current_signature_ext env _ _ Hm Hs).
  destruct (acquire env s0 d) as [s1 [o|r]] eqn:Eacq; cbn [acquire_spec] in Ha.
  - injection Ha as Ee _ Ew _ _. pose proof (prepare_spec env o s1) as Hp. rewrite <- Ee in Hm, Hs, Hst, Hcw, Hsig.
    assert (Hpm : ephMeta (rnEph (ppRun (prepared env o s1))) = ephMeta eph) by (rewrite <- Hm; apply Hp).
    assert (Hps : ephSpec (rnEph (ppRun (prepared env o s1))) = ephSpec eph) by (rewrite <- Hs; apply Hp).
    destruct (publish_writes env d o s1) as [(e & _ & _ & -> & _)|(_ & more & -> & _ & Hmore & _ & _)].
    + rewrite Ew. set_solver.
    + rewrite Ew. cbn [app]. intros [->|Hin]%elem_of_cons.
      * split; [rewrite <- Hsig; apply Hp| |left].
        { right. exists d, c, s1, o. rewrite <- Hs, Ec. split_and!; [done|apply Hp..]. }
        { eapply windows_kept_ext; [exact Hcw|]. rewrite <- Hsig. apply Hp. }
      * destruct (Hmore _ Hin) as (Hh & Hd & [= Hst1 Hst2] & Hwin).
        assert (Hcur : current_signature env eph = Some (LastPassPredictionInputHash st)).
        { rewrite Hh, <- Hsig. by apply (pr_due _ _ _ _ Hp). }
        split; [by intros _| |].
        { right. exists d, c, s1, o. rewrite Hst1, Hst2, <- Hs, Ec. split_and!; [done|apply Hp..]. }
        { right. exists d, c, s1, o. rewrite Ec. split_and!; [done|done|].
          rewrite <- (pr_omms _ _ _ _ Hp). destruct Hwin as [H|H]; [by left|right].
          by eapply predicted_from_ext. }
  - destruct Ha as [_ [(e & _ & _ & Ew & _)|(_ & x & Ew & Hx & Hx' & Hxw)]]; cbn [finish eoWritten run_gauge map_world rnWritten];
      rewrite Ew; cbn [rnWritten s0 app]; [set_solver|].
    intros Hin%list_elem_of_singleton. subst st. split; [apply Hx| |].
    + left. by rewrite Hx'.
    + left. by right.
Qed.

(** The first write of a reconcile shows no windows but old ones over unchanged
    inputs. *)
Lemma first_write_windows env w eph st more :
  eeEph env = Found eph -> eoWritten (reconcile env w) = st :: more ->
  windows_kept (current_signature env eph) (ephStatus eph) st.
Proof.
  intros He. unfold eph_reconcile. rewrite He. destruct (clamp_frame eph) as [Hm Hs]. destruct (clamp_states eph) as [_ Hcw].
  destruct (clampRefreshInterval eph) as [[d c] eph1]. cbn [snd] in Hm, Hs, Hcw.
  set (s0 := mkRun w eph1 c []). pose proof (acquire_frame env s0 d) as Ha.
  destruct (acquire env s0 d) as [s1 [o|r]]; cbn [acquire_spec] in Ha.
  - injection Ha as Ee _ Ew _ _. destruct (publish_writes env d o s1) as [(e & _ & _ & -> & _)|(_ & l & -> & _)];
      rewrite Ew; [done|]. cbn [app]. intros [= <- _].
    assert (rnEph s1 = eph1) as E1 by exact Ee. eapply windows_kept_ext; [exact Hcw|].
    rewrite <- (current_signature_ext env _ _ Hm Hs), <- E1. apply prepare_spec.
  - destruct Ha as [_ [(e & _ & _ & Ew & _)|(_ & x & Ew & _ & _ & Hxw)]]; cbn [finish eoWritten run_gauge map_world rnWritten];
      rewrite Ew; [done|]. cbn [rnWritten s0 app]. intros [= <- _]. by right.
Qed.

(** C8. Pass windows are never shown over other inputs.  Of every status a
    reconcile writes, whatever happens during it: a true PassesPredicted
    condition stands over the digest of the pass inputs the reconcile saw, the
    stations' identities and generations included; and its windows, if there are
    any, are either those of the status it found, under their own digest, which
    is that of the inputs as they are now, or passes predicted in this very
    reconcile, from the element sets it acquired, and stored under the digest of
    its inputs.  So after a change of
    inputs the first write, which brings the new epoch, shows no windows. *)
Theorem windows_match_inputs env w eph st :
  eeEph env = Found eph -> st ∈ eoWritten (reconcile env w) ->
  (IsStatusConditionTrue (esConditions st) ConditionPassesPredicted = true ->
     current_signature env eph = Some (LastPassPredictionInputHash st)) /\
  (NextPassWindows st <> [] ->
     current_signature env eph = Some (LastPassPredictionInputHash st) /\
     (windows_part st = windows_part (ephStatus eph) \/
      exists d c s' o, acquire env (mkRun w (clampRefreshInterval eph).2 c []) d = (s', Acquired o) /\
        predicted_from env eph (SplitByOrbitRegime (OMMs (foResult o))).1 (NextPassWindows st))) /\
  (current_signature env eph <> Some (LastPassPredictionInputHash (ephStatus eph)) ->
     head (eoWritten (reconcile env w)) = Some st -> NextPassWindows st = []).
Proof.
  intros He Hin. destruct (reconcile_writes env w eph st He Hin) as [Hb _ Hw]. split; [done|]. split.
  - intros Hne. destruct Hw as [[[E Hc]|]|(d & c & s' & o & Ha & Hc & [|Hp])]; try done.
    + split; [|by left]. injection E as _ E. by rewrite E.
    + split; [done|right]. by exists d, c, s', o.
  - intros Hch Hh. destruct (eoWritten (reconcile env w)) as [|x more] eqn:Ew; [done|]. cbn in Hh. injection Hh as ->.
    destruct (first_write_windows env w eph st more He Ew) as [[_ Hc]|]; [by destruct Hch|done].
Qed.

(** *** Published states *)

Lemma runes_short n s : (length (runes n s) <= String.length s)%nat.
Proof.
  revert n. induction s as [|c s IH]; intros n; [done|]. cbn [runes String.length].
  destruct n; [|specialize (IH n); lia]. destruct (byte_val c <? 128)%N; [cbn; specialize (IH 0%nat); lia|].
  destruct (cont_bytes c s) as [k|]; cbn; [specialize (IH k)|specialize (IH 0%nat)]; lia.
Qed.

Lemma concat_texts l : String.concat "" (map snd l) = encode l.
Proof.
  induction l as [|r l IH]; [done|]. cbn [map encode foldr]. fold (encode l). rewrite <- IH.
  destruct l as [|r' l]; cbn; [by rewrite app_str_nil_r|done].
Qed.

Lemma label_bounded name : (length (runes 0 (BoundedSatelliteLabel name)) <= MaxSatelliteNameLen)%nat.
Proof.
  unfold BoundedSatelliteLabel, rune_texts. destruct (Nat.leb_spec (String.length name) MaxSatelliteNameLen).
  { etransitivity; [apply runes_short|done]. }
  rewrite length_map. destruct (Nat.ltb_spec MaxSatelliteNameLen (length (runes 0 name))); [|done].
  rewrite firstn_map, concat_texts, runes_encode by (apply Forall_take, runes_good).
  rewrite length_take. lia.
Qed.

(** Well-formed states, as the status may hold them. *)
Record states_ok (l : list PropagatedState) : Prop := {
  so_count : (length l <= maxPropagatedStates)%nat;
  so_order : StronglySorted Z.lt (map psNoradID l);
  so_range : Forall (fun ps => in_3gpp_range (psECEF ps)) l;
  so_label : Forall (fun ps => (length (runes 0 (psSatellite ps)) <= MaxSatelliteNameLen)%nat) l
}.

Lemma pushable_some now epoch o ps :
  pushable now epoch o = Some ps ->
  exists t e, parseOMMEpoch (EpochStr o) = Some t /\ sourceEpochPlausible now t = None /\
    om_propagate o epoch = Ok e /\ ps = state_of o epoch t e.
Proof.
  unfold pushable. destruct (parseOMMEpoch (EpochStr o)) as [t|]; [|done].
  destruct (sourceEpochPlausible now t) eqn:Ep; [done|]. destruct (om_propagate o epoch) as [e|] eqn:Eo; [|done].
  intros [= <-]. by exists t, e.
Qed.

Lemma pushable_order now epoch l :
  StronglySorted by_norad l -> StronglySorted Z.lt (map psNoradID (omap (pushable now epoch) l)).
Proof.
  induction 1 as [|o l Hl IH Ho]; [constructor|]. cbn. destruct (pushable now epoch o) as [ps|] eqn:E; [|done].
  apply pushable_some in E as (t & e & _ & _ & _ & ->). cbn. constructor; [done|].
  apply Forall_forall. intros id (ps & -> & (o' & Ho' & E)%list_elem_of_omap)%list_elem_of_fmap.
  apply pushable_some in E as (t' & e' & _ & _ & _ & ->). cbn. rewrite Forall_forall in Ho. by apply Ho.
Qed.

Lemma firstn_sorted {A} (P : A -> A -> Prop) n l : StronglySorted P l -> StronglySorted P (firstn n l).
Proof.
  intros H. revert n. induction H as [|x l Hl IH Hx]; intros [|n]; cbn; constructor; [apply IH|by apply Forall_take].
Qed.

Lemma published_elem now spec omms ps :
  ps ∈ published now spec omms ->
  exists o t e, o ∈ tracked spec omms /\ parseOMMEpoch (EpochStr o) = Some t /\ sourceEpochPlausible now t = None /\
    om_propagate o (Add now propagationEpochLead) = Ok e /\ ps = state_of o (Add now propagationEpochLead) t e.
Proof.
  intros Hin. assert (Hin' : ps ∈ omap (pushable now (Add now propagationEpochLead)) (tracked spec omms)).
  { apply elem_of_take in Hin as (i & Hi & _). by eapply list_elem_of_lookup_2. }
  apply list_elem_of_omap in Hin' as (o & Ho & Hp). apply pushable_some in Hp as (t & e & ? & ? & ? & ->). by exists o, t, e.
Qed.

Lemma published_ok now spec omms : states_ok (published now spec omms).
Proof.
  split.
  - unfold published. rewrite length_take. lia.
  - unfold published. rewrite <- firstn_map. apply firstn_sorted, pushable_order, (canonicalize_spec _).
  - apply Forall_forall. intros ps (o & t & e & _ & _ & _ & He & ->)%published_elem. by apply om_in_range in He.
  - apply Forall_forall. intros ps (o & t & e & _ & _ & _ & He & ->)%published_elem. apply label_bounded.
Qed.

(** A status never holds malformed states: if those it starts with are well
    formed, so are those of every status a reconcile writes, whatever the feed
    contains: at most 128, one per satellite and ascending, coordinates within
    the ranges of TS 38.331, names of at most 64 characters. *)
Theorem states_stay_well_formed env w eph st :
  eeEph env = Found eph -> states_ok (PropagatedStates (ephStatus eph)) ->
  st ∈ eoWritten (reconcile env w) -> states_ok (PropagatedStates st).
Proof.
  intros He Hok Hin. destruct (reconcile_writes env w eph st He Hin) as [_ [[= -> _]|(d & c & s' & o & _ & -> & _)] _]; [done|].
  apply published_ok.
Qed.

(** *** Events *)

(** An event tells of a status that is stored: when the first write of a
    reconcile fails, nothing was written, no event was recorded, and the error
    is returned, so the next attempt still finds its transition. *)
Theorem no_event_without_write env w eph e :
  eeEph env = Found eph -> eeStatusUpdate env 0 = Some e ->
  let out := eph_reconcile (F := F) sha256hex IsPrint marshal_omms ParseOMMs unicode_lower url_parse ip_string
    is_context_error env w in
  eoWritten out = [] /\ ewRecorded (eoWorld out) = ewRecorded w /\ eoResult out = Err e.
Proof.
  intros He Hu. cbv zeta. unfold eph_reconcile. rewrite He.
  destruct (clampRefreshInterval eph) as [[d c] eph1]. set (s0 := mkRun w eph1 c []).
  pose proof (acquire_frame env s0 d) as Ha.
  destruct (acquire env s0 d) as [s1 [o|r]]; cbn [acquire_spec] in Ha.
  - injection Ha as _ _ Ew Er _.
    destruct (publish_writes env d o s1) as [(e' & Hu' & -> & -> & ->)|[Hu' _]]; rewrite Ew in Hu'; cbn in Hu'; rewrite Hu in Hu'; [|done].
    injection Hu' as <-. by rewrite Ew, Er.
  - destruct Ha as [_ [(e' & Hu' & -> & Ew & Er)|[Hu' _]]]; cbn in Hu'; rewrite Hu in Hu'; [|done].
    injection Hu' as <-. cbn. by rewrite Ew, Er.
Qed.

(** ** Outages *)

Lemma matching_ext (c : CacheWorld (R := R) (F := F)) e e' :
  ephMeta e = ephMeta e' -> ephSpec e = ephSpec e' -> matchingCache IsPrint c e = matchingCache IsPrint c e'.
Proof. intros Hm Hs. unfold matchingCache. by rewrite Hm, Hs. Qed.

Lemma matching_entry (c : CacheWorld (R := R) (F := F)) eph entry :
  matchingCache IsPrint c eph = Some entry -> owCache c !! ObjectKeyFromObject (ephMeta eph) = Some entry.
Proof. unfold matchingCache. destruct (owCache c !! _); [|done]. destruct (_ || _); congruence. Qed.

(** With an entry in memory nothing is restored. *)
Lemma acquire_warm env s d entry :
  matchingCache IsPrint (ewCache (rnWorld s)) (rnEph s) = Some entry ->
  acquire env s d =
    match cacheServe IsPrint (ewCache (rnWorld s)) (rnEph s) (eeNow env) d with
    | cacheServeWindow c => (s, Acquired (mkOutcome (cfResult c) true None))
    | cacheServeBackoff c =>
        (s, Acquired (mkOutcome (cfResult c) false
              (Some (match lastFetchErr c with Some e => feText e | None => "" end, reasonFetchFailedServingCache))))
    | cacheServeNone =>
        match fetcherForSource IsPrint env (rnEph s) with
        | Ok f => obtain env s f d
        | Err e => (s, Acquired (mkOutcome (cfResult entry) false (Some (e, reasonSetupFailedServingCache))))
        end
    end.
Proof.
  intros Hm. unfold acquireOMMs. set (s0 := map_world _ s). assert (s0 = s) as ->.
  { unfold s0, map_world, restoreOMMCache. rewrite (matching_entry _ _ _ Hm). by destruct s as [[] ? ? ?]. }
  destruct (cacheServe _ _ _ _ _); [|done..]. destruct (fetcherForSource _ _ _); [done|]. by rewrite Hm.
Qed.

Lemma cacheServe_entry (c : CacheWorld (R := R) (F := F)) eph now d entry :
  matchingCache IsPrint c eph = Some entry ->
  match cacheServe IsPrint c eph now d with
  | cacheServeWindow x | cacheServeBackoff x => x = entry
  | cacheServeNone => True
  end.
Proof. intros Hm. unfold cacheServe. rewrite Hm. destruct (_ <? _)%Z; [done|]. by destruct (_ && _). Qed.

(** The fetch cannot succeed: there is no fetcher, or it fails. *)
Definition source_down (env : EphEnv (R := R)) (c : CacheWorld (R := R) (F := F)) (eph : SatelliteEphemeris) : Prop :=
  forall f, fetcherForSource IsPrint env eph = Ok f ->
  exists e, (fetch_from env c f (esURL (Source (ephSpec eph)))).1 = Err e.

Lemma source_down_ext env c e e' :
  ephMeta e = ephMeta e' -> ephSpec e = ephSpec e' -> source_down env c e -> source_down env c e'.
Proof. intros Hm Hs. unfold source_down, fetcherForSource. by rewrite Hm, Hs. Qed.

Lemma acquire_down env s d entry :
  matchingCache IsPrint (ewCache (rnWorld s)) (rnEph s) = Some entry ->
  publicHTTPSource unicode_lower url_parse env (esURL (Source (ephSpec (rnEph s)))) = None ->
  source_down env (ewCache (rnWorld s)) (rnEph s) ->
  exists s' o, acquire env s d = (s', Acquired o) /\ OMMs (foResult o) = OMMs (cfResult entry).
Proof.
  intros Hm Hpub Hdown. rewrite (acquire_warm _ _ _ _ Hm).
  pose proof (cacheServe_entry (ewCache (rnWorld s)) (rnEph s) (eeNow env) d entry Hm) as Hs.
  destruct (cacheServe _ _ _ _ _); [|subst; by eexists _, _..].
  destruct (fetcherForSource _ _ _) as [f|e] eqn:Ef; [|by eexists _, _].
  unfold obtainOMMs. rewrite Hpub.
  destruct (Hdown f Ef) as [e He]. unfold fetch_from in *.
  set (x := match f with UseCelesTrak => _ | UseSpaceTrack _ _ => _ end) in He |- *.
  destruct x as [r src]. cbn [fst] in He. subst r.
  unfold matchingCache in Hm |- *. cbn [owCache with_sources]. rewrite Hm. by eexists _, _.
Qed.

(** C6. An outage of the source does not stop the pushes: while the cache holds
    element sets for the resource's own source, a reconcile that cannot set up its
    fetcher or whose fetch fails (credentials, network, rate limit) still writes
    states propagated from the cached sets to five minutes ahead, under the hash
    of the live inputs, reports itself ready, and asks to come back within three
    minutes; or, when the sweep that follows the write is cut short by its context
    or by the failure of its own write, returns that error for the work queue to
    retry.  A cleartext URL that leads to a public address is no outage: it is
    refused whatever the cache holds. *)
Theorem outage_keeps_heartbeat env w eph entry :
  eeEph env = Found eph -> eeStatusUpdate env 0 = None ->
  matchingCache IsPrint (ewCache w) eph = Some entry ->
  publicHTTPSource unicode_lower url_parse env (esURL (Source (ephSpec eph))) = None ->
  source_down env (ewCache w) eph ->
  let out := reconcile env w in
  (exists st more, eoWritten out = st :: more /\
     PropagatedStates st = published (eePropagateNow env) (ephSpec eph) (OMMs (cfResult entry)) /\
     PropagatedStatesInputHash st = propagationInputHash sha256hex IsPrint (ephSpec eph)) /\
  gauge (eoWorld out) GPFetchReady (ephMeta eph) = Some 1%Z /\
  ((exists d, eoResult out = Ok (Some d) /\ (0 < d <= propagationRefreshInterval)%Z) \/
   exists e st, eoResult out = Err e /\ eoWritten out = [st] /\ sweep_ended env 1 e).
Proof.
  intros He Hu Hm Hpub Hdown. cbv zeta. unfold eph_reconcile. rewrite He.
  destruct (clamp_frame eph) as [Hcm Hcs]. pose proof (clamp_bounds eph) as Hd.
  destruct (clampRefreshInterval eph) as [[d c] eph1]. cbn [fst snd] in Hcm, Hcs, Hd.
  set (s0 := mkRun w eph1 c []).
  destruct (acquire_down env s0 d entry) as (s1 & o & Ha & Ho);
    [by rewrite (matching_ext _ _ eph)|by cbn; rewrite Hcs|by apply (source_down_ext _ _ eph)|].
  pose proof (acquire_frame env s0 d) as Hf. rewrite Ha in Hf |- *. injection Hf as Ee _ Ew _ _.
  pose proof (prepare_spec env o s1) as Hp.
  destruct (publish_writes env d o s1) as [(e & Hu' & _)|(_ & more & Hw & _ & _ & Hg & Hr)];
    [rewrite Ew in Hu'; cbn in Hu'; congruence|]. rewrite Ew in Hw. cbn [s0 rnWritten app] in Hw.
  pose proof (pr_states _ _ _ _ Hp) as Hst. pose proof (pr_hash _ _ _ _ Hp) as Hh.
  pose proof (pr_ready _ _ _ _ Hp) as Hready. rewrite Ee in Hst, Hh, Hready. cbn [s0 rnEph] in Hst, Hh, Hready.
  rewrite Hcs in Hst, Hh. rewrite Hcm in Hready.
  split; [|split].
  - eexists _, more. split; [exact Hw|]. by rewrite Hst, Hh, Ho.
  - unfold gauge in *. by rewrite Hg.
  - destruct Hr as [Hr|(e & Hr & -> & _ & Hcut)]; [left|right; eexists e, _; split_and!; [done|exact Hw|by rewrite Ew in Hcut]].
    eexists. split; [exact Hr|].
    unfold propagationRefreshInterval, minRefreshInterval, Hour, Minute, Second in *. lia.
Qed.

(** *** A 304 without a body *)

Lemma nothing_published now spec : published now spec [] = [].
Proof. unfold published, tracked, FilterOMMs. by destruct (_ =? 0)%nat. Qed.

(** Nothing is stored for a resource, under its name or the older one. *)
Definition no_copy (store : Store R) (m : ObjectMeta) : Prop :=
  srv_get store (mkKey (Namespace m) (ommCacheConfigMapName sha256hex m)) = NotFound /\
  srv_get store (mkKey (Namespace m) (legacyOMMCacheConfigMapName (Name m))) = NotFound.

Lemma acquire_bodyless env w eph eph1 c d f r :
  ephMeta eph1 = ephMeta eph -> ephSpec eph1 = ephSpec eph ->
  owCache (ewCache w) !! ObjectKeyFromObject (ephMeta eph) = None ->
  no_copy (owStore (ewCache w)) (ephMeta eph) -> eeOther env 1 = id ->
  fetcherForSource IsPrint env eph = Ok f ->
  publicHTTPSource unicode_lower url_parse env (esURL (Source (ephSpec eph))) = None ->
  (fetch_from env (ewCache w) f (esURL (Source (ephSpec eph)))).1 = Ok r ->
  NotModified r = true -> OMMs r = [] ->
  exists s1, acquire env (mkRun w eph1 c []) d = (s1, Acquired (mkOutcome r false None)) /\
    owCache (ewCache (rnWorld s1)) !! ObjectKeyFromObject (ephMeta eph) =
      Some (fresh_entry r (fetchInputKey IsPrint (ephSpec eph)) (oUID (ephMeta eph))).
Proof.
  intros Hcm Hcs Hcold [Hget Hlegacy] Hother Hf Hpub Hfetch Hnm Hempty. set (s0 := mkRun w eph1 c []).
  unfold acquireOMMs. set (s' := map_world _ s0).
  assert (s' = s0) as ->.
  { unfold s', map_world, restoreOMMCache, hydrateFromCacheObject. cbn [rnWorld rnEph s0].
    rewrite Hcm, Hcold, Hget. cbn [owStore with_store]. rewrite Hother. unfold id. rewrite Hlegacy.
    cbn. by destruct w as [[] ? ?]. }
  unfold cacheServe, matchingCache. cbn [rnWorld rnEph s0]. rewrite Hcm, Hcold.
  replace (fetcherForSource IsPrint env eph1) with (fetcherForSource IsPrint env eph)
    by (unfold fetcherForSource; by rewrite Hcm, Hcs).
  rewrite Hf. unfold obtainOMMs. cbn [rnEph rnWorld s0]. rewrite Hcs, Hpub.
  unfold fetch_from in Hfetch |- *. cbn [owSources with_store].
  set (x := match f with UseCelesTrak => _ | UseSpaceTrack _ _ => _ end) in Hfetch |- *.
  destruct x as [r' src]. cbn [fst] in Hfetch. subst r'.
  rewrite Hnm, Hempty. cbn [length Nat.eqb andb]. unfold matchingCache. cbn [owCache with_sources with_store].
  rewrite Hcm, Hcold. eexists. split; [reflexivity|].
  unfold persistOMMCache, ommCachePayload, FilterOMMs. rewrite Hempty.
  assert (Hp : forall b : bool, length (firstn maxPropagatedStates (if b then [] else List.filter (fun o : OMM => bool_decide
    (NoradCatID o ∈ selected_norads (ephSpec eph))) [])) = 0%nat) by (by intros []).
  cbn [map_world rnWorld ewCache with_cache rnEph]. rewrite Hcs, Hp. cbn [Nat.eqb with_entry map_world rnWorld ewCache
    with_cache put_entry owCache rnEph s0]. rewrite Hcm. apply lookup_insert_eq.
Qed.

(** A resource without a copy that is answered 304 without element sets caches
    the empty set as a good fetch, publishes no state and reports readiness. *)
Lemma empty_answer_is_cached env w eph f r :
  eeEph env = Found eph -> eeStatusUpdate env 0 = None ->
  owCache (ewCache w) !! ObjectKeyFromObject (ephMeta eph) = None ->
  no_copy (owStore (ewCache w)) (ephMeta eph) -> eeOther env 1 = id ->
  fetcherForSource IsPrint env eph = Ok f ->
  publicHTTPSource unicode_lower url_parse env (esURL (Source (ephSpec eph))) = None ->
  (fetch_from env (ewCache w) f (esURL (Source (ephSpec eph)))).1 = Ok r ->
  NotModified r = true -> OMMs r = [] ->
  let out := reconcile env w in
  (exists st more, eoWritten out = st :: more /\ PropagatedStates st = []) /\
  gauge (eoWorld out) GPFetchReady (ephMeta eph) = Some 1%Z /\
  exists entry, owCache (ewCache (eoWorld out)) !! ObjectKeyFromObject (ephMeta eph) = Some entry /\
    cfResult entry = r.
Proof.
  intros He Hu Hcold Hget Hother Hf Hpub Hfetch Hnm Hempty. cbv zeta. unfold eph_reconcile. rewrite He.
  destruct (clamp_frame eph) as [Hcm Hcs].
  destruct (clampRefreshInterval eph) as [[d c] eph1]. cbn [snd] in Hcm, Hcs.
  set (s0 := mkRun w eph1 c []).
  destruct (acquire_bodyless env w eph eph1 c d f r) as (s1 & Ha & Hentry); [done..|]. fold s0 in Ha.
  pose proof (acquire_frame env s0 d) as Hfr. rewrite Ha in Hfr |- *.
  injection Hfr as Ee _ Ew _ _. set (o := mkOutcome r false None).
  pose proof (prepare_spec env o s1) as Hp. pose proof (pr_states _ _ _ _ Hp) as Hst.
  pose proof (pr_ready _ _ _ _ Hp) as Hready. rewrite Ee in Hready. cbn [s0 rnEph] in Hready.
  rewrite Hcm in Hready. cbn [o foResult] in Hst. rewrite Hempty, nothing_published in Hst.
  destruct (publish_writes env d o s1) as [(e & Hu' & _)|(_ & more & Hw & _ & _ & Hg & _)];
    [rewrite Ew in Hu'; cbn in Hu'; congruence|]. rewrite Ew in Hw.
  split; [|split].
  - eexists _, more. split; [exact Hw|exact Hst].
  - unfold gauge in *. by rewrite Hg.
  - rewrite publish_cache. by eexists.
Qed.

(** ** Politeness and secrecy *)

(** The same environment with other answers from outside the cluster's status:
    Secrets, the resolver and the time of a fetch. *)
Definition with_outside (env : EphEnv (R := R)) (secret : NamespacedName -> GetResult Secret)
  (lookup : string -> option (list IP)) (fetchTime afterFetch : Time) : EphEnv (R := R) :=
  mkEphEnv (eeKey env) (eeEph env) (eeNow env) fetchTime afterFetch (eePropagateNow env) (eeSweepDone env)
    (eeWall env) secret lookup (eeStations env) (eeSweepStations env) (eeOther env) (eeStatusUpdate env)
    (eeOrder env) (eeContext env).

(** C17. While the cache can answer (inside the refresh window, or inside the
    backoff of a failed fetch with unchanged credentials reference and interval) the
    source is not contacted, no Secret is read and no name resolved: the
    fetchers, the entry and the stored copy stay as they were, and the outcome
    does not depend on any of them. *)
Theorem cache_answers_alone env w eph secret lookup fetchTime afterFetch :
  eeEph env = Found eph ->
  cacheServe IsPrint (ewCache w) eph (eeNow env) (clampRefreshInterval eph).1.1 <> cacheServeNone ->
  ewCache (eoWorld (reconcile env w)) = ewCache w /\
  reconcile (with_outside env secret lookup fetchTime afterFetch) w = reconcile env w.
Proof.
  intros He Hs. unfold eph_reconcile. cbn [eeEph with_outside]. rewrite He.
  destruct (clamp_frame eph) as [Hm Hspec].
  destruct (clampRefreshInterval eph) as [[d c] eph1]. cbn [fst snd] in *. set (s0 := mkRun w eph1 c []).
  assert (Hs0 : cacheServe IsPrint (ewCache w) eph1 (eeNow env) d <> cacheServeNone).
  { revert Hs. unfold cacheServe. by rewrite (matching_ext _ eph1 eph), Hspec. }
  assert (exists entry, matchingCache IsPrint (ewCache w) eph1 = Some entry) as [entry Hentry].
  { revert Hs0. unfold cacheServe. destruct (matchingCache _ _ _); [by eexists|done]. }
  assert (exists o, forall env', eeNow env' = eeNow env -> acquire env' s0 d = (s0, Acquired o)) as [o Ho].
  { clear Hs. pose proof (fun env' => acquire_warm env' s0 d entry Hentry) as Hw.
    cbn [rnWorld rnEph s0] in Hw. destruct (cacheServe _ _ _ _ _) as [|x|x] eqn:Ec; [done|..];
      eexists; intros env' Hn; rewrite Hw, Hn, Ec; reflexivity. }
  rewrite (Ho env eq_refl), (Ho (with_outside env secret lookup fetchTime afterFetch) eq_refl).
  split; [apply publish_cache|reflexivity].
Qed.

(** A Secret that gives no credentials. *)
Definition no_credentials (src : EphemerisSource) (r : GetResult Secret) : Prop :=
  match r, esCredentials src with
  | Found s, Some c =>
      secData s !! (if str_eqb (srKey c) "" then "password" else srKey c) = None \/ secData s !! "username" = None
  | _, _ => True
  end.

Lemma fetcherForSource_blind (env env' : EphEnv (R := R)) eph :
  (forall k, no_credentials (Source (ephSpec eph)) (eeSecret env k)) ->
  (forall k, no_credentials (Source (ephSpec eph)) (eeSecret env' k)) ->
  fetcherForSource IsPrint env eph = fetcherForSource IsPrint env' eph.
Proof.
  intros H1 H2. unfold fetcherForSource. destruct (str_eqb _ _); [done|]. destruct (str_eqb _ _); [|done].
  destruct (negb _); [done|]. destruct (esCredentials _) as [c|] eqn:Ec; [|done].
  set (k := mkKey _ _). specialize (H1 k). specialize (H2 k). unfold no_credentials in *. rewrite Ec in *.
  assert (Hu : forall e : EphEnv (R := R), match eeSecret e k with
      | Found s => secData s !! (if str_eqb (srKey c) "" then "password" else srKey c) = None \/ secData s !! "username" = None
      | _ => True end ->
    match eeSecret e k with
    | Found secret => match secData secret !! (if str_eqb (srKey c) "" then "password" else srKey c), secData secret !! "username" with
                      | Some password, Some username => Ok (UseSpaceTrack username password)
                      | _, _ => Err errSpaceTrackCredentialUnavailable
                      end
    | _ => Err errSpaceTrackCredentialUnavailable
    end = Err errSpaceTrackCredentialUnavailable).
  { intros e. destruct (eeSecret e k) as [s| |]; [|done..].
    intros [->| ->]; [done|]. by destruct (secData s !! _). }
  by rewrite (Hu env H1), (Hu env' H2).
Qed.

(** Nothing can be learnt about a Secret that gives no credentials: a missing
    Secret, an unreadable one, and one without the key or the user name lead to
    the same status, events, series and requeue, whatever else it holds. *)
Theorem secrets_stay_unknown env w eph s1 s2 :
  eeEph env = Found eph ->
  (forall k, no_credentials (Source (ephSpec eph)) (s1 k)) ->
  (forall k, no_credentials (Source (ephSpec eph)) (s2 k)) ->
  reconcile (with_outside env s1 (eeLookup env) (eeFetchTime env) (eeAfterFetch env)) w =
  reconcile (with_outside env s2 (eeLookup env) (eeFetchTime env) (eeAfterFetch env)) w.
Proof.
  intros He H1 H2. unfold eph_reconcile. cbn [eeEph with_outside]. rewrite He.
  destruct (clamp_frame eph) as [Hm Hspec].
  destruct (clampRefreshInterval eph) as [[d c] eph1]. cbn [snd] in Hspec. unfold acquireOMMs.
  rewrite (fetcherForSource_blind (with_outside env s1 (eeLookup env) (eeFetchTime env) (eeAfterFetch env))
             (with_outside env s2 (eeLookup env) (eeFetchTime env) (eeAfterFetch env)));
    [reflexivity|intros k; cbn [rnEph map_world with_outside eeSecret]; rewrite Hspec; auto..].
Qed.

(** ** Producer and consumer *)

Lemma unix_milli_floor t : (UnixMilli (to_unix_milli t) <= t)%Z.
Proof.
  unfold UnixMilli, to_unix_milli, Millisecond.
  pose proof (Z.mul_div_le (t - unix_epoch) 1000000 ltac:(lia)). lia.
Qed.

Lemma unix_milli_later t u : (t + Millisecond <= u)%Z -> (to_unix_milli t < to_unix_milli u)%Z.
Proof.
  intros H. unfold to_unix_milli, Millisecond in *.
  pose proof (Z.div_le_mono (t - unix_epoch + 1 * 1000000) (u - unix_epoch) 1000000 ltac:(lia) ltac:(lia)) as Hm.
  rewrite Z.div_add in Hm by lia. lia.
Qed.

(** The delay after which a reconcile that published asks to come back. *)
Lemma requeue_bound env w eph st d :
  eeEph env = Found eph -> st ∈ eoWritten (reconcile env w) -> states_part st <> states_part (ephStatus eph) ->
  eoResult (reconcile env w) = Ok (Some d) -> (0 < d <= propagationRefreshInterval)%Z.
Proof.
  intros He. unfold eph_reconcile. rewrite He. destruct (clamp_states eph) as [Hst _]. pose proof (clamp_bounds eph) as Hd.
  destruct (clampRefreshInterval eph) as [[d0 c] eph1]. cbn [fst snd] in Hst, Hd.
  set (s0 := mkRun w eph1 c []). pose proof (acquire_frame env s0 d0) as Ha.
  destruct (acquire env s0 d0) as [s1 [o|r]]; cbn [acquire_spec] in Ha.
  - intros _ _ Hr. destruct (publish_writes env d0 o s1) as [(e & _ & Hr' & _)|(_ & l & _ & _ & _ & _ & [Hr'|(e & Hr' & _)])];
      rewrite Hr' in Hr; [done| |done]. injection Hr as <-.
    unfold propagationRefreshInterval, minRefreshInterval, Hour, Minute, Second in *. lia.
  - destruct Ha as [_ [(e & _ & _ & Ew & _)|(_ & x & Ew & _ & Hx & _)]]; cbn [finish eoWritten run_gauge map_world rnWritten];
      rewrite Ew; cbn [rnWritten s0 app]; [set_solver|]. intros ->%list_elem_of_singleton Hne. destruct Hne. rewrite Hx. exact Hst.
Qed.

(** C11. The heartbeat is fast enough: take a reconcile that publishes a state and
    asks to come back after a delay, and that takes, writes and sweep included, at
    most 109 seconds from its propagation to its end.  Then the delay is at most
    three minutes, and until it is over, when the next reconcile is due, the
    state passes the currency gates of the cell controller, unless its element
    set has meanwhile passed the age of seven days; so a cell that reconciles off
    cycle finds an epoch ahead of it, and what the producer propagates is never
    refused as implausible.  Nothing bounds the time of a sweep, and after a longer
    one the epoch may have passed. *)
Theorem heartbeat_in_time env w eph st ps ended delay ce cell_eph :
  eeEph env = Found eph -> st ∈ eoWritten (reconcile env w) ->
  ps ∈ PropagatedStates st -> ps ∉ PropagatedStates (ephStatus eph) ->
  eoResult (reconcile env w) = Ok (Some delay) ->
  (eePropagateNow env <= ended <= eePropagateNow env + 109 * Second)%Z ->
  (0 < delay <= 3 * Minute)%Z /\
  ((eePropagateNow env <= ceSourceNow ce)%Z -> (ceEpochNow ce <= ended + delay)%Z ->
   currency_error IsPrint cell_eph ps ce = None <->
   sourceEpochFresh (ceSourceNow ce) (UnixMilli (psSourceEpochUnixMs ps)) = None).
Proof.
  intros He Hin Hps Hnew Hres Hended.
  assert (Hd : (0 < delay <= propagationRefreshInterval)%Z).
  { eapply requeue_bound; [exact He|exact Hin| |exact Hres]. intros [= E _]. by rewrite E in Hps. }
  split; [exact Hd|]. intros Hsrc Hepoch.
  assert (Hlead : (propagationEpochLead = propagationRefreshInterval + 109 * Second + epochSkewMargin + Second)%Z) by reflexivity.
  destruct (reconcile_writes env w eph st He Hin) as [_ [[= Hst _]|(d & c & s' & out & _ & Hst & _)] _]; [by rewrite Hst in Hps|].
  rewrite Hst in Hps. apply published_elem in Hps as (o & t & e & _ & _ & Hpl & _ & ->).
  unfold currency_error. cbn [state_of psEpochUnixMs psSourceEpochUnixMs].
  assert (Hlater : (to_unix_milli (Add (ceEpochNow ce) epochSkewMargin) <
                    to_unix_milli (Add (eePropagateNow env) propagationEpochLead))%Z).
  { apply unix_milli_later. unfold Add. rewrite Hlead. unfold Millisecond, Second in *. lia. }
  destruct (Z.leb_spec (to_unix_milli (Add (eePropagateNow env) propagationEpochLead))
              (to_unix_milli (Add (ceEpochNow ce) epochSkewMargin))); [lia|].
  apply plausible_iff in Hpl. pose proof (unix_milli_floor t).
  destruct (sourceEpochPlausible (ceSourceNow ce) _) as [err|] eqn:Ep.
  { assert (sourceEpochPlausible (ceSourceNow ce) (UnixMilli (to_unix_milli t)) = None) as Hn by (apply plausible_iff; lia).
    congruence. }
  by destruct (sourceEpochFresh _ _).
Qed.

(** ** The cache holds usable element sets only *)

Context `{US : !UsableSources F}.

Definition cache_ok (c : CacheWorld (R := R) (F := F)) : Prop :=
  src_ok (owSources c) /\ forall k e, owCache c !! k = Some e -> Forall usable (OMMs (cfResult e)).

Lemma cache_ok_put c k e : cache_ok c -> Forall usable (OMMs (cfResult e)) -> cache_ok (put_entry c k e).
Proof. intros [Hs Hc] He. split; [done|]. cbn. intros k' e' [[_ <-]|[_ H]]%lookup_insert_Some; [done|by eapply Hc]. Qed.

Lemma cache_ok_same c c' : owSources c' = owSources c -> owCache c' = owCache c -> cache_ok c -> cache_ok c'.
Proof. unfold cache_ok. by intros -> ->. Qed.

Lemma check_copy_usable (cm : ConfigMap R) uid key l : check_copy sha256hex ParseOMMs cm uid key = Ok l -> Forall usable l.
Proof.
  unfold check_copy. repeat (case_match; try done). intros [= <-]. by eapply parsed_usable.
Qed.

Lemma early_cache env (s : Run (R := R) (F := F)) events r :
  ewCache (rnWorld (early (persist_and_return env s events r)).1) = ewCache (rnWorld s).
Proof.
  unfold early, persist_and_return. destruct (persistEphStatus env s) as [s'|] eqn:E; [|done].
  by apply status_write_spec in E as (_ & _ & _ & _ & Hc & _).
Qed.

Lemma fetch_ok env c f url :
  cache_ok c -> let '(r, c') := fetch_from env c f url in
  cache_ok c' /\ forall x, r = Ok x -> Forall usable (OMMs x).
Proof.
  intros [Hs Hc]. unfold fetch_from. destruct f as [|u p].
  - destruct (celestrak_ok (owSources c) (eeFetchTime env) url Hs) as [H1 H2].
    destruct (src_celestrak _ _ _) as [r src]. by split.
  - destruct (spacetrack_ok (owSources c) (eeFetchTime env) u p url Hs) as [H1 H2].
    destruct (src_spacetrack _ _ _ _ _) as [r src]. by split.
Qed.

Lemma hydrate_ok other now c eph key name legacy :
  cache_ok c -> cache_ok (hydrateFromCacheObject sha256hex ParseOMMs other now c eph key name legacy).2.
Proof.
  intros Hok. unfold hydrateFromCacheObject. destruct (srv_get _ _) as [cm| |]; [|done..].
  destruct (check_copy _ _ cm _ _) as [l|r] eqn:Ec.
  - assert (Hl : Forall usable l) by (eapply check_copy_usable; exact Ec).
    set (e := fresh_entry _ _ _). pose proof (cache_ok_put c (ObjectKeyFromObject (ephMeta eph)) e Hok Hl) as [H1 H2].
    set (c1 := put_entry _ _ _) in *. set (c2 := if str_eqb _ _ then _ else c1).
    assert (Hc2 : cache_ok c2).
    { unfold c2. destruct (str_eqb _ _); [|done]. split; [by apply seed_ok|done]. }
    apply (cache_ok_same c2); [by destruct (IsZero _), legacy..|done].
  - by destruct r.
Qed.

Lemma restore_ok other now c eph key :
  cache_ok c -> cache_ok (restoreOMMCache sha256hex ParseOMMs other now c eph key).2.
Proof.
  intros Hok. unfold restoreOMMCache. destruct (owCache c !! _); [done|].
  pose proof (hydrate_ok other now c eph key (ommCacheConfigMapName sha256hex (ephMeta eph)) false Hok) as H.
  destruct (hydrateFromCacheObject _ _ _ _ _ _ _ _ _) as [[] c1]; cbn [snd] in H; [done|].
  by apply hydrate_ok.
Qed.

Lemma persist_ok_cache other c eph r key :
  cache_ok c -> cache_ok (persistOMMCache sha256hex marshal_omms other c eph r key).
Proof. apply cache_ok_same; unfold persistOMMCache; repeat case_match; done. Qed.

Lemma obtain_ok env s f d :
  cache_ok (ewCache (rnWorld s)) -> cache_ok (ewCache (rnWorld (obtain env s f d).1)).
Proof.
  intros Hok. unfold obtainOMMs. destruct (publicHTTPSource _ _ _ _) as [ip|].
  { unfold handleInsecureURL. by rewrite early_cache. }
  pose proof (fetch_ok env (ewCache (rnWorld s)) f (esURL (Source (ephSpec (rnEph s)))) Hok) as Hf.
  destruct (fetch_from _ _ _ _) as [[r|e] c]; destruct Hf as [Hc Hr].
  - assert (Hfresh : cache_ok (persistOMMCache sha256hex marshal_omms (eeOther env)
      (put_entry c (ObjectKeyFromObject (ephMeta (rnEph s)))
        (fresh_entry r (fetchInputKey IsPrint (ephSpec (rnEph s))) (oUID (ephMeta (rnEph s))))) (rnEph s) r
      (fetchInputKey IsPrint (ephSpec (rnEph s))))).
    { apply persist_ok_cache, cache_ok_put; [done|]. by apply Hr. }
    destruct (NotModified r && _); [|exact Hfresh].
    destruct (matchingCache IsPrint c (rnEph s)) as [e|] eqn:Em; [|exact Hfresh].
    destruct (length _ =? 0)%nat; [exact Hfresh|].
    apply cache_ok_put; [done|]. apply matching_entry in Em. exact (proj2 Hc _ _ Em).
  - destruct (matchingCache IsPrint c (rnEph s)) as [x|] eqn:Em.
    + apply cache_ok_put; [done|]. apply matching_entry in Em.
      unfold applyFetchBackoff. cbn. exact (proj2 Hc _ _ Em).
    + unfold handleFetchError. destruct (classifyFetchError e d) as [[] ]. by rewrite early_cache.
Qed.

Lemma acquire_ok env s d :
  cache_ok (ewCache (rnWorld s)) -> cache_ok (ewCache (rnWorld (acquire env s d).1)).
Proof.
  intros Hok. unfold acquireOMMs. set (s0 := map_world _ s).
  assert (H0 : cache_ok (ewCache (rnWorld s0))) by (by apply restore_ok).
  destruct (cacheServe _ _ _ _ _); [|done..]. destruct (fetcherForSource _ _ _) as [f|e]; [by apply obtain_ok|].
  destruct (matchingCache _ _ _); [done|]. unfold handleSetupFailure. by rewrite early_cache.
Qed.

Lemma obtained_usable env s f d s' o :
  cache_ok (ewCache (rnWorld s)) -> obtain env s f d = (s', Acquired o) -> Forall usable (OMMs (foResult o)).
Proof.
  intros Hok. unfold obtainOMMs. destruct (publicHTTPSource _ _ _ _) as [ip|]; [done|].
  pose proof (fetch_ok env (ewCache (rnWorld s)) f (esURL (Source (ephSpec (rnEph s)))) Hok) as Hf.
  destruct (fetch_from _ _ _ _) as [[r|e] c]; destruct Hf as [Hc Hr];
    destruct (matchingCache IsPrint c (rnEph s)) as [x|] eqn:Em;
    try (apply matching_entry in Em; assert (Hx := proj2 Hc _ _ Em)).
  - destruct (NotModified r && _); [|intros [= _ <-]; by apply Hr].
    destruct (length (OMMs (cfResult x)) =? 0)%nat; [intros [= _ <-]; by apply Hr|]. by intros [= _ <-].
  - destruct (NotModified r && _); intros [= _ <-]; by apply Hr.
  - by intros [= _ <-].
  - by unfold early.
Qed.

(** What is propagated and predicted from is usable, be it fetched, restored or
    served from memory. *)
Lemma acquired_usable env s d s' o :
  cache_ok (ewCache (rnWorld s)) -> acquire env s d = (s', Acquired o) -> Forall usable (OMMs (foResult o)).
Proof.
  intros Hok. unfold acquireOMMs. set (s0 := map_world _ s).
  assert (H0 : cache_ok (ewCache (rnWorld s0))) by (by apply restore_ok).
  pose proof (cacheServe_entry (ewCache (rnWorld s0)) (rnEph s) (eeNow env) d) as Hs.
  destruct (matchingCache IsPrint (ewCache (rnWorld s0)) (rnEph s)) as [x|] eqn:Em0.
  2: { unfold cacheServe. rewrite Em0. destruct (fetcherForSource _ _ _) as [f|e]; [|done]. by apply obtained_usable. }
  assert (Hx : Forall usable (OMMs (cfResult x))).
  { apply matching_entry in Em0. exact (proj2 H0 _ _ Em0). }
  specialize (Hs x eq_refl). destruct (cacheServe _ _ _ _ _) as [|c|c]; [|subst c; by intros [= _ <-]..].
  destruct (fetcherForSource _ _ _) as [f|e]; [by apply obtained_usable|]. by intros [= _ <-].
Qed.

(** Nothing the propagator cannot work with gets into the cache: from usable
    entries every reconcile, of any resource and with any answers of the sources
    and of the stored copies, leads to usable entries (finite elements, positive
    mean motion, eccentricity in [0, 1), inclination in [0, 180]). *)
Theorem cache_stays_usable env w :
  cache_ok (ewCache w) -> cache_ok (ewCache (eoWorld (reconcile env w))).
Proof.
  intros Hok. unfold eph_reconcile. destruct (eeEph env) as [eph| |e]; [|..].
  - destruct (clampRefreshInterval eph) as [[d c] eph1]. set (s0 := mkRun w eph1 c []).
    pose proof (acquire_ok env s0 d Hok) as Ha. destruct (acquire env s0 d) as [s1 [o|r]]; [|done].
    cbn [fst] in Ha. by rewrite publish_cache.
  - destruct Hok as [Hs Hc]. split; [done|]. cbn. intros k e [_ H]%lookup_delete_Some. by eapply Hc.
  - done.
Qed.

(** ** Deletion *)

(** When a resource is gone, nothing of it stays behind in the process, and
    nothing of the others is touched. *)
Theorem deletion_forgets env w :
  eeEph env = NotFound ->
  let out := reconcile env w in
  let label := (kNamespace (eeKey env), kName (eeKey env)) in
  owCache (ewCache (eoWorld out)) = delete (eeKey env) (owCache (ewCache w)) /\
  (forall metric l, ewGauges (eoWorld out) !! (metric, l) =
     if decide (l = label) then None else ewGauges w !! (metric, l)) /\
  (forall l r, OMMCachePersistTotal (owSeries (ewCache (eoWorld out))) !! (l, r) =
     if decide (l = label) then None else OMMCachePersistTotal (owSeries (ewCache w)) !! (l, r)) /\
  ewRecorded (eoWorld out) = ewRecorded w /\ eoWritten out = [] /\ eoResult out = Ok None.
Proof.
  intros He. cbv zeta. unfold eph_reconcile. rewrite He. cbn. split_and!; [done| | |done..].
  - intros metric l. rewrite map_lookup_filter. destruct (ewGauges w !! _); cbn; repeat case_guard || case_decide; done.
  - intros l r. rewrite map_lookup_filter. destruct (OMMCachePersistTotal _ !! _); cbn; repeat case_guard || case_decide; done.
Qed.

End Safety.
