(* ===== verification/EphemerisWiring.v ===== *)
(** * How the SatelliteEphemeris controller is put together

    The instances of the controller's two interfaces: the fetchers of
    [Fetchers] as its element-set sources ([ElementSources], with the promise of
    [UsableSources]), and the functions of [Propagator] and [PassPredictor] as
    its orbit model ([OrbitModel]).  The theorems of [EphemerisSafety] hold of
    the controller with these parts. *)

From S2P Require Import Prelude GoStrings GoNet GoTime GoFloat K8sMeta CellApi PassPredictor Propagator Fetchers EphemerisApi EphemerisCache EphemerisController.
Local Open Scope string_scope.

(** ** The fetchers as sources *)

Section Sources.

Variable http_ParseTime : string -> option Time.
Variable IsPrint : N -> bool.
Variable ParseOMMs : string -> result string (list OMM).
Variable new_request_err : string -> option string.
Variable baseURL : string.
Variable parse_origin : string -> result string (string * string).
Variable fold_unicode : string -> string.
Variable json_object : string -> option (list (string * option string)).
Variable unicode_lower : string -> string.
(** The network behind the two clients. *)
Variable Net : Type.
Variable celestrak_get : Net -> GPRequest -> result string Response * Net.
Variable spacetrack_do : Net -> st_request -> result string Response * Net.

(** The two fetchers of the process; the Space-Track client and the CelesTrak
    client share the network. *)
Record Fetchers := mkFetchers { fsCelesTrak : CelesTrakFetcher; fsSpaceTrack : Session Net }.

Definition net_of (f : Fetchers) : Net := sClient Net (fsSpaceTrack f).

Definition with_net (f : Fetchers) (c : CelesTrakFetcher) (n : Net) : Fetchers :=
  mkFetchers c (mkSession Net (sFetcher Net (fsSpaceTrack f)) n (sLog Net (fsSpaceTrack f))).

Definition fetch_celestrak (f : Fetchers) (now : Time) (url : string) : result fetch_error GPFetchResult * Fetchers :=
  let '(answer, n) := celestrak_get (net_of f) (celestrak_request (fsCelesTrak f) url) in
  let '(r, c) := celestrak_fetch http_ParseTime IsPrint ParseOMMs new_request_err (fun _ => answer) now
                   (fsCelesTrak f) url in
  (r, with_net f c (match new_request_err url with Some _ => net_of f | None => n end)).

Definition fetch_spacetrack (f : Fetchers) (now : Time) (username password url : string)
  : result fetch_error GPFetchResult * Fetchers :=
  let '(r, s) := FetchWithCredentials http_ParseTime IsPrint ParseOMMs baseURL parse_origin fold_unicode
                   new_request_err json_object unicode_lower Net spacetrack_do now (fsSpaceTrack f) url
                   username password in
  (r, mkFetchers (fsCelesTrak f) s).

Definition seed_celestrak (f : Fetchers) (url etag lastModified : string) : Fetchers :=
  mkFetchers (SeedConditionalCache (fsCelesTrak f) url etag lastModified) (fsSpaceTrack f).

#[export] Instance fetchers_are_sources : ElementSources Fetchers := {
  celestrak_configured := true;
  spacetrack_configured := true;
  src_celestrak := fetch_celestrak;
  src_spacetrack := fetch_spacetrack;
  src_seed := seed_celestrak
}.

(** *** The fetchers keep the promise of the sources *)

Definition fetched_usable (c : CelesTrakFetcher) : Prop :=
  forall url l, ommCache c !! url = Some l -> Forall usable l.

Lemma download_usable c url l etag lm :
  fetched_usable c -> Forall usable l -> fetched_usable (fold_left store (download_stores url l etag lm) c).
Proof.
  intros Hc Hl.
  assert (E : ommCache (fold_left store (download_stores url l etag lm) c) = <[url := l]> (ommCache c))
    by (unfold download_stores; by destruct (str_eqb etag ""), (str_eqb lm "")).
  intros u k. rewrite E. intros [[_ <-]|[_ H]]%lookup_insert_Some; [done|by eapply Hc].
Qed.

Lemma answer_usable c url now resp :
  fetched_usable c ->
  let '(r, stores) := celestrak_answer http_ParseTime IsPrint ParseOMMs c url now resp in
  fetched_usable (fold_left store stores c) /\ forall x, r = Ok x -> Forall usable (OMMs x).
Proof.
  intros Hc. unfold celestrak_answer. destruct (_ =? 304)%Z.
  { split; [done|]. intros x [= <-]. cbn. destruct (ommCache c !! url) as [l|] eqn:E; [by eapply Hc|constructor]. }
  destruct (_ =? 200)%Z; [|by destruct (_ || _)].
  destruct (read_limited _ _) as [body|]; [|done]. destruct (_ <? _)%Z; [done|].
  destruct (ParseValidOMMs _ _) as [l|] eqn:Ep; [|done]. apply parsed_usable in Ep.
  split; [by apply download_usable|]. by intros x [= <-].
Qed.

Lemma fetch_celestrak_usable f now url :
  fetched_usable (fsCelesTrak f) ->
  fetched_usable (fsCelesTrak (fetch_celestrak f now url).2) /\
  forall r, (fetch_celestrak f now url).1 = Ok r -> Forall usable (OMMs r).
Proof.
  intros Hc. unfold fetch_celestrak, celestrak_fetch. destruct (celestrak_get _ _) as [[resp|e] n];
    destruct (new_request_err url); try done.
  pose proof (answer_usable (fsCelesTrak f) url now resp Hc) as Ha.
  by destruct (celestrak_answer _ _ _ _ _ _ _) as [r stores].
Qed.

Lemma fetch_spacetrack_usable f now u p url :
  fsCelesTrak (fetch_spacetrack f now u p url).2 = fsCelesTrak f /\
  forall r, (fetch_spacetrack f now u p url).1 = Ok r -> Forall usable (OMMs r).
Proof.
  unfold fetch_spacetrack. destruct (FetchWithCredentials _ _ _ _ _ _ _ _ _ _ _ _ _ _ _ _) as [x s] eqn:E.
  split; [done|]. cbn [fst]. intros r ->. revert E. unfold FetchWithCredentials.
  destruct (validateGPURL _ _ _ _); [done|]. destruct (_ || _); [done|].
  match goal with |- context [match ?a with pair _ _ => _ end = _] => destruct a as [[e|] s1] end; [done|].
  destruct (query_with_retry _ _ _ _ _ _ _ _ _ _ _ _ _) as [[body|e] s2]; [|done].
  unfold parseGPResult. destruct (ParseValidOMMs _ _) as [l|] eqn:Ep; [|done].
  apply parsed_usable in Ep. by intros [= <- _].
Qed.

#[export] Instance fetchers_usable : UsableSources Fetchers.
Proof.
  refine {| src_ok f := fetched_usable (fsCelesTrak f) |}.
  - apply fetch_celestrak_usable.
  - intros f t u p url Hf. destruct (fetch_spacetrack_usable f t u p url) as [E H]. cbn. by rewrite E.
  - intros f url e m Hf. unfold src_seed. cbn. unfold SeedConditionalCache. by destruct (str_eqb url "").
Defined.

End Sources.

(** ** The orbit model *)

Section Orbits.

Variable Cos Sin : float64 -> float64.
Variable TLE : Type.
Variable ToTLE : OMM -> result string TLE.
Variable FindPositionAtTime : TLE -> Time -> result string (ECIState * float64).
Variable sort_slice : (PassResult -> PassResult -> bool) -> list PassResult -> list PassResult.
Variable GeneratePasses : TLE -> GroundStation -> Time -> Time -> Z -> result string (list PassDetails).
Variable look_elevation : ECIState * float64 -> GroundStation -> Time -> option float64.

#[export] Instance sgp4_model : OrbitModel.
Proof.
  refine {|
    om_propagate := PropagateToECEF Cos Sin TLE ToTLE FindPositionAtTime;
    om_predict := PredictPasses sort_slice TLE ToTLE GeneratePasses (ECIState * float64)
      (fun tle t => match FindPositionAtTime tle t with Ok x => Some x | Err _ => None end) look_elevation
  |}.
  intros o t e. unfold PropagateToECEF. destruct (ToTLE o); [|done].
  destruct (FindPositionAtTime _ t) as [[eci gmst]|]; [|done].
  destruct (check_ranges _) eqn:Ec; [done|]. intros [= <-]. by apply check_ranges_ok.
Defined.

End Orbits.
