(* ===== verification/EphemerisRestart.v ===== *)
(** * Two resources with one URL after a restart

    The validators of the CelesTrak fetcher belong to a URL, the element sets a
    restart restores to a resource.  This file follows the process of
    [EphemerisWiring] through a restart: a resource whose copy is restored
    ([restoreOMMCache]) seeds the validators ([SeedConditionalCache]) of a URL
    that another resource, without a copy of its own, fetches next. *)

From S2P Require Import Prelude GoStrings GoNet GoTime GoTimeParse GoFloat K8sMeta NetGuard CellApi PassPredictor Propagator Fetchers EphemerisApi OcuduProvider EphemerisCache CellController EphemerisController EphemerisSafety EphemerisWiring.
Local Open Scope string_scope.

Section Restart.
Context {R : Type} `{CR : ControllerRefs R} `{SRV : ConfigServer R} `{SC : StatusConditions} `{OM : OrbitModel}.
Variable http_ParseTime : string -> option Time.
Variable sha256hex : string -> string.
Variable IsPrint : N -> bool.
Variable marshal_omms : list OMM -> result string string.
Variable ParseOMMs : string -> result string (list OMM).
Variable new_request_err : string -> option string.
Variable baseURL : string.
Variable parse_origin : string -> result string (string * string).
Variable fold_unicode : string -> string.
Variable json_object : string -> option (list (string * option string)).
Variable unicode_lower : string -> string.
Variable url_parse : string -> option URL.
Variable ip_string : IP -> string.
Variable is_context_error : string -> bool.
Variable Net : Type.
Variable celestrak_get : Net -> GPRequest -> result string Response * Net.
Variable spacetrack_do : Net -> st_request -> result string Response * Net.

#[local] Instance process_sources : ElementSources (Fetchers Net) :=
  fetchers_are_sources http_ParseTime IsPrint ParseOMMs new_request_err baseURL parse_origin fold_unicode json_object
    unicode_lower Net celestrak_get spacetrack_do.

Abbreviation process_reconcile := (eph_reconcile (R := R) (F := Fetchers Net) sha256hex IsPrint marshal_omms ParseOMMs
  unicode_lower url_parse ip_string is_context_error).

(** A process that has just started: nothing in memory, no validators. *)
Definition restarted (store : Store R) (session : Session Net) (series : CacheSeries) (gauges : Gauges)
  (recorded : list (NamespacedName * deferredEvent)) : EphWorld (R := R) (F := Fetchers Net) :=
  mkEphWorld (mkCacheWorld store ∅ (mkFetchers Net NewCelesTrakFetcher session) series) gauges recorded.

(** The stored copy of a CelesTrak resource, with the validator of the source. *)
Record copied (store : Store R) (a : SatelliteEphemeris) (etag : string) (fetchedAt : Time) : Prop := {
  co_type : esType (Source (ephSpec a)) = "CelesTrak";
  co_url : esURL (Source (ephSpec a)) <> "";
  co_etag : etag <> "";
  co_copy : exists cm l,
    srv_get store (mkKey (Namespace (ephMeta a)) (ommCacheConfigMapName sha256hex (ephMeta a))) = Found cm /\
    check_copy sha256hex ParseOMMs cm (oUID (ephMeta a)) (fetchInputKey IsPrint (ephSpec a)) = Ok l /\
    get_str (cmAnnotations cm) ommCacheAnnETag = etag /\
    parse_rfc3339nano (get_str (cmAnnotations cm) ommCacheAnnFetchedAt) = Some fetchedAt
}.

Lemma restore_seeds other now store session series a etag fetchedAt :
  copied store a etag fetchedAt ->
  exists lastModified entry c, restoreOMMCache sha256hex ParseOMMs other now
      (mkCacheWorld store ∅ (mkFetchers Net NewCelesTrakFetcher session) series) a (fetchInputKey IsPrint (ephSpec a)) = (true, c) /\
    owStore c = store /\ owCache c = {[ObjectKeyFromObject (ephMeta a) := entry]} /\
    owSources c = mkFetchers Net (SeedConditionalCache NewCelesTrakFetcher (esURL (Source (ephSpec a))) etag lastModified) session /\
    cfFetchKey entry = fetchInputKey IsPrint (ephSpec a) /\ cfUID entry = oUID (ephMeta a) /\
    FetchedAt (cfResult entry) = fetchedAt.
Proof.
  intros [Ht _ _ (cm & l & Hget & Hcheck & He & Hf)].
  exists (get_str (cmAnnotations cm) ommCacheAnnLastModified). unfold restoreOMMCache. cbn [owCache]. rewrite lookup_empty.
  unfold hydrateFromCacheObject. cbn [owStore]. rewrite Hget, Hcheck, Hf, He, Ht. cbn [default str_eqb].
  do 2 eexists. split; [reflexivity|]. by destruct (IsZero _).
Qed.

(** The world after the sibling's reconcile, which serves the restored copy. *)
Lemma sibling_seeds env store session series gauges recorded a etag fetchedAt :
  copied store a etag fetchedAt -> eeEph env = Found a ->
  (Sub (eeNow env) fetchedAt < (clampRefreshInterval a).1.1)%Z ->
  let c := ewCache (eoWorld (process_reconcile env (restarted store session series gauges recorded))) in
  owStore c = store /\ (forall k, k <> ObjectKeyFromObject (ephMeta a) -> owCache c !! k = None) /\
  exists lastModified,
    fsCelesTrak Net (owSources c) = SeedConditionalCache NewCelesTrakFetcher (esURL (Source (ephSpec a))) etag lastModified.
Proof.
  intros Hc He Hw. cbv zeta. unfold eph_reconcile. rewrite He. destruct (clamp_frame a) as [Hm Hs].
  destruct (clampRefreshInterval a) as [[d cl] a1]. cbn [fst snd] in Hw, Hm, Hs. unfold acquireOMMs.
  cbn [rnEph rnWorld map_world restarted ewCache].
  destruct (restore_seeds (eeOther env) (eeWall env) store session series a etag fetchedAt Hc)
    as (lm & entry & c & E & Hst & Hca & Hso & Hk & Hu & Hf).
  assert (Hr : restoreOMMCache sha256hex ParseOMMs (eeOther env) (eeWall env)
    (ewCache (restarted store session series gauges recorded)) a1 (fetchInputKey IsPrint (ephSpec a1)) = (true, c))
    by (rewrite <- E; unfold restoreOMMCache, hydrateFromCacheObject; by rewrite Hm, Hs).
  cbn [restarted ewCache] in Hr. rewrite Hr.
  cbn [snd with_cache ewCache]. unfold cacheServe, matchingCache.
  rewrite Hm, Hs, Hca, lookup_singleton_eq, Hk, Hu, !str_eqb_refl. cbn [negb orb]. rewrite Hf.
  apply Z.ltb_lt in Hw. rewrite Hw, publish_cache. cbn [rnWorld map_world with_cache ewCache restarted]. rewrite Hs in Hr. rewrite Hr. cbn [snd].
  split; [done|]. split; [intros k Hne; rewrite Hca; by rewrite lookup_singleton_ne|]. exists lm. by rewrite Hso.
Qed.

(** C34. A restart can leave a resource dark and ready.  Two CelesTrak resources
    have one URL; the first has a stored copy, still inside its refresh window,
    with the validator of the version the source still has, the second has none.
    Before the restarted process has reconciled the first, a fetch of the URL is
    unconditional; afterwards it carries the first one's validator, although the
    element sets that belong to it were restored for the first resource only.  So
    the source answers the second resource 304; its reconcile stores the empty
    set as a good fetch, publishes no state at all and reports readiness. *)
Theorem restart_goes_dark env_a env_b store session series gauges recorded a b etag fetchedAt :
  copied store a etag fetchedAt -> eeEph env_a = Found a ->
  (Sub (eeNow env_a) fetchedAt < (clampRefreshInterval a).1.1)%Z ->
  eeEph env_b = Found b -> ObjectKeyFromObject (ephMeta b) <> ObjectKeyFromObject (ephMeta a) ->
  esType (Source (ephSpec b)) = "CelesTrak" -> esURL (Source (ephSpec b)) = esURL (Source (ephSpec a)) ->
  no_copy sha256hex store (ephMeta b) -> eeOther env_b 1 = id -> eeStatusUpdate env_b 0 = None ->
  publicHTTPSource unicode_lower url_parse env_b (esURL (Source (ephSpec b))) = None ->
  new_request_err (esURL (Source (ephSpec b))) = None ->
  (forall n req, gpURL req = esURL (Source (ephSpec b)) -> IfNoneMatch req = Some etag ->
     exists resp, (celestrak_get n req).1 = Ok resp /\ rStatus resp = 304%Z) ->
  let w := restarted store session series gauges recorded in
  let w' := eoWorld (process_reconcile env_a w) in
  let request w := celestrak_request (fsCelesTrak Net (owSources (ewCache w))) (esURL (Source (ephSpec b))) in
  let out := process_reconcile env_b w' in
  request w = mkGPRequest (esURL (Source (ephSpec b))) None None /\ IfNoneMatch (request w') = Some etag /\
  (exists st more, eoWritten out = st :: more /\ PropagatedStates st = []) /\
  gauge (eoWorld out) GPFetchReady (ephMeta b) = Some 1%Z /\
  exists entry, owCache (ewCache (eoWorld out)) !! ObjectKeyFromObject (ephMeta b) = Some entry /\
    OMMs (cfResult entry) = [].
Proof.
  intros Hc Hea Hwin Heb Hkey Htype Hurl Hno Hother Hwrite Hpub Hreq Horigin. cbv zeta.
  destruct (sibling_seeds env_a store session series gauges recorded a etag fetchedAt Hc Hea Hwin)
    as (Hst & Hcache & lm & Hct).
  set (w' := eoWorld (process_reconcile env_a (restarted store session series gauges recorded))) in *.
  assert (Hval : etagCache (fsCelesTrak Net (owSources (ewCache w'))) !! esURL (Source (ephSpec b)) = Some etag).
  { rewrite Hct, Hurl. destruct Hc as [_ Hu He _]. unfold SeedConditionalCache, seed.
    apply str_eqb_neq in Hu, He. rewrite Hu. cbn. rewrite He, lookup_empty. apply lookup_insert_eq. }
  assert (Hbody : ommCache (fsCelesTrak Net (owSources (ewCache w'))) !! esURL (Source (ephSpec b)) = None).
  { rewrite Hct. unfold SeedConditionalCache. destruct (str_eqb _ ""); apply lookup_empty. }
  split; [done|]. split; [exact Hval|].
  destruct (Horigin (net_of Net (owSources (ewCache w'))) (celestrak_request (fsCelesTrak Net (owSources (ewCache w')))
    (esURL (Source (ephSpec b)))) eq_refl Hval) as (resp & Hresp & H304).
  assert (Hfetch : exists r, (fetch_from env_b (ewCache w') UseCelesTrak (esURL (Source (ephSpec b)))).1 = Ok r /\
    NotModified r = true /\ OMMs r = []).
  { unfold fetch_from. cbn [src_celestrak process_sources fetchers_are_sources]. unfold fetch_celestrak.
    destruct (celestrak_get _ _) as [ans n]. cbn [fst] in Hresp. subst ans. unfold celestrak_fetch, celestrak_answer.
    rewrite Hreq, H304. eexists. split; [reflexivity|]. unfold cached_result. by rewrite Hbody. }
  destruct Hfetch as (r & Hfetch & Hnm & Hempty).
  destruct (empty_answer_is_cached sha256hex IsPrint marshal_omms ParseOMMs unicode_lower url_parse ip_string
    is_context_error env_b w' b UseCelesTrak r) as (H1 & H2 & entry & H3 & H4); try done.
  - by apply Hcache.
  - by rewrite Hst.
  - unfold fetcherForSource. rewrite Htype. reflexivity.
  - split; [done|]. split; [done|]. exists entry. by rewrite H4.
Qed.

End Restart.
