(* ===== verification/EphemerisDemo.v ===== *)
(** * A concrete ephemeris

    A SatelliteEphemeris resource with a station, a network that is down, and
    environments on which the theorems about the ephemeris controller are applied,
    with their hypotheses discharged by computation. *)

From S2P Require Import Prelude GoStrings GoNet GoJson GoTime GoFloat K8sMeta NetGuard CellApi StationApi PassPredictor OcuduConfig EphemerisApi OcuduProvider CellController CellDemo Propagator Fetchers EphemerisCache EphemerisController EphemerisSafety EphemerisWiring EphemerisRestart.
From Stdlib Require Import Sorting.Sorted Sorting.Permutation.
Local Open Scope string_scope.

#[local] Existing Instance list_conditions.
#[local] Existing Instance demo_refs.
#[local] Existing Instance demo_server.

(** Nobody answers. *)
Definition down_get (n : unit) (r : GPRequest) : result string Response * unit := (Err "connection refused", n).
Definition down_do (n : unit) (r : st_request) : result string Response * unit := (Err "connection refused", n).

#[local] Instance down_sources : ElementSources (Fetchers unit) :=
  fetchers_are_sources no_date only_ascii two_sets no_request_error "https://www.space-track.org" demo_parse_origin
    id (fun _ => None) id unit down_get down_do.

#[local] Instance down_usable : UsableSources (Fetchers unit) :=
  fetchers_usable no_date only_ascii two_sets no_request_error "https://www.space-track.org" demo_parse_origin
    id (fun _ => None) id unit down_get down_do.

(** Every satellite is at one place, and never seen. *)
#[local] Instance still_model : OrbitModel :=
  sgp4_model (fun _ => f_of_Z 1) (fun _ => f_zero) unit (fun _ => Ok tt) (fun _ _ => Ok (demo_eci, f_zero))
    insertion_sort (fun _ _ _ _ _ => Ok []) (fun _ _ _ => None).

Definition wide_hash (s : string) : string := replicate_str 64 "0".
Definition marshal_one (l : list OMM) : result string string :=
  if decide (l = [sample_omm 25544]) then Ok "v1" else Err "unsupported".

(** ** The durable copy *)

Definition tracked_spec (url : string) : SatelliteEphemerisSpec :=
  mkEphSpec (mkEphSource "CelesTrak" url (2 * Hour) None) (Some (mkSelector "" [25544%Z]))
    (Some (mkPassSpec ["gs1"] "10" 0)).

Definition bare_status : SatelliteEphemerisStatus := mkEphStatus "" None None "" 0 0 [] [] [].

Definition tracked_eph (url : string) : SatelliteEphemeris :=
  mkEph (mkMeta "ran" "leo" "u7" 1 None [] ∅) (tracked_spec url) bare_status.

Definition fetch_hour : Time := UnixMilli 1709211600000.

Definition fetched_one : GPFetchResult := mkFetched [sample_omm 25544] 1 fetch_hour false "e1" "".

Definition no_series : CacheSeries := mkCacheSeries ∅ ∅ ∅.
Definition cold_fetchers : Fetchers unit := mkFetchers unit NewCelesTrakFetcher fresh_session.
Definition cold_cache : CacheWorld (R := DemoRef) (F := Fetchers unit) := mkCacheWorld ∅ ∅ cold_fetchers no_series.

Lemma demo_accepting : accepting (R := DemoRef).
Proof.
  split; [done|..].
  - intros s k cm Hs. cbn. rewrite Hs. by eexists.
  - intros s k cm old Hs Hu Hv. cbn. rewrite Hs, Hu, Hv, str_eqb_refl, Z.eqb_refl. by eexists.
  - intros u. by eexists.
Qed.

Lemma demo_codec : codec_ok marshal_one two_sets.
Proof. intros l data. unfold marshal_one. case_decide; [|done]. intros [= <-]. by subst. Qed.

Lemma sample_usable : Forall usable [sample_omm 25544].
Proof. repeat constructor; vm_compute; reflexivity. Qed.

Lemma omm_cache_names_separate_witness :
  (String.length (ommCacheConfigMapName wide_hash (mkMeta "ran" (replicate_str 253 "a") "u" 1 None [] ∅)) <= 253)%nat.
Proof.
  apply (omm_cache_names_separate wide_hash _ (mkMeta "ran" "b" "u" 1 None [] ∅)).
  intros s. vm_compute. reflexivity.
Defined.

Lemma restart_keeps_elements_witness :
  exists w', (restoreOMMCache wide_hash two_sets quiet fetch_hour
      (mkCacheWorld (owStore (persistOMMCache wide_hash marshal_one quiet cold_cache (tracked_eph demo_url) fetched_one
        (fetchInputKey printable (tracked_spec demo_url)))) ∅ cold_fetchers no_series)
      (tracked_eph demo_url) (fetchInputKey printable (tracked_spec demo_url))) = (true, w') /\
    FetchedAt (from_option cfResult fetched_one (matchingCache printable w' (tracked_eph demo_url))) = fetch_hour.
Proof.
  edestruct (restart_keeps_elements wide_hash printable marshal_one two_sets cold_cache (tracked_eph demo_url)
    fetched_one "v1" cold_fetchers no_series fetch_hour demo_accepting demo_codec) as (w' & H1 & H2 & _).
  - discriminate.
  - exact sample_usable.
  - vm_compute. reflexivity.
  - vm_compute. discriminate.
  - vm_compute. split; [discriminate|reflexivity].
  - intros cm. cbn. rewrite lookup_empty. discriminate.
  - exists w'. split; [exact H1|]. rewrite H2. reflexivity.
Defined.

(** The copy of another source with the same payload. *)
Definition old_copy : ConfigMap DemoRef :=
  mkCM "c" 1 [] {[ommCacheLabelKey := ommCacheLabelValue]}
    {[ommCacheAnnDigest := wide_hash "v1"; ommCacheAnnFetchKey := "type=old"]} {[ommCacheDataKey := "v1"]}.

Definition copied_cache : CacheWorld (R := DemoRef) (F := Fetchers unit) :=
  mkCacheWorld {[mkKey "ran" (ommCacheConfigMapName wide_hash (ephMeta (tracked_eph demo_url))) := old_copy]} ∅
    cold_fetchers no_series.

Lemma source_edit_orphans_copy_witness :
  persistOMMCache wide_hash marshal_one quiet copied_cache (tracked_eph demo_url) fetched_one
    (fetchInputKey printable (tracked_spec demo_url)) = copied_cache.
Proof.
  apply (source_edit_orphans_copy wide_hash printable marshal_one two_sets copied_cache (tracked_eph demo_url)
    fetched_one "v1" old_copy fetch_hour quiet demo_accepting); try (vm_compute; reflexivity || discriminate).
Defined.

(** ** The controller *)

Definition demo_station : GroundStationLifecycle :=
  mkGS (mkMeta "ran" "gs1" "g1" 3 None [] ∅)
    (mkGSSpec (mkHardware "v" "m" "" []) (mkDeployment (mkGeo "25.03" "121.56" "") "k3s" "") None None)
    (mkGSStatus PhaseRunning "" "" None None []).

Abbreviation demo_eph_reconcile := (eph_reconcile (R := DemoRef) (F := Fetchers unit) same printable marshal_one two_sets
  lower_ascii CellDemo.demo_url (fun _ => "") (fun _ => false)).

(** Three hours after the fetch: the window is over, and the source is down. *)
Definition later : Time := (fetch_hour + 3 * Hour)%Z.

Definition eph_env (eph : GetResult SatelliteEphemeris) (now : Time) (write : nat -> option string) : EphEnv (R := DemoRef) :=
  mkEphEnv (mkKey "ran" "leo") eph now now now now now now (fun _ => NotFound) (fun _ => None)
    (fun _ => Found demo_station) (fun _ => Found demo_station) quiet write [0%nat] None.

Definition written (n : nat) : option string := None.

Definition warm_entry : cachedFetch :=
  fresh_entry fetched_one (fetchInputKey printable (tracked_spec demo_url)) "u7".

Definition warm_world : EphWorld (R := DemoRef) (F := Fetchers unit) :=
  mkEphWorld (mkCacheWorld ∅ {[mkKey "ran" "leo" := warm_entry]} cold_fetchers no_series) ∅ [].

Definition outage_env : EphEnv (R := DemoRef) := eph_env (Found (tracked_eph demo_url)) later written.
Definition outage := demo_eph_reconcile outage_env warm_world.
Definition outage_status (n : nat) : SatelliteEphemerisStatus := List.nth n (eoWritten outage) bare_status.

Lemma outage_length : length (eoWritten outage) = 2%nat.
Proof. vm_compute. reflexivity. Qed.

Lemma outage_written n : (n < 2)%nat -> outage_status n ∈ eoWritten outage.
Proof.
  rewrite <- outage_length. unfold outage_status. generalize (eoWritten outage). intros l Hn.
  apply list_elem_of_In. by apply List.nth_In.
Qed.

(** What the reconcile does during the outage. *)
Example outage_run :
  (eoResult outage, map psNoradID (PropagatedStates (outage_status 1)),
   map (fun kv => eventReason kv.2) (ewRecorded (eoWorld outage))) =
  (Ok (Some (3 * Minute)%Z), [25544%Z], ["FetchFailedServingCache"; "PassesPredicted"]).
Proof. vm_compute. reflexivity. Qed.

(** The same resource with a window predicted over other inputs. *)
Definition edited_eph : SatelliteEphemeris :=
  mkEph (mkMeta "ran" "leo" "u7" 2 None [] ∅) (tracked_spec demo_url)
    (mkEphStatus "" None None "old" 0 0 [mkPassWindow "SAT" 25544 "gs1" later (later + Minute) "42.0"] [] []).
Definition edited_env : EphEnv (R := DemoRef) := eph_env (Found edited_eph) later written.

Lemma windows_match_inputs_witness :
  (current_signature same printable outage_env (tracked_eph demo_url) =
     Some (LastPassPredictionInputHash (outage_status 1)) /\ LastPassPredictionInputHash (outage_status 1) <> "") /\
  length (NextPassWindows (ephStatus edited_eph)) = 1%nat /\
  exists st, head (eoWritten (demo_eph_reconcile edited_env warm_world)) = Some st /\ NextPassWindows st = [].
Proof.
  split; [split; [|vm_compute; discriminate]|split; [reflexivity|]].
  - refine (proj1 (windows_match_inputs same printable marshal_one two_sets lower_ascii CellDemo.demo_url (fun _ => "")
      (fun _ => false) outage_env warm_world (tracked_eph demo_url) (outage_status 1) _ _) _).
    + reflexivity.
    + apply outage_written. lia.
    + vm_compute. reflexivity.
  - assert (exists st l, eoWritten (demo_eph_reconcile edited_env warm_world) = st :: l) as (st & l & E)
      by (eexists _, _; vm_compute; reflexivity).
    exists st. split; [by rewrite E|].
    refine (proj2 (proj2 (windows_match_inputs same printable marshal_one two_sets lower_ascii CellDemo.demo_url (fun _ => "")
      (fun _ => false) edited_env warm_world edited_eph st _ _)) _ _).
    + reflexivity.
    + rewrite E. by apply elem_of_cons; left.
    + vm_compute. discriminate.
    + by rewrite E.
Defined.

Lemma states_stay_well_formed_witness :
  states_ok (PropagatedStates (outage_status 0)) /\ length (PropagatedStates (outage_status 0)) = 1%nat.
Proof.
  split; [|vm_compute; reflexivity].
  apply (states_stay_well_formed same printable marshal_one two_sets lower_ascii CellDemo.demo_url (fun _ => "")
    (fun _ => false) outage_env warm_world (tracked_eph demo_url)).
  - reflexivity.
  - split; [apply Nat.le_0_l|constructor..].
  - apply outage_written. lia.
Defined.

Lemma no_event_without_write_witness :
  let out := demo_eph_reconcile (eph_env (Found (tracked_eph demo_url)) later (fun _ => Some "conflict")) warm_world in
  ewRecorded (eoWorld out) = [] /\ eoResult out = Err "conflict".
Proof.
  apply (no_event_without_write same printable marshal_one two_sets lower_ascii CellDemo.demo_url (fun _ => "")
    (fun _ => false) (eph_env (Found (tracked_eph demo_url)) later (fun _ => Some "conflict")) warm_world
    (tracked_eph demo_url) "conflict"); reflexivity.
Defined.

Lemma outage_keeps_heartbeat_witness :
  exists st more, eoWritten outage = st :: more /\ PropagatedStates st <> [].
Proof.
  destruct (outage_keeps_heartbeat same printable marshal_one two_sets lower_ascii CellDemo.demo_url (fun _ => "")
    (fun _ => false) outage_env warm_world (tracked_eph demo_url) warm_entry) as ((st & more & H1 & H2 & _) & _).
  - reflexivity.
  - reflexivity.
  - vm_compute. reflexivity.
  - vm_compute. reflexivity.
  - intros f Hf. vm_compute in Hf. injection Hf as <-. eexists. vm_compute. reflexivity.
  - exists st, more. split; [exact H1|]. rewrite H2. vm_compute. discriminate.
Defined.

(** One hour after the fetch the window is open. *)
Definition window_env : EphEnv (R := DemoRef) :=
  eph_env (Found (tracked_eph demo_url)) (fetch_hour + Hour)%Z written.

Lemma cache_answers_alone_witness :
  ewCache (eoWorld (demo_eph_reconcile window_env warm_world)) = ewCache warm_world.
Proof.
  apply (cache_answers_alone same printable marshal_one two_sets lower_ascii CellDemo.demo_url (fun _ => "")
    (fun _ => false) window_env warm_world (tracked_eph demo_url) (fun _ => NotFound) (fun _ => None) 0%Z 0%Z).
  - reflexivity.
  - vm_compute. discriminate.
Defined.

Definition private_eph : SatelliteEphemeris :=
  mkEph (mkMeta "ran" "leo" "u7" 1 None [] ∅)
    (mkEphSpec (mkEphSource "SpaceTrack" "https://www.space-track.org/q" (2 * Hour) (Some (mkSecretRef "st" "")))
      None None) bare_status.

Lemma secrets_stay_unknown_witness :
  let env := eph_env (Found private_eph) later written in
  demo_eph_reconcile (with_outside env (fun _ => NotFound) (fun _ => None) later later) warm_world =
  demo_eph_reconcile (with_outside env (fun _ => Found (mkSecret "Opaque" ∅ {["password" := "pw"]})) (fun _ => None) later later)
    warm_world.
Proof.
  apply (secrets_stay_unknown same printable marshal_one two_sets lower_ascii CellDemo.demo_url (fun _ => "")
    (fun _ => false) (eph_env (Found private_eph) later written) warm_world private_eph (fun _ => NotFound)
    (fun _ => Found (mkSecret "Opaque" ∅ {["password" := "pw"]}))).
  - reflexivity.
  - intros k. exact I.
  - intros k. right. vm_compute. reflexivity.
Defined.

(** A cell that reconciles four minutes after the propagation. *)
Definition late_cell : CellEnv :=
  mkCellEnv NotFound (fun _ => NotFound) (fun _ => NotFound) None None (later + 4 * Minute)%Z (later + 4 * Minute)%Z "".

Definition outage_state : PropagatedState :=
  List.hd (demo_state 0) (PropagatedStates (outage_status 0)).

(** The reconcile ends a minute after its propagation. *)
Lemma heartbeat_in_time_witness : currency_error printable (tracked_eph demo_url) outage_state late_cell = None.
Proof.
  refine (proj2 (proj2 (heartbeat_in_time same printable marshal_one two_sets lower_ascii CellDemo.demo_url (fun _ => "")
    (fun _ => false) outage_env warm_world (tracked_eph demo_url) (outage_status 0) outage_state (later + Minute)%Z
    (3 * Minute)%Z late_cell (tracked_eph demo_url) _ _ _ _ _ _) _ _) _).
  - reflexivity.
  - apply outage_written. lia.
  - apply list_elem_of_In. vm_compute. left. reflexivity.
  - intros H. apply list_elem_of_In in H. exact H.
  - vm_compute. reflexivity.
  - vm_compute. split; discriminate.
  - vm_compute. discriminate.
  - vm_compute. discriminate.
  - vm_compute. reflexivity.
Defined.

Lemma cache_stays_usable_witness : cache_ok (ewCache (eoWorld outage)).
Proof.
  apply (cache_stays_usable same printable marshal_one two_sets lower_ascii CellDemo.demo_url (fun _ => "")
    (fun _ => false) outage_env warm_world).
  split.
  - intros url l H. cbn in H. rewrite lookup_empty in H. discriminate.
  - intros k e H. cbn in H. apply lookup_singleton_Some in H as [_ <-]. exact sample_usable.
Defined.

Lemma deletion_forgets_witness :
  owCache (ewCache (eoWorld (demo_eph_reconcile (eph_env NotFound later written) warm_world))) =
  delete (mkKey "ran" "leo") {[mkKey "ran" "leo" := warm_entry]}.
Proof.
  apply (deletion_forgets same printable marshal_one two_sets lower_ascii CellDemo.demo_url (fun _ => "")
    (fun _ => false) (eph_env NotFound later written) warm_world). reflexivity.
Defined.

(** ** The choice of element sets *)

Definition dated (id : Z) (epoch : string) : OMM :=
  mkOMM "SAT" id epoch (f_of_Z 15) f_zero (f_of_Z 51) f_zero f_zero f_zero f_zero f_zero f_zero "".

Definition feed : list OMM :=
  [dated 7 "2024-02-29T12:34:56"; dated 5 "2024-02-28T00:00:00"; dated 7 "2024-03-01T00:00:00"; dated 5 "never"].

Lemma canonical_order_independent_witness :
  canonicalizeOMMs (rev feed) = [dated 5 "2024-02-28T00:00:00"; dated 7 "2024-03-01T00:00:00"].
Proof.
  rewrite (canonical_order_independent (rev feed) feed).
  - vm_compute. reflexivity.
  - symmetry. apply Permutation_rev.
  - intros o o' Ho Ho' Hn He. apply list_elem_of_In in Ho, Ho'. cbn in Ho, Ho'.
    repeat (destruct Ho as [<-|Ho]; [repeat (destruct Ho' as [<-|Ho']; [try reflexivity; vm_compute in Hn, He; discriminate|]); destruct Ho'|]);
      destruct Ho.
Defined.

(** ** Two resources with one URL after a restart *)

(** The copy the first resource stored before, and the second resource. *)
Definition stored_copy : Store DemoRef :=
  owStore (persistOMMCache wide_hash marshal_one quiet cold_cache (tracked_eph demo_url) fetched_one
    (fetchInputKey printable (tracked_spec demo_url))).
Definition sibling_eph : SatelliteEphemeris :=
  mkEph (mkMeta "ran" "leo2" "u8" 1 None [] ∅) (tracked_spec demo_url) bare_status.
Definition sibling_env : EphEnv (R := DemoRef) := eph_env (Found sibling_eph) (fetch_hour + Hour)%Z written.

(** The source has the version "e1". *)
Definition origin_get (n : unit) (req : GPRequest) : result string Response * unit := (demo_origin req, n).

Abbreviation origin_reconcile := (eph_reconcile (R := DemoRef) (F := Fetchers unit)
  (ES := process_sources no_date printable two_sets no_request_error "https://www.space-track.org" demo_parse_origin
    id (fun _ => None) lower_ascii unit origin_get down_do) wide_hash printable marshal_one two_sets lower_ascii CellDemo.demo_url
  (fun _ => "") (fun _ => false)).

Lemma restart_goes_dark_witness :
  let w' := eoWorld (origin_reconcile window_env (restarted unit stored_copy fresh_session no_series ∅ [])) in
  let out := origin_reconcile sibling_env w' in
  (exists st more, eoWritten out = st :: more /\ PropagatedStates st = []) /\
  gauge (eoWorld out) GPFetchReady (ephMeta sibling_eph) = Some 1%Z.
Proof.
  destruct (restart_goes_dark no_date wide_hash printable marshal_one two_sets no_request_error
    "https://www.space-track.org" demo_parse_origin id (fun _ => None) lower_ascii CellDemo.demo_url (fun _ => "")
    (fun _ => false) unit origin_get down_do window_env sibling_env stored_copy fresh_session no_series ∅ []
    (tracked_eph demo_url) sibling_eph "e1" fetch_hour) as (_ & _ & H1 & H2 & _).
  - split; [reflexivity|discriminate|discriminate|].
    eexists _, _. split; [vm_compute; reflexivity|]. split; [vm_compute; reflexivity|]. split; vm_compute; reflexivity.
  - reflexivity.
  - vm_compute. reflexivity.
  - reflexivity.
  - discriminate.
  - reflexivity.
  - reflexivity.
  - split; vm_compute; reflexivity.
  - reflexivity.
  - reflexivity.
  - vm_compute. reflexivity.
  - reflexivity.
  - intros n req _ Hm. unfold origin_get, demo_origin. rewrite Hm. eexists. split; reflexivity.
  - split; [exact H1|exact H2].
Defined.
