(* ===== verification/Watches.v ===== *)
(** * Watches: who is woken by which change

    [SetupWithManager] of the four controllers, and the promise behind the
    mapping functions [ephemerisToSlice], [ephemerisToNTNCellConfig] and
    [groundStationToEphemeris]: a resource that a change does not wake would
    have reconciled to the same outcome before and after it.  The lookups of
    the mapping functions are answered from the cluster's contents; the index
    on [spec.ephemerisRef] is the one the cell controller registers. *)

From S2P Require Import Prelude GoStrings GoNet GoTime K8sMeta NetGuard SliceApi MetricsReaders SliceContact SliceController SliceSafety StationApi GroundStation CellApi PassPredictor OcuduConfig EphemerisApi OcuduProvider Propagator Fetchers EphemerisCache CellController CellSafety EphemerisController EphemerisSafety EphemerisWiring CellDemo EphemerisDemo.
Local Open Scope string_scope.

(** ** Setup *)

Inductive kind := KindSatelliteEphemeris | KindGroundStationLifecycle | KindNTNCellConfig | KindNTNSlice | KindNode.

#[export] Instance kind_eq_dec : EqDecision kind.
Proof. solve_decision. Defined.

(** A controller as it is registered: its primary resource behind
    [reconcileTriggerPredicate], the resources it watches without a predicate,
    its name, its workers, and the field index it needs. *)
Record Controller := mkController {
  ctlFor : kind;
  ctlWatches : list kind;
  ctlNamed : string;
  ctlMaxConcurrentReconciles : Z;
  ctlIndex : option string
}.

Definition ephemerisRefIndexKey : string := "spec.ephemerisRef".

Definition ephemeris_SetupWithManager (maxConcurrent : Z) : Controller :=
  mkController KindSatelliteEphemeris [KindGroundStationLifecycle] "satelliteephemeris" maxConcurrent None.

Definition station_SetupWithManager (maxConcurrent : Z) : Controller :=
  mkController KindGroundStationLifecycle [KindNode] "groundstationlifecycle" maxConcurrent None.

(** [IndexField] may fail; nothing is registered then. *)
Definition cell_SetupWithManager (index_err : option string) (maxConcurrent : Z) : result string Controller :=
  match index_err with
  | Some e => Err ("indexing NTNCellConfig by " +:+ ephemerisRefIndexKey +:+ ": " +:+ e)
  | None =>
      Ok (mkController KindNTNCellConfig [KindSatelliteEphemeris] "ntncellconfig" maxConcurrent
            (Some ephemerisRefIndexKey))
  end.

Definition slice_SetupWithManager (maxConcurrent : Z) : Controller :=
  mkController KindNTNSlice [KindSatelliteEphemeris] "ntnslice" maxConcurrent None.

(** ** Lookups *)

(** [List] in a namespace, and the indexed [List] of cells. *)
Definition slices_in (all : list NTNSlice) (namespace : string) : list NTNSlice :=
  List.filter (fun s => str_eqb (Namespace (sliceMeta s)) namespace) all.

Definition cells_indexed (all : list NTNCellConfig) (namespace value : string) : list NTNCellConfig :=
  List.filter (fun cc => str_eqb (Namespace (cellMeta cc)) namespace &&
                         bool_decide (value ∈ indexNTNCellConfigByEphemerisRef cc)) all.

(** An ephemeris as a slice reads it: [SliceApi] keeps the fields the contact
    evaluation looks at. *)
Definition slice_view (eph : SatelliteEphemeris) : SliceApi.SatelliteEphemeris :=
  SliceApi.mkEphemeris (ephMeta eph)
    (map (fun p => SliceApi.mkWindow (pwSatellite p) (pwNoradID p) (pwGroundStation p) (pwAOS p) (pwLOS p))
       (NextPassWindows (ephStatus eph)))
    (map (fun p => SliceApi.mkState (psNoradID p) (psEpochUnixMs p) (psSourceEpochUnixMs p))
       (PropagatedStates (ephStatus eph)))
    (esConditions (ephStatus eph)).

Definition view_of {A B} (f : A -> B) (r : GetResult A) : GetResult B :=
  match r with Found a => Found (f a) | NotFound => NotFound | GetError e => GetError e end.

(** ** Who is woken *)

(** A change of an ephemeris wakes exactly the slices and cells of its
    namespace that refer to it, and a change of a station the ephemerides of
    its namespace that predict passes over it. *)
Lemma slices_woken all eph k :
  k ∈ ephemerisToSlice (slice_view eph) (Some (slices_in all (Namespace (ephMeta eph)))) <->
  exists s, s ∈ all /\ k = slice_key s /\ Namespace (sliceMeta s) = Namespace (ephMeta eph) /\
    EphemerisRef (sliceSpec s) = Name (ephMeta eph).
Proof.
  unfold ephemerisToSlice, slices_in. rewrite list_elem_of_fmap. setoid_rewrite elem_of_filter_bool.
  setoid_rewrite elem_of_filter_bool. setoid_rewrite str_eqb_eq. naive_solver.
Qed.

Lemma cells_woken all eph k :
  k ∈ ephemerisToNTNCellConfig eph (fun ns v => Some (cells_indexed all ns v)) <->
  exists cc, cc ∈ all /\ k = ObjectKeyFromObject (cellMeta cc) /\
    Namespace (cellMeta cc) = Namespace (ephMeta eph) /\
    csEphemerisRef (cellSpec cc) = Name (ephMeta eph) /\ csEphemerisRef (cellSpec cc) <> "".
Proof.
  unfold ephemerisToNTNCellConfig, cells_indexed. rewrite list_elem_of_fmap.
  setoid_rewrite elem_of_filter_bool.
  assert (Hi : forall cc, str_eqb (Namespace (cellMeta cc)) (Namespace (ephMeta eph)) &&
      bool_decide (Name (ephMeta eph) ∈ indexNTNCellConfigByEphemerisRef cc) = true <->
    Namespace (cellMeta cc) = Namespace (ephMeta eph) /\
    csEphemerisRef (cellSpec cc) = Name (ephMeta eph) /\ csEphemerisRef (cellSpec cc) <> "").
  { intros cc. rewrite andb_true_iff, str_eqb_eq, bool_decide_eq_true.
    unfold indexNTNCellConfigByEphemerisRef.
    destruct (str_eqb (csEphemerisRef (cellSpec cc)) "") eqn:E.
    - apply str_eqb_eq in E. rewrite elem_of_nil. tauto.
    - apply str_eqb_neq in E. rewrite list_elem_of_singleton. intuition congruence. }
  setoid_rewrite Hi. naive_solver.
Qed.

Definition predicts_over (eph : SatelliteEphemeris) (station : string) : Prop :=
  exists pp, PassPrediction (ephSpec eph) = Some pp /\ station ∈ ppGroundStations pp.

Lemma ephemerides_woken all gs k :
  k ∈ groundStationToEphemeris (Ok all) gs <->
  exists eph, eph ∈ all /\ k = ObjectKeyFromObject (ephMeta eph) /\
    Namespace (ephMeta eph) = Namespace gs /\ predicts_over eph (Name gs).
Proof.
  unfold groundStationToEphemeris, predicts_over. rewrite list_elem_of_fmap.
  setoid_rewrite elem_of_filter_bool. setoid_rewrite andb_true_iff. setoid_rewrite str_eqb_eq.
  split.
  - intros (eph & -> & (Hns & Hpp) & Hin). exists eph. split_and!; try done.
    destruct (PassPrediction (ephSpec eph)) as [pp|]; [|done]. exists pp. by apply bool_decide_eq_true in Hpp.
  - intros (eph & Hin & -> & Hns & pp & Hpp & Hgs). exists eph. split_and!; try done. rewrite Hpp.
    by apply bool_decide_eq_true.
Qed.

(** ** What a reconcile reads *)

(** Environments whose reads of another resource are answered by [f]. *)
Definition slice_env (env : SliceEnv) (f : NamespacedName -> GetResult SatelliteEphemeris) : SliceEnv :=
  mkSliceEnv (envSlice env) (fun k => view_of slice_view (f k)) (envList env) (envUpdateOk env) (envStatusOk env) (envNow env) (envRead env).

Definition cell_env (env : CellEnv) (f : NamespacedName -> GetResult SatelliteEphemeris) : CellEnv :=
  mkCellEnv (ceCell env) f (ceSecret env) (ceUpdate env) (ceStatusUpdate env) (ceEpochNow env) (ceSourceNow env)
    (cePointer env).

Section SliceReads.
Context `{SC : StatusConditions} {P : Type} `{MP : metricsReaderProvider P}.
Context (build_error_text : provider_error -> string) (read_error_text : read_error -> string).

Lemma slice_reads w key env f g :
  (forall s, envSlice env = Found s ->
     f (mkKey (Namespace (sliceMeta s)) (EphemerisRef (sliceSpec s))) =
     g (mkKey (Namespace (sliceMeta s)) (EphemerisRef (sliceSpec s)))) ->
  SliceController.Reconcile build_error_text read_error_text w key (slice_env env f) =
  SliceController.Reconcile build_error_text read_error_text w key (slice_env env g).
Proof.
  intros Hfg. unfold SliceController.Reconcile. cbn [envSlice slice_env].
  destruct (envSlice env) as [s| |]; [|done..]. specialize (Hfg s eq_refl).
  change (handleSliceFinalizer w s (slice_env env g)) with (handleSliceFinalizer w s (slice_env env f)).
  destruct (handleSliceFinalizer w s (slice_env env f)) as [out|[s1 written]] eqn:Ef; [done|].
  assert (Hs : Namespace (sliceMeta s1) = Namespace (sliceMeta s) /\ sliceSpec s1 = sliceSpec s).
  { unfold handleSliceFinalizer in Ef. cbn [envUpdateOk envList slice_env] in Ef.
    repeat case_match; by simplify_eq. }
  destruct Hs as [Hns Hsp].
  enough (E : evaluate_live build_error_text read_error_text w s1 (slice_env env f) =
              evaluate_live build_error_text read_error_text w s1 (slice_env env g))
    by (unfold reconcile_live; by rewrite E).
  unfold evaluate_live. cbn [envNow envRead envEphemeris slice_env].
  destruct (readPathQuality _ _ _ _ _ _) as [[[q s2] evs] p] eqn:Er.
  apply read_reports in Er as (Hm2 & Hs2 & _). by rewrite Hm2, Hs2, Hns, Hsp, Hfg.
Qed.

End SliceReads.

Section CellReads.
Context `{SC : StatusConditions} {W : Type}.
Variable unicode_lower : string -> string.
Variable url_parse : string -> option URL.
Variable pem_ok : string -> bool.
Variable keypair_ok : string -> string -> bool.
Variable ValidHeaderFieldValue : string -> bool.
Variable sha256hex : string -> string.
Variable IsPrint : N -> bool.
Variable not_found_text : NamespacedName -> string.
Variable cm_get : W -> NamespacedName -> GetResult ConfigMapView.
Variable cm_delete : W -> NamespacedName -> UID -> option string * W.
Variable Providers : option (gmap string (NTNProvider W)).
Variable RemoteControlAllowedHosts : EndpointAllowlist.

Abbreviation cell_reconcile := (CellController.Reconcile (W := W) unicode_lower url_parse pem_ok keypair_ok
  ValidHeaderFieldValue sha256hex IsPrint not_found_text cm_get cm_delete Providers RemoteControlAllowedHosts).

Lemma cell_reads w env f g :
  (forall cc, ceCell env = Found cc -> csEphemerisRef (cellSpec cc) <> "" ->
     f (mkKey (Namespace (cellMeta cc)) (csEphemerisRef (cellSpec cc))) =
     g (mkKey (Namespace (cellMeta cc)) (csEphemerisRef (cellSpec cc)))) ->
  cell_reconcile w (cell_env env f) = cell_reconcile w (cell_env env g).
Proof.
  intros Hfg. unfold CellController.Reconcile. cbn [ceCell cell_env].
  destruct (ceCell env) as [cc| |]; [|done..]. specialize (Hfg cc eq_refl).
  change (handleFinalizer cm_get cm_delete w cc (provider_of Providers cc) (cell_env env g))
    with (handleFinalizer cm_get cm_delete w cc (provider_of Providers cc) (cell_env env f)).
  destruct (handleFinalizer _ _ w cc _ _); [done|]. destruct Providers as [m|]; [|done].
  destruct (provider_of (Some m) cc) as [prov|]; [|done].
  unfold reconcile_cell. destruct (prov_Apply _ _ _ _) as [[e|] b]; [done|].
  destruct (prov_Status prov b cc) as [status|]; [|done].
  unfold reconcile_applied. set (cc1 := set_cell_condition _ _ _ _ _). destruct (applySIB19CadenceCondition cc1 _) as [[warn ep] cc2] eqn:Ea.
  apply (advisory_keeps _ _ _ _ _ "") in Ea as (Hm & Hs & _).
  change (cellMeta cc1) with (cellMeta cc) in Hm. change (cellSpec cc1) with (cellSpec cc) in Hs.
  rewrite Hs. destruct (str_eqb (csEphemerisRef (cellSpec cc)) "") eqn:Er; [done|].
  apply str_eqb_neq in Er. specialize (Hfg Er).
  unfold pushEphemerisUpdateIfNeeded. cbn [csEphemerisRef enforced_spec ceEphemeris cell_env].
  rewrite Hm, Hfg. done.
Qed.

End CellReads.

(** Environments whose reads of ground stations are answered by [f], for the
    signature, and by [f'], for the sweep. *)
Definition stations_env {R} (env : EphEnv (R := R)) (f f' : NamespacedName -> GetResult GroundStationLifecycle)
  : EphEnv (R := R) :=
  mkEphEnv (eeKey env) (eeEph env) (eeNow env) (eeFetchTime env) (eeAfterFetch env) (eePropagateNow env)
    (eeSweepDone env) (eeWall env) (eeSecret env) (eeLookup env) f f' (eeOther env) (eeStatusUpdate env)
    (eeOrder env) (eeContext env).

Definition station_env {R} (env : EphEnv (R := R)) (f : NamespacedName -> GetResult GroundStationLifecycle)
  : EphEnv (R := R) := stations_env env f f.

Section EphemerisReads.
Context {R : Type} `{CR : ControllerRefs R} `{SRV : ConfigServer R} {F : Type} `{ES : ElementSources F}
  `{SC : StatusConditions} `{OM : OrbitModel}.
Variable sha256hex : string -> string.
Variable IsPrint : N -> bool.
Variable marshal_omms : list OMM -> result string string.
Variable ParseOMMs : string -> result string (list OMM).
Variable unicode_lower : string -> string.
Variable url_parse : string -> option URL.
Variable ip_string : IP -> string.
Variable is_context_error : string -> bool.

Abbreviation ephemeris_reconcile := (eph_reconcile (R := R) (F := F) sha256hex IsPrint marshal_omms ParseOMMs
  unicode_lower url_parse ip_string is_context_error).

Variable env : EphEnv (R := R).
Variables f f' g g' : NamespacedName -> GetResult GroundStationLifecycle.

(** The two views agree on the stations a resource predicts passes over. *)
Definition agree_for (m : ObjectMeta) (spec : SatelliteEphemerisSpec) : Prop :=
  forall pp name, PassPrediction spec = Some pp -> name ∈ ppGroundStations pp ->
    f (mkKey (Namespace m) name) = g (mkKey (Namespace m) name) /\
    f' (mkKey (Namespace m) name) = g' (mkKey (Namespace m) name).

Lemma insert_string_elem a x l : x ∈ insert_string a l <-> x = a \/ x ∈ l.
Proof.
  induction l as [|b l IH]; cbn [insert_string]; [rewrite list_elem_of_singleton, elem_of_nil; tauto|].
  destruct (str_lt b a); rewrite !elem_of_cons, ?IH; tauto.
Qed.

Lemma sort_strings_elem x l : x ∈ sort_strings l <-> x ∈ l.
Proof. induction l as [|a l IH]; [done|]. cbn. by rewrite insert_string_elem, elem_of_cons, IH. Qed.

Lemma decision_reads eph now :
  agree_for (ephMeta eph) (ephSpec eph) ->
  passSweepDecision sha256hex IsPrint (stations_env env f f') eph now =
  passSweepDecision sha256hex IsPrint (stations_env env g g') eph now.
Proof.
  intros H. unfold passSweepDecision. destruct (PassPrediction (ephSpec eph)) as [pp|] eqn:Ep; [|done].
  destruct (passPredictionConfigured _); [|done].
  enough (E : pass_inputs IsPrint (stations_env env f f') eph pp = pass_inputs IsPrint (stations_env env g g') eph pp)
    by (unfold passPredictionInputSignature; by rewrite E).
  enough (E : map (station_line IsPrint (stations_env env f f') (Namespace (ephMeta eph))) (sort_strings (ppGroundStations pp)) =
              map (station_line IsPrint (stations_env env g g') (Namespace (ephMeta eph))) (sort_strings (ppGroundStations pp)))
    by (unfold pass_inputs; by rewrite E).
  apply map_ext_in. intros name Hin%list_elem_of_In. rewrite sort_strings_elem in Hin.
  unfold station_line. cbn [eeStations stations_env]. destruct (H pp name Ep Hin) as [-> _]. done.
Qed.

Lemma resolve_reads namespace names :
  (forall name, name ∈ names -> f' (mkKey namespace name) = g' (mkKey namespace name)) ->
  resolve_stations IsPrint is_context_error f' namespace names =
  resolve_stations IsPrint is_context_error g' namespace names.
Proof.
  induction names as [|a names IH]; intros H; [done|]. cbn [resolve_stations].
  rewrite IH by (intros n Hn; apply H, elem_of_cons; auto).
  unfold resolve_station. by rewrite (H a) by (apply elem_of_cons; auto).
Qed.

Lemma sweep_reads sig omms now (s : Run (R := R) (F := F)) :
  agree_for (ephMeta (rnEph s)) (ephSpec (rnEph s)) ->
  sweep IsPrint is_context_error (stations_env env f f') sig omms now s =
  sweep IsPrint is_context_error (stations_env env g g') sig omms now s.
Proof.
  intros H. unfold sweep.
  enough (E : handlePassPrediction IsPrint is_context_error (stations_env env f f') (rnEph s) omms now =
              handlePassPrediction IsPrint is_context_error (stations_env env g g') (rnEph s) omms now) by (by rewrite E).
  unfold handlePassPrediction. destruct (PassPrediction (ephSpec (rnEph s))) as [pp|] eqn:Ep; [|done].
  destruct (passPredictionConfigured _); [|done].
  enough (E : predictPasses IsPrint is_context_error (stations_env env f f') (rnEph s) pp omms now =
              predictPasses IsPrint is_context_error (stations_env env g g') (rnEph s) pp omms now) by (by rewrite E).
  unfold predictPasses. cbn [eeSweepStations eeWall eeOrder eeContext stations_env].
  by rewrite (resolve_reads _ (ppGroundStations pp)) by (intros name Hn; by apply (H pp)).
Qed.

Lemma prepare_reads o (s : Run (R := R) (F := F)) :
  agree_for (ephMeta (rnEph s)) (ephSpec (rnEph s)) ->
  prepare sha256hex IsPrint (stations_env env f f') o s = prepare sha256hex IsPrint (stations_env env g g') o s.
Proof.
  intros H. unfold prepare. cbn [eePropagateNow eeNow stations_env].
  destruct (record_fetch_frame o s) as (_ & B1 & _). set (s1 := record_fetch o s) in *.
  pose proof (orbit_guard_frame (OMMs (foResult o)) s1) as Hg.
  destruct (orbit_guard _ _) as [[ev near] s2]. destruct Hg as (_ & _ & B2 & _).
  pose proof (propagateStates_frame (eePropagateNow env) near s2) as (_ & B3 & _).
  destruct (propagateStates _ _ _) as [tr s3]. cbn [snd] in B3. set (s4 := map_status _ s3).
  assert (Hm : ephMeta (rnEph s4) = ephMeta (rnEph s)).
  { transitivity (ephMeta (rnEph s2)); [exact (core_meta _ _ B3)|apply core_meta; by rewrite B2]. }
  assert (Hs : ephSpec (rnEph s4) = ephSpec (rnEph s)).
  { transitivity (ephSpec (rnEph s2)); [exact (core_spec _ _ B3)|apply core_spec; by rewrite B2]. }
  by rewrite (decision_reads (rnEph s4)) by (by rewrite Hm, Hs).
Qed.

(** A reconcile reads the stations its resource predicts passes over, and no
    other. *)
Lemma ephemeris_reads w :
  (forall eph, eeEph env = Found eph -> agree_for (ephMeta eph) (ephSpec eph)) ->
  ephemeris_reconcile (stations_env env f f') w = ephemeris_reconcile (stations_env env g g') w.
Proof.
  intros H. unfold eph_reconcile. cbn [eeEph eeKey stations_env].
  destruct (eeEph env) as [eph| |]; [|done..]. specialize (H eph eq_refl).
  destruct (clamp_frame eph) as [Hm Hs]. destruct (clampRefreshInterval eph) as [[d c] eph1].
  cbn [snd] in Hm, Hs. set (s0 := mkRun w eph1 c []).
  change (acquireOMMs sha256hex IsPrint marshal_omms ParseOMMs unicode_lower url_parse ip_string (stations_env env g g') s0 d)
    with (acquireOMMs sha256hex IsPrint marshal_omms ParseOMMs unicode_lower url_parse ip_string (stations_env env f f') s0 d).
  pose proof (acquire_frame sha256hex IsPrint marshal_omms ParseOMMs unicode_lower url_parse ip_string
                (stations_env env f f') s0 d) as Ha.
  destruct (acquireOMMs _ _ _ _ _ _ _ _ s0 d) as [s1 [o|r]]; [|done]. injection Ha as Ee _ _ _ _.
  assert (H1 : agree_for (ephMeta (rnEph s1)) (ephSpec (rnEph s1))) by (rewrite Ee; cbn; by rewrite Hm, Hs).
  unfold publish. rewrite (prepare_reads o s1 H1).
  pose proof (prepare_spec sha256hex IsPrint (stations_env env g g') o s1) as Hp.
  pose proof (pr_meta _ _ _ _ _ _ Hp) as Pm. pose proof (pr_spec _ _ _ _ _ _ Hp) as Ps.
  set (p := prepare sha256hex IsPrint (stations_env env g g') o s1) in *.
  change (persistEphStatus (stations_env env f f') (ppRun p)) with (persistEphStatus (stations_env env g g') (ppRun p)).
  destruct (persistEphStatus _ (ppRun p)) as [s2|] eqn:E2; [|done].
  apply status_write_spec in E2 as (_ & He2 & _). destruct (ppSweepDue p); [|done].
  cbn [eeNow stations_env]. by rewrite sweep_reads by (cbn; by rewrite He2, Pm, Ps).
Qed.

End EphemerisReads.

(** ** No lost wake-up *)

(** Two states of the cluster that differ in one object. *)
Definition differ_at {A} (m : ObjectMeta) (f g : NamespacedName -> GetResult A) : Prop :=
  forall k, k <> ObjectKeyFromObject m -> f k = g k.

Section Wakeups.
Context {R : Type} `{CR : ControllerRefs R} `{SRV : ConfigServer R} {F : Type} `{ES : ElementSources F}
  `{SC : StatusConditions} `{OM : OrbitModel} {P : Type} `{MP : metricsReaderProvider P} {W : Type}.
Variable unicode_lower : string -> string.
Variable url_parse : string -> option URL.
Variable pem_ok : string -> bool.
Variable keypair_ok : string -> string -> bool.
Variable ValidHeaderFieldValue : string -> bool.
Variable sha256hex : string -> string.
Variable IsPrint : N -> bool.
Variable not_found_text : NamespacedName -> string.
Variable cm_get : W -> NamespacedName -> GetResult ConfigMapView.
Variable cm_delete : W -> NamespacedName -> UID -> option string * W.
Variable Providers : option (gmap string (NTNProvider W)).
Variable RemoteControlAllowedHosts : EndpointAllowlist.
Variable build_error_text : provider_error -> string.
Variable read_error_text : read_error -> string.
Variable marshal_omms : list OMM -> result string string.
Variable ParseOMMs : string -> result string (list OMM).
Variable ip_string : IP -> string.
Variable is_context_error : string -> bool.

(** C14. No change goes unnoticed: take any change of one ephemeris (created,
    edited, deleted, or its status written) and any slice or cell of the cluster
    that the mapping functions do not enqueue for it; that slice's or cell's
    reconcile comes to the very same outcome before and after the change, in
    every environment. The same holds for a change of a ground station and the
    ephemerides that are not enqueued for it.  The lists the mapping functions ask
    for are answered. *)
Theorem changes_wake_their_readers :
  (forall slices s eph f g w key env,
     s ∈ slices -> envSlice env = Found s -> differ_at (ephMeta eph) f g ->
     slice_key s ∉ ephemerisToSlice (slice_view eph) (Some (slices_in slices (Namespace (ephMeta eph)))) ->
     SliceController.Reconcile build_error_text read_error_text w key (slice_env env f) =
     SliceController.Reconcile build_error_text read_error_text w key (slice_env env g)) /\
  (forall cells cc eph f g w env,
     cc ∈ cells -> ceCell env = Found cc -> differ_at (ephMeta eph) f g ->
     ObjectKeyFromObject (cellMeta cc) ∉
       ephemerisToNTNCellConfig eph (fun ns v => Some (cells_indexed cells ns v)) ->
     CellController.Reconcile (W := W) unicode_lower url_parse pem_ok keypair_ok ValidHeaderFieldValue sha256hex IsPrint
       not_found_text cm_get cm_delete Providers RemoteControlAllowedHosts w (cell_env env f) =
     CellController.Reconcile (W := W) unicode_lower url_parse pem_ok keypair_ok ValidHeaderFieldValue sha256hex IsPrint
       not_found_text cm_get cm_delete Providers RemoteControlAllowedHosts w (cell_env env g)) /\
  (forall ephs eph gs f g w env,
     eph ∈ ephs -> eeEph env = Found eph -> differ_at (gsMeta gs) f g ->
     ObjectKeyFromObject (ephMeta eph) ∉ groundStationToEphemeris (Ok ephs) (gsMeta gs) ->
     eph_reconcile (R := R) (F := F) sha256hex IsPrint marshal_omms ParseOMMs unicode_lower url_parse ip_string
       is_context_error (station_env env f) w =
     eph_reconcile (R := R) (F := F) sha256hex IsPrint marshal_omms ParseOMMs unicode_lower url_parse ip_string
       is_context_error (station_env env g) w).
Proof.
  split_and!.
  - intros slices s eph f g w key env Hin He Hd Hn. apply slice_reads. rewrite He. intros ? [= <-].
    apply Hd. intros [= Hns Href]. apply Hn, slices_woken. by exists s.
  - intros cells cc eph f g w env Hin He Hd Hn. apply cell_reads. rewrite He. intros ? [= <-] Href.
    apply Hd. intros [= Hns Hname]. apply Hn, cells_woken. by exists cc.
  - intros ephs eph gs f g w env Hin He Hd Hn. apply ephemeris_reads. rewrite He. intros ? [= <-].
    intros pp name Hpp Hname.
    assert (f (mkKey (Namespace (ephMeta eph)) name) = g (mkKey (Namespace (ephMeta eph)) name)); [|done].
    apply Hd. intros [= Hns Heq]. apply Hn, ephemerides_woken.
    exists eph. split_and!; [done..|]. exists pp. by subst name.
Qed.

End Wakeups.

#[local] Existing Instance list_conditions.
#[local] Existing Instance demo_refs.
#[local] Existing Instance demo_server.
#[local] Existing Instance down_sources.
#[local] Existing Instance still_model.
#[local] Existing Instance SliceSafety.demo_provider.

(** The cell refers to the ephemeris "eph" of its namespace; the change is one
    of "leo".  It also predicts passes over "gs1" only. *)
Definition other_eph : SatelliteEphemeris := tracked_eph "https://celestrak.org".

Lemma changes_wake_their_readers_witness :
  (forall w, demo_reconcile None w (cell_env (demo_env (Found demo_cell) 25544 NotFound) (fun _ => NotFound)) =
     demo_reconcile None w (cell_env (demo_env (Found demo_cell) 25544 NotFound)
       (fun k => if decide (k = mkKey "ran" "leo") then Found other_eph else NotFound))) /\
  mkKey "ran" "cell" ∈ ephemerisToNTNCellConfig (demo_eph 25544)
    (fun ns v => Some (cells_indexed [demo_cell] ns v)).
Proof.
  split; [|vm_compute; apply elem_of_cons; by left].
  intros w. pose proof (changes_wake_their_readers (R := DemoRef) (F := Fetchers unit) (P := Provider) (W := unit)
    lower_ascii demo_url yes yes2 yes same printable demo_missing (fun _ _ => NotFound) (fun w _ _ => (None, w))
    (Some {["ocudu" := demo_prov None]}) (mkAllow []) (fun _ => "") (fun _ => "") marshal_one two_sets
    (fun _ => "") (fun _ => false)) as (_ & H & _).
  refine (H [demo_cell] demo_cell other_eph (fun _ => NotFound)
    (fun k => if decide (k = mkKey "ran" "leo") then Found other_eph else NotFound) w
    (demo_env (Found demo_cell) 25544 NotFound) _ eq_refl _ _).
  - apply elem_of_cons. by left.
  - intros k Hk. by rewrite decide_False.
  - vm_compute. intros Hin. by apply elem_of_nil in Hin.
Defined.
