(* ===== verification/Quiescence.v ===== *)
(** * When the queues have drained

    Each controller is woken by changes of its own objects, filtered by
    [reconcileTriggerPredicate], and by changes of the objects it reads, through
    a mapping function ([SetupWithManager], in [Watches]).  A change that wakes
    nobody is lost: the status would stand on what is no longer there.  This file
    shows that none is: in every history of deliveries and reconciles after which
    the queue has nothing left, some reconcile of each object started from the
    specification it has now, and whenever that reconcile read the objects it
    looks at, and if it read them at all, its outcome is the one it would have
    with the objects as they are at the end.

    Of client-go and controller-runtime the history keeps what they document:
    handlers see an event after the cache does, a mapping function is applied to
    the old and the new object of an update, reads are answered by the cache, and
    for whatever was enqueued a reconcile starts afterwards ([delivers],
    [drained]). *)

From S2P Require Import Prelude GoStrings GoNet GoTime K8sMeta NetGuard SliceApi MetricsReaders SliceContact SliceController SliceSafety StationApi GroundStation CellApi PassPredictor OcuduConfig EphemerisApi OcuduProvider Propagator Fetchers EphemerisCache CellController CellSafety EphemerisController EphemerisSafety EphemerisWiring CellDemo EphemerisDemo GoFloat Watches.
Local Open Scope string_scope.

Definition put {A} (k : NamespacedName) (o : option A) (m : gmap NamespacedName A) : gmap NamespacedName A :=
  match o with Some a => <[k := a]> m | None => delete k m end.

Lemma put_same {A} k (o : option A) m : put k o m !! k = o.
Proof. destruct o; cbn; [apply lookup_insert_eq|apply lookup_delete_eq]. Qed.

Lemma put_other {A} k k' (o : option A) m : k <> k' -> put k o m !! k' = m !! k'.
Proof. intros H. destruct o; cbn; [by apply lookup_insert_ne|by apply lookup_delete_ne]. Qed.

Section History.
Context {A B S : Type}.
Variables (meta_a : A -> ObjectMeta) (meta_b : B -> ObjectMeta).
(** The specification of a primary object, what its reconcile looks at, and the
    mapping function over the cached primary objects. *)
Variable spec_of : A -> S.
Variable looks_at : A -> NamespacedName -> Prop.
Variable mapper : list A -> B -> list NamespacedName.
(** controller-runtime's [GenerationChangedPredicate]. *)
Variable generation_changed : option ObjectMeta -> option ObjectMeta -> bool.

Abbreviation key_a a := (ObjectKeyFromObject (meta_a a)).
Abbreviation key_b b := (ObjectKeyFromObject (meta_b b)).

Inductive process_event :=
| PrimaryDelivered (k : NamespacedName) (new : option A)
| WatchedDelivered (k : NamespacedName) (new : option B)
| ReconcileStart (k : NamespacedName).               (* a reconcile of [k] starts and reads its object *)

(** The caches after a history. *)
Definition primary_cache (h : list process_event) : gmap NamespacedName A :=
  fold_left (fun c e => match e with PrimaryDelivered k new => put k new c | _ => c end) h ∅.
Definition watched_cache (h : list process_event) : gmap NamespacedName B :=
  fold_left (fun c e => match e with WatchedDelivered k new => put k new c | _ => c end) h ∅.

Definition to_watch_event (old new : option A) : watch_event :=
  match old, new with
  | Some o, Some n => UpdateEvent (Some (meta_a o)) (Some (meta_a n))
  | None, _ => CreateEvent
  | Some _, None => DeleteEvent
  end.

(** What the handlers enqueue for an event that follows [h]. *)
Definition enqueued (h : list process_event) (e : process_event) : list NamespacedName :=
  match e with
  | PrimaryDelivered k new =>
      if reconcileTriggerPredicate generation_changed (to_watch_event (primary_cache h !! k) new) then [k] else []
  | WatchedDelivered k new =>
      flat_map (mapper (map snd (map_to_list (primary_cache h))))
        (option_list (watched_cache h !! k) ++ option_list new)
  | _ => []
  end.

(** *** What is relied on *)

(** Objects are delivered under their keys, and a version that keeps the
    generation of the one before it keeps its specification. *)
Record delivers (h : list process_event) : Prop := {
  de_primary : forall k a, PrimaryDelivered k (Some a) ∈ h -> key_a a = k;
  de_watched : forall k b, WatchedDelivered k (Some b) ∈ h -> key_b b = k;
  de_generation : forall h1 h2 k a0 a, h = (h1 ++ PrimaryDelivered k (Some a) :: h2)%list ->
    primary_cache h1 !! k = Some a0 -> Generation (meta_a a) = Generation (meta_a a0) -> spec_of a = spec_of a0
}.

(** Nothing is left in the queue: for every key that was enqueued a reconcile has
    started since. *)
Definition drained (h : list process_event) : Prop :=
  forall h1 e h2 k, h = (h1 ++ e :: h2)%list -> k ∈ enqueued h1 e -> ReconcileStart k ∈ h2.

(** What a reconcile can be answered that starts after [h1] and reads during
    [h2]: each read has its own moment, and is answered by the cache then. *)
Definition cached (m : gmap NamespacedName B) (k : NamespacedName) : GetResult B :=
  match m !! k with Some b => Found b | None => NotFound end.
Definition served (h1 h2 : list process_event) (f : NamespacedName -> GetResult B) : Prop :=
  forall k, exists g1 g2, h2 = (g1 ++ g2)%list /\ f k = cached (watched_cache (h1 ++ g1)) k.

Hypothesis generation_changed_spec : forall o n,
  generation_changed (Some o) (Some n) = negb (Generation o =? Generation n)%Z.
(** The mapping function wakes whoever looks at the object; what a reconcile
    looks at depends on the key and the specification only. *)
Hypothesis mapper_wakes : forall all a b, a ∈ all -> looks_at a (key_b b) -> key_a a ∈ mapper all b.
Hypothesis looks_at_spec : forall a a' kb, key_a a = key_a a' -> spec_of a = spec_of a' -> looks_at a kb -> looks_at a' kb.

(** *** A suffix that wakes nobody *)

Definition quiet (k : NamespacedName) (h h2 : list process_event) : Prop :=
  forall g1 e g2, h2 = (g1 ++ e :: g2)%list -> k ∉ enqueued (h ++ g1) e.

(** Two versions of an object between which nothing was enqueued for it. *)
Definition same_inputs (a a' : A) : Prop :=
  key_a a = key_a a' /\ spec_of a = spec_of a' /\ deletion_set (meta_a a) = deletion_set (meta_a a').

#[local] Instance same_inputs_equiv : Equivalence same_inputs.
Proof. split; unfold same_inputs; [done|intros ?? (?&?&?); by split_and!|intros ??? (?&?&?) (?&?&?); split_and!; congruence]. Qed.

Definition kept_inputs (k : NamespacedName) (h h' : list process_event) : Prop :=
  match primary_cache h !! k, primary_cache h' !! k with
  | Some a, Some a' => same_inputs a a' /\ forall kb, looks_at a kb -> watched_cache h' !! kb = watched_cache h !! kb
  | None, None => True
  | _, _ => False
  end.

Lemma primary_snoc h e : primary_cache (h ++ [e]) =
  match e with PrimaryDelivered k new => put k new (primary_cache h) | _ => primary_cache h end.
Proof. unfold primary_cache. by rewrite fold_left_app. Qed.

Lemma watched_snoc h e : watched_cache (h ++ [e]) =
  match e with WatchedDelivered k new => put k new (watched_cache h) | _ => watched_cache h end.
Proof. unfold watched_cache. by rewrite fold_left_app. Qed.

(** What is cached was delivered. *)
Lemma primary_delivered h k a : primary_cache h !! k = Some a -> PrimaryDelivered k (Some a) ∈ h.
Proof.
  revert k a. induction h as [|e h IH] using rev_ind; intros k a; [unfold primary_cache; cbn; by rewrite lookup_empty|].
  rewrite primary_snoc, elem_snoc. destruct e as [k' new|k' new|k']; try (left; by apply IH).
  destruct (decide (k' = k)) as [->|Hne]; [rewrite put_same; intros ->; by right|].
  rewrite put_other by done. left. by apply IH.
Qed.

Lemma watched_delivered h k b : watched_cache h !! k = Some b -> WatchedDelivered k (Some b) ∈ h.
Proof.
  revert k b. induction h as [|e h IH] using rev_ind; intros k b; [unfold watched_cache; cbn; by rewrite lookup_empty|].
  rewrite watched_snoc, elem_snoc. destruct e as [k' new|k' new|k']; try (left; by apply IH).
  destruct (decide (k' = k)) as [->|Hne]; [rewrite put_same; intros ->; by right|].
  rewrite put_other by done. left. by apply IH.
Qed.

Lemma cached_key h k a : delivers h -> primary_cache h !! k = Some a -> key_a a = k.
Proof. intros Hd Ha. by apply (de_primary _ Hd), primary_delivered. Qed.

Lemma watched_key h k b : delivers h -> watched_cache h !! k = Some b -> key_b b = k.
Proof. intros Hd Hb. by apply (de_watched _ Hd), watched_delivered. Qed.

Lemma delivers_prefix h1 h2 : delivers (h1 ++ h2) -> delivers h1.
Proof.
  intros [H1 H2 H3]. split.
  - intros k a Hin. apply H1, elem_of_app. by left.
  - intros k b Hin. apply H2, elem_of_app. by left.
  - intros g1 g2 k a0 a E. apply (H3 g1 (g2 ++ h2)%list). by rewrite E, <- app_assoc.
Qed.

Lemma quiet_event k h e : delivers (h ++ [e]) -> k ∉ enqueued h e -> kept_inputs k h (h ++ [e]).
Proof.
  intros Hd Hq. assert (Hh : delivers h) by (by apply delivers_prefix in Hd).
  unfold kept_inputs. rewrite primary_snoc, watched_snoc. destruct e as [k' new|k' new|k'].
  - destruct (decide (k' = k)) as [->|Hne]; [|rewrite put_other by done; by destruct (primary_cache h !! k)].
    rewrite put_same. cbn in Hq. destruct (primary_cache h !! k) as [a|] eqn:Ea, new as [a'|]; cbn in Hq;
      try (exfalso; apply Hq; by apply list_elem_of_singleton).
    rewrite generation_changed_spec in Hq.
    destruct (Z.eqb_spec (Generation (meta_a a)) (Generation (meta_a a'))) as [Eg|]; cbn in Hq;
      [|exfalso; apply Hq; by apply list_elem_of_singleton].
    destruct (Bool.eqb _ _) eqn:Ed; cbn in Hq; [|exfalso; apply Hq; by apply list_elem_of_singleton].
    apply Bool.eqb_prop in Ed. split; [|done]. split_and!; [|symmetry; by apply (de_generation _ Hd h [] k a a')|done].
    rewrite (cached_key h k a Hh Ea). symmetry. apply (de_primary _ Hd). apply elem_of_app. right. by apply list_elem_of_singleton.
  - destruct (primary_cache h !! k) as [a|] eqn:Ea; [|done]. split; [done|]. intros kb Hl.
    destruct (decide (k' = kb)) as [->|Hne]; [|by rewrite put_other]. rewrite put_same.
    assert (Hall : a ∈ map snd (map_to_list (primary_cache h))).
    { apply list_elem_of_fmap. exists (k, a). split; [done|]. by apply elem_of_map_to_list. }
    assert (Hnone : forall b, key_b b = kb -> b ∉ (option_list (watched_cache h !! kb) ++ option_list new)%list).
    { intros b Hb Hin. apply Hq. cbn. apply list_elem_of_In, in_flat_map. exists b. split; [by apply list_elem_of_In|].
      apply list_elem_of_In. rewrite <- (cached_key h k a Hh Ea). apply mapper_wakes; [done|]. by rewrite Hb. }
    destruct new as [b|].
    + exfalso. apply (Hnone b); [|apply elem_of_app; right; by apply list_elem_of_singleton].
      apply (de_watched _ Hd). apply elem_of_app. right. by apply list_elem_of_singleton.
    + destruct (watched_cache h !! kb) as [b|] eqn:Eb; [|done]. exfalso. apply (Hnone b).
      * by apply (watched_key h).
      * apply elem_of_app. left. by apply list_elem_of_singleton.
  - by destruct (primary_cache h !! k).
Qed.

Lemma quiet_kept k h h2 : delivers (h ++ h2) -> quiet k h h2 -> kept_inputs k h (h ++ h2).
Proof.
  revert h. induction h2 as [|e h2 IH]; intros h Hd Hq.
  - rewrite app_nil_r. unfold kept_inputs. by destruct (primary_cache h !! k).
  - replace (h ++ e :: h2)%list with ((h ++ [e]) ++ h2)%list in * by (by rewrite <- app_assoc).
    assert (H1 : kept_inputs k h (h ++ [e])).
    { apply quiet_event; [by eapply delivers_prefix|]. specialize (Hq [] e h2 eq_refl). by rewrite app_nil_r in Hq. }
    assert (H2 : kept_inputs k (h ++ [e]) ((h ++ [e]) ++ h2)).
    { apply IH; [done|]. intros g1 e' g2 E. rewrite <- app_assoc. apply (Hq (e :: g1) e' g2). by rewrite E. }
    unfold kept_inputs in *. destruct (primary_cache h !! k) as [a|], (primary_cache (h ++ [e]) !! k) as [a1|],
      (primary_cache ((h ++ [e]) ++ h2) !! k) as [a2|]; try done.
    destruct H1 as [S1 L1], H2 as [S2 L2]. split; [by etransitivity|]. intros kb Hl. rewrite <- (L1 kb Hl).
    apply L2. destruct S1 as (Ek & Es & _). by eapply looks_at_spec.
Qed.

(** The last event that woke an object. *)
Lemma last_woken h k a :
  delivers h -> primary_cache h !! k = Some a ->
  exists h1 e h2, h = (h1 ++ e :: h2)%list /\ k ∈ enqueued h1 e /\ quiet k (h1 ++ [e]) h2.
Proof.
  revert a. induction h as [|e h IH] using rev_ind; intros a Hd Ha; [unfold primary_cache in Ha; cbn in Ha; by rewrite lookup_empty in Ha|].
  destruct (decide (k ∈ enqueued h e)) as [Hin|Hout].
  - exists h, e, []. split_and!; [done..|]. intros g1 e' g2 E. by destruct g1.
  - pose proof (quiet_event k h e Hd Hout) as Hk. unfold kept_inputs in Hk. rewrite Ha in Hk.
    destruct (primary_cache h !! k) as [a0|]; [|done].
    destruct (IH a0) as (h1 & e1 & h2 & -> & Hin & Hq); [by eapply delivers_prefix|done|].
    exists h1, e1, (h2 ++ [e])%list. split_and!; [by rewrite <- app_assoc|done|].
    intros g1 e' g2 E. destruct g2 as [|x g2 _] using rev_ind.
    + apply app_inj_tail in E as [-> ->]. by rewrite <- app_assoc.
    + rewrite app_comm_cons, app_assoc in E. apply app_inj_tail in E as [-> _]. by apply (Hq g1 e' g2).
Qed.

(** A reconcile of an object that started with its present specification. *)
Definition started (h : list process_event) (k : NamespacedName) (a : A) (h1 h2 : list process_event) (a0 : A) : Prop :=
  h = (h1 ++ ReconcileStart k :: h2)%list /\ primary_cache h1 !! k = Some a0 /\
  spec_of a0 = spec_of a /\ deletion_set (meta_a a0) = deletion_set (meta_a a).

Lemma drained_started h k a :
  delivers h -> drained h -> primary_cache h !! k = Some a ->
  exists h1 h2 a0, started h k a h1 h2 a0 /\
    forall f kb, served (h1 ++ [ReconcileStart k]) h2 f -> looks_at a0 kb -> f kb = cached (watched_cache h) kb.
Proof.
  intros Hd Hdr Ha. destruct (last_woken h k a Hd Ha) as (h1 & e & h2 & E & Hin & Hq).
  pose proof (Hdr h1 e h2 k E Hin) as Hs. apply list_elem_of_split in Hs as (g1 & g2 & E2).
  (* whatever is read after [e] is what the caches hold at the end *)
  assert (Hlater : forall p q, h2 = (p ++ q)%list -> kept_inputs k (h1 ++ e :: p) h).
  { intros p q ->. rewrite E. replace (h1 ++ e :: (p ++ q))%list with ((h1 ++ e :: p) ++ q)%list by (by rewrite <- app_assoc).
    apply quiet_kept; [by rewrite <- app_assoc, <- app_comm_cons, <- E|].
    intros u e' v ->. replace ((h1 ++ e :: p) ++ u)%list with ((h1 ++ [e]) ++ p ++ u)%list by (by rewrite <- !app_assoc).
    apply (Hq (p ++ u)%list e' v). by rewrite <- app_assoc. }
  pose proof (Hlater g1 _ E2) as Hr. unfold kept_inputs in Hr. rewrite Ha in Hr.
  destruct (primary_cache (h1 ++ e :: g1) !! k) as [a0|] eqn:Ea0; [|done]. destruct Hr as [(Ek & Es & Ed) _].
  exists (h1 ++ e :: g1)%list, g2, a0. split.
  { split_and!; [by rewrite E, E2, <- app_assoc|done..]. }
  intros f kb Hf Hl. destruct (Hf kb) as (i1 & i2 & E3 & ->). unfold cached.
  pose proof (Hlater (g1 ++ ReconcileStart k :: i1)%list i2) as Hw.
  rewrite E2, E3, <- app_assoc in Hw. specialize (Hw eq_refl). unfold kept_inputs in Hw. rewrite Ha in Hw.
  replace (((h1 ++ e :: g1) ++ [ReconcileStart k]) ++ i1)%list with (h1 ++ e :: g1 ++ ReconcileStart k :: i1)%list
    by (by rewrite <- !app_assoc).
  destruct (primary_cache (h1 ++ e :: g1 ++ ReconcileStart k :: i1) !! k) as [a1|]; [|done].
  destruct Hw as [(Ek1 & Es1 & _) Hw]. rewrite <- (Hw kb); [done|].
  eapply looks_at_spec; [..|exact Hl]; congruence.
Qed.

End History.

(** ** The controllers *)

(** What the reconciles look at, as [Watches] shows: a slice at the ephemeris it
    refers to, a cell likewise if it refers to one, an ephemeris at the stations
    it predicts passes over. *)
Definition slice_looks_at (s : NTNSlice) (k : NamespacedName) : Prop :=
  k = mkKey (Namespace (sliceMeta s)) (EphemerisRef (sliceSpec s)).

Definition cell_looks_at (cc : NTNCellConfig) (k : NamespacedName) : Prop :=
  csEphemerisRef (cellSpec cc) <> "" /\ k = mkKey (Namespace (cellMeta cc)) (csEphemerisRef (cellSpec cc)).

Definition ephemeris_looks_at (eph : SatelliteEphemeris) (k : NamespacedName) : Prop :=
  kNamespace k = Namespace (ephMeta eph) /\ predicts_over eph (kName k).

Definition slice_mapper (all : list NTNSlice) (eph : SatelliteEphemeris) : list NamespacedName :=
  ephemerisToSlice (slice_view eph) (Some (slices_in all (Namespace (ephMeta eph)))).
Definition cell_mapper (all : list NTNCellConfig) (eph : SatelliteEphemeris) : list NamespacedName :=
  ephemerisToNTNCellConfig eph (fun ns v => Some (cells_indexed all ns v)).
Definition ephemeris_mapper (all : list SatelliteEphemeris) (gs : GroundStationLifecycle) : list NamespacedName :=
  groundStationToEphemeris (Ok all) (gsMeta gs).

Lemma slice_woken all s eph :
  s ∈ all -> slice_looks_at s (ObjectKeyFromObject (ephMeta eph)) -> ObjectKeyFromObject (sliceMeta s) ∈ slice_mapper all eph.
Proof. intros Hin Hlook. apply slices_woken. exists s. by injection Hlook as -> ->. Qed.
Lemma cell_woken all cc eph :
  cc ∈ all -> cell_looks_at cc (ObjectKeyFromObject (ephMeta eph)) -> ObjectKeyFromObject (cellMeta cc) ∈ cell_mapper all eph.
Proof. intros Hin [Hne Hlook]. apply cells_woken. exists cc. by injection Hlook as -> ->. Qed.
Lemma ephemeris_woken all eph gs :
  eph ∈ all -> ephemeris_looks_at eph (ObjectKeyFromObject (gsMeta gs)) ->
  ObjectKeyFromObject (ephMeta eph) ∈ ephemeris_mapper all gs.
Proof. intros Hin [Hns Hp]. apply ephemerides_woken. by exists eph. Qed.

Lemma slice_looks_at_spec s s' kb :
  ObjectKeyFromObject (sliceMeta s) = ObjectKeyFromObject (sliceMeta s') -> sliceSpec s = sliceSpec s' ->
  slice_looks_at s kb -> slice_looks_at s' kb.
Proof. intros [= Hns Hn] Hs ->. unfold slice_looks_at. by rewrite Hs, Hns. Qed.
Lemma cell_looks_at_spec cc cc' kb :
  ObjectKeyFromObject (cellMeta cc) = ObjectKeyFromObject (cellMeta cc') -> cellSpec cc = cellSpec cc' ->
  cell_looks_at cc kb -> cell_looks_at cc' kb.
Proof. intros [= Hns Hn] Hs [Hne ->]. unfold cell_looks_at. by rewrite <- Hs, Hns. Qed.
Lemma ephemeris_looks_at_spec e e' kb :
  ObjectKeyFromObject (ephMeta e) = ObjectKeyFromObject (ephMeta e') -> ephSpec e = ephSpec e' ->
  ephemeris_looks_at e kb -> ephemeris_looks_at e' kb.
Proof. intros [= Hns Hn] Hs [Hk Hp]. split; [by rewrite Hk|]. unfold predicts_over in *. by rewrite <- Hs. Qed.

Section Drained.
Context {R : Type} `{CR : ControllerRefs R} `{SRV : ConfigServer R} {F : Type} `{ES : ElementSources F}
  `{SC : StatusConditions} `{OM : OrbitModel} {P : Type} `{MP : metricsReaderProvider P} {W : Type}.
Variable generation_changed : option ObjectMeta -> option ObjectMeta -> bool.
Variable unicode_lower : string -> string.
Variable url_parse : string -> option URL.
Variable pem_ok : string -> bool.
Variable keypair_ok : string -> string -> bool.
Variable ValidHeaderFieldValue : string -> bool.
Variable sha256hex : string -> string.
Variable IsPrint : N -> bool.
Variable not_found_text : NamespacedName -> string.
Variable cm_get : W -> NamespacedName -> GetResult ConfigMapView.
Variable cm_delete : W -> NamespacedName -> UID -> option string * W.
Variable Providers : option (gmap string (NTNProvider W)).
Variable RemoteControlAllowedHosts : EndpointAllowlist.
Variable build_error_text : provider_error -> string.
Variable read_error_text : read_error -> string.
Variable marshal_omms : list OMM -> result string string.
Variable ParseOMMs : string -> result string (list OMM).
Variable ip_string : IP -> string.
Variable is_context_error : string -> bool.

Hypothesis generation_changed_spec : forall o n,
  generation_changed (Some o) (Some n) = negb (Generation o =? Generation n)%Z.

(** C15. Nothing stays behind: when the queue of the slice controller, of the cell
    controller or of the ephemeris controller has drained, then for every cached
    object some reconcile started from the specification, and the deletion mark,
    the object has now; and whenever that reconcile read the ephemeris it refers
    to, or the stations it predicts passes over, and in whatever state the
    controller was, its outcome (the writes, the effects and the result, errors
    included) is the one it has when those are read as they are at the end;
    whatever was created, edited, deleted or written to a status before, and
    however the deliveries fell between the reads. *)
Theorem drained_queues_are_up_to_date :
  (forall h k s, delivers sliceMeta ephMeta sliceSpec h ->
     drained sliceMeta slice_mapper generation_changed h -> primary_cache h !! k = Some s ->
     exists h1 h2 s0, started sliceMeta sliceSpec h k s h1 h2 s0 /\
       forall w env f, envSlice env = Found s0 -> served (h1 ++ [ReconcileStart k]) h2 f ->
         SliceController.Reconcile build_error_text read_error_text w k (slice_env env f) =
         SliceController.Reconcile build_error_text read_error_text w k (slice_env env (cached (watched_cache h)))) /\
  (forall h k cc, delivers cellMeta ephMeta cellSpec h ->
     drained cellMeta cell_mapper generation_changed h -> primary_cache h !! k = Some cc ->
     exists h1 h2 cc0, started cellMeta cellSpec h k cc h1 h2 cc0 /\
       forall w env f, ceCell env = Found cc0 -> served (h1 ++ [ReconcileStart k]) h2 f ->
         CellController.Reconcile (W := W) unicode_lower url_parse pem_ok keypair_ok ValidHeaderFieldValue sha256hex IsPrint
           not_found_text cm_get cm_delete Providers RemoteControlAllowedHosts w (cell_env env f) =
         CellController.Reconcile (W := W) unicode_lower url_parse pem_ok keypair_ok ValidHeaderFieldValue sha256hex IsPrint
           not_found_text cm_get cm_delete Providers RemoteControlAllowedHosts w
           (cell_env env (cached (watched_cache h)))) /\
  (forall h k eph, delivers ephMeta gsMeta ephSpec h ->
     drained ephMeta ephemeris_mapper generation_changed h -> primary_cache h !! k = Some eph ->
     exists h1 h2 eph0, started ephMeta ephSpec h k eph h1 h2 eph0 /\
       forall w env f f', eeEph env = Found eph0 ->
         served (h1 ++ [ReconcileStart k]) h2 f -> served (h1 ++ [ReconcileStart k]) h2 f' ->
         eph_reconcile (R := R) (F := F) sha256hex IsPrint marshal_omms ParseOMMs unicode_lower url_parse ip_string
           is_context_error (stations_env env f f') w =
         eph_reconcile (R := R) (F := F) sha256hex IsPrint marshal_omms ParseOMMs unicode_lower url_parse ip_string
           is_context_error (stations_env env (cached (watched_cache h)) (cached (watched_cache h))) w).
Proof.
  split_and!; intros h k a Hd Hq Ha.
  - destruct (drained_started sliceMeta ephMeta sliceSpec slice_looks_at slice_mapper generation_changed) with (h := h) (k := k) (a := a)
      as (h1 & h2 & a0 & Hs & Hread); [done|exact slice_woken|exact slice_looks_at_spec|done..|].
    exists h1, h2, a0. split; [done|]. intros w env f He Hf. apply slice_reads. rewrite He. intros ? [= <-]. by apply Hread.
  - destruct (drained_started cellMeta ephMeta cellSpec cell_looks_at cell_mapper generation_changed) with (h := h) (k := k) (a := a)
      as (h1 & h2 & a0 & Hs & Hread); [done|exact cell_woken|exact cell_looks_at_spec|done..|].
    exists h1, h2, a0. split; [done|]. intros w env f He Hf. apply cell_reads. rewrite He. intros ? [= <-] Hr. by apply Hread.
  - destruct (drained_started ephMeta gsMeta ephSpec ephemeris_looks_at ephemeris_mapper generation_changed) with (h := h) (k := k) (a := a)
      as (h1 & h2 & a0 & Hs & Hread); [done|exact ephemeris_woken|exact ephemeris_looks_at_spec|done..|].
    exists h1, h2, a0. split; [done|]. intros w env f f' He Hf Hf'. apply ephemeris_reads. rewrite He. intros ? [= <-].
    intros pp name Hpp Hn. split; apply Hread; (done || (split; [done|by exists pp])).
Qed.

End Drained.

(** A slice that is created before its ephemeris, with a status write of the
    latter delivered during the second reconcile. *)
Definition late_eph (n : Z) : SatelliteEphemeris :=
  mkEph (mkMeta "default" "eph" "u" 1 None [] ∅) (tracked_spec "u")
    (mkEphStatus "" None None "" n 0 [] [] []).

Definition changed_generation (o n : option ObjectMeta) : bool :=
  match o, n with Some o, Some n => negb (Generation o =? Generation n)%Z | _, _ => false end.

Definition eph_key : NamespacedName := mkKey "default" "eph".
Definition first_slice : NTNSlice := demo_slice "-90" "" None true None.

Definition late_history : list (process_event (A := NTNSlice) (B := SatelliteEphemeris)) :=
  [PrimaryDelivered demo_key (Some first_slice); ReconcileStart demo_key;
   WatchedDelivered eph_key (Some (late_eph 1)); ReconcileStart demo_key;
   WatchedDelivered eph_key (Some (late_eph 2)); ReconcileStart demo_key].

Ltac each_event h1 E := repeat (destruct h1 as [|? h1]; [injection E as <- <-|injection E as <- E]).

Lemma late_delivers : delivers sliceMeta ephMeta sliceSpec late_history.
Proof.
  split.
  - intros k a Hin. apply list_elem_of_In in Hin. cbn in Hin.
    repeat (destruct Hin as [Hin|Hin]; [try discriminate Hin; by injection Hin as <- <-|]). done.
  - intros k b Hin. apply list_elem_of_In in Hin. cbn in Hin.
    repeat (destruct Hin as [Hin|Hin]; [try discriminate Hin; by injection Hin as <- <-|]). done.
  - intros h1 h2 k a0 a E. destruct h1 as [|e h1]; [unfold primary_cache; cbn; by rewrite lookup_empty|]. injection E as _ E.
    exfalso. repeat (destruct h1 as [|? h1]; [discriminate E|injection E as _ E]). by destruct h1.
Qed.

Lemma late_drained : drained sliceMeta slice_mapper changed_generation late_history.
Proof.
  assert (Hone : forall (l : list NamespacedName) k, forallb (fun x => bool_decide (x = demo_key)) l = true ->
    k ∈ l -> k = demo_key).
  { intros l k Hl Hk. rewrite forallb_forall in Hl. apply list_elem_of_In in Hk. by apply Hl, bool_decide_eq_true in Hk. }
  intros h1 e h2 k E Hin. each_event h1 E;
    try match type of Hin with _ ∈ enqueued _ _ _ _ (ReconcileStart _) => by apply elem_of_nil in Hin end;
    [assert (k = demo_key) as -> by (eapply Hone; [|exact Hin]; vm_compute; reflexivity)..
    |by destruct h1]; apply list_elem_of_In; cbn; auto.
Qed.

#[local] Existing Instance list_conditions.
#[local] Existing Instance demo_refs.
#[local] Existing Instance demo_server.
#[local] Existing Instance down_sources.
#[local] Existing Instance still_model.
#[local] Existing Instance SliceSafety.demo_provider.

Lemma drained_queues_are_up_to_date_witness :
  exists h1 h2 s0, started sliceMeta sliceSpec late_history demo_key first_slice h1 h2 s0 /\
    forall w env f, envSlice env = Found s0 -> served (h1 ++ [ReconcileStart demo_key]) h2 f ->
      SliceController.Reconcile (fun _ => "") (fun _ => "") w demo_key (slice_env env f) =
      SliceController.Reconcile (fun _ => "") (fun _ => "") w demo_key
        (slice_env env (fun k => if decide (k = eph_key) then Found (late_eph 2) else NotFound)).
Proof.
  destruct (drained_queues_are_up_to_date (R := DemoRef) (F := Fetchers unit) (P := Provider) (W := unit)
    changed_generation lower_ascii CellDemo.demo_url yes yes2 yes same printable demo_missing (fun _ _ => NotFound)
    (fun w _ _ => (None, w)) (Some {["ocudu" := demo_prov None]}) (mkAllow []) (fun _ => "") (fun _ => "")
    marshal_one two_sets (fun _ => "") (fun _ => false)) as (H & _ & _); [reflexivity|].
  destruct (H late_history demo_key first_slice) as (h1 & h2 & s0 & Hs & Heq);
    [exact late_delivers|exact late_drained|vm_compute; reflexivity|].
  exists h1, h2, s0. split; [exact Hs|]. intros w env f He Hf. rewrite (Heq w env f He Hf).
  apply slice_reads. intros s _. unfold cached.
  replace (watched_cache late_history) with ({[eph_key := late_eph 2]} : gmap NamespacedName SatelliteEphemeris)
    by (vm_compute; reflexivity).
  case_decide as E; [rewrite E; by rewrite lookup_singleton_eq|by rewrite lookup_singleton_ne].
Defined.
