(* ===== verification/System.v ===== *)
(** * The controllers together, over one store of objects

    The theorems of the other files are about one reconcile, or about the
    reconciles of one object.  Here the ephemeris, the cell and the slice
    controllers run side by side in one process, over SatelliteEphemeris
    objects they share: any interleaving of reconciles, with clients that
    create, edit and delete, informer caches that lag behind, status writes
    that fail, other writers of ConfigMaps, and restarts of the process.

    The store keeps every version of an object it ever had, so a reader that
    lags is one that reads an earlier version.  Of the API server the steps use
    what the markers of the types ask of it and its documentation promises:
    with [+kubebuilder:subresource:status] a client that creates or edits an
    object does not write its status; a status update succeeds only on the
    version it was computed from; times are kept in whole seconds.  A reconcile
    is one step, at the moment of its last write: what it read by then are
    versions the store already had.

    Shown is where the two things come from that leave the system: every state
    pushed to a gNB goes back to a propagation of a usable element set, and
    every failover to satellite to a predicted pass that is overhead. *)

From S2P Require Import Prelude GoStrings GoNet GoTime GoFloat K8sMeta NetGuard Failover AntiFlap SliceApi MetricsReaders SliceContact SliceController SliceSafety StationApi CellApi PassPredictor OcuduConfig EphemerisApi OcuduProvider OcuduWire Propagator Fetchers EphemerisCache CellController CellSafety EphemerisController EphemerisSafety EphemerisWiring Watches CellDemo EphemerisDemo.
Local Open Scope string_scope.

(** ** What a cell reconcile does to its backend *)

Section Backend.
Context `{SC : StatusConditions} {W : Type}.
Variable unicode_lower : string -> string.
Variable url_parse : string -> option URL.
Variable pem_ok : string -> bool.
Variable keypair_ok : string -> string -> bool.
Variable ValidHeaderFieldValue : string -> bool.
Variable sha256hex : string -> string.
Variable IsPrint : N -> bool.
Variable not_found_text : NamespacedName -> string.
Variable cm_get : W -> NamespacedName -> GetResult ConfigMapView.
Variable cm_delete : W -> NamespacedName -> UID -> option string * W.
Variable Providers : option (gmap string (NTNProvider W)).
Variable AllowedHosts : EndpointAllowlist.

Abbreviation plan := (runtime_plan unicode_lower url_parse pem_ok keypair_ok ValidHeaderFieldValue sha256hex
  IsPrint AllowedHosts).
Abbreviation cell_reconcile := (CellController.Reconcile (W := W) unicode_lower url_parse pem_ok keypair_ok
  ValidHeaderFieldValue sha256hex IsPrint not_found_text cm_get cm_delete Providers AllowedHosts).

(** A property of the backend that only a runtime push can touch. *)
Record undisturbed (Inv : W -> Prop) : Prop := {
  un_delete : forall b k u, Inv b -> Inv (cm_delete b k u).2;
  un_apply : forall m i p b cc spec, Providers = Some m -> m !! i = Some p -> Inv b -> Inv (prov_Apply p b cc spec).2;
  un_static : forall m i p b cc u, Providers = Some m -> m !! i = Some p -> Inv b -> Inv (prov_PushEphemeris p b cc u).2;
  un_cleanup : forall m i p b cc, Providers = Some m -> m !! i = Some p -> Inv b -> Inv (prov_Cleanup p b cc).2
}.

Lemma cleanup_backend Inv b cc :
  undisturbed Inv -> Inv b ->
  Inv (match provider_of Providers cc with
       | None => best_effort_cleanup cm_get cm_delete b cc
       | Some p => prov_Cleanup p b cc
       end).2.
Proof.
  intros HU Hb.
  assert (Hn : Inv (best_effort_cleanup cm_get cm_delete b cc).2).
  { unfold best_effort_cleanup. destruct (str_eqb _ _); [done|]. destruct (cm_get _ _) as [v| |]; [|done..].
    destruct (cvControlledBy v _); [|done]. by apply (un_delete _ HU). }
  destruct (provider_of Providers cc) as [p|] eqn:Ep; [|done].
  unfold provider_of in Ep. destruct Providers as [m|] eqn:Em; [|done]. by eapply (un_cleanup _ HU).
Qed.

Lemma finalizer_backend Inv w cc env out :
  undisturbed Inv -> Inv (cwBackend w) ->
  handleFinalizer cm_get cm_delete w cc (provider_of Providers cc) env = Some out -> Inv (cwBackend (coWorld out)).
Proof.
  intros HU Hw. pose proof (cleanup_backend Inv (cwBackend w) cc HU Hw) as Hc.
  unfold handleFinalizer, update_object. destruct (deletion_set _), (bool_decide _); try done.
  - change (cwBackend (drop_series cc w)) with (cwBackend w).
    destruct (match provider_of Providers cc with Some _ => _ | None => _ end) as [[e|] b]; [by intros [= <-]|].
    destruct (ceUpdate env); by intros [= <-].
  - by intros [= <-].
  - destruct (ceUpdate env); by intros [= <-].
Qed.

(** The runtime pushes of a reconcile, all planned on an ephemeris it read. *)
Definition pushes_keep (Inv : W -> Prop) (env : CellEnv) : Prop :=
  forall m i p b cc spec rc id k eph marker t u d, Providers = Some m -> m !! i = Some p ->
    ceEphemeris env k = Found eph -> plan cc spec rc id eph env = PlanPush marker t u d ->
    Inv b -> Inv (prov_PushRuntime p b t u).2.

Lemma push_backend Inv m i p b cc spec env :
  undisturbed Inv -> pushes_keep Inv env -> Providers = Some m -> m !! i = Some p -> Inv b ->
  Inv (pushEphemerisUpdateIfNeeded unicode_lower url_parse pem_ok keypair_ok ValidHeaderFieldValue sha256hex IsPrint
         not_found_text AllowedHosts b cc spec p env).2.
Proof.
  intros HU Hpush Em Ep Hb. unfold pushEphemerisUpdateIfNeeded. destruct (str_eqb _ _); [done|].
  destruct (ceEphemeris env _) as [eph| |] eqn:Ee; [|done..].
  assert (Hs : Inv (push_static b cc spec eph p).2).
  { unfold push_static. destruct (isEphemerisPushUpToDate _ _); [done|].
    destruct (match ntnOrbital _ with Some _ => _ | None => _ end) as [u|]; [|done].
    pose proof (un_static _ HU _ _ _ b cc u Em Ep Hb) as H. by destruct (prov_PushEphemeris p b _ u) as [[]]. }
  destruct (prRemoteControl _) as [rc|]; [|done]. destruct (csCellID _) as [id|]; [|done].
  unfold pushRuntimeEphemeris. destruct (plan cc spec rc id eph env) as [|?|marker t u d] eqn:Hp; [done..|].
  pose proof (Hpush _ _ _ b _ _ _ _ _ _ _ _ _ _ Em Ep Ee Hp Hb) as H. by destruct (prov_PushRuntime p b t u) as [[]].
Qed.

Lemma reconcile_backend (Inv : W -> Prop) w env :
  undisturbed Inv -> pushes_keep Inv env ->
  Inv (cwBackend w) -> Inv (cwBackend (coWorld (cell_reconcile w env))).
Proof.
  intros HU Hpush Hw. unfold CellController.Reconcile. destruct (ceCell env) as [cc| |]; [|done..].
  destruct (handleFinalizer _ _ w cc _ env) as [out|] eqn:Hf; [by eapply finalizer_backend|].
  unfold provider_of. destruct Providers as [m|] eqn:Em; [|unfold reconcile_no_provider; by rewrite persist_backend].
  destruct (m !! _) as [p|] eqn:Ep; [|unfold reconcile_no_provider; by rewrite persist_backend].
  unfold reconcile_cell. pose proof (un_apply _ HU _ _ _ (cwBackend w) cc (enforced_spec cc) Em Ep Hw) as Ha.
  destruct (prov_Apply p (cwBackend w) cc _) as [[e|] b]; cbn [snd] in Ha;
    [unfold reconcile_apply_failed; by rewrite persist_backend|].
  destruct (prov_Status p b cc) as [status|]; [|unfold reconcile_unverified; by rewrite persist_backend].
  rewrite applied_backend. destruct (str_eqb _ _); [done|]. cbn [cwBackend with_backend]. by eapply push_backend.
Qed.

End Backend.

Lemma FilterOMMs_elem o omms norads : o ∈ FilterOMMs omms norads -> o ∈ omms /\ (norads = [] \/ NoradCatID o ∈ norads).
Proof.
  unfold FilterOMMs. destruct (Nat.eqb_spec (length norads) 0) as [E|E].
  - apply nil_length_inv in E. auto.
  - intros [H Ho]%elem_of_filter_bool. apply bool_decide_eq_true in H. auto.
Qed.

(** ** What the API server keeps *)

(** Times of an object lose their fractions of a second in the store. *)
Definition stored_window (p : PassWindow) : PassWindow :=
  mkPassWindow (pwSatellite p) (pwNoradID p) (pwGroundStation p) (metav1_stored (pwAOS p)) (metav1_stored (pwLOS p))
    (pwMaxElevation p).

Definition stored_eph_status (st : SatelliteEphemerisStatus) : SatelliteEphemerisStatus :=
  mkEphStatus (PropagatedStatesInputHash st) (metav1_stored <$> LastUpdated st)
    (metav1_stored <$> LastPassPredictionTime st) (LastPassPredictionInputHash st) (SatelliteCount st)
    (TruncatedSatelliteCount st) (map stored_window (NextPassWindows st)) (PropagatedStates st) (esConditions st).

Definition empty_status : SatelliteEphemerisStatus := mkEphStatus "" None None "" 0 0 [] [] [].

(** The versions the status writes of a reconcile leave, the last one first. *)
Definition written_versions (eph : SatelliteEphemeris) (l : list SatelliteEphemerisStatus) : list SatelliteEphemeris :=
  rev (map (fun st => with_status eph (stored_eph_status st)) l).

Lemma stored_window_idemp p : stored_window (stored_window p) = stored_window p.
Proof. unfold stored_window. f_equal; apply Truncate_idemp. Qed.

Lemma written_versions_elem eph l e :
  e ∈ written_versions eph l <-> exists st, st ∈ l /\ e = with_status eph (stored_eph_status st).
Proof.
  unfold written_versions. rewrite list_elem_of_In, <- in_rev, <- list_elem_of_In, list_elem_of_fmap. naive_solver.
Qed.

(** A provider that also keeps every runtime update it was asked to deliver,
    accepted or not. *)
Definition watched {W0} (prov : NTNProvider W0) : NTNProvider (W0 * list RuntimeUpdate) :=
  mkNTNProvider
    (fun w cc spec => let '(e, b) := prov_Apply prov w.1 cc spec in (e, (b, w.2)))
    (fun w cc => prov_Status prov w.1 cc)
    (fun w cc u => let '(e, b) := prov_PushEphemeris prov w.1 cc u in (e, (b, w.2)))
    (fun w t u => let '(e, b) := prov_PushRuntime prov w.1 t u in (e, (b, w.2 ++ [u])%list))
    (fun w cc => let '(e, b) := prov_Cleanup prov w.1 cc in (e, (b, w.2))).

Section System.
Context {R : Type} `{CR : ControllerRefs R} `{SRV : ConfigServer R} {F : Type} `{ES : ElementSources F}
  `{US : !UsableSources F} `{SC : StatusConditions} `{OM : OrbitModel} {P : Type} `{MP : metricsReaderProvider P}
  {W0 : Type}.
Variable unicode_lower : string -> string.
Variable url_parse : string -> option URL.
Variable pem_ok : string -> bool.
Variable keypair_ok : string -> string -> bool.
Variable ValidHeaderFieldValue : string -> bool.
Variable sha256hex : string -> string.
Variable IsPrint : N -> bool.
Variable not_found_text : NamespacedName -> string.
Variable cm_get : W0 -> NamespacedName -> GetResult ConfigMapView.
Variable cm_delete : W0 -> NamespacedName -> UID -> option string * W0.
Variable Providers : option (gmap string (NTNProvider W0)).
Variable AllowedHosts : EndpointAllowlist.
Variable build_error_text : provider_error -> string.
Variable read_error_text : read_error -> string.
Variable marshal_omms : list OMM -> result string string.
Variable ParseOMMs : string -> result string (list OMM).
Variable ip_string : IP -> string.
Variable is_context_error : string -> bool.

(** What a new process starts with. *)
Variable fresh_sources : F.
Variable fresh_provider : P.

Abbreviation W := (W0 * list RuntimeUpdate)%type.
Abbreviation ephemeris_reconcile := (eph_reconcile (R := R) (F := F) sha256hex IsPrint marshal_omms ParseOMMs
  unicode_lower url_parse ip_string is_context_error).
Abbreviation watched_providers := (fmap (M := option) (fmap (M := gmap string) watched) Providers).
Abbreviation cell_reconcile := (CellController.Reconcile (W := W) unicode_lower url_parse pem_ok keypair_ok
  ValidHeaderFieldValue sha256hex IsPrint not_found_text (fun w => cm_get w.1)
  (fun w k u => let '(e, b) := cm_delete w.1 k u in (e, (b, w.2))) watched_providers AllowedHosts).
Abbreviation slice_reconcile := (SliceController.Reconcile (P := P) build_error_text read_error_text).
Abbreviation hash_of := (propagationInputHash sha256hex IsPrint).

(** ** The system *)

(** Every version of every ephemeris, the latest first; the worlds of the three
    controllers. *)
Record System := mkSystem {
  sysStore : gmap NamespacedName (list SatelliteEphemeris);
  sysEph : EphWorld (R := R) (F := F);
  sysCell : CellWorld (W := W);
  sysSlice : SliceWorld (P := P)
}.

Definition versions (s : System) (k : NamespacedName) : list SatelliteEphemeris := default [] (sysStore s !! k).

Definition add_versions (s : System) (k : NamespacedName) (l : list SatelliteEphemeris)
  : gmap NamespacedName (list SatelliteEphemeris) := <[k := (l ++ versions s k)%list]> (sysStore s).

(** The runtime updates that were sent to gNBs. *)
Definition sent (s : System) : list RuntimeUpdate := (cwBackend (sysCell s)).2.

(** A reader sees versions the store has or had, or nothing. *)
Definition reads (s : System) (get : NamespacedName -> GetResult SatelliteEphemeris) : Prop :=
  forall k eph, get k = Found eph -> eph ∈ versions s k.

(** The memory of a process that has just started. *)
Definition fresh_eph (w : EphWorld (R := R) (F := F)) : EphWorld (R := R) (F := F) :=
  mkEphWorld (mkCacheWorld (owStore (ewCache w)) ∅ fresh_sources (mkCacheSeries ∅ ∅ ∅)) ∅ (ewRecorded w).
Definition fresh_cell (w : CellWorld (W := W)) : CellWorld (W := W) :=
  mkCellWorld (cwBackend w) ∅ ∅ ∅ ∅ (cwRecorded w).
Definition fresh_slice (w : SliceWorld (P := P)) : SliceWorld (P := P) :=
  mkWorld ∅ fresh_provider ∅ ∅ (recorded w).

(** A status is written on the version it was computed from, which is the
    latest then. *)
Definition ephemeris_read (s : System) (env : EphEnv (R := R)) (out : EphOutcome (R := R) (F := F)) : Prop :=
  forall eph, eeEph env = Found eph ->
    eph ∈ versions s (eeKey env) /\ (eoWritten out <> [] -> head (versions s (eeKey env)) = Some eph).

Definition new_versions (env : EphEnv (R := R)) (out : EphOutcome (R := R) (F := F)) : list SatelliteEphemeris :=
  match eeEph env with Found eph => written_versions eph (eoWritten out) | _ => [] end.

Inductive sys_step : System -> System -> Prop :=
| client_creates s k e :
    ephStatus e = empty_status ->
    sys_step s (mkSystem (add_versions s k [e]) (sysEph s) (sysCell s) (sysSlice s))
| client_edits s k v e :
    head (versions s k) = Some v -> ephStatus e = ephStatus v ->
    sys_step s (mkSystem (add_versions s k [e]) (sysEph s) (sysCell s) (sysSlice s))
| ephemeris_steps s env :
    ephemeris_read s env (ephemeris_reconcile env (sysEph s)) ->
    sys_step s (mkSystem (add_versions s (eeKey env) (new_versions env (ephemeris_reconcile env (sysEph s))))
                  (eoWorld (ephemeris_reconcile env (sysEph s))) (sysCell s) (sysSlice s))
| cell_steps s env :
    reads s (ceEphemeris env) ->
    sys_step s (mkSystem (sysStore s) (sysEph s) (coWorld (cell_reconcile (sysCell s) env)) (sysSlice s))
| slice_steps s key env get :
    reads s get ->
    sys_step s (mkSystem (sysStore s) (sysEph s) (sysCell s)
                  (outWorld (slice_reconcile (sysSlice s) key (slice_env env get))))
| config_maps_change s configMaps :
    sys_step s (mkSystem (sysStore s) (with_cache (sysEph s) (with_store (ewCache (sysEph s)) configMaps))
                  (sysCell s) (sysSlice s))
| process_restarts s :
    sys_step s (mkSystem (sysStore s) (fresh_eph (sysEph s)) (fresh_cell (sysCell s)) (fresh_slice (sysSlice s))).

(** A cluster without ephemerides in which the process has just started. *)
Record sys_initial (s : System) : Prop := {
  in_store : sysStore s = ∅;
  in_eph : sysEph s = fresh_eph (sysEph s);
  in_sent : sent s = []
}.

Definition sys_reachable (s : System) : Prop := exists s0, sys_initial s0 /\ rtc sys_step s0 s.

(** ** Provenance *)

(** The states of a status were published for usable element sets, under the
    inputs the hash stands for. *)
Definition computed (st : SatelliteEphemerisStatus) : Prop :=
  PropagatedStates st = [] \/
  exists now spec omms, Forall usable omms /\ PropagatedStates st = published now spec omms /\
    PropagatedStatesInputHash st = hash_of spec.

(** The windows of a status were predicted for usable element sets, under the
    inputs the signature stands for. *)
Definition predicted (st : SatelliteEphemerisStatus) : Prop :=
  NextPassWindows st = [] \/
  exists (env : EphEnv (R := R)) eph omms windows, Forall usable omms /\
    current_signature sha256hex IsPrint env eph = Some (LastPassPredictionInputHash st) /\
    predicted_from IsPrint is_context_error env eph omms windows /\
    NextPassWindows st = map stored_window windows.

(** A runtime update has an account: some version of some ephemeris was read,
    and the vector and the epoch of the update are those of the propagation of a
    usable near-earth element set, selected under inputs with the hash of that
    version's own, five minutes ahead of a moment at which the element set was
    not from the future. *)
Definition accounted (s : System) (u : RuntimeUpdate) : Prop :=
  exists k eph now spec o t e, eph ∈ versions s k /\
    hash_of spec = hash_of (ephSpec eph) /\
    usable o /\ IsDeepSpace o = false /\
    (selected_norads spec = [] \/ NoradCatID o ∈ selected_norads spec) /\
    parseOMMEpoch (EpochStr o) = Some t /\ sourceEpochPlausible now t = None /\
    om_propagate o (Add now propagationEpochLead) = Ok e /\ in_3gpp_range e /\
    ruEphemeris u = mkUpdate (Some e) None /\ ruEpochUnixMs u = to_unix_milli (Add now propagationEpochLead).

Record sys_ok (s : System) : Prop := {
  ok_cache : cache_ok (ewCache (sysEph s));
  ok_store : forall k e, e ∈ versions s k -> computed (ephStatus e) /\ predicted (ephStatus e);
  ok_sent : Forall (accounted s) (sent s)
}.

Lemma versions_add s k l e w c k' :
  versions (mkSystem (add_versions s k l) e w c) k' =
  if decide (k = k') then (l ++ versions s k')%list else versions s k'.
Proof.
  unfold versions, add_versions. cbn. case_decide as E; [subst; by rewrite lookup_insert_eq|by rewrite lookup_insert_ne].
Qed.

(** Nothing is lost from the store. *)
Lemma accounted_mono s s' u :
  (forall k e, e ∈ versions s k -> e ∈ versions s' k) -> accounted s u -> accounted s' u.
Proof.
  intros H (k & eph & now & spec & o & t & e & Hin & Hu). exists k, eph, now, spec, o, t, e. split; [by apply H|done].
Qed.

Lemma tracked_elem spec omms o :
  Forall usable omms -> o ∈ tracked spec omms ->
  usable o /\ IsDeepSpace o = false /\ (selected_norads spec = [] \/ NoradCatID o ∈ selected_norads spec).
Proof.
  intros Hu Ho. unfold tracked in Ho. apply (co_from _ _ (canonicalize_spec _)) in Ho as [Ho _].
  destruct (split_is_partition omms) as [Es _]. rewrite Es in Ho. cbn [fst] in Ho.
  apply FilterOMMs_elem in Ho as [Hin Hsel]. apply elem_of_filter_bool in Hin as [Hd Hin].
  rewrite Forall_forall in Hu. split; [by apply Hu|]. split; [by apply negb_true_iff|done].
Qed.

Lemma near_usable omms : Forall usable omms -> Forall usable (SplitByOrbitRegime omms).1.
Proof.
  destruct (split_is_partition omms) as [-> _]. rewrite !Forall_forall. cbn.
  intros H o [_ Ho]%elem_of_filter_bool. by apply H.
Qed.

Lemma all_accounted_mono s s' l :
  (forall k e, e ∈ versions s k -> e ∈ versions s' k) -> Forall (accounted s) l -> Forall (accounted s') l.
Proof. intros H Hl. eapply Forall_impl; [exact Hl|]. intros u. by apply accounted_mono. Qed.

(** *** The ephemeris controller *)

Lemma written_ok env w eph st :
  cache_ok (ewCache w) -> eeEph env = Found eph -> computed (ephStatus eph) -> predicted (ephStatus eph) ->
  st ∈ eoWritten (ephemeris_reconcile env w) ->
  computed (stored_eph_status st) /\ predicted (stored_eph_status st).
Proof.
  intros Hok He Hc Hp Hin. destruct (reconcile_writes _ _ _ _ _ _ _ _ _ _ _ _ He Hin) as [_ Hst Hw]. split.
  - unfold computed. cbn. destruct Hst as [[= -> ->]|(d & c & s' & o & Ha & -> & ->)]; [done|].
    right. exists (eePropagateNow env), (ephSpec eph), (OMMs (foResult o)). split; [|done].
    by eapply acquired_usable in Ha.
  - unfold predicted. cbn. destruct Hw as [[[[= -> ->] _]|E]|(d & c & s' & o & Ha & Hsig & [E|Hf])].
    2,3: left; by rewrite E.
    + destruct Hp as [E|(env0 & eph0 & omms & windows & H1 & H2 & H3 & E)]; [left; by rewrite E|right].
      exists env0, eph0, omms, windows. split_and!; [done..|]. rewrite E, map_map.
      apply map_ext. apply stored_window_idemp.
    + right. exists env, eph, (SplitByOrbitRegime (OMMs (foResult o))).1, (NextPassWindows st). split_and!; [|done..].
      apply near_usable. by eapply acquired_usable in Ha.
Qed.

(** *** The cell controller *)

Lemma planned_state cc spec rc id eph env marker t u d :
  runtime_plan unicode_lower url_parse pem_ok keypair_ok ValidHeaderFieldValue sha256hex IsPrint AllowedHosts
    cc spec rc id eph env = PlanPush marker t u d ->
  exists state, state ∈ PropagatedStates (ephStatus eph) /\
    PropagatedStatesInputHash (ephStatus eph) = hash_of (ephSpec eph) /\
    ruEphemeris u = mkUpdate (Some (psECEF state)) None /\ ruEpochUnixMs u = psEpochUnixMs state.
Proof.
  unfold runtime_plan. destruct (choose_state _ _ _ _ _) as [state|] eqn:Hc; [|done].
  apply choose_state_ok in Hc as (Hh & Hin & _). destruct (currency_error _ _ _ _); [done|].
  destruct (isEphemerisPushUpToDate _ _); [done|]. destruct (Check _ _ _ _); [done|].
  destruct (resolveRemoteControlTLS _ _ _ _ _ _) as [[conf token]|]; [|done]. intros [= _ _ <- _]. by exists state.
Qed.

Lemma planned_accounted s cc spec rc id k eph env marker t u d :
  sys_ok s -> eph ∈ versions s k ->
  runtime_plan unicode_lower url_parse pem_ok keypair_ok ValidHeaderFieldValue sha256hex IsPrint AllowedHosts
    cc spec rc id eph env = PlanPush marker t u d ->
  accounted s u.
Proof.
  intros [_ Hst _] Hin Hp. destruct (Hst _ _ Hin) as [Hc _].
  apply planned_state in Hp as (state & Hs & Hh & Hu & Hep).
  destruct Hc as [E|(now & sp & omms & Hus & E & Hhash)]; rewrite E in Hs; [by apply elem_of_nil in Hs|].
  apply published_elem in Hs as (o & src & e & Ho & Hpo & Hpl & Hprop & ->).
  apply (tracked_elem _ _ _ Hus) in Ho as (H1 & H2 & H3).
  exists k, eph, now, sp, o, src, e. split_and!; try done; [congruence|by eapply om_in_range].
Qed.

Lemma watched_undisturbed (Inv : list RuntimeUpdate -> Prop) :
  undisturbed (fun (w : W) k u => let '(e, b) := cm_delete w.1 k u in (e, (b, w.2))) watched_providers
    (fun b => Inv b.2).
Proof.
  split; [intros b k u H; by destruct (cm_delete b.1 k u)|..]; intros m i p b cc;
    (destruct Providers as [m0|]; [|done]); cbn [fmap option_fmap option_map]; [intros spec|intros u|];
    intros [= <-] Hi H; rewrite lookup_fmap in Hi; destruct (m0 !! i) as [q|]; [|done| |done| |done];
    injection Hi as <-; cbn.
  - by destruct (prov_Apply q b.1 cc spec).
  - by destruct (prov_PushEphemeris q b.1 cc u).
  - by destruct (prov_Cleanup q b.1 cc).
Qed.

Lemma cell_sends s env :
  sys_ok s -> reads s (ceEphemeris env) ->
  Forall (accounted s) (cwBackend (coWorld (cell_reconcile (sysCell s) env))).2.
Proof.
  intros Hok Hr. apply (reconcile_backend unicode_lower url_parse pem_ok keypair_ok ValidHeaderFieldValue sha256hex
    IsPrint not_found_text (fun w => cm_get w.1) _ watched_providers AllowedHosts (fun b => Forall (accounted s) b.2)).
  - apply (watched_undisturbed (Forall (accounted s))).
  - intros m i p b cc spec rc id k eph marker t u d Em Ep He Hp Hb.
    assert (Hu : accounted s u) by (eapply planned_accounted; [done|by apply (Hr k)|done]).
    destruct Providers as [m0|]; [|done]. cbn in Em. injection Em as <-. rewrite lookup_fmap in Ep.
    destruct (m0 !! i) as [q|]; [|done]. injection Ep as <-. cbn. destruct (prov_PushRuntime q b.1 t u). cbn.
    apply Forall_app. split; [done|by constructor].
  - apply Hok.
Qed.

(** *** Every step *)

Lemma add_versions_ok s k l e :
  sys_ok s -> cache_ok (ewCache e) ->
  (forall v, v ∈ l -> computed (ephStatus v) /\ predicted (ephStatus v)) ->
  sys_ok (mkSystem (add_versions s k l) e (sysCell s) (sysSlice s)).
Proof.
  intros [Hc Hst Hs] He Hl. split; [done|..].
  - intros k' v. rewrite versions_add. case_decide; [|by apply Hst].
    intros [Hv|Hv]%elem_of_app; [by apply Hl|by eapply Hst].
  - change (Forall (accounted (mkSystem (add_versions s k l) e (sysCell s) (sysSlice s))) (sent s)).
    apply (all_accounted_mono s); [|done]. intros k' v Hv. rewrite versions_add.
    case_decide; [|done]. apply elem_of_app. by right.
Qed.

Hypothesis fresh_ok : src_ok fresh_sources.

Lemma fresh_cache_ok w : cache_ok (ewCache (fresh_eph w)).
Proof. split; [exact fresh_ok|]. intros k e. cbn. by rewrite lookup_empty. Qed.

Lemma sys_step_ok s s' : sys_step s s' -> sys_ok s -> sys_ok s'.
Proof.
  destruct 1 as [s k e He|s k v e Hv He|s env Hr|s env Hr|s key env get Hr|s cms|s]; intros Hok.
  - apply add_versions_ok; [done|apply Hok|]. intros v ->%list_elem_of_singleton. rewrite He. split; by left.
  - apply add_versions_ok; [done|apply Hok|]. intros x ->%list_elem_of_singleton. rewrite He.
    apply (ok_store _ Hok k). apply head_Some_elem_of. done.
  - apply add_versions_ok; [done|apply cache_stays_usable, Hok|]. unfold new_versions.
    destruct (eeEph env) as [eph| |] eqn:Ee; [|intros v H; by apply elem_of_nil in H..].
    destruct (Hr eph Ee) as [Hin _]. destruct (ok_store _ Hok _ _ Hin) as [H1 H2].
    intros v (st & Hst & ->)%written_versions_elem. eapply written_ok; [apply Hok|done..].
  - split; [apply Hok|apply Hok|]. apply (all_accounted_mono s); [done|]. by apply cell_sends.
  - destruct Hok as [Hc Hst Hs]. split; [done|done|]. by apply (all_accounted_mono s).
  - destruct Hok as [Hc Hst Hs]. split; [by apply (cache_ok_same (ewCache (sysEph s)))|done|].
    by apply (all_accounted_mono s).
  - destruct Hok as [Hc Hst Hs]. split; [apply fresh_cache_ok|done|].
    by apply (all_accounted_mono s).
Qed.

Lemma reachable_ok s : sys_reachable s -> sys_ok s.
Proof.
  intros (s0 & [Hst He Hs] & Hrun). apply (rtc_invariant _ _ _ _ sys_step_ok Hrun). split.
  - rewrite He. apply fresh_cache_ok.
  - unfold versions. rewrite Hst. intros k e. rewrite lookup_empty. cbn. intros H. by apply elem_of_nil in H.
  - by rewrite Hs.
Qed.

(** *** What leaves the system *)


(** The predictor's times survive the store. *)
Hypothesis whole_seconds : forall omms stations minEl horizon norads now wall order ctx passes p,
  om_predict omms stations minEl horizon norads now wall order ctx = Ok passes -> p ∈ passes ->
  metav1_stored (pAOS p) = pAOS p /\ metav1_stored (pLOS p) = pLOS p.

Lemma decided_on_contact m ns contact metrics obs reliable now res ns' m' fl :
  decide_path m ns contact metrics obs reliable now = (res, ns', m', fl) ->
  targetPath res = PathSatellite -> normalize_path (current_path ns) <> PathSatellite -> available contact = true.
Proof.
  intros H Ht Hn. unfold decide_path in H. destruct (known contact); cbn [negb] in H.
  2: { injection H as <- _ _ _. cbn in Ht. by rewrite Ht in Hn. }
  assert (Hl : legal_transition (current_path ns) (available contact) res).
  { destruct reliable; [|injection H as <- _ _ _; apply safehold_legal].
    unfold run_engine in H. destruct (loadFlapState _ _ _ _) as [af m1].
    destruct (seedLastSwitchbackFromStatus _ _ _) as [af1 st1].
    match type of H with context [EvaluateFailoverWithAntiFlap ?a ?b ?c ?d ?e ?f ?g ?h ?i ?j] =>
      pose proof (antiflap_legal a b c d e f g h i j) as Hl;
      destruct (EvaluateFailoverWithAntiFlap a b c d e f g h i j) as [r nf] end.
    by injection H as <- _ _ _. }
  unfold legal_transition in Hl. destruct (decision res); [|by destruct Hl as (_ & -> & _)|].
  - destruct Hl as [E H']. by apply H'.
  - destruct Hl as [E _]. by rewrite Ht in E.
Qed.

(** A reconcile that puts a slice on the satellite found it available. *)
Lemma satellite_was_available w key env ns st :
  envSlice env = Found ns ->
  outStatus (slice_reconcile w key env) = Some st -> ActivePathType st = PathSatellite ->
  normalize_path (current_path ns) <> PathSatellite ->
  available (checkSatelliteAvailability
    (envEphemeris env (mkKey (Namespace (sliceMeta ns)) (EphemerisRef (sliceSpec ns)))) (envNow env)) = true.
Proof.
  intros Hs Ho Ha Hn.
  assert (Hlive : exists ns' written, sliceStatus ns' = sliceStatus ns /\ sliceSpec ns' = sliceSpec ns /\
    Namespace (sliceMeta ns') = Namespace (sliceMeta ns) /\
    outStatus (reconcile_live build_error_text read_error_text w ns' written env) = Some st).
  { unfold SliceController.Reconcile in Ho. rewrite Hs in Ho. unfold handleSliceFinalizer in Ho.
    destruct (deletion_set _); [|destruct (has_finalizer ns); [by exists ns, None|]].
    - destruct (has_finalizer ns); [|done].
      destruct (ephemerisMetricReferenced _ _ _); [|done]. by destruct (envUpdateOk env).
    - destruct (envUpdateOk env); [|done]. eexists _, _. by split_and!; [..|exact Ho]. }
  clear Ho. destruct Hlive as (ns' & written & Est & Esp & Ens & Ho).
  rewrite <- Ens, <- Esp, <- (evaluate_contact build_error_text read_error_text w).
  destruct (evaluate_stages build_error_text read_error_text w ns' env) as (ns1 & m & obs & Hr & _ & Hdec).
  eapply decided_on_contact; [exact Hdec|..].
  - unfold reconcile_live in Ho.
    destruct (commit_cases w ns' (evaluate_live build_error_text read_error_text w ns' env) written env)
      as [(_ & E & _)|(_ & E & _)]; [by rewrite E in Ho|]. unfold durable in E. rewrite Ho in E. cbn in E.
    rewrite E in Ha. by rewrite <- Ha; destruct (apply_decision_core
      (evSlice (evaluate_live build_error_text read_error_text w ns' env))
      (evResult (evaluate_live build_error_text read_error_text w ns' env)) (envNow env)) as (_ & _ & -> & _).
  - rewrite <- Hr. unfold current_path in *. by rewrite Est.
Qed.

Lemma available_window g now :
  available (checkSatelliteAvailability (view_of slice_view g) now) = true ->
  exists eph w, g = Found eph /\
    IsStatusConditionTrue (esConditions (ephStatus eph)) ConditionPassesPredicted = true /\
    w ∈ NextPassWindows (ephStatus eph) /\ (pwAOS w <= now < pwLOS w)%Z.
Proof.
  destruct g as [eph| |]; [|done..]. cbn [view_of]. intros Ha.
  destruct (IsStatusConditionTrue (esConditions (ephStatus eph)) ConditionPassesPredicted) eqn:Hp.
  2: { unfold checkSatelliteAvailability in Ha. cbn [slice_view SliceApi.ephConditions] in Ha.
       change SliceApi.ConditionPassesPredicted with ConditionPassesPredicted in Ha. by rewrite Hp in Ha. }
  destruct (contact_unfold (slice_view eph) now Hp) as [_ Hc].
  pose proof (pick_fold (List.filter (deliverable now (SliceApi.PropagatedStates (slice_view eph)))
    (SliceApi.NextPassWindows (slice_view eph)))) as Hm.
  destruct (fold_left pick _ None) as [v|]; [|destruct Hc; congruence].
  destruct Hm as [[Hd Hin]%elem_of_filter_bool _]. cbn in Hin.
  apply list_elem_of_fmap in Hin as (w & -> & Hw). exists eph, w. split_and!; [done..| |];
    unfold deliverable, window_active, After in Hd; cbn in Hd; bool_props; lia.
Qed.

(** Where the window comes from that puts a slice on the satellite. *)
Lemma satellite_path_predicted s key env get ns st :
  sys_reachable s -> reads s get -> envSlice env = Found ns ->
  outStatus (slice_reconcile (sysSlice s) key (slice_env env get)) = Some st ->
  ActivePathType st = PathSatellite -> normalize_path (current_path ns) <> PathSatellite ->
  exists eph (env0 : EphEnv (R := R)) eph0 omms windows w,
    eph ∈ versions s (mkKey (Namespace (sliceMeta ns)) (EphemerisRef (sliceSpec ns))) /\
    IsStatusConditionTrue (esConditions (ephStatus eph)) ConditionPassesPredicted = true /\
    current_signature sha256hex IsPrint env0 eph0 = Some (LastPassPredictionInputHash (ephStatus eph)) /\
    Forall usable omms /\ predicted_from IsPrint is_context_error env0 eph0 omms windows /\
    w ∈ windows /\ (pwAOS w <= envNow env < pwLOS w)%Z.
Proof.
  intros Hs Hr He Ho Ha Hn.
  pose proof (satellite_was_available _ _ (slice_env env get) ns st He Ho Ha Hn) as Hav.
  apply available_window in Hav as (eph & w & Hg & Hp & Hw & Ht). cbn [envNow slice_env] in Ht.
  apply Hr in Hg. destruct (ok_store _ (reachable_ok s Hs) _ _ Hg) as [_ [E|Hpred]];
    [rewrite E in Hw; by apply elem_of_nil in Hw|].
  destruct Hpred as (env0 & eph0 & omms & windows & Hus & Hsig & Hf & E).
  exists eph, env0, eph0, omms, windows. rewrite E in Hw. apply list_elem_of_fmap in Hw as (w0 & -> & Hw0).
  exists w0. split_and!; try done;
    destruct Hf as (pp & sts & me & h & cl & passes & _ & _ & _ & _ & Hpr & ->);
    apply list_elem_of_fmap in Hw0 as (p & -> & Hin); destruct (whole_seconds _ _ _ _ _ _ _ _ _ _ _ Hpr Hin) as [E1 E2];
    change (metav1_stored (pAOS p) <= envNow env < metav1_stored (pLOS p))%Z in Ht; rewrite E1, E2 in Ht; apply Ht.
Qed.

End System.

(** ** With the pass predictor *)

Section Predictor.
Context {R : Type} `{CR : ControllerRefs R} `{SRV : ConfigServer R} {F : Type} `{ES : ElementSources F}
  `{US : !UsableSources F} `{SC : StatusConditions} {P : Type} `{MP : metricsReaderProvider P} {W0 : Type}.
Context (Cos Sin : float64 -> float64) (TLE : Type) (ToTLE : OMM -> result string TLE)
  (FindPositionAtTime : TLE -> Time -> result string (ECIState * float64))
  (sort_slice : (PassResult -> PassResult -> bool) -> list PassResult -> list PassResult)
  `{!SortsPasses sort_slice}
  (GeneratePasses : TLE -> GroundStation -> Time -> Time -> Z -> result string (list PassDetails))
  (look_elevation : ECIState * float64 -> GroundStation -> Time -> option float64).
Context (unicode_lower : string -> string) (url_parse : string -> option URL) (pem_ok : string -> bool)
  (keypair_ok : string -> string -> bool) (ValidHeaderFieldValue : string -> bool) (sha256hex : string -> string)
  (IsPrint : N -> bool) (not_found_text : NamespacedName -> string)
  (cm_get : W0 -> NamespacedName -> GetResult ConfigMapView)
  (cm_delete : W0 -> NamespacedName -> UID -> option string * W0)
  (Providers : option (gmap string (NTNProvider W0))) (AllowedHosts : EndpointAllowlist)
  (build_error_text : provider_error -> string) (read_error_text : read_error -> string)
  (marshal_omms : list OMM -> result string string) (ParseOMMs : string -> result string (list OMM))
  (ip_string : IP -> string) (is_context_error : string -> bool) (fresh_sources : F) (fresh_provider : P).

#[local] Instance predictor_model : OrbitModel :=
  sgp4_model Cos Sin TLE ToTLE FindPositionAtTime sort_slice GeneratePasses look_elevation.

Abbreviation position := (fun tle t => match FindPositionAtTime tle t with Ok x => Some x | Err _ => None end).
Abbreviation reachable := (sys_reachable (R := R) (F := F) (P := P) (W0 := W0) unicode_lower url_parse pem_ok keypair_ok
  ValidHeaderFieldValue sha256hex IsPrint not_found_text cm_get cm_delete Providers AllowedHosts build_error_text
  read_error_text marshal_omms ParseOMMs ip_string is_context_error fresh_sources fresh_provider).

Lemma predictor_whole_seconds omms stations minEl horizon norads now wall order ctx passes p :
  om_predict omms stations minEl horizon norads now wall order ctx = Ok passes -> p ∈ passes ->
  metav1_stored (pAOS p) = pAOS p /\ metav1_stored (pLOS p) = pLOS p.
Proof.
  intros H Hp. destruct (predicted_pass_from sort_slice _ _ _ _ _ _ _ _ _ _ _ _ _ _ _ _ _ H Hp)
    as (o & gs & tle & t0 & l & d & _ & _ & _ & _ & _ & Hpo).
  unfold pass_of in Hpo. destruct (f_lt _ _); [done|]. destruct (trimPassToMask _ _ _) as [a b].
  pose proof (rounded_window_is_conservative a b) as Hr.
  destruct (conservativePassWindow a b) as [[a' b'] []]; [|done]. injection Hpo as <-. cbn [pAOS pLOS]. tauto.
Qed.

(** C2. A slice goes to the satellite only under a predicted pass: in any run of the
    system (reconciles of all three controllers, edits, failed writes, lagging
    readers, tampered ConfigMaps and restarts in any order), when a reconcile
    writes a status that has moved a slice onto the satellite path, then the
    version of the ephemeris it read carries the signature of pass inputs under
    which a usable element set, selected by them, was found to pass over one of
    their stations, and the clock of the reconcile lies between the rise and the
    set of that pass, cut to the mask. *)
Theorem satellite_path_is_under_a_pass (s : System) key env get ns st :
  src_ok fresh_sources -> reachable s -> reads s get -> envSlice env = Found ns ->
  outStatus (SliceController.Reconcile build_error_text read_error_text (sysSlice s) key (slice_env env get)) = Some st ->
  ActivePathType st = PathSatellite -> normalize_path (current_path ns) <> PathSatellite ->
  exists eph (env0 : EphEnv (R := R)) eph0 pp stations mask horizon clamped o gs tle t0 l d p,
    eph ∈ versions s (mkKey (Namespace (sliceMeta ns)) (EphemerisRef (sliceSpec ns))) /\
    current_signature sha256hex IsPrint env0 eph0 = Some (LastPassPredictionInputHash (ephStatus eph)) /\
    PassPrediction (ephSpec eph0) = Some pp /\
    resolve_stations IsPrint is_context_error (eeSweepStations env0) (Namespace (ephMeta eph0)) (ppGroundStations pp)
      = Ok stations /\
    ParseElevation (ppMinElevation pp) = Ok mask /\ effectivePassHorizon (ppHorizon pp) = Ok (horizon, clamped) /\
    usable o /\ (selected_norads (ephSpec eph0) = [] \/ NoradCatID o ∈ selected_norads (ephSpec eph0)) /\
    gs ∈ stations /\ ToTLE o = Ok tle /\
    GeneratePasses tle gs t0 (Add t0 horizon) DefaultStepSeconds = Ok l /\ d ∈ l /\
    pass_of TLE (ECIState * float64) position look_elevation tle o gs mask d = Some p /\
    (pAOS p <= envNow env < pLOS p)%Z.
Proof.
  intros Hf Hs Hr He Ho Ha Hn.
  destruct (satellite_path_predicted _ _ _ _ _ _ _ _ _ _ _ _ _ _ _ _ _ _ _ _ Hf predictor_whole_seconds
    s key env get ns st Hs Hr He Ho Ha Hn)
    as (eph & env0 & eph0 & omms & windows & w & H1 & _ & H2 & Hu & Hp & Hw & Ht).
  destruct Hp as (pp & stations & mask & horizon & clamped & passes & H3 & H4 & H5 & H6 & Hpr & ->).
  apply list_elem_of_fmap in Hw as (p & -> & Hw).
  destruct (predicted_pass_from sort_slice _ _ _ _ _ _ _ _ _ _ _ _ _ _ _ _ _ Hpr Hw)
    as (o & gs & tle & t0 & l & d & Hsel & H7 & H8 & H9 & H10 & H11).
  apply FilterOMMs_elem in Hsel as [Hin Hsel]. rewrite Forall_forall in Hu.
  exists eph, env0, eph0, pp, stations, mask, horizon, clamped, o, gs, tle, t0, l, d, p.
  split_and!; try done; [by apply Hu|apply Ht..].
Qed.

End Predictor.
