(* ===== verification/SystemDemo.v ===== *)
(** * A concrete run of the system

    A client creates an ephemeris; its controller fetches, propagates, predicts
    and writes; a cell that refers to it pushes; a slice under its pass fails
    over.  On this run the theorems of [System] are applied. *)

From S2P Require Import Prelude GoStrings GoNet GoTime GoFloat K8sMeta NetGuard Failover AntiFlap SliceApi MetricsReaders SliceContact SliceController SliceSafety StationApi CellApi PassPredictor OcuduConfig EphemerisApi OcuduProvider OcuduWire Propagator Fetchers EphemerisCache CellController CellSafety EphemerisController EphemerisSafety EphemerisWiring Watches CellDemo EphemerisDemo System.
Local Open Scope string_scope.

#[local] Existing Instance list_conditions.
#[local] Existing Instance demo_refs.
#[local] Existing Instance demo_server.
#[local] Existing Instance SliceSafety.demo_provider.

#[local] Instance up_sources : ElementSources (Fetchers unit) :=
  fetchers_are_sources no_date only_ascii two_sets no_request_error "https://www.space-track.org" demo_parse_origin
    id (fun _ => None) id unit (fun n req => (demo_origin req, n)) down_do.

#[local] Instance up_usable : UsableSources (Fetchers unit) :=
  fetchers_usable no_date only_ascii two_sets no_request_error "https://www.space-track.org" demo_parse_origin
    id (fun _ => None) id unit (fun n req => (demo_origin req, n)) down_do.

(** Every satellite is overhead for ten minutes from now on. *)
Definition overhead (tle : unit) (gs : GroundStation) (start stop : Time) (step : Z) : result string (list PassDetails) :=
  Ok [mkDetails (start - 60 * Second) (start + 600 * Second) (f_of_Z 45) (start + 300 * Second)]%Z.

Definition high (x : ECIState * float64) (gs : GroundStation) (t : Time) : option float64 := Some (f_of_Z 45).

#[local] Instance overhead_model : OrbitModel :=
  sgp4_model (fun _ => f_of_Z 1) (fun _ => f_zero) unit (fun _ => Ok tt) (fun _ _ => Ok (demo_eci, f_zero))
    insertion_sort overhead high.

Definition leo : NamespacedName := mkKey "ran" "leo".

Abbreviation DemoSystem := (System (R := DemoRef) (F := Fetchers unit) (P := Provider) (W0 := unit)).
Abbreviation demo_step := (sys_step (R := DemoRef) (F := Fetchers unit) (P := Provider) (W0 := unit) lower_ascii
  CellDemo.demo_url yes yes2 yes same printable demo_missing (fun _ _ => NotFound) (fun w _ _ => (None, w))
  (Some {["ocudu" := demo_prov None]}) (mkAllow []) (fun _ => "") (fun _ => "") marshal_one two_sets (fun _ => "")
  (fun _ => false) cold_fetchers (NewProvider (NewClientPool []) (mkAllow []))).

Definition fresh_ephemerides : EphWorld (R := DemoRef) (F := Fetchers unit) :=
  mkEphWorld (mkCacheWorld ∅ ∅ cold_fetchers no_series) ∅ [].

Definition idle_slices : SliceWorld (P := Provider) := mkWorld ∅ (NewProvider (NewClientPool []) (mkAllow [])) ∅ ∅ [].

Definition system0 : DemoSystem := mkSystem ∅ fresh_ephemerides (CellDemo.demo_world (tt, [])) idle_slices.

Definition system1 : DemoSystem :=
  mkSystem (add_versions system0 leo [tracked_eph Fetchers.demo_url]) (sysEph system0) (sysCell system0) (sysSlice system0).

(** The first reconcile of the ephemeris, with its two status writes. *)
Definition first_out := eph_reconcile (R := DemoRef) (F := Fetchers unit) same printable marshal_one two_sets lower_ascii
  CellDemo.demo_url (fun _ => "") (fun _ => false) outage_env (sysEph system1).

Definition system2 : DemoSystem :=
  mkSystem (add_versions system1 (eeKey outage_env) (new_versions outage_env first_out)) (eoWorld first_out)
    (sysCell system1) (sysSlice system1).

Definition latest (s : DemoSystem) (k : NamespacedName) : GetResult SatelliteEphemeris :=
  match versions s k with e :: _ => Found e | [] => NotFound end.

Definition leo_cell : NTNCellConfig :=
  mkCell demo_cell_meta
    (mkCellSpec (mkProviderRef "ocudu" "ran" (Some (mkRemote "gnb:8001" None)) "" None) (csNTN (demo_ntn "transparent" None))
       None "leo" (Some (mkCellID "00101" 1)) (Some 25544%Z)) (mkCellStatus 0 "" "" []).

Definition leo_cell_env : CellEnv :=
  mkCellEnv (Found leo_cell) (latest system2) (fun _ => NotFound) None None (later + Minute)%Z (later + Minute)%Z "".

Definition system3 : DemoSystem :=
  mkSystem (sysStore system2) (sysEph system2)
    (coWorld (CellController.Reconcile (W := unit * list RuntimeUpdate) lower_ascii CellDemo.demo_url yes yes2 yes same printable
       demo_missing (fun w => (fun _ _ => NotFound) w.1)
       (fun w k u => let '(e, b) := (fun w _ _ => (None, w)) w.1 k u in (e, (b, w.2)))
       (fmap (M := option) (fmap (M := gmap string) watched) (Some {["ocudu" := demo_prov None]})) (mkAllow [])
       (sysCell system2) leo_cell_env)) (sysSlice system2).

(** A slice with a bad terrestrial path, a minute into the pass. *)
Definition leo_slice : NTNSlice :=
  mkSlice
    (mkMeta "ran" "s" "uid-1" 1 None [sliceMetricsFinalizer] {[annotationRSRP := "-120"]})
    (mkSliceSpec "t" (mkPath "p" "" "primary") (mkSatellitePath (mkPath "q" "" "failover") "leo")
       (mkFailoverPolicy ["rsrp < -110"] 0 true "" None 0) None None None None)
    (mkSliceStatus "" None None 0 "" None "" "" []).

Definition leo_slice_env : SliceEnv :=
  mkSliceEnv (Found leo_slice) (fun _ => NotFound) (fun _ => Some [leo_slice]) true true (later + Minute)%Z
    (mkReadEnv None None (later + Minute)%Z (later + Minute)%Z).

Abbreviation leo_slice_out := (SliceController.Reconcile (P := Provider) (fun _ => "") (fun _ => "") (sysSlice system3)
  (mkKey "ran" "s") (slice_env leo_slice_env (latest system3))).

Lemma latest_reads s : reads s (latest s).
Proof.
  intros k eph. unfold latest. destruct (versions s k); [done|]. intros [= ->]. apply elem_of_cons. by left.
Qed.

Lemma demo_initial : sys_initial cold_fetchers system0.
Proof. split; vm_compute; reflexivity. Qed.

Lemma created : versions system1 (eeKey outage_env) = [tracked_eph Fetchers.demo_url].
Proof. vm_compute. reflexivity. Qed.

Lemma demo_run : rtc demo_step system0 system3.
Proof.
  apply rtc_l with (y := system1); [|apply rtc_l with (y := system2); [|apply rtc_once]].
  - apply (client_creates _ _ _ _ _ _ _ _ _ _ _ _ _ _ _ _ _ _ _ _ system0 leo). reflexivity.
  - apply (ephemeris_steps _ _ _ _ _ _ _ _ _ _ _ _ _ _ _ _ _ _ _ _ system1 outage_env).
    intros eph [= <-]. pose proof created as E. split; [rewrite E; by apply elem_of_cons; left|]. intros _. by rewrite E.
  - apply (cell_steps _ _ _ _ _ _ _ _ _ _ _ _ _ _ _ _ _ _ _ _ system2 leo_cell_env). apply latest_reads.
Qed.

Lemma cold_ok : src_ok cold_fetchers.
Proof. intros url l H. cbn in H. by rewrite lookup_empty in H. Qed.



Lemma satellite_path_is_under_a_pass_witness :
  exists st p, outStatus leo_slice_out = Some st /\ ActivePathType st = PathSatellite /\
    (pAOS p <= later + Minute < pLOS p)%Z.
Proof.
  destruct (outStatus leo_slice_out) as [st|] eqn:E; [|vm_compute in E; discriminate E].
  assert (Ha : ActivePathType st = PathSatellite) by (vm_compute in E; injection E as <-; reflexivity).
  destruct (satellite_path_is_under_a_pass (fun _ => f_of_Z 1) (fun _ => f_zero) unit (fun _ => Ok tt)
    (fun _ _ => Ok (demo_eci, f_zero)) insertion_sort overhead high
    lower_ascii CellDemo.demo_url yes yes2 yes same printable demo_missing
    (fun _ _ => NotFound) (fun w _ _ => (None, w)) (Some {["ocudu" := demo_prov None]}) (mkAllow []) (fun _ => "")
    (fun _ => "") marshal_one two_sets (fun _ => "") (fun _ => false) cold_fetchers
    (NewProvider (NewClientPool []) (mkAllow [])) system3 (mkKey "ran" "s") leo_slice_env (latest system3) leo_slice st)
    as (eph & env0 & eph0 & pp & stations & mask & horizon & clamped & o & gs & tle & t0 & l & d & p & H).
  - exact cold_ok.
  - exists system0. split; [exact demo_initial|exact demo_run].
  - apply latest_reads.
  - reflexivity.
  - exact E.
  - exact Ha.
  - vm_compute. discriminate.
  - exists st, p. split; [reflexivity|]. split; [exact Ha|]. apply H.
Defined.
