(* ===== verification/Scheme.v ===== *)
(** * Registration of the API types

    [src/api/v1alpha1/groupversion_info.go], the [init] functions of the four
    types files and of [src/cmd/main.go]: a scheme builder collects functions, and
    [AddToScheme] runs them on a scheme.  The scheme itself, the types client-go
    brings and what [metav1.AddToGroupVersion] adds belong to apimachinery: a
    scheme is seen as the set of group, version and kind triples it knows, and
    the functions are the interface [KnownSchemes]. *)

From stdpp Require Import gmap sets.
From S2P Require Import Prelude GoStrings Watches.
Local Open Scope string_scope.

Record GroupVersion := mkGV { gvGroup : string; gvVersion : string }.

#[export] Instance GroupVersion_eq_dec : EqDecision GroupVersion.
Proof. solve_decision. Defined.
#[export] Instance GroupVersion_countable : Countable GroupVersion :=
  inj_countable' (fun g => (gvGroup g, gvVersion g)) (fun p => mkGV p.1 p.2) (fun g => match g with mkGV _ _ => eq_refl end).

Abbreviation Scheme := (gset (GroupVersion * string)).

(** A registration function, with the error it may return. *)
Definition registration := Scheme -> result string Scheme.

(** [AddKnownTypes]: the kind of a type is its name. *)
Definition AddKnownTypes (gv : GroupVersion) (types : list string) (s : Scheme) : Scheme :=
  s ∪ list_to_set (map (pair gv) types).

Definition SchemeGroupVersion : GroupVersion := mkGV "ntn.operators.dev" "v1alpha1".

(** The functions of the libraries: both only add, and client-go's scheme has
    the core types. *)
Class KnownSchemes := {
  AddToGroupVersion : GroupVersion -> Scheme -> Scheme;
  clientgo_AddToScheme : registration;
  group_version_adds : forall gv s, s ⊆ AddToGroupVersion gv s;
  clientgo_adds : forall s s', clientgo_AddToScheme s = Ok s' -> s ⊆ s';
  clientgo_core : forall s s' kind, clientgo_AddToScheme s = Ok s' -> kind ∈ ["Node"; "Secret"; "ConfigMap"; "Event"] ->
    (mkGV "" "v1", kind) ∈ s'
}.

Section Registration.
Context `{KS : KnownSchemes}.

(** [runtime.NewSchemeBuilder] with the function of [groupversion_info.go]. *)
Definition NewSchemeBuilder : list registration := [fun s => Ok (AddToGroupVersion SchemeGroupVersion s)].

(** The [init] functions of the types files, in the order of the file names. *)
Definition init_groundstation : registration :=
  fun s => Ok (AddKnownTypes SchemeGroupVersion ["GroundStationLifecycle"; "GroundStationLifecycleList"] s).
Definition init_cell : registration :=
  fun s => Ok (AddKnownTypes SchemeGroupVersion ["NTNCellConfig"; "NTNCellConfigList"] s).
Definition init_slice : registration :=
  fun s => Ok (AddKnownTypes SchemeGroupVersion ["NTNSlice"; "NTNSliceList"] s).
Definition init_ephemeris : registration :=
  fun s => Ok (AddKnownTypes SchemeGroupVersion ["SatelliteEphemeris"; "SatelliteEphemerisList"] s).

Definition SchemeBuilder : list registration :=
  (NewSchemeBuilder ++ [init_groundstation; init_cell; init_slice; init_ephemeris])%list.

(** [SchemeBuilder.AddToScheme]: the functions in order, up to the first error. *)
Fixpoint run_builder (l : list registration) (s : Scheme) : result string Scheme :=
  match l with
  | [] => Ok s
  | f :: l => match f s with Ok s => run_builder l s | Err e => Err e end
  end.

Definition AddToScheme : registration := run_builder SchemeBuilder.

(** [init] of [main.go]: [utilruntime.Must] panics on an error. *)
Definition main_scheme : result string Scheme :=
  match clientgo_AddToScheme ∅ with
  | Err e => Err e
  | Ok s => AddToScheme s
  end.

(** The kinds the controllers are set up for and watch, by their registered
    names. *)
Definition gvk_of (k : kind) : GroupVersion * string :=
  match k with
  | KindSatelliteEphemeris => (SchemeGroupVersion, "SatelliteEphemeris")
  | KindGroundStationLifecycle => (SchemeGroupVersion, "GroundStationLifecycle")
  | KindNTNCellConfig => (SchemeGroupVersion, "NTNCellConfig")
  | KindNTNSlice => (SchemeGroupVersion, "NTNSlice")
  | KindNode => (mkGV "" "v1", "Node")
  end.

(** Of the kinds of the group the controllers list, the list type too. *)
Definition list_of (g : GroupVersion * string) : GroupVersion * string := (g.1, g.2 +:+ "List").

Lemma added_known gv types s g kind :
  (g, kind) ∈ AddKnownTypes gv types s <-> (g, kind) ∈ s \/ g = gv /\ kind ∈ types.
Proof.
  unfold AddKnownTypes. rewrite elem_of_union, elem_of_list_to_set, list_elem_of_fmap.
  split; (intros [H|H]; [by left|right]).
  - destruct H as (x & Heq & Hin). by simplify_eq.
  - destruct H as [-> Hin]. by exists kind.
Qed.

Lemma add_to_scheme_spec s : exists s', AddToScheme s = Ok s' /\ s ⊆ s' /\
  forall k, k <> KindNode -> gvk_of k ∈ s' /\ list_of (gvk_of k) ∈ s'.
Proof.
  pose proof (group_version_adds SchemeGroupVersion s) as H. eexists. split; [reflexivity|]. split.
  - intros [g kind] Hin. rewrite !added_known. auto 6.
  - intros k Hk. destruct k; try done; unfold list_of; cbn; rewrite !added_known, !list_elem_of_In; cbn; auto 12.
Qed.

(** The scheme knows everything the controllers are set up with: if client-go's
    types can be added, so can the group's, and then the primary and the watched
    kinds of all four controllers, the lists of the group's kinds and the core
    types they read and write are registered. *)
Theorem scheme_knows_what_is_used core :
  clientgo_AddToScheme ∅ = Ok core ->
  exists s, main_scheme = Ok s /\
    (forall n c k, c ∈ [ephemeris_SetupWithManager n; station_SetupWithManager n; slice_SetupWithManager n] \/
       cell_SetupWithManager None n = Ok c ->
       k = ctlFor c \/ k ∈ ctlWatches c -> gvk_of k ∈ s /\ (k <> KindNode -> list_of (gvk_of k) ∈ s)) /\
    forall kind, kind ∈ ["Node"; "Secret"; "ConfigMap"; "Event"] -> (mkGV "" "v1", kind) ∈ s.
Proof.
  intros Hc. unfold main_scheme. rewrite Hc. destruct (add_to_scheme_spec core) as (s & Hs & Hsub & Hk).
  exists s. split; [done|].
  assert (Hcore : forall kind, kind ∈ ["Node"; "Secret"; "ConfigMap"; "Event"] -> (mkGV "" "v1", kind) ∈ s)
    by (intros kind Hin; apply Hsub; by eapply clientgo_core).
  split; [|done]. intros n c k _ _. assert (k = KindNode \/ k <> KindNode) as [->|Hne] by (destruct k; auto; right; discriminate).
  - split; [|done]. apply Hcore. left.
  - destruct (Hk k Hne). auto.
Qed.

End Registration.

(** Libraries that add the core types and the options of a group. *)
#[local] Instance core_schemes : KnownSchemes.
Proof.
  refine {|
    AddToGroupVersion := fun gv s => AddKnownTypes gv ["ListOptions"; "GetOptions"; "WatchEvent"] s;
    clientgo_AddToScheme := fun s => Ok (AddKnownTypes (mkGV "" "v1") ["Node"; "Secret"; "ConfigMap"; "Event"] s) |}.
  - intros gv s [g kind] H. rewrite added_known. by left.
  - intros s s' [= <-] [g kind] H. rewrite added_known. by left.
  - intros s s' kind [= <-] H. rewrite added_known. by right.
Defined.

Example scheme_knows_what_is_used_instance :
  exists s, main_scheme = Ok s /\ gvk_of KindNTNSlice ∈ s /\ list_of (gvk_of KindNTNSlice) ∈ s.
Proof.
  edestruct (scheme_knows_what_is_used (KS := core_schemes)) as (s & H1 & H2 & _); [reflexivity|]. exists s. split; [done|].
  destruct (H2 1%Z (slice_SetupWithManager 1) KindNTNSlice) as [H3 H4]; [left; by right; right; left|by left|].
  split; [done|]. by apply H4.
Qed.
