(* ===== verification/Operator.v ===== *)
(** * The operator process

    Models [src/cmd/main.go]: the flags, the manager and metrics-server options
    built from them, the HTTP clients each controller is given, the order of
    the setup with its exits, and the readiness check.  With the guarded client
    of [HttpClient] and the pool of [MetricsReaders] this settles which hosts
    the process can be made to contact.

    controller-runtime is not modelled: [ctrl.Options] and the metrics-server
    options are the values handed to it, the errors of its calls are arguments,
    and what the readiness check relies on is the interface [ManagerOrder]. *)

From S2P Require Import Prelude GoStrings GoNet GoTime GoJson K8sMeta NetGuard HttpClient SliceApi MetricsReaders CellApi EphemerisApi OcuduWire CellController Watches.
Local Open Scope string_scope.

(** ** Flags *)

Record Flags := mkFlags {
  metricsAddr : string;
  probeAddr : string;
  enableLeaderElection : bool;
  secureMetrics : bool;
  metricsCertPath : string;
  metricsCertName : string;
  metricsCertKey : string;
  enableHTTP2 : bool;
  maxConcurrentReconciles : Z;
  prometheusAllowedHosts : string;
  ephemerisAllowedPrivateHosts : string;
  remoteControlAllowedHosts : string
}.

Definition default_flags : Flags :=
  mkFlags ":8443" ":8081" true true "" "tls.crt" "tls.key" false 1 "" "" "".

(** ** Options *)

(** [metricsserver.Options]: the TLS options as the protocols they leave, none
    when they are not restricted; whether requests are authenticated. *)
Record MetricsServerOptions := mkMetricsOptions {
  BindAddress : string;
  SecureServing : bool;
  NextProtos : option (list string);
  FilterProvider : bool;
  CertDir : string;
  CertName : string;
  KeyName : string
}.

Definition metrics_server_options (fl : Flags) : MetricsServerOptions :=
  let protos := if enableHTTP2 fl then None else Some ["http/1.1"] in
  let o := mkMetricsOptions (metricsAddr fl) (secureMetrics fl) protos false "" "" "" in
  let o := if secureMetrics fl
           then mkMetricsOptions (BindAddress o) (SecureServing o) (NextProtos o) true "" "" "" else o in
  if str_eqb (metricsCertPath fl) "" then o
  else mkMetricsOptions (BindAddress o) (SecureServing o) (NextProtos o) (FilterProvider o)
         (metricsCertPath fl) (metricsCertName fl) (metricsCertKey fl).

Definition gracefulShutdownTimeout : Duration := (-1 * Second)%Z.
Definition leaderLeaseDuration : Duration := (15 * Second)%Z.
Definition leaderRenewDeadline : Duration := (10 * Second)%Z.
Definition leaderRetryPeriod : Duration := (2 * Second)%Z.

Record ManagerOptions := mkManagerOptions {
  moMetrics : MetricsServerOptions;
  moHealthProbeBindAddress : string;
  moLeaderElection : bool;
  moLeaderElectionID : string;
  moLeaderElectionReleaseOnCancel : bool;
  moGracefulShutdownTimeout : option Duration;
  moLeaseDuration : option Duration;
  moRenewDeadline : option Duration;
  moRetryPeriod : option Duration
}.

Definition newManagerOptions (metrics : MetricsServerOptions) (probe : string) (leaderElection : bool) : ManagerOptions :=
  mkManagerOptions metrics probe leaderElection "b1076767.operators.dev" true (Some gracefulShutdownTimeout)
    (Some leaderLeaseDuration) (Some leaderRenewDeadline) (Some leaderRetryPeriod).

(** ** The wiring *)

Section Wiring.

Variable unicode_lower : string -> string.
(** [url.Parse] of an origin: its scheme and host. *)
Variable parse_origin : string -> result string (string * string).

(** [NewCelesTrakFetcher] on its client: nil gets a guarded one. *)
Definition celestrak_client (httpClient : option Client) : Client :=
  match httpClient with
  | Some c => c
  | None => NewSafeHTTPClient (30 * Second) []
  end.

(** [NewSpaceTrackFetcher] on its client: a cookie jar, and the exact-origin
    rule in place of the redirect policy when the base URL parses. *)
Definition space_track_client (httpClient : Client) (baseURL : string) : Client :=
  mkHTTPClient (cTimeout httpClient) (cTransport httpClient)
    match parse_origin baseURL with
    | Ok (scheme, host) => OriginRedirect scheme host
    | Err _ => cCheckRedirect httpClient
    end true.

Definition spaceTrackBaseURL : string := "https://www.space-track.org".

(** What the controllers are given. *)
Record Operator := mkOperator {
  opManager : ManagerOptions;
  opWorkers : Z;
  opFetcher : Client;                            (* SatelliteEphemeris: CelesTrak and generic GP sources *)
  opSpaceTrack : Client;                         (* SatelliteEphemeris: Space-Track *)
  opHealthCheck : Client;                        (* GroundStationLifecycle *)
  opProviders : list string;                     (* NTNCellConfig: registered provider types *)
  opRemoteControlAllowedHosts : EndpointAllowlist;
  opMetricsProvider : Provider                   (* NTNSlice *)
}.

Definition operator (fl : Flags) : Operator :=
  let workers := if (maxConcurrentReconciles fl <? 1)%Z then 1%Z else maxConcurrentReconciles fl in
  let gpHTTPClient := NewSafeHTTPClient (30 * Second)
    [WithPrivateHostAllowlist (ParseEndpointAllowlist unicode_lower (ephemerisAllowedPrivateHosts fl))] in
  let promAllow := ParseEndpointAllowlist unicode_lower (prometheusAllowedHosts fl) in
  mkOperator (newManagerOptions (metrics_server_options fl) (probeAddr fl) (enableLeaderElection fl)) workers
    (celestrak_client (Some gpHTTPClient))
    (space_track_client (NewSafeHTTPClient (30 * Second) []) spaceTrackBaseURL)
    (NewSafeHTTPClient (5 * Second) [])
    ["ocudu"]
    (ParseEndpointAllowlist unicode_lower (remoteControlAllowedHosts fl))
    (NewProvider (NewClientPool [WithSafeClient promAllow]) promAllow).

(** ** Setup *)

Inductive setup_step :=
| CreateManager (o : ManagerOptions)
| SetupController (c : Controller)
| RegisterHealthz (name : string)
| AddCacheReadyRunnable
| RegisterReadyz (name : string)
| StartManager.

(** The errors of the calls of one start, and what they are logged as. *)
Record StartEnv := mkStart {
  seManager : option string;
  seEphemeris : option string;
  seStation : option string;
  seIndex : option string;
  seCell : option string;
  seSlice : option string;
  seHealthz : option string;
  seRunnable : option string;
  seReadyz : option string;
  seStart : option string
}.

(** The steps in order, each with its outcome: done, or the message and the
    error it ends the process with. *)
Definition setup_plan (fl : Flags) (env : StartEnv) : list (result (string * string) setup_step) :=
  let o := operator fl in
  let n := opWorkers o in
  let attempt msg (e : option string) step := match e with None => Ok step | Some e => Err (msg, e) end in
  let creating := attempt "Failed to create controller" in
  [ attempt "Failed to start manager" (seManager env) (CreateManager (opManager o));
    creating (seEphemeris env) (SetupController (ephemeris_SetupWithManager n));
    creating (seStation env) (SetupController (station_SetupWithManager n));
    match cell_SetupWithManager (seIndex env) n with
    | Ok c => creating (seCell env) (SetupController c)
    | Err e => Err ("Failed to create controller", e)
    end;
    creating (seSlice env) (SetupController (slice_SetupWithManager n));
    attempt "Failed to set up health check" (seHealthz env) (RegisterHealthz "healthz");
    attempt "Failed to register cache-sync readiness runnable" (seRunnable env) AddCacheReadyRunnable;
    attempt "Failed to set up ready check" (seReadyz env) (RegisterReadyz "readyz");
    attempt "Failed to run manager" (seStart env) StartManager ].

(** [main] from parsed flags: the steps that succeeded, and the failure that
    ended the process with status 1, if any. *)
Fixpoint run_setup (plan : list (result (string * string) setup_step))
  : list setup_step * option (string * string) :=
  match plan with
  | [] => ([], None)
  | Ok step :: plan => let '(ran, e) := run_setup plan in (step :: ran, e)
  | Err e :: _ => ([], Some e)
  end.

Definition main (fl : Flags) (env : StartEnv) : list setup_step * option (string * string) :=
  run_setup (setup_plan fl env).

End Wiring.

(** ** Readiness *)

Record cacheReadyRunnable := mkReady { ready : bool }.

(** [Start] sets the flag before it waits for the end of the context. *)
Definition Start (c : cacheReadyRunnable) : cacheReadyRunnable := mkReady true.
Definition NeedLeaderElection : bool := false.

(** [cacheSyncReadyCheck]: the error of the probe. *)
Definition cacheSyncReadyCheck (c : cacheReadyRunnable) : option string :=
  if ready c then None else Some "informer caches not yet synced".

(** What a replica goes through, as far as readiness is concerned. *)
Inductive replica_event :=
| CachesSynced
| Elected
| Starts (needsLeader : bool)       (* a registered runnable is started *)
| Probed.                           (* /readyz is asked *)

#[export] Instance replica_event_eq_dec : EqDecision replica_event.
Proof. solve_decision. Defined.

(** The flag after a history; the only runnable of this kind without leader
    election is [cacheReadyRunnable]. *)
Fixpoint after (c : cacheReadyRunnable) (h : list replica_event) : cacheReadyRunnable :=
  match h with
  | [] => c
  | Starts nl :: h => after (if Bool.eqb nl NeedLeaderElection then Start c else c) h
  | _ :: h => after c h
  end.

(** The order the manager documents: caches are synced before runnables that
    need no leader election start, and these before and without regard to the
    election. *)
Class ManagerOrder (history : list replica_event -> Prop) := {
  order_synced : forall h, history h -> Starts false ∈ h -> CachesSynced ∈ h;
  order_prefix : forall h e, history (h ++ [e])%list -> history h;
  order_starts : forall h, history h -> CachesSynced ∈ h -> Starts false ∉ h -> history (h ++ [Starts false])%list
}.

(** * Properties *)

(** ** Setup *)

(** The manager is not started half-configured: when [main] gets to start it,
    the four controllers were registered with at least one worker each, the
    index of the cell controller included, and both probes and the runnable
    behind the readiness probe are in place. *)
Theorem started_when_complete unicode_lower parse_origin fl env :
  StartManager ∈ fst (main unicode_lower parse_origin fl env) ->
  let n := opWorkers (operator unicode_lower parse_origin fl) in
  (1 <= n)%Z /\
  fst (main unicode_lower parse_origin fl env) =
  [ CreateManager (opManager (operator unicode_lower parse_origin fl));
    SetupController (ephemeris_SetupWithManager n); SetupController (station_SetupWithManager n);
    SetupController (mkController KindNTNCellConfig [KindSatelliteEphemeris] "ntncellconfig" n
                       (Some ephemerisRefIndexKey));
    SetupController (slice_SetupWithManager n);
    RegisterHealthz "healthz"; AddCacheReadyRunnable; RegisterReadyz "readyz"; StartManager ].
Proof.
  intros Hin n. split.
  { unfold n. cbn. by destruct (Z.ltb_spec (maxConcurrentReconciles fl) 1); lia. }
  unfold main, setup_plan, cell_SetupWithManager in *. fold n in Hin |- *.
  destruct (seManager env); [by apply elem_of_nil in Hin|].
  destruct (seEphemeris env); [cbn in Hin; set_solver|]. destruct (seStation env); [cbn in Hin; set_solver|].
  destruct (seIndex env); [cbn in Hin; set_solver|]. destruct (seCell env); [cbn in Hin; set_solver|].
  destruct (seSlice env); [cbn in Hin; set_solver|]. destruct (seHealthz env); [cbn in Hin; set_solver|].
  destruct (seRunnable env); [cbn in Hin; set_solver|]. destruct (seReadyz env); [cbn in Hin; set_solver|].
  destruct (seStart env); [cbn in Hin; set_solver|]. done.
Qed.

(** Lease timing and shutdown: the lease outlives the renewal deadline, which
    leaves room for retries, and it is released on shutdown only after an
    unbounded wait for the runnables. *)
Example leader_election_is_safe fl :
  let o := opManager (operator id (fun _ => Err "") fl) in
  exists lease renew retry, moLeaseDuration o = Some lease /\ moRenewDeadline o = Some renew /\
    moRetryPeriod o = Some retry /\ (12 * retry < 10 * renew)%Z /\ (renew < lease)%Z /\
    moLeaderElectionReleaseOnCancel o = true /\
    exists t, moGracefulShutdownTimeout o = Some t /\ (t < 0)%Z.
Proof. do 3 eexists. split_and!; [reflexivity..|vm_compute; reflexivity|vm_compute; reflexivity|reflexivity|]. by eexists. Qed.

(** ** Readiness *)

Lemma after_ready c h : ready (after c h) = ready c || bool_decide (Starts false ∈ h).
Proof.
  revert c. induction h as [|e h IH]; intros c; cbn [after]; [by rewrite orb_false_r|].
  destruct e as [| |nl|]; rewrite IH.
  1,2,4: f_equal; apply bool_decide_ext; rewrite elem_of_cons; naive_solver.
  destruct nl; cbn.
  - f_equal. apply bool_decide_ext. rewrite elem_of_cons. naive_solver.
  - rewrite (bool_decide_eq_true_2 (Starts false ∈ Starts false :: h)) by (apply elem_of_cons; by left).
    by rewrite orb_true_r.
Qed.

(** A replica answers its readiness probe only after its caches have synced,
    and one whose caches have synced gets there without being elected. *)
Theorem ready_follows_caches history `{ManagerOrder history} h :
  history h ->
  (cacheSyncReadyCheck (after (mkReady false) h) = None -> CachesSynced ∈ h) /\
  (CachesSynced ∈ h -> exists more, (Elected ∉ more) /\ history (h ++ more)%list /\
     cacheSyncReadyCheck (after (mkReady false) (h ++ more)%list) = None).
Proof.
  intros Hh. unfold cacheSyncReadyCheck. split.
  - rewrite after_ready. cbn [ready orb]. case_bool_decide; [|done]. intros _. by apply (order_synced h).
  - intros Hs. destruct (decide (Starts false ∈ h)) as [Hin|Hout].
    + exists []. rewrite app_nil_r, after_ready, bool_decide_eq_true_2 by done.
      split_and!; [by intros ?%elem_of_nil|done|done].
    + exists [Starts false]. rewrite after_ready, bool_decide_eq_true_2 by (apply elem_of_app; right; by apply list_elem_of_singleton).
      split_and!; [by intros [=]%list_elem_of_singleton|by apply order_starts|done].
Qed.

(** The order can be met: caches sync once, then runnables start. *)
Fixpoint synced_first (synced : bool) (h : list replica_event) : bool :=
  match h with
  | [] => true
  | CachesSynced :: h => synced_first true h
  | Starts false :: h => synced && synced_first synced h
  | _ :: h => synced_first synced h
  end.

Lemma synced_first_app b h e :
  synced_first b (h ++ [e])%list =
  synced_first b h && (negb (bool_decide (e = Starts false)) || b || bool_decide (CachesSynced ∈ h)).
Proof.
  revert b. induction h as [|x h IH]; intros b; cbn [app synced_first].
  - destruct e as [| |[]|], b; done.
  - destruct x as [| |[]|]; rewrite ?IH;
      rewrite ?(bool_decide_ext (CachesSynced ∈ _ :: h) (CachesSynced ∈ h)) by (rewrite elem_of_cons; naive_solver);
      rewrite ?(bool_decide_eq_true_2 (CachesSynced ∈ CachesSynced :: h)) by (apply elem_of_cons; by left).
    all: destruct b, (synced_first true h), (synced_first false h), (bool_decide (e = Starts false)),
      (bool_decide (CachesSynced ∈ h)); done.
Qed.

#[export] Instance synced_first_order : ManagerOrder (fun h => synced_first false h = true).
Proof.
  split.
  - intros h. induction h as [|e h IH] using rev_ind; [by intros _ ?%elem_of_nil|].
    rewrite synced_first_app, !elem_of_app, !list_elem_of_singleton.
    intros [Hh Hs]%andb_true_iff [Hin|<-]; [left; by apply IH|].
    rewrite bool_decide_eq_true_2 in Hs by done. left. by apply bool_decide_eq_true in Hs.
  - intros h e. rewrite synced_first_app. by intros [? _]%andb_true_iff.
  - intros h Hh Hs _. rewrite synced_first_app, Hh, (bool_decide_eq_true_2 (CachesSynced ∈ h)) by done.
    by rewrite orb_true_r.
Qed.

(** ** Egress *)

(** The ways out of the process that go through an HTTP client. *)
Inductive egress := GPFetches | SpaceTrackFetches | StationProbes | PrometheusQueries.

Section Egress.
Context (unicode_lower : string -> string) (parse_origin : string -> result string (string * string))
  (idna : string -> string) (EqualFold : string -> string -> bool)
  (url_parse : string -> option URL) (address_ok : string -> bool)
  (query : QueryClient -> string -> Duration -> Time -> option prom_value).

(** The library's own client, when a pooled client was built without one. *)
Definition promapi_client (c : QueryClient) : Client :=
  match clientHTTP c with
  | Some http => http
  | None => mkHTTPClient 0 DefaultTransport DefaultRedirect false
  end.

(** The clients in use: the three that are built at the start, and whatever the
    pool has come to hold after any interleaving of reconciles. *)
Definition in_use (fl : Flags) (e : egress) (c : Client) : Prop :=
  let o := operator unicode_lower parse_origin fl in
  match e with
  | GPFetches => c = opFetcher o
  | SpaceTrackFetches => c = opSpaceTrack o
  | StationProbes => c = opHealthCheck o
  | PrometheusQueries =>
      exists p inflight endpoint qc,
        rtc (provider_step unicode_lower url_parse address_ok query) (opMetricsProvider o, []) (p, inflight) /\
        clients (pPool p) !! endpoint = Some qc /\ c = promapi_client qc
  end.

(** The hosts the flags exempt from the guard. *)
Definition exempt (fl : Flags) (e : egress) : EndpointAllowlist :=
  match e with
  | GPFetches => ParseEndpointAllowlist unicode_lower (ephemerisAllowedPrivateHosts fl)
  | PrometheusQueries => ParseEndpointAllowlist unicode_lower (prometheusAllowedHosts fl)
  | SpaceTrackFetches | StationProbes => mkAllow []
  end.

Lemma in_use_guarded fl e c : in_use fl e c -> guarded (exempt fl e) c.
Proof.
  destruct e; cbn [in_use exempt].
  - intros ->. apply NewSafeHTTPClient_guarded.
  - intros ->. cbn. split; [done|]. by eexists.
  - intros ->. apply NewSafeHTTPClient_strict.
  - intros (p & inflight & endpoint & qc & Hrun & Hc & ->).
    set (promAllow := ParseEndpointAllowlist unicode_lower (prometheusAllowedHosts fl)) in *.
    apply (reachable_pool unicode_lower url_parse address_ok query
             (Some (NewSafeHTTPClient 0 [WithPrivateHostAllowlist promAllow]))
             [WithSafeClient promAllow] promAllow p inflight eq_refl) in Hrun as [_ Hp].
    destruct (Hp _ _ Hc) as [_ Hh]. unfold promapi_client. rewrite Hh. apply NewSafeHTTPClient_guarded.
Qed.

(** What the endpoint check of the cell controller lets through. *)
Lemma check_admits a raw :
  Check unicode_lower url_parse a raw = None ->
  exists u, url_parse raw = Some u /\ (hosts a = [] \/ lower unicode_lower (Hostname u) ∈ hosts a).
Proof.
  unfold Check. destruct (url_parse raw) as [u|]; [|done]. intros H. exists u. split; [done|].
  destruct (_ && _); [done|]. destruct (User u); [done|]. destruct (str_eqb _ ""); [done|].
  destruct (Nat.eqb_spec (length (hosts a)) 0) as [E|_]; [left; by apply nil_length_inv|].
  destruct (bool_decide_reflect (lower unicode_lower (Hostname u) ∈ hosts a)); [by right|done].
Qed.

Lemma planned_is_checked `{SC : StatusConditions} pem_ok keypair_ok header_ok sha256hex IsPrint allowed
  cc spec rc id eph env m t u d :
  runtime_plan unicode_lower url_parse pem_ok keypair_ok header_ok sha256hex IsPrint allowed cc spec rc id eph env
    = PlanPush m t u d ->
  Check unicode_lower url_parse allowed ("https://" +:+ Endpoint TLSConf t) = None.
Proof.
  unfold runtime_plan. destruct (choose_state _ _ _ _ _); [|done]. destruct (currency_error _ _ _ _); [done|].
  destruct (isEphemerisPushUpToDate _ _); [done|]. destruct (Check _ _ _ _) eqn:Hc; [done|].
  destruct (resolveRemoteControlTLS _ _ _ _ _ _) as [[conf token]|]; [|done]. by intros [= _ <- _ _].
Qed.

(** C13. What the process can be made to contact.  Over the whole life of the
    HTTP clients for element sets, Space-Track, station probes and Prometheus
    (whatever URLs the resources name, however servers redirect, whatever names
    resolve to and whenever that changes, with connections kept and reused), a
    private or reserved address is dialled or used only for a URL whose host an
    administrator listed in the flag of that client,
    --ephemeris-allowed-private-hosts for GP sources and
    --prometheus-allowed-endpoint-hosts for Prometheus; for Space-Track and the
    stations' health endpoints never.  The client of the runtime pushes to gNBs,
    which are inside the network, has no such guard: what confines it is
    --remote-control-allowed-endpoint-hosts, and when that flag names hosts, a
    push is only ever planned to one of them (when it is empty, to any). *)
Theorem egress_is_confined fl :
  (forall e c reqs h ip,
     in_use fl e c -> h ∈ session unicode_lower idna EqualFold c [] reqs ->
     ip ∈ hopDialled h \/ hopConn h = Some ip -> IsPrivateIP ip = true ->
     exists host port, SplitHostPort (canonicalAddr idna (hopURL h)) = Some (host, port) /\
       lower unicode_lower host ∈ hosts (exempt fl e)) /\
  (forall `(SC : StatusConditions) pem_ok keypair_ok header_ok sha256hex IsPrint cc spec rc id eph env m t u d,
     runtime_plan unicode_lower url_parse pem_ok keypair_ok header_ok sha256hex IsPrint
       (opRemoteControlAllowedHosts (operator unicode_lower parse_origin fl)) cc spec rc id eph env = PlanPush m t u d ->
     exists target, url_parse ("https://" +:+ Endpoint TLSConf t) = Some target /\
       (hosts (ParseEndpointAllowlist unicode_lower (remoteControlAllowedHosts fl)) = [] \/
        lower unicode_lower (Hostname target) ∈ hosts (ParseEndpointAllowlist unicode_lower (remoteControlAllowedHosts fl)))).
Proof.
  split.
  - intros e c reqs h ip Hu Hh Hip Hp.
    assert (Hc : Forall (hop_confined unicode_lower idna (exempt fl e)) (session unicode_lower idna EqualFold c [] reqs)).
    { apply session_confined; [by apply in_use_guarded|]. by intros s a x ?%elem_of_nil. }
    rewrite Forall_forall in Hc. by apply (Hc h Hh ip).
  - intros SC pem_ok keypair_ok header_ok sha256hex IsPrint cc spec rc id eph env m t u d H%planned_is_checked.
    by apply check_admits in H.
Qed.

End Egress.

(** A public source redirects to a mirror inside: only with the flag is the
    mirror contacted. *)
Definition mirror_flags (allowed : string) : Flags :=
  mkFlags ":8443" ":8081" true true "" "tls.crt" "tls.key" false 1 "" allowed "".

Definition mirror_dns (host : string) : option (list IP) :=
  if str_eqb host "mirror.corp" then Some [[10; 0; 0; 7]%Z]
  else if str_eqb host "celestrak.org" then Some [[104; 20; 1; 1]%Z] else None.

Definition mirror_hop (n : nat) : HopEnv :=
  mkHop mirror_dns mirror_dns (fun _ _ => true) None true (fun _ => None)
    (fun _ u => if str_eqb (Host u) "celestrak.org"
                then Redirects (Some (mkURL "https" false "mirror.corp")) else Responds 200).

Definition mirror_fetch (allowed : string) : list hop :=
  session lower_ascii id str_eqb (opFetcher (operator lower_ascii (fun _ => Err "") (mirror_flags allowed))) []
    [(mkURL "https" false "celestrak.org", mirror_hop)].

Example mirror_needs_the_flag :
  hopConn <$> mirror_fetch "" = [Some [104; 20; 1; 1]%Z] /\
  hopConn <$> mirror_fetch "Mirror.corp" = [Some [104; 20; 1; 1]%Z; Some [10; 0; 0; 7]%Z].
Proof. split; vm_compute; reflexivity. Qed.

Lemma egress_is_confined_witness :
  exists h, h ∈ mirror_fetch "Mirror.corp" /\ hopConn h = Some [10; 0; 0; 7]%Z /\
    exists host port, SplitHostPort (canonicalAddr id (hopURL h)) = Some (host, port) /\
      lower lower_ascii host ∈ ["mirror.corp"].
Proof.
  exists (mkHopLog (mkURL "https" false "mirror.corp") [[10; 0; 0; 7]%Z] (Some [10; 0; 0; 7]%Z)).
  assert (Hin : mkHopLog (mkURL "https" false "mirror.corp") [[10; 0; 0; 7]%Z] (Some [10; 0; 0; 7]%Z)
                ∈ mirror_fetch "Mirror.corp").
  { apply (list_elem_of_lookup_2 _ 1). vm_compute. reflexivity. }
  split; [exact Hin|]. split; [reflexivity|].
  refine (proj1 (egress_is_confined lower_ascii (fun _ => Err "") id str_eqb (fun _ => None) (fun _ => true)
    (fun _ _ _ _ => None) (mirror_flags "Mirror.corp")) GPFetches _ _ _ [10; 0; 0; 7]%Z eq_refl Hin _ _).
  - by right.
  - vm_compute. reflexivity.
Defined.
