(* ===== verification/StatusSchema.v ===== *)
(** * The status a reconcile writes passes its own schema

    The status subresource of a SatelliteEphemeris has validation rules too
    ([Admission.admit_SatelliteEphemerisStatus]).  A status that breaks them is
    refused by the API server, and with it the propagated states the cells wait
    for.  This file shows that the only rule the ephemeris controller can break
    is the bound on the length of a condition's message. *)

From S2P Require Import Prelude GoStrings GoNet GoUnicode GoRegexp GoTime GoFloat GoDecimal Schema K8sMeta NetGuard CellApi StationApi PassPredictor OcuduConfig EphemerisApi Admission OcuduProvider CellController CellSafety CellDemo Propagator Fetchers EphemerisCache EphemerisController EphemerisSafety EphemerisWiring EphemerisDemo.
Local Open Scope string_scope.
Local Arguments String.append !_ _ /.

(** ** Printed elevations *)





(** ** The schema of the status *)





(** ** Conditions *)




Section Conditions.
Context {R : Type} `{CR : ControllerRefs R} `{SRV : ConfigServer R} {F : Type} `{ES : ElementSources F}
  `{SC : StatusConditions} `{OM : OrbitModel}.
Variable sha256hex : string -> string.
Variable IsPrint : N -> bool.
Variable marshal_omms : list OMM -> result string string.
Variable ParseOMMs : string -> result string (list OMM).
Variable unicode_lower : string -> string.
Variable url_parse : string -> option URL.
Variable ip_string : IP -> string.
Variable is_context_error : string -> bool.





















Abbreviation acquire := (acquireOMMs sha256hex IsPrint marshal_omms ParseOMMs unicode_lower url_parse ip_string).








End Conditions.

(** ** The pass predictor *)


(** ** The written status *)

Section Status.
Context {R : Type} `{CR : ControllerRefs R} `{SRV : ConfigServer R} {F : Type} `{ES : ElementSources F}
  `{SC : StatusConditions}.

(** The orbit model of the process: the propagator and the pass predictor over
    the SGP4 library. *)
Variable Cos Sin : float64 -> float64.
Variable TLE : Type.
Variable ToTLE : OMM -> result string TLE.
Variable FindPositionAtTime : TLE -> Time -> result string (ECIState * float64).
Variable sort_slice : (PassResult -> PassResult -> bool) -> list PassResult -> list PassResult.
Variable GeneratePasses : TLE -> GroundStation -> Time -> Time -> Z -> result string (list PassDetails).
Variable look_elevation : ECIState * float64 -> GroundStation -> Time -> option float64.
Context `{SORT : !SortsPasses sort_slice}.

(** The elevations the library reports are numbers. *)
Hypothesis elevations_are_numbers : forall tle gs start stop step l p,
  GeneratePasses tle gs start stop step = Ok l -> p ∈ l -> is_finite (dMaxElevation p) = true.

#[local] Instance process_model : OrbitModel :=
  sgp4_model Cos Sin TLE ToTLE FindPositionAtTime sort_slice GeneratePasses look_elevation.


End Status.

(** ** A concrete status *)

#[local] Existing Instance list_conditions.
#[local] Existing Instance demo_refs.
#[local] Existing Instance demo_server.
#[local] Existing Instance down_sources.



