(* ===== verification/MetricsDefs.v ===== *)
(** * Package metrics: the exported series

    Models [src/pkg/metrics/metrics.go]: the metric families of the operator with
    their labels, their registration, and the places where the controllers write
    and drop series.  Of the Prometheus client the file has the documented
    behaviour the program relies on: a descriptor with bad or repeated names is
    refused, [MustRegister] panics on it, a series is addressed with exactly the
    declared labels or the call panics, and [DeletePartialMatch] drops the series
    that carry the given labels. *)

From S2P Require Import Prelude GoStrings GoNet GoRegexp GoTime GoFloat K8sMeta CellApi EphemerisApi OcuduProvider CellDemo Fetchers EphemerisCache EphemerisController EphemerisSafety EphemerisWiring EphemerisDemo.
From Stdlib Require Import Ascii.
Local Open Scope string_scope.

(** ** Families *)

Inductive MetricKind := Counter | Gauge | Histogram (buckets : list float64).

Record Family := mkFamily {
  fName : string;
  fKind : MetricKind;
  fLabels : list string
}.

(** Milliseconds as seconds, for the buckets. *)
Definition ms (z : N) : float64 := of_decimal false z (-3).

Module Families.

Definition FailoverTotal := mkFamily "ntn_operators_failover_total" Counter ["namespace"; "slice"; "from_path"; "to_path"].
Definition SatellitePassAvailable := mkFamily "ntn_operators_satellite_pass_available" Gauge ["namespace"; "ephemeris"].
Definition GroundStationHealth := mkFamily "ntn_operators_ground_station_health" Gauge ["namespace"; "station"; "condition"].
Definition ConfigApplyErrorsTotal := mkFamily "ntn_operators_config_apply_errors_total" Counter ["namespace"; "config"; "provider"].
Definition GPFetchDuration :=
  mkFamily "ntn_operators_gp_fetch_duration_seconds"
    (Histogram (map ms [500; 1000; 2000; 5000; 10000; 20000; 30000; 60000]%N)) ["source_type"; "status"].
Definition GPSatelliteCount := mkFamily "ntn_operators_gp_satellite_count" Gauge ["namespace"; "ephemeris"].
Definition GPDeepSpaceRejectedCount := mkFamily "ntn_operators_gp_deep_space_rejected_count" Gauge ["namespace"; "ephemeris"].
Definition EphemerisEpochStaleCount := mkFamily "ntn_operators_ephemeris_epoch_stale_count" Gauge ["namespace"; "ephemeris"].
Definition EphemerisPropagationFailedCount :=
  mkFamily "ntn_operators_ephemeris_propagation_failed_count" Gauge ["namespace"; "ephemeris"].
Definition GPFetchReady := mkFamily "ntn_operators_gp_fetch_ready" Gauge ["namespace"; "ephemeris"].
Definition EphemerisPushErrorsTotal := mkFamily "ntn_operators_ephemeris_push_errors_total" Counter ["namespace"; "config"; "reason"].
Definition EphemerisPushReady := mkFamily "ntn_operators_ephemeris_push_ready" Gauge ["namespace"; "config"].
Definition ConfigApplyReady := mkFamily "ntn_operators_config_apply_ready" Gauge ["namespace"; "config"].
Definition ReaderQueryDuration :=
  mkFamily "ntn_operators_reader_query_duration_seconds"
    (Histogram (map ms [1; 5; 10; 25; 50; 100; 250; 500; 1000; 2000]%N)) ["source"; "outcome"].
Definition ReaderErrorsTotal := mkFamily "ntn_operators_reader_errors_total" Counter ["source"; "reason"].
Definition ReaderStaleUsedTotal := mkFamily "ntn_operators_reader_stale_value_used_total" Counter ["namespace"; "name"].
Definition EphemerisMapperIndexErrorTotal := mkFamily "ntn_operators_ephemeris_mapper_index_error_total" Counter [].
Definition OMMCachePersistTotal := mkFamily "ntn_operators_omm_cache_persist_total" Counter ["namespace"; "ephemeris"; "result"].
Definition OMMCacheRestoreTotal := mkFamily "ntn_operators_omm_cache_restore_total" Counter ["namespace"; "ephemeris"; "result"].
Definition OMMCacheRestoredAgeSeconds := mkFamily "ntn_operators_omm_cache_restored_age_seconds" Gauge ["namespace"; "ephemeris"].

(** What [init] registers, in its order. *)
Definition registered : list Family :=
  [FailoverTotal; SatellitePassAvailable; GroundStationHealth; ConfigApplyErrorsTotal; ConfigApplyReady;
   GPFetchDuration; GPSatelliteCount; GPDeepSpaceRejectedCount; EphemerisEpochStaleCount;
   EphemerisPropagationFailedCount; GPFetchReady; EphemerisPushErrorsTotal; EphemerisPushReady;
   ReaderQueryDuration; ReaderErrorsTotal; ReaderStaleUsedTotal; OMMCachePersistTotal; OMMCacheRestoreTotal;
   OMMCacheRestoredAgeSeconds; EphemerisMapperIndexErrorTotal].

End Families.

(** ** Registration *)

Definition is_name_start (c : ascii) : bool :=
  bool_decide (97 <= byte_val (lower_byte c) <= 122)%N || Ascii.eqb c "_".
(** [[a-zA-Z_:][a-zA-Z0-9_:]*] and [[a-zA-Z_][a-zA-Z0-9_]*]. *)
Definition metric_name_re : regex :=
  RCat (RClass (fun c => is_name_start c || Ascii.eqb c ":"))
    (RStar (RClass (fun c => is_name_start c || is_digit c || Ascii.eqb c ":"))).
Definition label_name_re : regex :=
  RCat (RClass is_name_start) (RStar (RClass (fun c => is_name_start c || is_digit c))).

Definition label_ok (kind : MetricKind) (l : string) : bool :=
  matchString label_name_re l && negb (String.prefix "__" l) &&
  match kind with Histogram _ => negb (str_eqb l "le") | _ => true end.

Fixpoint increasing (l : list float64) : bool :=
  match l with
  | a :: ((b :: _) as l') => f_lt a b && increasing l'
  | _ => true
  end.

(** A descriptor the client accepts. *)
Definition desc_ok (f : Family) : bool :=
  matchString metric_name_re (fName f) && forallb (label_ok (fKind f)) (fLabels f) &&
  bool_decide (NoDup (fLabels f)) && match fKind f with Histogram b => increasing b | _ => true end.

(** [MustRegister]; [None] is the panic. *)
Fixpoint MustRegister (done : list string) (l : list Family) : option (list string) :=
  match l with
  | [] => Some done
  | f :: l => if desc_ok f && negb (bool_decide (fName f ∈ done)) then MustRegister (fName f :: done) l else None
  end.

(** ** Series *)

(** A series: its family and its label values in the declared order. *)
Abbreviation Series := (gmap (string * list string) Z).
Abbreviation Labels := (list (string * string)).

Definition label_of (ls : Labels) (l : string) : option string :=
  match List.find (fun p => str_eqb p.1 l) ls with Some p => Some p.2 | None => None end.

(** [With(labels)]: the address of a series; [None] is the panic. *)
Definition With (f : Family) (ls : Labels) : option (string * list string) :=
  if (length ls =? length (fLabels f))%nat then
    match mapM (label_of ls) (fLabels f) with Some vs => Some (fName f, vs) | None => None end
  else None.

Definition SetSeries (f : Family) (ls : Labels) (v : Z) (s : Series) : option Series :=
  match With f ls with Some k => Some (<[k := v]> s) | None => None end.
Definition IncSeries (f : Family) (ls : Labels) (s : Series) : option Series :=
  match With f ls with Some k => Some (<[k := (default 0 (s !! k) + 1)%Z]> s) | None => None end.

(** Whether the series [k] of [f] carries the labels [ls]. *)
Definition carries (f : Family) (ls : Labels) (k : string * list string) : bool :=
  str_eqb k.1 (fName f) &&
  forallb (fun p => bool_decide (p ∈ zip (fLabels f) k.2)) ls.

Definition DeletePartialMatch (f : Family) (ls : Labels) (s : Series) : Series :=
  filter (fun kv => carries f ls kv.1 = false) s.

(** ** Where the controllers write series *)

Import Families.

(** Every call of [With] and [WithLabelValues], with the labels it gives. *)
Definition emissions : list (Family * list string) :=
  [ (GroundStationHealth, ["namespace"; "station"; "condition"]);
    (OMMCachePersistTotal, ["namespace"; "ephemeris"; "result"]);
    (OMMCacheRestoreTotal, ["namespace"; "ephemeris"; "result"]);
    (OMMCacheRestoredAgeSeconds, ["namespace"; "ephemeris"]);
    (SatellitePassAvailable, ["namespace"; "ephemeris"]);
    (FailoverTotal, ["namespace"; "slice"; "from_path"; "to_path"]);
    (GPFetchReady, ["namespace"; "ephemeris"]);
    (GPSatelliteCount, ["namespace"; "ephemeris"]);
    (GPDeepSpaceRejectedCount, ["namespace"; "ephemeris"]);
    (EphemerisEpochStaleCount, ["namespace"; "ephemeris"]);
    (EphemerisPropagationFailedCount, ["namespace"; "ephemeris"]);
    (GPFetchDuration, ["source_type"; "status"]);
    (ConfigApplyReady, ["namespace"; "config"]);
    (ConfigApplyErrorsTotal, ["namespace"; "config"; "provider"]);
    (EphemerisPushErrorsTotal, ["namespace"; "config"; "reason"]);
    (EphemerisPushReady, ["namespace"; "config"]);
    (ReaderQueryDuration, ["source"; "outcome"]);
    (ReaderErrorsTotal, ["source"; "reason"]);
    (ReaderStaleUsedTotal, ["namespace"; "name"]) ].

(** ** Where they drop them *)

(** The kinds of resources, the label that names a resource of the kind, and the
    families its controller drops when the resource is gone. *)
Inductive ResourceKind := KEphemeris | KCell | KSlice | KStation | KReader.

Definition owner_label (k : ResourceKind) : string :=
  match k with
  | KEphemeris => "ephemeris" | KCell => "config" | KSlice => "slice" | KStation => "station" | KReader => "name"
  end.

Definition dropped (k : ResourceKind) : list Family :=
  match k with
  | KEphemeris =>
      [GPSatelliteCount; GPDeepSpaceRejectedCount; EphemerisEpochStaleCount; EphemerisPropagationFailedCount;
       GPFetchReady; OMMCachePersistTotal; OMMCacheRestoreTotal; OMMCacheRestoredAgeSeconds]
  | KCell => [ConfigApplyErrorsTotal; ConfigApplyReady; EphemerisPushErrorsTotal; EphemerisPushReady]
  | KSlice => [FailoverTotal]
  | KStation => [GroundStationHealth]
  | KReader => [ReaderStaleUsedTotal]
  end.

(** The deletions of one resource, one after the other. *)
Definition drop_resource (k : ResourceKind) (ns name : string) (s : Series) : Series :=
  fold_left (fun s f => DeletePartialMatch f [("namespace", ns); (owner_label k, name)] s) (dropped k) s.

(** ** Theorems *)

(** [init] does not panic. *)
Theorem registration_succeeds : MustRegister [] registered = Some (rev (map fName registered)).
Proof. vm_compute. reflexivity. Qed.

Lemma With_complete f names vs :
  (f, names) ∈ emissions -> length vs = length names -> With f (zip names vs) = Some (fName f, vs).
Proof.
  intros Hin Hl. unfold emissions in Hin. rewrite !elem_of_cons, elem_of_nil in Hin.
  repeat (destruct Hin as [Hin|Hin]; [injection Hin as -> ->; cbn in Hl;
    repeat (destruct vs as [|? vs]; try discriminate Hl); reflexivity|]). destruct Hin.
Qed.

(** Every family that is written per resource is dropped by a controller, and
    every label the controllers give is declared. *)
Lemma tables_agree :
  forallb (fun e => bool_decide (fName e.1 ∈ map fName registered)) emissions = true /\
  forallb (fun f => negb (bool_decide ("namespace" ∈ fLabels f)) || str_eqb (fName f) (fName SatellitePassAvailable) ||
    existsb (fun k => bool_decide (fName f ∈ map fName (dropped k))) [KEphemeris; KCell; KSlice; KStation; KReader])
    registered = true /\
  forallb (fun k => forallb (fun f => bool_decide ("namespace" ∈ fLabels f /\ owner_label k ∈ fLabels f)) (dropped k))
    [KEphemeris; KCell; KSlice; KStation; KReader] = true.
Proof. vm_compute. repeat split. Qed.

Lemma drop_lookup k ns name s key :
  drop_resource k ns name s !! key =
  if existsb (fun f => carries f [("namespace", ns); (owner_label k, name)] key) (dropped k) then None else s !! key.
Proof.
  unfold drop_resource. generalize (dropped k) as l. intros l. revert s.
  induction l as [|f l IH]; intros s; [done|]. cbn [fold_left existsb]. rewrite IH.
  unfold DeletePartialMatch. destruct (existsb _ l); [by rewrite orb_true_r|]. rewrite orb_false_r.
  rewrite map_lookup_filter. destruct (s !! key) as [v|]; cbn; [|by destruct (carries _ _ _)].
  destruct (carries f _ key) eqn:E; case_guard; simpl; try done; congruence.
Qed.

(** A family that names a resource of the kind is dropped with it; the one
    exception is written per referenced ephemeris by the slice controller, which
    drops it with the last slice that refers to it. *)
Lemma owned_is_dropped f k :
  f ∈ registered -> owner_label k ∈ fLabels f -> f = SatellitePassAvailable \/ f ∈ dropped k.
Proof.
  intros Hf Hk. unfold registered in Hf. rewrite !elem_of_cons, elem_of_nil in Hf.
  repeat (destruct Hf as [->|Hf]; [destruct k; cbn in Hk; set_solver|]). destruct Hf.
Qed.

Lemma names_distinct f g : f ∈ registered -> g ∈ registered -> fName f = fName g -> f = g.
Proof.
  assert (NoDup (map fName registered)) as Hn by (apply (bool_decide_unpack _); vm_compute; exact I).
  revert Hn. generalize registered as l. induction l as [|h l IH]; intros Hn Hf Hg E; [by apply elem_of_nil in Hf|].
  cbn in Hn. apply NoDup_cons in Hn as [Hnot Hn]. rewrite elem_of_cons in Hf, Hg.
  destruct Hf as [->|Hf], Hg as [->|Hg]; [done| | |by apply IH].
  - destruct Hnot. rewrite E. by apply list_elem_of_fmap_2.
  - destruct Hnot. rewrite <- E. by apply list_elem_of_fmap_2.
Qed.

Lemma dropped_registered f k : f ∈ dropped k -> f ∈ registered.
Proof. destruct k; cbn; set_solver. Qed.

Lemma carries_own f ls vs :
  (forall p, p ∈ ls -> p ∈ zip (fLabels f) vs) -> carries f ls (fName f, vs) = true.
Proof.
  intros H. unfold carries. cbn. rewrite str_eqb_refl. cbn. apply forallb_forall.
  intros p Hp%list_elem_of_In. by apply bool_decide_eq_true, H.
Qed.

(** What a deletion does to every series of every family. *)
Lemma drop_resource_spec k ns name s f vs :
  f ∈ registered -> owner_label k ∈ fLabels f -> f <> SatellitePassAvailable ->
  drop_resource k ns name s !! (fName f, vs) =
  if bool_decide (("namespace", ns) ∈ zip (fLabels f) vs /\ (owner_label k, name) ∈ zip (fLabels f) vs)
  then None else s !! (fName f, vs).
Proof.
  intros Hf Hk Hne. rewrite drop_lookup.
  assert (existsb (fun g => carries g [("namespace", ns); (owner_label k, name)] (fName f, vs)) (dropped k) =
    bool_decide (("namespace", ns) ∈ zip (fLabels f) vs /\ (owner_label k, name) ∈ zip (fLabels f) vs)) as ->; [|done].
  apply eq_bool_prop_intro. rewrite !Is_true_true, existsb_exists, bool_decide_eq_true. split.
  - intros (g & Hg%list_elem_of_In & Hc). unfold carries in Hc. cbn in Hc.
    apply andb_true_iff in Hc as [E%str_eqb_eq Hc]. apply names_distinct in E; [|done|by eapply dropped_registered].
    subst g. by apply andb_true_iff in Hc as [?%bool_decide_eq_true [?%bool_decide_eq_true _]%andb_true_iff].
  - intros [H1 H2]. destruct (owned_is_dropped f k Hf Hk) as [?|Hd]; [done|]. exists f.
    split; [by apply list_elem_of_In|]. apply carries_own. intros p Hp. set_solver.
Qed.

(** Families that name no resource of the kind keep all their series. *)
Lemma drop_resource_other k ns name s f vs :
  f ∈ registered -> owner_label k ∉ fLabels f \/ f = SatellitePassAvailable ->
  drop_resource k ns name s !! (fName f, vs) = s !! (fName f, vs).
Proof.
  intros Hf Hno. rewrite drop_lookup.
  assert (existsb (fun g => carries g [("namespace", ns); (owner_label k, name)] (fName f, vs)) (dropped k) = false) as ->;
    [|done]. apply not_true_is_false. rewrite existsb_exists. intros (g & Hg%list_elem_of_In & Hc).
  unfold carries in Hc. cbn in Hc. apply andb_true_iff in Hc as [E%str_eqb_eq _].
  apply names_distinct in E; [|done|by eapply dropped_registered]. subst g.
  destruct Hno as [Hno| ->]; [|destruct k; cbn in Hg; set_solver].
  destruct Hno. destruct k; cbn in Hg; rewrite !elem_of_cons, elem_of_nil in Hg;
    repeat (destruct Hg as [->|Hg]; [cbn; set_solver|]); destruct Hg.
Qed.

(** ** The registry of the ephemeris controller *)

Section Registry.
Context {R : Type} `{CR : ControllerRefs R} `{SRV : ConfigServer R} {F : Type} `{ES : ElementSources F}
  `{SC : StatusConditions} `{OM : OrbitModel}.

Definition eph_gauges : list (string * Family) :=
  [(EphemerisController.GPSatelliteCount, GPSatelliteCount);
   (EphemerisController.GPDeepSpaceRejectedCount, GPDeepSpaceRejectedCount);
   (EphemerisController.EphemerisEpochStaleCount, EphemerisEpochStaleCount);
   (EphemerisController.EphemerisPropagationFailedCount, EphemerisPropagationFailedCount);
   (EphemerisController.GPFetchReady, GPFetchReady)].

(** The registry [s] shows the series the controller [w] keeps. *)
Record exposes (w : EphWorld (R := R) (F := F)) (s : Series) : Prop := {
  ex_gauges : forall m f ns name, (m, f) ∈ eph_gauges -> s !! (fName f, [ns; name]) = ewGauges w !! (m, (ns, name));
  ex_persist : forall ns name r,
    s !! (fName OMMCachePersistTotal, [ns; name; r]) =
    EphemerisCache.OMMCachePersistTotal (owSeries (ewCache w)) !! ((ns, name), r);
  ex_restore : forall ns name r,
    s !! (fName OMMCacheRestoreTotal, [ns; name; r]) =
    EphemerisCache.OMMCacheRestoreTotal (owSeries (ewCache w)) !! ((ns, name), r);
  ex_age : forall ns name,
    s !! (fName OMMCacheRestoredAgeSeconds, [ns; name]) = OMMCacheRestoredAge (owSeries (ewCache w)) !! (ns, name)
}.

Lemma eph_gauge_family m f :
  (m, f) ∈ eph_gauges ->
  f ∈ registered /\ fLabels f = ["namespace"; "ephemeris"] /\ f <> SatellitePassAvailable /\
  fName f = "ntn_operators_" +:+ m.
Proof.
  unfold eph_gauges. rewrite !elem_of_cons, elem_of_nil.
  intros H. repeat (destruct H as [[= -> ->]|H]; [split_and!; [set_solver|done|done|done]|]). destruct H.
Qed.

Lemma forget_exposes k w s :
  exposes w s -> exposes (forget k w) (drop_resource KEphemeris (kNamespace k) (kName k) s).
Proof.
  assert (forall (a b c d : string), bool_decide (("namespace", c) ∈ [("namespace", a); ("ephemeris", b)] /\
    ("ephemeris", d) ∈ [("namespace", a); ("ephemeris", b)]) = bool_decide ((a, b) = (c, d))) as H2.
  { intros. apply bool_decide_ext. set_solver. }
  assert (forall (a b c d r : string), bool_decide (("namespace", c) ∈ [("namespace", a); ("ephemeris", b); ("result", r)] /\
    ("ephemeris", d) ∈ [("namespace", a); ("ephemeris", b); ("result", r)]) = bool_decide ((a, b) = (c, d))) as H3.
  { intros. apply bool_decide_ext. set_solver. }
  intros [Hg Hp Hr Ha]. unfold forget. split;
    cbn [ewCache ewGauges owSeries EphemerisCache.OMMCachePersistTotal EphemerisCache.OMMCacheRestoreTotal OMMCacheRestoredAge].
  - intros m f ns name Hin. destruct (eph_gauge_family m f Hin) as (Hf & Hl & Hne & _).
    rewrite drop_resource_spec by (try done; rewrite Hl; by apply (list_elem_of_lookup_2 _ 1)). rewrite Hl. cbn [zip zip_with owner_label]. rewrite H2, (Hg m f) by done.
    rewrite map_lookup_filter. destruct (ewGauges w !! _) eqn:E; cbn; [|by case_bool_decide].
    case_bool_decide; case_guard; simplify_eq; try done; congruence.
  - intros ns name r. rewrite drop_resource_spec by (first [done | by apply (list_elem_of_lookup_2 _ 16) | by apply (list_elem_of_lookup_2 _ 1)]).
    cbn [fLabels OMMCachePersistTotal zip zip_with owner_label]. rewrite H3, Hp, map_lookup_filter.
    destruct (EphemerisCache.OMMCachePersistTotal _ !! _) eqn:E; cbn; [|by case_bool_decide].
    case_bool_decide; case_guard; simplify_eq; try done; congruence.
  - intros ns name r. rewrite drop_resource_spec by (first [done | by apply (list_elem_of_lookup_2 _ 17) | by apply (list_elem_of_lookup_2 _ 1)]).
    cbn [fLabels OMMCacheRestoreTotal zip zip_with owner_label]. rewrite H3, Hr, map_lookup_filter.
    destruct (EphemerisCache.OMMCacheRestoreTotal _ !! _) eqn:E; cbn; [|by case_bool_decide].
    case_bool_decide; case_guard; simplify_eq; try done; congruence.
  - intros ns name. rewrite drop_resource_spec by (first [done | by apply (list_elem_of_lookup_2 _ 18) | by apply (list_elem_of_lookup_2 _ 1)]).
    cbn [fLabels OMMCacheRestoredAgeSeconds zip zip_with owner_label]. rewrite H2, Ha.
    case_bool_decide as E; [injection E as -> ->; by rewrite lookup_delete_eq|].
    by rewrite lookup_delete_ne.
Qed.

(** When a SatelliteEphemeris is gone, its reconcile takes every series of it
    out of the registry and touches no other: the registry that showed the
    controller's series still does after the deletions; no family that is
    labelled with the resource has a series of it left; and every series of
    another resource, or of a family without that label, is as before. *)
Theorem deletion_leaves_no_series sha256hex IsPrint marshal_omms ParseOMMs unicode_lower url_parse ip_string
  is_context_error env w s :
  eeEph env = NotFound -> exposes w s ->
  let ns := kNamespace (eeKey env) in
  let name := kName (eeKey env) in
  let s' := drop_resource KEphemeris ns name s in
  exposes (eoWorld (eph_reconcile (R := R) (F := F) sha256hex IsPrint marshal_omms ParseOMMs unicode_lower url_parse
                      ip_string is_context_error env w)) s' /\
  (forall f vs, f ∈ registered -> "ephemeris" ∈ fLabels f -> f <> SatellitePassAvailable ->
     s' !! (fName f, vs) =
     if bool_decide (("namespace", ns) ∈ zip (fLabels f) vs /\ ("ephemeris", name) ∈ zip (fLabels f) vs)
     then None else s !! (fName f, vs)) /\
  (forall f vs, f ∈ registered -> "ephemeris" ∉ fLabels f \/ f = SatellitePassAvailable ->
     s' !! (fName f, vs) = s !! (fName f, vs)).
Proof.
  intros He Hs. cbv zeta. split; [|split].
  - unfold eph_reconcile. rewrite He. by apply forget_exposes.
  - intros f vs Hf Hl Hne. by apply (drop_resource_spec KEphemeris).
  - intros f vs Hf Ho. by apply (drop_resource_other KEphemeris).
Qed.

End Registry.

(** ** A registry with one series *)

#[local] Existing Instance list_conditions.
#[local] Existing Instance demo_refs.
#[local] Existing Instance demo_server.
#[local] Existing Instance down_sources.
#[local] Existing Instance still_model.

Definition one_series_world : EphWorld (R := DemoRef) (F := Fetchers unit) :=
  mkEphWorld (mkCacheWorld ∅ ∅ cold_fetchers (mkCacheSeries ∅ ∅ ∅))
    {[(EphemerisController.GPFetchReady, ("ran", "leo")) := 1%Z]} [].

Definition one_series : Series := {[(fName GPFetchReady, ["ran"; "leo"]) := 1%Z]}.

Lemma one_series_exposed : exposes one_series_world one_series.
Proof.
  split; [|intros; cbn; rewrite lookup_empty; by apply lookup_singleton_None..].
  intros m f ns name Hin. unfold one_series, one_series_world. cbn [ewGauges].
  destruct (eph_gauge_family m f Hin) as (_ & _ & _ & E). rewrite E.
  change (fName GPFetchReady) with ("ntn_operators_" +:+ EphemerisController.GPFetchReady).
  destruct (decide ((m, (ns, name)) = (EphemerisController.GPFetchReady, ("ran", "leo")))) as [Eq|Hne].
  - injection Eq as -> -> ->. by rewrite !lookup_singleton_eq.
  - rewrite !lookup_singleton_ne; [done|congruence|]. intros Eq. injection Eq as Em <- <-.
    apply app_str_inv_head in Em. by subst m.
Qed.

Lemma deletion_leaves_no_series_witness :
  drop_resource KEphemeris "ran" "leo" one_series !! (fName GPFetchReady, ["ran"; "leo"]) = None /\
  one_series !! (fName GPFetchReady, ["ran"; "leo"]) = Some 1%Z.
Proof.
  destruct (deletion_leaves_no_series same printable marshal_one two_sets lower_ascii CellDemo.demo_url (fun _ => "")
    (fun _ => false) (eph_env NotFound later written) one_series_world one_series eq_refl one_series_exposed)
    as (_ & H & _).
  split; [|vm_compute; reflexivity].
  etransitivity; [apply (H GPFetchReady)|].
  - by apply (list_elem_of_lookup_2 _ 10).
  - by apply (list_elem_of_lookup_2 _ 1).
  - discriminate.
  - vm_compute. reflexivity.
Defined.
