(* ===== verification/Exporter.v ===== *)
(** * The test metrics exporter

    Models [src/cmd/test-metrics-exporter]: the simulator of passes and gaps
    ([simulator.go]), the handler that refreshes its gauges on every scrape
    ([handler.go]), and the flags, the routes and [main] of [main.go], whose two
    goroutines are a step relation.  The text format of a scrape is the Prometheus
    client's and is a parameter. *)

From S2P Require Import Prelude GoStrings GoTime GoFloat Failover MetricsReaders.
From Stdlib Require Import Ascii.
Local Open Scope string_scope.

(** ** Simulator *)

Record SimulatedMetrics := mkSimulated {
  smRsrpDbm : float64;
  smLatencyMs : float64;
  smPacketLossPercent : float64;
  InPass : bool
}.

Definition healthyMetrics : SimulatedMetrics :=
  mkSimulated (f_of_Z (-80)) (f_of_Z 20) (of_decimal false 1 (-1)) true.
Definition degradedMetrics : SimulatedMetrics :=
  mkSimulated (f_of_Z (-140)) (f_of_Z 250) (of_decimal false 75 (-1)) false.

Record Simulator := mkSimulator {
  simStart : Time;
  PassDuration : Duration;
  GapDuration : Duration
}.

(** Sums of durations wrap around; [%] has the sign of the dividend. *)
Definition ValuesAt (s : Simulator) (t : Time) : SimulatedMetrics :=
  let cycle := wrap64 (PassDuration s + GapDuration s) in
  if (cycle <=? 0)%Z then degradedMetrics
  else
    let offset := Sub t (simStart s) in
    if (offset <? 0)%Z then degradedMetrics
    else if (Z.rem offset cycle <? PassDuration s)%Z then healthyMetrics else degradedMetrics.

(** ** Flags *)

Definition buildSimulator (duration_text : Duration -> string) (pass gap : Duration) (now : Time)
  : result string Simulator :=
  let problems :=
    ((if (pass <=? 0)%Z then ["pass-duration must be positive, got " +:+ duration_text pass] else []) ++
     (if (gap <=? 0)%Z then ["gap-duration must be positive, got " +:+ duration_text gap] else []))%list in
  match problems with
  | [] => Ok (mkSimulator now pass gap)
  | _ => Err (Join problems "; ")
  end.

(** ** Handler *)

(** The four gauges, with the labels they were made with. *)
Record Handler := mkHandler {
  hSim : Simulator;
  hLabels : string * string;
  hRsrp : float64;
  hLatency : float64;
  hLoss : float64;
  hInPass : float64
}.

Definition NewHandler (sim : Simulator) (namespace slice : string) : Handler :=
  mkHandler sim (namespace, slice) f_zero f_zero f_zero f_zero.

Section Serve.
(** The rendering of the registered gauges. *)
Variable render : Handler -> string.

Definition ServeHTTP (h : Handler) (now : Time) : string * Handler :=
  let v := ValuesAt (hSim h) now in
  let h := mkHandler (hSim h) (hLabels h) (smRsrpDbm v) (smLatencyMs v) (smPacketLossPercent v)
             (if InPass v then f_of_Z 1 else f_of_Z 0) in
  (render h, h).

(** [newMux]: the status code, the body and the handler after a request. *)
Definition newMux (h : Handler) (path : string) (now : Time) : Z * string * Handler :=
  if str_eqb path "/metrics" then let '(body, h) := ServeHTTP h now in (200%Z, body, h)
  else if str_eqb path "/healthz" then (200%Z, "", h)
  else (404%Z, "404 page not found", h).

(** Requests one after the other: the handler after them. *)
Fixpoint serve_all (h : Handler) (l : list (string * Time)) : Handler :=
  match l with
  | [] => h
  | (path, now) :: l => serve_all (newMux h path now).2 l
  end.

(** ** Main *)

Record Flags := mkFlags {
  flListen : string;
  flNamespace : string;
  flSlice : string;
  flPassDuration : Duration;
  flGapDuration : Duration
}.

Definition default_flags : Flags := mkFlags ":9090" "default" "test-slice" (30 * Second) (30 * Second).

(** [main] up to the server: [log.Fatalf] ends the process with its line. *)
Definition main_setup (duration_text : Duration -> string) (f : Flags) (now : Time) : result string Handler :=
  match buildSimulator duration_text (flPassDuration f) (flGapDuration f) now with
  | Err e => Err ("invalid flag: " +:+ e)
  | Ok sim => Ok (NewHandler sim (flNamespace f) (flSlice f))
  end.

(** Where the goroutine of the server is: before [ListenAndServe] has a listener,
    serving, back with an error other than [ErrServerClosed], or ended. *)
Inductive server_at := Starting | Serving | Failed (err : string) | Ended.

(** Where [main] is: at [<-ctx.Done()], in [srv.Shutdown], or returned, when the
    process is gone. *)
Inductive main_at := Waiting | ShuttingDown | Returned.

(** The two goroutines, the context they share, whether a listener was ever
    open, the handler, and the log. *)
Record Process := mkProcess {
  prServer : server_at;
  prMain : main_at;
  prDone : bool;
  prListened : bool;
  prHandler : Handler;
  prLog : list string
}.

(** The state at the [go] statement; the goroutine's first line is logged. *)
Definition started (duration_text : Duration -> string) (f : Flags) (h : Handler) : Process :=
  mkProcess Starting Waiting false false h
    ["test-metrics-exporter listening on " +:+ flListen f +:+ " (slice=" +:+ flNamespace f +:+ "/" +:+ flSlice f +:+
     ", pass=" +:+ duration_text (flPassDuration f) +:+ ", gap=" +:+ duration_text (flGapDuration f) +:+ ")"].

(** What the process does by itself: the listener opens unless the server is
    shutting down, [stop] after a server error, [main] past the context into
    [Shutdown], the server's return with [ErrServerClosed], and the return of
    [Shutdown], with an error when its five seconds are over. *)
Inductive own_step : Process -> Process -> Prop :=
  | listener_opens m d l h log : m <> ShuttingDown -> m <> Returned ->
      own_step (mkProcess Starting m d l h log) (mkProcess Serving m d true h log)
  | goroutine_stops err m d l h log : m <> Returned ->
      own_step (mkProcess (Failed err) m d l h log) (mkProcess Ended m true l h (log ++ ["server error: " +:+ err])%list)
  | context_done s l h log :
      own_step (mkProcess s Waiting true l h log) (mkProcess s ShuttingDown true l h log)
  | server_closed s d l h log : s = Starting \/ s = Serving ->
      own_step (mkProcess s ShuttingDown d l h log) (mkProcess Ended ShuttingDown d l h log)
  | shutdown_returns s d l h log log' : log' = [] \/ (exists err, log' = ["shutdown error: " +:+ err]) ->
      own_step (mkProcess s ShuttingDown d l h log) (mkProcess s Returned d l h (log ++ log')%list).

(** What happens to it: a signal, an error of the listener, a request on a
    connection. *)
Inductive outside_step : Process -> Process -> Prop :=
  | signal_arrives s m d l h log : m <> Returned ->
      outside_step (mkProcess s m d l h log) (mkProcess s m true l h log)
  | listener_fails s err m d l h log : s = Starting \/ s = Serving -> m <> Returned ->
      outside_step (mkProcess s m d l h log) (mkProcess (Failed err) m d l h log)
  | request_comes s path now m d h log : m <> Returned ->
      outside_step (mkProcess s m d true h log) (mkProcess s m d true (newMux h path now).2 log).

Inductive running (p0 : Process) : Process -> Prop :=
  | running_from : running p0 p0
  | running_own p q : running p0 p -> own_step p q -> running p0 q
  | running_outside p q : running p0 p -> outside_step p q -> running p0 q.

End Serve.

(** ** Properties *)

(** The flags are checked together: no simulator with an empty phase, and both
    mistakes in one message. *)
Lemma buildSimulator_ok text pass gap now sim :
  buildSimulator text pass gap now = Ok sim <->
  (0 < pass)%Z /\ (0 < gap)%Z /\ sim = mkSimulator now pass gap.
Proof.
  unfold buildSimulator. destruct (Z.leb_spec pass 0), (Z.leb_spec gap 0); cbn; split;
    try done; try (intros (? & ? & _); lia); [intros [= <-]; auto|]. by intros (_ & _ & ->).
Qed.

Lemma ValuesAt_phase s t :
  (0 < PassDuration s)%Z -> (0 < GapDuration s)%Z -> (PassDuration s + GapDuration s <= int64_max)%Z ->
  (t - simStart s <= int64_max)%Z ->
  ValuesAt s t =
  if (simStart s <=? t)%Z && ((t - simStart s) mod (PassDuration s + GapDuration s) <? PassDuration s)%Z
  then healthyMetrics else degradedMetrics.
Proof.
  intros Hp Hg Hsum Ht. unfold ValuesAt. rewrite wrap64_id by (unfold int64_min; lia).
  destruct (Z.leb_spec (PassDuration s + GapDuration s) 0); [lia|]. unfold Sub.
  destruct (Z.leb_spec (simStart s) t) as [Hle|Hlt]; cbn [andb].
  - assert (sat64 (t - simStart s) = t - simStart s)%Z as -> by (unfold sat64, int64_min; lia).
    destruct (Z.ltb_spec (t - simStart s) 0); [lia|]. by rewrite Z.rem_mod_nonneg by lia.
  - assert (Hneg : (sat64 (t - simStart s) < 0)%Z) by (unfold sat64, int64_min, int64_max; lia).
    apply Z.ltb_lt in Hneg. by rewrite Hneg.
Qed.

(** The metrics a slice reads from a scrape. *)
Definition scraped (v : SimulatedMetrics) : Metrics :=
  mkMetrics (smRsrpDbm v) (smLatencyMs v) (smPacketLossPercent v) false false false.

Definition default_triggers : list string := ["rsrp < -120"; "latency > 200"; "packetLoss > 5"].

Lemma default_triggers_phases :
  some_fires default_triggers (scraped degradedMetrics) = true /\
  forallb (fun s => match ParseTrigger s with Ok t => Evaluate t (scraped degradedMetrics) | Err _ => false end)
    default_triggers = true /\
  some_fires default_triggers (scraped healthyMetrics) = false /\
  some_unknown default_triggers (scraped healthyMetrics) = false /\
  some_unparsable default_triggers = false.
Proof. vm_compute. repeat split. Qed.

Lemma engine_phases delay last wall :
  decision (EvaluateFailover PathTerrestrial default_triggers (scraped healthyMetrics) true delay last wall) = DecisionStay /\
  decision (EvaluateFailover PathTerrestrial default_triggers (scraped degradedMetrics) true delay last wall) = DecisionFailover.
Proof. split; vm_compute; reflexivity. Qed.

Lemma serve_all_app render h a b : serve_all render h (a ++ b)%list = serve_all render (serve_all render h a) b.
Proof. revert h. induction a as [|[p t] a IH]; intros h; [done|]. apply IH. Qed.

(** The exporter drives the failover engine as its flags say: with positive
    pass and gap durations (whose sum is a duration), a scrape [t] after the
    start shows the healthy values exactly in the first part of each cycle, and
    the degraded ones otherwise and before the start; the gauges of a scrape
    depend on nothing but its time.  With the default triggers the engine, on
    the terrestrial path under an available satellite, fails over at a scrape of
    a gap and never at a scrape of a pass. *)
Theorem exporter_drives_failover render text pass gap now sim h reqs t delay last wall :
  buildSimulator text pass gap now = Ok sim -> (pass + gap <= int64_max)%Z -> (t - now <= int64_max)%Z ->
  hSim h = sim ->
  let h' := serve_all render h (reqs ++ [("/metrics", t)])%list in
  let m := mkMetrics (hRsrp h') (hLatency h') (hLoss h') false false false in
  let in_pass := (now <=? t)%Z && ((t - now) mod (pass + gap) <? pass)%Z in
  hInPass h' = (if in_pass then f_of_Z 1 else f_of_Z 0) /\
  decision (EvaluateFailover PathTerrestrial default_triggers m true delay last wall) =
    (if in_pass then DecisionStay else DecisionFailover).
Proof.
  intros (Hp & Hg & ->)%buildSimulator_ok Hsum Ht Hh. cbv zeta.
  assert (hSim (serve_all render h reqs) = mkSimulator now pass gap) as Hs.
  { rewrite <- Hh. clear. revert h. induction reqs as [|[path u] l IH]; intros h; [done|].
    cbn [serve_all]. rewrite IH. unfold newMux.
    destruct (str_eqb path "/metrics"); [done|]. by destruct (str_eqb path "/healthz"). }
  rewrite serve_all_app. cbn [serve_all]. unfold newMux. rewrite str_eqb_refl. unfold ServeHTTP.
  cbn [snd hRsrp hLatency hLoss hInPass]. rewrite Hs, ValuesAt_phase by done. cbn [simStart PassDuration GapDuration].
  destruct ((now <=? t)%Z && _); (split; [done|apply engine_phases]).
Qed.

Definition demo_sim : Simulator := mkSimulator (100 * Second) (30 * Second) (30 * Second).

Lemma exporter_drives_failover_witness :
  let h := serve_all (fun _ => "") (NewHandler demo_sim "default" "s") [("/healthz", 0%Z); ("/metrics", (140 * Second)%Z)] in
  decision (EvaluateFailover PathTerrestrial default_triggers
    (mkMetrics (hRsrp h) (hLatency h) (hLoss h) false false false) true 0 0 0) = DecisionFailover.
Proof.
  destruct (exporter_drives_failover (fun _ => "") (fun _ => "") (30 * Second) (30 * Second) (100 * Second) demo_sim
    (NewHandler demo_sim "default" "s") [("/healthz", 0%Z)] (140 * Second) 0 0 0) as [_ H];
    [vm_compute; reflexivity|vm_compute; discriminate|vm_compute; discriminate|reflexivity|].
  exact H.
Defined.

(** Durations whose sum wraps around leave only the degraded values. *)
Example overflowing_cycle :
  is_ok (buildSimulator (fun _ => "") (2 ^ 62) (2 ^ 62) 0) = true /\
  ValuesAt (mkSimulator 0 (2 ^ 62) (2 ^ 62)) 5 = degradedMetrics.
Proof. vm_compute. split; reflexivity. Qed.

(** ** The process *)

(** What holds of the process of a handler: the requests leave the simulator
    and the labels, the listener is the flags' business, and [main] is past the
    context only when it is done. *)
Definition sound_process (h : Handler) (p : Process) : Prop :=
  hSim (prHandler p) = hSim h /\ hLabels (prHandler p) = hLabels h /\ (prMain p <> Waiting -> prDone p = true).

Lemma newMux_keeps render h path now :
  hSim (newMux render h path now).2 = hSim h /\ hLabels (newMux render h path now).2 = hLabels h.
Proof. unfold newMux. destruct (str_eqb path "/metrics"); [done|]. by destruct (str_eqb path "/healthz"). Qed.

Lemma running_sound render text f h p : running render (started text f h) p -> sound_process h p.
Proof.
  induction 1 as [|p q _ IH Hs|p q _ IH Hs]; [done| |]; destruct IH as (H1 & H2 & H3).
  - destruct Hs; repeat split; cbn in *; auto.
  - destruct Hs as [| |s path now m d h0]; repeat split; cbn in *; auto;
      destruct (newMux_keeps render h0 path now) as [E1 E2]; congruence.
Qed.

(** How far the process is from its end; its own steps bring it closer. *)
Definition distance (p : Process) : nat :=
  match prServer p with Starting => 2 | Serving => 1 | Failed _ => 1 | Ended => 0 end +
  match prMain p with Waiting => 2 | ShuttingDown => 1 | Returned => 0 end.

Lemma own_step_closer p q : own_step p q -> distance q < distance p.
Proof. destruct 1; unfold distance; cbn; try lia. destruct H; subst; lia. Qed.

Inductive own_steps : nat -> Process -> Process -> Prop :=
  | own_none p : own_steps 0 p p
  | own_more n p q r : own_step p q -> own_steps n q r -> own_steps (S n) p r.

Lemma own_steps_closer n p q : own_steps n p q -> n + distance q <= distance p.
Proof. induction 1 as [|n p q r Hs _ IH]; [lia|]. apply own_step_closer in Hs. lia. Qed.

(** A process that has to end: a signal came or the server failed. *)
Definition called_off (p : Process) : Prop := prDone p = true \/ exists err, prServer p = Failed err.

Lemma called_off_step p q : own_step p q -> called_off p -> called_off q.
Proof. destruct 1; intros [H1|[e H1]]; cbn in H1; unfold called_off; cbn; eauto; try done; destruct H; subst; done. Qed.

Lemma called_off_moves p : called_off p -> prMain p <> Returned -> exists q, own_step p q.
Proof.
  destruct p as [s m d l h log]. unfold called_off. cbn. intros [->|[err ->]] Hm.
  - destruct m; [eexists; apply context_done| |done]. eexists. apply shutdown_returns with (log' := []). by left.
  - eexists. by apply goroutine_stops.
Qed.

Lemma called_off_ends n p q :
  own_steps n p q -> called_off p -> (forall r, ~ own_step q r) -> prMain q = Returned.
Proof.
  induction 1 as [p|n p q r Hs _ IH]; intros Hc Hend; [|by eauto using called_off_step].
  destruct (prMain p) eqn:Hm; [..|done];
    (destruct (called_off_moves p Hc) as [q Hq]; [congruence|by destruct (Hend q)]).
Qed.

(** The exporter starts with what its flags say or not at all, and ends.  Flags
    with an empty phase serve nothing: the process is gone with a line that names
    them.  Otherwise, whatever signals, listener errors and requests come, the
    gauges are those of the flags' phases and labels; [main] goes past the
    context only when a signal came or the server failed; and once that happened,
    the process's own steps cannot stop before [main] has returned, and there are
    at most four of them. *)
Theorem exporter_starts_and_ends render text f now :
  match main_setup text f now with
  | Err line => ((flPassDuration f <= 0)%Z \/ (flGapDuration f <= 0)%Z) /\ exists problems, line = "invalid flag: " +:+ problems
  | Ok h => forall p, running render (started text f h) p ->
      hSim (prHandler p) = mkSimulator now (flPassDuration f) (flGapDuration f) /\
      hLabels (prHandler p) = (flNamespace f, flSlice f) /\
      (prMain p <> Waiting -> prDone p = true) /\
      forall n q, own_steps n p q -> n <= 4 /\ (called_off p -> (forall r, ~ own_step q r) -> prMain q = Returned)
  end.
Proof.
  unfold main_setup. destruct (buildSimulator _ _ _ _) as [sim|e] eqn:Hb.
  - apply buildSimulator_ok in Hb as (_ & _ & ->). intros p Hp.
    apply running_sound in Hp as (H1 & H2 & H3). repeat split; try done.
    + apply own_steps_closer in H. unfold distance in H. destruct (prServer p), (prMain p); lia.
    + intros Hc. by eapply called_off_ends.
  - split; [|by exists e].
    destruct (decide (0 < flPassDuration f)%Z), (decide (0 < flGapDuration f)%Z); try lia.
    exfalso. enough (buildSimulator text (flPassDuration f) (flGapDuration f) now = Ok (mkSimulator now (flPassDuration f) (flGapDuration f)))
      by congruence. by apply buildSimulator_ok.
Qed.
